(* ===== verification/_CoqProject ===== *)
-Q . S2P
Prelude.v
Crypto.v
Aes.v
Effects.v
Schema.v
Encoding.v
Net.v
Path.v
Time.v
Http.v
AuditLog.v
Plans.v
Rbac.v
AccountStore.v
DrillStore.v
Assertions.v
Runner.v
Steps.v
Demo.v
AccountFacts.v
TeamFacts.v
Billing.v
AuthStore.v
RateLimit.v
Web.v
Cipher.v
Signer.v
EvidenceStore.v
Evidence.v
Webhooks.v
Heartbeat.v
ApiKey.v
MobileAuth.v
ShareLink.v
DrillStoreFacts.v
Scheduler.v
Targets.v
TargetFacts.v
Sandbox.v
SandboxFacts.v
Compliance.v
Pdf.v
PdfFacts.v
Share.v
Reports.v
V1.v
Config.v
Tools.v
AuthFacts.v
WebhookFacts.v
Notify.v
Members.v
Login.v
Oauth.v
Fcm.v
Flags.v
Changelog.v
Admin.v
Mobile.v
Router.v
LoginFacts.v
ReportFacts.v
MemberFacts.v
HeartbeatFacts.v
EvidenceFacts.v
ToolsFacts.v
AdminFacts.v
Pipeline.v
PipelineLive.v
Wiring.v
Views.v
RouterFacts.v
ComplianceFacts.v
Tenants.v
V1Facts.v
V1Replay.v
V1Pages.v
EscapeFacts.v
