(* ===== verification/Prelude.v ===== *)
(** * Dokas: a verification development

    Dokas drills database backups.  A customer names a dump; a drill restores
    it in a sandbox, runs assertions on the result and files a signed,
    encrypted report.  Around this pipeline stand accounts with members, teams
    and plans, monitors that expect a check-in of a backup job, webhooks, a
    JSON API, a phone API, a staff panel and operator commands.  The program is
    one Go server over one PostgreSQL database; background work are jobs of
    the River queue, whose rows live in the same database.

    ** How the program is modelled

    Every operation is a program of the monad [GO] (Effects.v): a function
    from a world to an outcome and a world.  The world holds the database of
    Schema.v (one table per [gmap], one record of tables per component), a
    counter of effects, the time of an open transaction and the calls made out
    of the process.  The class [Env] chooses for the n-th effect what the clock
    says, which uuid is drawn, and whether the statement succeeds, fails before
    or after it took hold, or the process dies there.  Theorems that quantify
    over [Env] therefore hold for every schedule of faults; [fault_free] and
    [calm_from] name the environments without.  A panic and a killed process
    are the outcome [Crash]; what was committed stays.  Handlers return the
    kind of answer they give ([response], Http.v: status, page, redirect), not
    the bytes of a page.

    ** Files

    Foundations: Prelude (tables, tactics, generic lemmas), Crypto (hex,
    base64, base32, SHA-1, SHA-256, HMAC), Aes (AES-GCM), Effects, Schema,
    Encoding (strings, tokens, randomness), Net (IP addresses and their
    classes), Path (path/filepath), Time (calendar, RFC 3339), Http.

    Components, each beside the Go files its header names: AuditLog
    (internal/audit), Plans and AccountStore (internal/account), Rbac and
    AuthStore (internal/auth), DrillStore, Steps and Scheduler
    (internal/drill), Assertions, Runner and Sandbox (internal/runner,
    internal/fly), Billing, RateLimit (internal/ratelimit, internal/web/csrf),
    Cipher, Signer, EvidenceStore and Evidence (internal/evidence,
    cmd/dokaz-verify), Webhooks, Heartbeat, ApiKey, MobileAuth, ShareLink,
    Compliance, Pdf (internal/report), Notify (internal/email, push, alerting),
    Fcm, Flags (internal/flags, analytics), Changelog, Config, Tools (the
    operator commands).  The handlers of internal/web/handlers: Web (what they
    share), Targets (databases and drills), Share, Reports, V1 (the JSON API),
    Members, Login, Oauth, Admin, Mobile, Router (the route table and the
    middlewares, with every handler behind its guard), Views (the functions of
    the templates).  Wiring is cmd/server/main.go.

    A definition bears the name of the Go function it translates; a method that
    would clash carries its component's name ([fly_do], [stripe_post]), and a
    name of Rocq's own an underscore ([Set_], [Compute_]).

    Interfaces: a [Record] of operations with its laws where the program has
    one interface with several implementations - [Runner] with [RunnerOk]
    (Runner.v, discharged by both runners in SandboxFacts), [Steps.Deps] with
    [DepsOk] (discharged by the server in Wiring), [Billing.Service] - and a
    class where a client is proved against it: [EvidenceStore] with
    [EvidenceStoreOk] (discharged by the directory store), [UuidLib], [Rand],
    [Ed25519], [Argon2], [JsonLib] and the other libraries, each with the
    documented behaviour the proofs use as a class of its own ([UuidOk],
    [RandOk], ...), for which Demo and the fact files give instances.

    ** Theorems

    The pipeline (Pipeline, PipelineLive): the invariants of the system of
    pending jobs under any faults - a drill that reads succeeded has its
    evidence, a failed one stays failed - and its liveness: without faults six
    jobs end a drill with the verdict of its assertions.  Wiring shows that the
    server's own runner, notifiers, billing client, dispatcher and evidence
    store are such dependencies.  DrillStoreFacts: idempotent creation, the
    state machine of steps.  SandboxFacts: fingerprints of dumps, attempts at
    the Fly API.  Scheduler: the next slot, its least-ness and the end of its
    loop.

    Evidence (EvidenceFacts, AdminFacts, PdfFacts, ToolsFacts, Views): what
    Finalize stored reads back and verifies across rotations and re-wraps; the
    stand-alone verifier agrees with the service; the report prints one
    verdict; the operator's tool loses no key; what the share page says.

    Access (AuthFacts, LoginFacts, RouterFacts, V1Facts, TargetFacts,
    TeamFacts, AccountFacts, MemberFacts, Tenants, EscapeFacts): who gets a
    session and with which factors, what a page request needs, one-time codes
    and links, tenant isolation of the API, team scopes, owners and
    invitations, and the places where data escapes its team or account.

    The rest: V1Replay and V1Pages (idempotency keys, keyset pages),
    HeartbeatFacts (each monitor refines an abstract one), WebhookFacts,
    Billing (the gate of the webhook, order of events), ComplianceFacts
    (erasure, retention, export), ReportFacts, RateLimit (token buckets in
    binary64), Flags (one refresh in flight, the value served), Changelog
    (parser against printer).

    ** Bounds and fuel

    Recursion is structural except for loops over text, whose fuel is the
    length of the text and which take at least one character a turn (the
    chunks of Crypto, base32, the key document of Signer.add_keys with
    add_keys_fuel, the inline markup of Changelog.parse_chars with
    parse_chars_fuel), the scheduler's catch-up loop (one turn per interval
    elapsed, next_boundary_least), and the retries of fly_do, which are the
    code's own bound.
    Machine integers are [Z] with the wrap-around written out where the code
    can overflow; durations are int64 nanoseconds; float64 is
    SpecFloat.

    ** What is assumed, and what is not modelled

    Parameters, with named laws where proofs need them: JSON, uuid text, URLs,
    INET and JSONB casts of PostgreSQL, Ed25519, RSA, PEM and x509, Argon2, the
    fpdf library, zip and multipart bodies, the file system, subprocesses, and
    the servers behind Stripe, Postmark, Fly, S3, Firebase, PostHog, Google and
    GitHub.  SHA, HMAC, AES-GCM, base64 and SigV4 are implemented and tested on
    the published vectors.

    Statements run one at a time and are atomic; read-committed interleavings
    are modelled where the code relies on them (several statements are several
    effects; Pipeline, WebhookFacts, Flags and AccountFacts interleave
    operations).  One file operation is one effect.  Timestamps are not
    rounded to microseconds except for evidence; citext compares bytes under
    ASCII case; LIKE and case mapping work on bytes; months are UTC; averages
    are exact.  An HTTP exchange is one hop without redirects; forms reach a
    handler parsed; a request has one session cookie; error texts that quote
    input are shortened.  The goroutine that sends a magic link runs before the
    answer; that of product events and push messages as part of its caller.
    The limiters' memory and the flags' cache are state of their own.

    Not modelled: the generated markup of internal/web/templates and a few of
    its text helpers; logs, metrics and traces (internal/obs); the bodies of
    headers such as CORS maximum ages and Retry-After beyond its value; the
    RealIP and body-size middlewares; migrations and the connection pool
    (Schema.v holds the tables they create); River's own scheduling beyond
    retries; the load, smoke and link tests of cmd.  They decide nothing the
    program promises. *)
From stdpp Require Export base decidable gmap sets list sorting strings.
From Stdlib Require Export ZArith Lia.
From coqutil Require Export Datatypes.RecordSetters.
Export DoubleBraceUpdate.

#[global] Open Scope string_scope.
#[global] Open Scope list_scope.
#[global] Open Scope Z_scope.

(** ** SQL-style operations on tables

    A table is a [gmap] from primary keys to rows.  [UPDATE ... WHERE],
    [DELETE ... WHERE], [SELECT ... WHERE] and [count( * )] are the four
    operations below. *)

Section tables.
Context {K : Type} `{Countable K} {R : Type}.
Implicit Types (p : R -> bool) (f : R -> R) (t : gmap K R) (k : K).

Definition sql_update p f t : gmap K R := (fun r => if p r then f r else r) <$> t.

Definition sql_delete p t : gmap K R := filter (fun kr => p kr.2 = false) t.

Definition sql_select p t : list R :=
  filter (fun r => p r = true) (snd <$> map_to_list t).

Definition sql_count p t : nat := length (sql_select p t).

Definition sql_exists p t : bool := bool_decide (sql_count p t <> 0%nat).

Lemma lookup_sql_update p f t k :
  sql_update p f t !! k = (fun r => if p r then f r else r) <$> t !! k.
Proof. apply lookup_fmap. Qed.

Lemma lookup_sql_update_Some p f t k r' :
  sql_update p f t !! k = Some r' <->
  exists r, t !! k = Some r /\ r' = (if p r then f r else r).
Proof. rewrite lookup_sql_update, fmap_Some. naive_solver. Qed.

Lemma lookup_sql_delete_Some p t k r :
  sql_delete p t !! k = Some r <-> t !! k = Some r /\ p r = false.
Proof. unfold sql_delete. rewrite map_lookup_filter_Some. done. Qed.

Lemma elem_of_sql_select p t r :
  r ∈ sql_select p t <-> p r = true /\ exists k, t !! k = Some r.
Proof.
  unfold sql_select. rewrite list_elem_of_filter, list_elem_of_fmap.
  split.
  - intros [Hp [[k r'] [-> Hin%elem_of_map_to_list]]]. eauto.
  - intros [Hp [k Hk]]. split; [done|].
    exists (k, r). by rewrite elem_of_map_to_list.
Qed.

Lemma sql_count_zero p t :
  sql_count p t = 0%nat <-> forall k r, t !! k = Some r -> p r = false.
Proof.
  unfold sql_count. rewrite length_zero_iff_nil. split.
  - intros Hnil k r Hk. destruct (p r) eqn:Hp; [|done].
    assert (r ∈ sql_select p t) as Hin by (apply elem_of_sql_select; eauto).
    rewrite Hnil in Hin. by apply not_elem_of_nil in Hin.
  - intros Hall. destruct (sql_select p t) as [|r l] eqn:E; [done|].
    assert (r ∈ sql_select p t) as Hin by (rewrite E; left).
    apply elem_of_sql_select in Hin as [Hp [k Hk]].
    rewrite (Hall _ _ Hk) in Hp. done.
Qed.

Lemma sql_exists_true p t :
  sql_exists p t = true <-> exists k r, t !! k = Some r /\ p r = true.
Proof.
  unfold sql_exists. rewrite bool_decide_eq_true. split.
  - intros Hne. destruct (sql_select p t) as [|r l] eqn:E.
    + unfold sql_count in Hne. by rewrite E in Hne.
    + assert (r ∈ sql_select p t) as Hin by (rewrite E; left).
      apply elem_of_sql_select in Hin as [Hp [k Hk]]. eauto.
  - intros (k & r & Hk & Hp) H0. rewrite sql_count_zero in H0.
    rewrite (H0 _ _ Hk) in Hp. done.
Qed.

(** How one row counts. *)
Definition count1 p (r : R) : nat := if p r then 1 else 0.

Lemma sql_count_delete p t k r :
  t !! k = Some r -> sql_count p t = (count1 p r + sql_count p (delete k t))%nat.
Proof.
  intros Hk. unfold sql_count, sql_select, count1.
  rewrite <- (map_to_list_delete t k r Hk). simpl. rewrite filter_cons.
  case_decide as Hp; [by rewrite Hp|]. by destruct (p r).
Qed.

Lemma sql_select_insert p t k r :
  t !! k = None -> sql_select p (<[ k := r ]> t) ≡ₚ (if p r then [r] else []) ++ sql_select p t.
Proof.
  intros Hk. unfold sql_select. rewrite map_to_list_insert by done. simpl. rewrite filter_cons.
  case_decide as Hp; [by rewrite Hp|]. by destruct (p r).
Qed.

Lemma sql_count_insert p t k r :
  t !! k = None -> sql_count p (<[ k := r ]> t) = (count1 p r + sql_count p t)%nat.
Proof.
  intros Hk. rewrite (sql_count_delete p (<[ k := r ]> t) k r) by apply lookup_insert_eq.
  by rewrite delete_insert_id by done.
Qed.

Lemma sql_count_alter p f t k r :
  t !! k = Some r ->
  (sql_count p (alter f k t) + count1 p r = sql_count p t + count1 p (f r))%nat.
Proof.
  intros Hk. rewrite (sql_count_delete p t k r Hk).
  rewrite (sql_count_delete p (alter f k t) k (f r)) by (by rewrite lookup_alter_eq, Hk).
  rewrite delete_alter_eq. lia.
Qed.

Lemma sql_update_id p f t :
  (forall k r, t !! k = Some r -> p r = true -> f r = r) -> sql_update p f t = t.
Proof.
  intros Hf. apply map_eq. intros k. rewrite lookup_sql_update.
  destruct (t !! k) as [r|] eqn:E; simpl; [|done].
  destruct (p r) eqn:Hp; [|done]. by rewrite (Hf k r).
Qed.

(** QueryRow: the first of the selected rows. *)
Lemma head_select_Some p t r :
  head (sql_select p t) = Some r -> p r = true /\ exists k, t !! k = Some r.
Proof.
  intros Hh. apply elem_of_sql_select. destruct (sql_select p t); simplify_eq/=. left.
Qed.

Lemma head_select_None p t :
  head (sql_select p t) = None <-> forall k r, t !! k = Some r -> p r = false.
Proof. rewrite <- sql_count_zero. unfold sql_count. by destruct (sql_select p t). Qed.

Lemma head_select_unique p t k r :
  t !! k = Some r -> p r = true ->
  (forall k' r', t !! k' = Some r' -> p r' = true -> r' = r) -> head (sql_select p t) = Some r.
Proof.
  intros Hk Hp Hu. destruct (head (sql_select p t)) as [r'|] eqn:E.
  - apply head_select_Some in E as [Hp' [k' Hk']]. f_equal. eauto.
  - rewrite head_select_None in E. rewrite (E _ _ Hk) in Hp. done.
Qed.

(** A fresh row whose predicate no other row satisfies is the one found. *)
Lemma head_select_insert p t k r :
  sql_exists p t = false -> p r = true -> head (sql_select p (<[ k := r ]> t)) = Some r.
Proof.
  intros He Hp. apply (head_select_unique _ _ k); [apply lookup_insert_eq|done|].
  intros k' r'. rewrite lookup_insert. case_decide; [naive_solver|]. intros Hk' Hp'.
  apply not_true_iff_false in He. destruct He. apply sql_exists_true. eauto.
Qed.

Lemma sql_exists_false p t : sql_exists p t = false <-> forall k r, t !! k = Some r -> p r = false.
Proof.
  rewrite <- not_true_iff_false, sql_exists_true. split.
  - intros Hn k r Hk. destruct (p r) eqn:E; [|done]. destruct Hn. eauto.
  - intros Ha (k & r & Hk & Hp). rewrite (Ha _ _ Hk) in Hp. done.
Qed.

End tables.

(** The [ORDER BY] of a query: a stable merge sort on a decidable preorder. *)
Section order_by.
Context {R : Type} (le : R -> R -> bool).
Definition le_rel : relation R := fun x y => le x y = true.
#[global] Instance le_rel_dec x y : Decision (le_rel x y).
Proof. unfold le_rel. apply _. Defined.

Definition order_by (l : list R) : list R := merge_sort le_rel l.

Lemma order_by_Permutation l : order_by l ≡ₚ l.
Proof. apply merge_sort_Permutation. Qed.

Lemma elem_of_order_by l x : x ∈ order_by l <-> x ∈ l.
Proof. by rewrite order_by_Permutation. Qed.
End order_by.

(** ** Generic lemmas *)

Create HintDb dokas.
Create Rewrite HintDb dokas.
#[export] Hint Resolve sql_update_id : dokas.
#[export] Hint Rewrite @lookup_sql_update : dokas.

(** Case analysis on the innermost [match] of the goal or of a hypothesis. *)
Ltac destruct_match_goal :=
  match goal with
  | |- context [match ?x with _ => _ end] => destruct x eqn:?
  end.
Ltac destruct_match_hyp H :=
  match type of H with
  | context [match ?x with _ => _ end] => destruct x eqn:?
  end.
