(* ===== verification/Crypto.v ===== *)
(** The parts of the Go standard library the code computes with: hex and
    base64/base32 text, SHA-1, SHA-256 and HMAC.  Byte strings are [string]s,
    bytes and machine words are [Z] with the wrap-around written out. *)
From S2P Require Import Prelude.
From Stdlib Require Import Ascii.

(** ** Bytes *)

Definition byte_of (c : ascii) : Z := Z.of_N (N_of_ascii c).
Definition of_byte (z : Z) : ascii := ascii_of_N (Z.to_N (z mod 256)).

Fixpoint bytes_of (s : string) : list Z :=
  match s with EmptyString => [] | String c s' => byte_of c :: bytes_of s' end.
Fixpoint of_bytes (l : list Z) : string :=
  match l with [] => EmptyString | z :: l' => String (of_byte z) (of_bytes l') end.

Definition is_byte (z : Z) : Prop := 0 <= z < 256.

Lemma byte_of_range c : is_byte (byte_of c).
Proof. unfold byte_of, is_byte. pose proof (N_ascii_bounded c). lia. Qed.

Lemma of_byte_of c : of_byte (byte_of c) = c.
Proof.
  unfold of_byte. rewrite Z.mod_small by apply byte_of_range.
  unfold byte_of. rewrite N2Z.id. apply ascii_N_embedding.
Qed.

Lemma byte_of_of_byte z : is_byte z -> byte_of (of_byte z) = z.
Proof.
  unfold is_byte, of_byte, byte_of. intros Hz. rewrite Z.mod_small by done.
  rewrite N_ascii_embedding by lia. lia.
Qed.

Lemma of_bytes_of s : of_bytes (bytes_of s) = s.
Proof. induction s as [|c s IH]; simpl; [done|]. by rewrite of_byte_of, IH. Qed.

Lemma bytes_of_of_bytes l : Forall is_byte l -> bytes_of (of_bytes l) = l.
Proof. induction 1 as [|z l Hz _ IH]; simpl; [done|]. by rewrite byte_of_of_byte, IH. Qed.

Lemma bytes_of_range s : Forall is_byte (bytes_of s).
Proof. induction s; simpl; constructor; eauto using byte_of_range. Qed.

Lemma length_bytes_of s : length (bytes_of s) = String.length s.
Proof. induction s; simpl; congruence. Qed.

Lemma length_of_bytes l : String.length (of_bytes l) = length l.
Proof. induction l; simpl; congruence. Qed.

(** [n] big-endian bytes of [z]. *)
Fixpoint be_bytes (n : nat) (z : Z) : list Z :=
  match n with O => [] | S n' => Z.land (Z.shiftr z (8 * Z.of_nat n')) 255 :: be_bytes n' z end.
Definition be_word (l : list Z) : Z := foldl (fun a b => Z.lor (Z.shiftl a 8) b) 0 l.

(** ** encoding/hex *)

Definition hex_digit (z : Z) : ascii :=
  of_byte (if z <? 10 then 48 + z else 87 + z).
Definition hex_value (c : ascii) : option Z :=
  let b := byte_of c in
  if (48 <=? b) && (b <=? 57) then Some (b - 48)
  else if (97 <=? b) && (b <=? 102) then Some (b - 87)
  else if (65 <=? b) && (b <=? 70) then Some (b - 55)
  else None.

Fixpoint hex_EncodeToString (s : string) : string :=
  match s with
  | EmptyString => EmptyString
  | String c s' =>
      String (hex_digit (byte_of c / 16)) (String (hex_digit (byte_of c mod 16)) (hex_EncodeToString s'))
  end.
Fixpoint hex_DecodeString (s : string) : option string :=
  match s with
  | EmptyString => Some EmptyString
  | String _ EmptyString => None
  | String a (String b s') =>
      hi ← hex_value a; lo ← hex_value b; rest ← hex_DecodeString s';
      Some (String (of_byte (16 * hi + lo)) rest)
  end.

Lemma hex_value_digit z : 0 <= z < 16 -> hex_value (hex_digit z) = Some z.
Proof.
  intros Hz.
  assert (forallb (fun n => bool_decide (hex_value (hex_digit (Z.of_nat n)) = Some (Z.of_nat n)))
            (seq 0 16) = true) as H by reflexivity.
  rewrite forallb_forall in H. specialize (H (Z.to_nat z)).
  rewrite Z2Nat.id in H by lia. apply (bool_decide_eq_true _), H.
  rewrite in_seq. lia.
Qed.

Lemma hex_Decode_Encode s : hex_DecodeString (hex_EncodeToString s) = Some s.
Proof.
  induction s as [|c s IH]; [done|]. cbn -[hex_digit hex_value].
  pose proof (byte_of_range c) as Hc. unfold is_byte in Hc.
  rewrite !hex_value_digit by (Z.to_euclidean_division_equations; lia).
  rewrite IH. cbn -[Z.div Z.modulo Z.mul]. rewrite <- Z.div_mod by lia. by rewrite of_byte_of.
Qed.

(** ** 32-bit words *)

Definition w32 (z : Z) : Z := Z.land z 0xffffffff.
Definition rotr (n x : Z) : Z := Z.lor (Z.shiftr x n) (w32 (Z.shiftl x (32 - n))).
Definition rotl (n x : Z) : Z := rotr (32 - n) x.

Fixpoint chunks (fuel n : nat) {A} (l : list A) : list (list A) :=
  match fuel, l with
  | O, _ | _, [] => []
  | S fuel', _ => take n l :: chunks fuel' n (drop n l)
  end.

(** Merkle-Damgard padding with a 64-bit big-endian bit count. *)
Definition md_pad (l : list Z) : list Z :=
  let n := Z.of_nat (length l) in
  l ++ [128] ++ replicate (Z.to_nat ((55 - n) mod 64)) 0 ++ be_bytes 8 (8 * n).
Definition md_blocks (s : string) : list (list Z) :=
  let p := md_pad (bytes_of s) in
  (fun b => be_word <$> chunks 16 4 b) <$> chunks (length p) 64 p.

(** ** crypto/sha256 *)
Module SHA256.
(** The constants are the first 32 fractional bits of the cube roots of the
    first 64 primes, and of the square roots of the first 8. *)
Definition is_prime (p : Z) : bool :=
  (1 <? p) && forallb (fun d => negb (p mod Z.of_nat d =? 0)) (seq 2 (Z.to_nat (Z.sqrt p) - 1)).
Definition primes (n : nat) : list Z :=
  take n (filter (fun p => is_prime p = true) (Z.of_nat <$> seq 2 400)).
Definition cbrt (z : Z) : Z :=
  foldl (fun r b => let r' := r + 2 ^ Z.of_nat b in if r' ^ 3 <=? z then r' else r) 0 (rev (seq 0 40)).
Definition k : list Z :=
  Eval vm_compute in (fun p => w32 (cbrt (p * 2 ^ 96))) <$> primes 64.
Definition iv : list Z :=
  Eval vm_compute in (fun p => w32 (Z.sqrt (p * 2 ^ 64))) <$> primes 8.

(** The schedule is kept latest word first. *)
Definition schedule_step (w : list Z) : list Z :=
  let g i := nth i w 0 in
  let s0 := Z.lxor (Z.lxor (rotr 7 (g 14%nat)) (rotr 18 (g 14%nat))) (Z.shiftr (g 14%nat) 3) in
  let s1 := Z.lxor (Z.lxor (rotr 17 (g 1%nat)) (rotr 19 (g 1%nat))) (Z.shiftr (g 1%nat) 10) in
  w32 (g 15%nat + s0 + g 6%nat + s1) :: w.
Definition schedule (b : list Z) : list Z := rev (Nat.iter 48 schedule_step (rev b)).

Definition round (st : list Z) (kw : Z * Z) : list Z :=
  match st with
  | [a; b; c; d; e; f; g; h] =>
      let s1 := Z.lxor (Z.lxor (rotr 6 e) (rotr 11 e)) (rotr 25 e) in
      let ch := Z.lxor (Z.land e f) (Z.land (Z.lxor e 0xffffffff) g) in
      let t1 := h + s1 + ch + kw.1 + kw.2 in
      let s0 := Z.lxor (Z.lxor (rotr 2 a) (rotr 13 a)) (rotr 22 a) in
      let maj := Z.lxor (Z.lxor (Z.land a b) (Z.land a c)) (Z.land b c) in
      [w32 (t1 + s0 + maj); a; b; c; w32 (d + t1); e; f; g]
  | _ => st
  end.
Definition compress (st b : list Z) : list Z :=
  zip_with (fun x y => w32 (x + y)) st (foldl round st (zip k (schedule b))).

Definition Sum256 (s : string) : string :=
  of_bytes (foldl compress iv (md_blocks s) ≫= be_bytes 4).
End SHA256.
Abbreviation sha256 := SHA256.Sum256.

(** ** crypto/sha1 *)
Module SHA1.
Definition iv : list Z := [0x67452301; 0xefcdab89; 0x98badcfe; 0x10325476; 0xc3d2e1f0].
Definition schedule_step (w : list Z) : list Z :=
  let g i := nth i w 0 in
  rotl 1 (Z.lxor (Z.lxor (g 2%nat) (g 7%nat)) (Z.lxor (g 13%nat) (g 15%nat))) :: w.
Definition schedule (b : list Z) : list Z := rev (Nat.iter 64 schedule_step (rev b)).
Definition round (st : list Z) (iw : nat * Z) : list Z :=
  match st with
  | [a; b; c; d; e] =>
      let '(f, k) :=
        if (iw.1 <? 20)%nat then (Z.lor (Z.land b c) (Z.land (Z.lxor b 0xffffffff) d), 0x5a827999)
        else if (iw.1 <? 40)%nat then (Z.lxor (Z.lxor b c) d, 0x6ed9eba1)
        else if (iw.1 <? 60)%nat then (Z.lor (Z.lor (Z.land b c) (Z.land b d)) (Z.land c d), 0x8f1bbcdc)
        else (Z.lxor (Z.lxor b c) d, 0xca62c1d6) in
      [w32 (rotl 5 a + f + e + k + iw.2); a; rotl 30 b; c; d]
  | _ => st
  end.
Definition compress (st b : list Z) : list Z :=
  zip_with (fun x y => w32 (x + y)) st (foldl round st (zip (seq 0 80) (schedule b))).
Definition Sum (s : string) : string :=
  of_bytes (foldl compress iv (md_blocks s) ≫= be_bytes 4).
End SHA1.
Abbreviation sha1 := SHA1.Sum.

(** ** crypto/hmac, block size 64 *)
Definition hmac (h : string -> string) (key msg : string) : string :=
  let key := if (64 <? String.length key)%nat then h key else key in
  let kb := bytes_of key ++ replicate (64 - String.length key) 0 in
  let ipad := of_bytes (Z.lxor 0x36 <$> kb) in
  let opad := of_bytes (Z.lxor 0x5c <$> kb) in
  h (opad +:+ h (ipad +:+ msg)).

(** Known-answer tests of the three primitives. *)
Example sha256_abc :
  hex_EncodeToString (sha256 "abc") = "ba7816bf8f01cfea414140de5dae2223b00361a396177a9cb410ff61f20015ad".
Proof. vm_compute. reflexivity. Qed.
Example sha1_abc : hex_EncodeToString (sha1 "abc") = "a9993e364706816aba3e25717850c26c9cd0d89d".
Proof. vm_compute. reflexivity. Qed.
Example hmac_sha256_fox :
  hex_EncodeToString (hmac sha256 "key" "The quick brown fox jumps over the lazy dog")
  = "f7bc83f430538424b13298e6aa6fb143ef4d59a14946175997479dbc2d1a3cd8".
Proof. vm_compute. reflexivity. Qed.
