(* ===== verification/Aes.v ===== *)
(** crypto/aes and crypto/cipher as internal/evidence uses them: AES in
    Galois/counter mode with 12-byte nonces and 16-byte tags. *)
From S2P Require Import Prelude Crypto.
From Stdlib Require Import Ascii.

(** ** AES *)
Module AES.
(** GF(2^8) modulo x^8 + x^4 + x^3 + x + 1 *)
Definition xtime (a : Z) : Z := let b := 2 * a in if 256 <=? b then Z.lxor b 0x11b else b.
Fixpoint gmul (n : nat) (a b : Z) : Z :=
  match n with
  | O => 0
  | S n' => Z.lxor (if Z.odd b then a else 0) (gmul n' (xtime a) (Z.shiftr b 1))
  end.
Definition mul (a b : Z) : Z := gmul 8 a b.
Definition inverse (a : Z) : Z := Nat.iter 253 (mul a) a.
Definition affine (b : Z) : Z :=
  let rot n := Z.land (Z.lor (Z.shiftl b n) (Z.shiftr b (8 - n))) 255 in
  Z.lxor (Z.lxor (Z.lxor b (rot 1)) (Z.lxor (rot 2) (rot 3))) (Z.lxor (rot 4) 0x63).
Definition sbox : list Z := Eval vm_compute in (fun n => affine (inverse (Z.of_nat n))) <$> seq 0 256.
Definition sub (b : Z) : Z := nth (Z.to_nat b) sbox 0.

Definition xor_list : list Z -> list Z -> list Z := zip_with Z.lxor.

(** The words of the schedule, latest first, for a key of [nk] words. *)
Definition expand_step (nk : nat) (w : list (list Z)) : list (list Z) :=
  let i := length w in
  let temp := nth 0 w [] in
  let temp :=
    if (i mod nk =? 0)%nat then
      xor_list (sub <$> (drop 1 temp ++ take 1 temp)) [Nat.iter (i / nk - 1) xtime 1; 0; 0; 0]
    else if ((6 <? nk)%nat && (i mod nk =? 4)%nat) then sub <$> temp else temp in
  xor_list (nth (nk - 1) w []) temp :: w.
Definition expand (key : string) : list (list Z) :=
  let nk := (String.length key / 4)%nat in
  let w := rev (Nat.iter (3 * nk + 28) (expand_step nk) (rev (chunks nk 4 (bytes_of key)))) in
  (fun k => concat k) <$> chunks (nk + 7) 4 w.

(** The state is the 16 bytes in column order. *)
Definition shift_rows (s : list Z) : list Z :=
  (fun i => nth ((i + 4 * (i mod 4)) mod 16) s 0) <$> seq 0 16.
Definition mix_column (c : list Z) : list Z :=
  match c with
  | [a; b; c; d] =>
      let x := Z.lxor in
      [x (x (mul 2 a) (mul 3 b)) (x c d); x (x a (mul 2 b)) (x (mul 3 c) d);
       x (x a b) (x (mul 2 c) (mul 3 d)); x (x (mul 3 a) b) (x c (mul 2 d))]
  | _ => c
  end.
Definition mix_columns (s : list Z) : list Z := chunks 4 4 s ≫= mix_column.

Fixpoint rounds (ks : list (list Z)) (s : list Z) : list Z :=
  match ks with
  | [] => s
  | [k] => xor_list (shift_rows (sub <$> s)) k
  | k :: ks' => rounds ks' (xor_list (mix_columns (shift_rows (sub <$> s))) k)
  end.
Definition encrypt (ks : list (list Z)) (block : list Z) : string :=
  match ks with [] => "" | k :: ks' => of_bytes (rounds ks' (xor_list block k)) end.
End AES.

(** FIPS 197, appendices C.1 and C.3. *)
Example aes128_fips197 :
  hex_EncodeToString (AES.encrypt (AES.expand (of_bytes (Z.of_nat <$> seq 0 16))) ((fun n => 17 * Z.of_nat n) <$> seq 0 16))
  = "69c4e0d86a7b0430d8cdb78070b4c55a".
Proof. vm_compute. reflexivity. Qed.
Example aes256_fips197 :
  hex_EncodeToString (AES.encrypt (AES.expand (of_bytes (Z.of_nat <$> seq 0 32))) ((fun n => 17 * Z.of_nat n) <$> seq 0 16))
  = "8ea2b7ca516745bfeafc49904b496089".
Proof. vm_compute. reflexivity. Qed.

(** ** GCM (cipher.NewGCM) *)
Module GCM.
Definition NonceSize : nat := 12.
Definition tagSize : nat := 16.

(** GF(2^128) with the bits reflected: the first bit of a block is x^0. *)
Fixpoint gf_mul (n : nat) (x v z : Z) : Z :=
  match n with
  | O => z
  | S n' =>
      gf_mul n' x (if Z.odd v then Z.lxor (Z.shiftr v 1) (Z.shiftl 0xe1 120) else Z.shiftr v 1)
        (if Z.testbit x (Z.of_nat n') then Z.lxor z v else z)
  end.
Definition pad16 (l : list Z) : list Z := l ++ replicate (Z.to_nat (- Z.of_nat (length l) mod 16)) 0.
Definition ghash (h : Z) (aad ct : list Z) : Z :=
  let l := pad16 aad ++ pad16 ct
           ++ be_bytes 8 (8 * Z.of_nat (length aad)) ++ be_bytes 8 (8 * Z.of_nat (length ct)) in
  foldl (fun y b => gf_mul 128 (Z.lxor y (be_word b)) h 0) 0 (chunks (length l) 16 l).

Section gcm.
Context (key : string).
Definition ks : list (list Z) := AES.expand key.
Definition counter (nonce : string) (n : Z) : list Z := bytes_of nonce ++ be_bytes 4 n.

(** The keystream starts at counter 2; counter 1 masks the tag. *)
Definition keystream (nonce : string) (blocks : nat) : list Z :=
  seq 0 blocks ≫= fun i => bytes_of (AES.encrypt ks (counter nonce ((Z.of_nat i + 2) mod 2 ^ 32))).
Definition ctr (nonce text : string) : string :=
  let l := bytes_of text in
  of_bytes ((fun p => Z.lxor p.1 (nth p.2 (keystream nonce (length l / 16 + 1)) 0)) <$> imap (fun i x => (x, i)) l).
Definition tag (nonce ct aad : string) : string :=
  let h := be_word (bytes_of (AES.encrypt ks (replicate 16 0))) in
  let mask := be_word (bytes_of (AES.encrypt ks (counter nonce 1))) in
  of_bytes (be_bytes 16 (Z.lxor mask (ghash h (bytes_of aad) (bytes_of ct)))).

(** AEAD.Seal without its destination prefix, and AEAD.Open. *)
Definition Seal (nonce plaintext aad : string) : string :=
  let ct := ctr nonce plaintext in ct +:+ tag nonce ct aad.
Definition Open (nonce ciphertext aad : string) : option string :=
  let n := (String.length ciphertext - tagSize)%nat in
  if (String.length ciphertext <? tagSize)%nat then None else
  let ct := String.substring 0 n ciphertext in
  if bool_decide (String.substring n tagSize ciphertext = tag nonce ct aad) then Some (ctr nonce ct) else None.
End gcm.
End GCM.

(** Test case 16 of the GCM specification. *)
Example gcm_spec16 :
  let un s := default "" (hex_DecodeString s) in
  hex_EncodeToString (GCM.Seal (un "feffe9928665731c6d6a8f9467308308feffe9928665731c6d6a8f9467308308")
    (un "cafebabefacedbaddecaf888")
    (un "d9313225f88406e5a55909c5aff5269a86a7a9531534f7da2e4c303d8a318a721c3c0c95956809532fcf0e2449a6b525b16aedf5aa0de657ba637b39")
    (un "feedfacedeadbeeffeedfacedeadbeefabaddad2"))
  = "522dc1f099567d07f47f37a32a84427d643a8cdcbfe5c0c97598a2bd2555d1aa8cb08e48590dbb3da7b08b1056828838c5f61e6393ba7a0abcc9f66276fc6ece0f4e1768cddf8853bb2d551b".
Proof. vm_compute. reflexivity. Qed.

(** ** Opening a sealed text gives it back *)

Lemma is_byte_lxor a b : is_byte a -> is_byte b -> is_byte (Z.lxor a b).
Proof.
  unfold is_byte. intros Ha Hb. split; [apply Z.lxor_nonneg; lia|].
  destruct (Z.eq_dec (Z.lxor a b) 0) as [->|Hne]; [lia|].
  assert (0 <= Z.lxor a b) by (apply Z.lxor_nonneg; lia).
  change 256 with (2 ^ 8). apply Z.log2_lt_pow2; [lia|].
  eapply Z.le_lt_trans; [apply Z.log2_lxor; lia|].
  assert (forall z, 0 <= z < 256 -> Z.log2 z < 8) as Hl.
  { intros z Hz. destruct (Z.eq_dec z 0) as [->|]; [done|]. apply Z.log2_lt_pow2; simpl; lia. }
  apply Z.max_lub_lt; by apply Hl.
Qed.

Lemma bytes_of_nth s n : is_byte (nth n (bytes_of s) 0).
Proof.
  destruct (nth_in_or_default n (bytes_of s) 0) as [Hin| ->]; [|by unfold is_byte].
  pose proof (bytes_of_range s) as Hr. rewrite List.Forall_forall in Hr. by apply Hr.
Qed.

Lemma substring_all s : String.substring 0 (String.length s) s = s.
Proof. induction s as [|c s IH]; simpl; [done|]. by rewrite IH. Qed.

Lemma substring_app_l s t : String.substring 0 (String.length s) (s +:+ t) = s.
Proof. induction s as [|c s IH]; simpl; [by destruct t|]. by rewrite IH. Qed.
Lemma substring_app_r s t : String.substring (String.length s) (String.length t) (s +:+ t) = t.
Proof. induction s as [|c s IH]; simpl; [apply substring_all|done]. Qed.

Section gcm_laws.
Context (key : string).

Lemma keystream_bytes nonce n i : is_byte (nth i (GCM.keystream key nonce n) 0).
Proof.
  destruct (nth_in_or_default i (GCM.keystream key nonce n) 0) as [Hin| ->]; [|by unfold is_byte].
  rewrite <- list_elem_of_In in Hin. unfold GCM.keystream in Hin.
  apply list_elem_of_bind in Hin as (j & Hj & _).
  pose proof (bytes_of_range (AES.encrypt (GCM.ks key) (GCM.counter nonce ((Z.of_nat j + 2) mod 2 ^ 32)))) as Hr.
  rewrite Forall_forall in Hr. by apply Hr.
Qed.

Lemma length_ctr nonce text : String.length (GCM.ctr key nonce text) = String.length text.
Proof. unfold GCM.ctr. by rewrite length_of_bytes, length_fmap, length_imap, length_bytes_of. Qed.

Lemma ctr_involutive nonce text : GCM.ctr key nonce (GCM.ctr key nonce text) = text.
Proof.
  rewrite <- (of_bytes_of text) at 2. unfold GCM.ctr at 1. f_equal.
  assert (forall l ks, Forall is_byte l -> (forall i, is_byte (nth i ks 0)) ->
    (fun p => Z.lxor p.1 (nth p.2 ks 0)) <$>
      imap (fun i x => (x, i)) ((fun p => Z.lxor p.1 (nth p.2 ks 0)) <$> imap (fun i x => (x, i)) l) = l) as Hinv.
  { intros l ks _ _. apply list_eq. intros i. rewrite !list_lookup_fmap, !list_lookup_imap, !list_lookup_fmap, list_lookup_imap.
    destruct (l !! i) as [x|]; simpl; [|done]. by rewrite Z.lxor_assoc, Z.lxor_nilpotent, Z.lxor_0_r. }
  unfold GCM.ctr. rewrite bytes_of_of_bytes.
  - rewrite length_fmap, length_imap. apply Hinv; [apply bytes_of_range|intros; apply keystream_bytes].
  - apply Forall_fmap, Forall_lookup. intros i p Hp. rewrite list_lookup_imap in Hp.
    destruct (bytes_of text !! i) as [x|] eqn:E; simplify_eq/=. apply is_byte_lxor; [|apply keystream_bytes].
    eapply Forall_lookup; [apply bytes_of_range|done].
Qed.

Lemma length_tag nonce ct aad : String.length (GCM.tag key nonce ct aad) = GCM.tagSize.
Proof. unfold GCM.tag. by rewrite length_of_bytes. Qed.

Lemma length_append a b : String.length (a +:+ b) = (String.length a + String.length b)%nat.
Proof. induction a as [|c a IH]; simpl; [done|]. by rewrite IH. Qed.

Lemma Open_Seal nonce text aad : GCM.Open key nonce (GCM.Seal key nonce text aad) aad = Some text.
Proof.
  unfold GCM.Open, GCM.Seal.
  set (c := GCM.ctr key nonce text). set (t := GCM.tag key nonce c aad).
  assert (String.length t = GCM.tagSize) as Ht by apply length_tag.
  rewrite length_append, Ht, Nat.add_sub. rewrite (proj2 (Nat.ltb_ge _ _)) by lia.
  rewrite substring_app_l, <- Ht, substring_app_r, bool_decide_eq_true_2 by done.
  unfold c. by rewrite ctr_involutive.
Qed.

(** Only a text with the right tag opens. *)
Lemma Open_inv nonce blob aad text :
  GCM.Open key nonce blob aad = Some text -> exists ct, blob = ct +:+ GCM.tag key nonce ct aad /\ text = GCM.ctr key nonce ct.
Proof.
  unfold GCM.Open. destruct (Nat.ltb_spec (String.length blob) GCM.tagSize) as [|Hl]; [done|].
  case_bool_decide as Htag; [|done]. intros [= <-]. exists (String.substring 0 (String.length blob - GCM.tagSize) blob).
  split; [|done]. rewrite <- Htag. clear Htag. revert Hl. generalize GCM.tagSize as k. clear. intros k Hl.
  remember (String.length blob - k)%nat as n eqn:Hn. assert (String.length blob = n + k)%nat as Hb by lia. clear Hl Hn.
  revert n k Hb. induction blob as [|c blob IH]; intros [|n] [|k] Hb; simpl in *; try done; try lia.
  - f_equal. injection Hb as <-. by rewrite substring_all.
  - change (String c blob = String c (String.substring 0 n blob +:+ String.substring n 0 blob)). f_equal. apply IH. lia.
  - change (String c blob = String c (String.substring 0 n blob +:+ String.substring n (S k) blob)). f_equal. apply IH. lia.
Qed.
End gcm_laws.
