(* ===== verification/Effects.v ===== *)
(** The effects of the Go code: errors, fallible statements against one
    shared database, transactions, calls out of the process, the clock. *)
From S2P Require Import Prelude.

(** ** Errors

    A Go [error] as far as the code looks at it: [errors.Is] compares
    sentinels through [%w] wrapping, and some callers keep [err.Error()]. *)
Inductive error : Type :=
| ErrNew (msg : string)              (* errors.New / fmt.Errorf; a sentinel is its message *)
| ErrNoRows                          (* pgx.ErrNoRows *)
| ErrUnique                          (* SQLSTATE 23505, unique_violation *)
| ErrConstraint (name : string)      (* another violated constraint *)
| ErrConn                            (* the connection failed *)
| ErrWrap (prefix : string) (e : error).   (* fmt.Errorf("prefix: %w", e) *)

#[global] Instance error_eq_dec : EqDecision error.
Proof. solve_decision. Defined.

Fixpoint Error (e : error) : string :=
  match e with
  | ErrNew m => m
  | ErrNoRows => "no rows in result set"
  | ErrUnique => "duplicate key value violates unique constraint (SQLSTATE 23505)"
  | ErrConstraint n => "violates constraint " +:+ n
  | ErrConn => "connection error"
  | ErrWrap p e => p +:+ ": " +:+ Error e
  end.

Fixpoint errors_Is (e target : error) : bool :=
  bool_decide (e = target) ||
  match e with ErrWrap _ e' => errors_Is e' target | _ => false end.

(** ** Outcomes and worlds *)

Inductive outcome (A : Type) : Type :=
| Ret (a : A)          (* err == nil *)
| Fail (e : error)     (* the function returned this error *)
| Crash.               (* the process died inside the call *)
Arguments Ret {A} a.
Arguments Fail {A} e.
Arguments Crash {A}.

(** What the environment does to one database statement or external call. *)
Inductive fault : Type :=
| FOk
| FErr (applied : bool)     (* the client sees an error; the server may have applied it *)
| FCrash (applied : bool).  (* the process dies before or after the server applied it *)

(** A call that leaves the process: mail, Stripe, the sandbox runner, ... *)
Record extcall : Type := ExtCall { ec_service : string; ec_args : list string }.

#[global] Instance extcall_eq_dec : EqDecision extcall.
Proof. solve_decision. Defined.

Class Env : Type := {
  env_fault : nat -> fault;     (* fault injected at the n-th effect *)
  env_now   : nat -> Z;         (* the clock, ns since the epoch, at the n-th effect *)
  env_uuid  : nat -> N;         (* the fresh uuid the n-th effect would draw *)
  env_inet  : string -> option string;  (* PostgreSQL's text -> INET cast, as host() prints it *)
  env_jsonb : string -> option string   (* PostgreSQL's text -> JSONB cast, as it prints it *)
}.

(** github.com/google/uuid: the text form of an identifier and its parser. *)
Class UuidLib : Type := {
  uuid_String : N -> string;
  uuid_Parse  : string -> error + N
}.
Class UuidOk `{UuidLib} : Prop := {
  uuid_Parse_String : forall u, uuid_Parse (uuid_String u) = inr u
}.

(** Its text form has no slash: it can name a file. *)
Class UuidName `{UuidLib} : Prop := {
  uuid_String_name : forall u, ~ In (Ascii.ascii_of_nat 47) (String.list_ascii_of_string (uuid_String u))
}.

Record World (S : Type) : Type := mkWorld {
  w_db    : S;                  (* the committed (or in-transaction) database *)
  w_tick  : nat;                (* effects performed so far *)
  w_tx    : option Z;           (* now() of the open transaction *)
  w_trace : list extcall        (* external calls made, latest first *)
}.
Arguments mkWorld {S} _ _ _ _.
Arguments w_db {S} _.
Arguments w_tick {S} _.
Arguments w_tx {S} _.
Arguments w_trace {S} _.

Definition M (S A : Type) : Type := World S -> outcome A * World S.

(** A SQL statement: given now() and a fresh uuid, it fails and leaves the
    database alone or yields the new database and its result. *)
Definition stmt (S A : Type) : Type := Z -> N -> S -> error + (S * A).

(** How a transaction body ends: tx.Commit, or a return that leaves the
    deferred tx.Rollback to undo the work. *)
Inductive txend (A : Type) : Type := Commit (a : A) | Rollback (a : A).
Arguments Commit {A} a.
Arguments Rollback {A} a.

(** [P] survives every [R]-step. *)
Class Stable {S} (P : S -> Prop) (R : S -> S -> Prop) : Prop :=
  stable : forall s s', P s -> R s s' -> P s'.

#[global] Instance stable_and {S} (P Q : S -> Prop) R :
  Stable P R -> Stable Q R -> Stable (fun s => P s /\ Q s) R.
Proof. intros HP HQ s s' [] HR. split; by eapply stable. Qed.
#[global] Instance stable_True {S} (R : S -> S -> Prop) : Stable (fun _ => True) R.
Proof. done. Qed.

Section effects.
Context `{env : Env} {S : Type}.

Definition tick (w : World S) : World S :=
  mkWorld (w_db w) (Datatypes.S (w_tick w)) (w_tx w) (w_trace w).
Definition with_db (db : S) (w : World S) : World S :=
  mkWorld db (w_tick w) (w_tx w) (w_trace w).
Definition with_tx (t : option Z) (w : World S) : World S :=
  mkWorld (w_db w) (w_tick w) t (w_trace w).
Definition with_call (c : extcall) (w : World S) : World S :=
  mkWorld (w_db w) (w_tick w) (w_tx w) (c :: w_trace w).

#[global] Instance M_ret : MRet (M S) := fun A a w => (Ret a, w).
#[global] Instance M_bind : MBind (M S) := fun A B k m w =>
  match m w with
  | (Ret a, w') => k a w'
  | (Fail e, w') => (Fail e, w')
  | (Crash, w') => (Crash, w')
  end.

Definition fail {A} (e : error) : M S A := fun w => (Fail e, w).

(** [r, err := m(...)]: the caller looks at the error itself. *)
Definition try {A} (m : M S A) : M S (error + A) := fun w =>
  match m w with
  | (Ret a, w') => (Ret (inr a), w')
  | (Fail e, w') => (Ret (inl e), w')
  | (Crash, w') => (Crash, w')
  end.

(** [_ = m(...)]: the error is swallowed. *)
Definition ignore {A} (m : M S A) : M S unit := try m ≫= fun _ => mret tt.

Definition lift {A} (r : error + A) : M S A :=
  match r with inl e => fail e | inr a => mret a end.

Definition sql_now (w : World S) : Z := default (env_now (w_tick w)) (w_tx w).

(** One statement on the pool or in the open transaction. *)
Definition exec {A} (f : stmt S A) : M S A := fun w =>
  let w1 := tick w in
  match env_fault (w_tick w), f (sql_now w) (env_uuid (w_tick w)) (w_db w) with
  | FOk, inl e => (Fail e, w1)
  | FOk, inr (db', a) => (Ret a, with_db db' w1)
  | FErr true, inr (db', _) => (Fail ErrConn, with_db db' w1)
  | FErr _, _ => (Fail ErrConn, w1)
  | FCrash true, inr (db', _) => (Crash, with_db db' w1)
  | FCrash _, _ => (Crash, w1)
  end.

(** SELECT of many rows, SELECT of one row ([pgx.ErrNoRows] when there is
    none), UPDATE/DELETE without and with the affected-row count. *)
Definition query {A} (q : Z -> S -> A) : M S A := exec (fun now _ s => inr (s, q now s)).
Definition query_row {A} (q : Z -> S -> option A) : M S A :=
  exec (fun now _ s => match q now s with Some a => inr (s, a) | None => inl ErrNoRows end).
Definition update (f : Z -> S -> S) : M S unit := exec (fun now _ s => inr (f now s, tt)).
Definition update_n (f : Z -> S -> S * nat) : M S nat := exec (fun now _ s => inr (f now s)).

(** [if errors.Is(err, pgx.ErrNoRows) { return zero, sentinel }; return v, err] *)
Definition no_rows_as {A} (sentinel : error) (m : M S A) : M S A :=
  r ← try m;
  match r with
  | inr a => mret a
  | inl e => fail (if errors_Is e ErrNoRows then sentinel else e)
  end.

(** [if err != nil { return fmt.Errorf("prefix: %w", err) }] *)
Definition wrap_err {A} (prefix : string) (m : M S A) : M S A :=
  r ← try m; match r with inr a => mret a | inl e => fail (ErrWrap prefix e) end.

(** pool.Begin ... tx.Commit with the deferred tx.Rollback. *)
Definition tx {A} (body : M S (txend A)) : M S A := fun w =>
  match env_fault (w_tick w) with
  | FErr _ => (Fail ErrConn, tick w)
  | FCrash _ => (Crash, tick w)
  | FOk =>
      let '(o, w2) := body (with_tx (Some (env_now (w_tick w))) (tick w)) in
      let back := with_tx None (with_db (w_db w) w2) in
      let keep := with_tx None w2 in
      match o with
      | Fail e => (Fail e, back)
      | Crash => (Crash, back)
      | Ret (Rollback a) => (Ret a, back)
      | Ret (Commit a) =>
          match env_fault (w_tick w2) with
          | FOk => (Ret a, tick keep)
          | FErr applied => (Fail ErrConn, tick (if applied then keep else back))
          | FCrash applied => (Crash, tick (if applied then keep else back))
          end
      end
  end.

(** time.Now(). *)
Definition time_Now : M S Z := fun w => (Ret (env_now (w_tick w)), tick w).

(** uuid.New(). *)
Definition uuid_New : M S N := fun w => (Ret (env_uuid (w_tick w)), tick w).

(** A call out of the process; [resp] answers it at the current effect. *)
Definition ext {A} (c : extcall) (resp : nat -> error + A) : M S A := fun w =>
  match env_fault (w_tick w) with
  | FCrash false => (Crash, tick w)
  | FCrash true => (Crash, tick (with_call c w))
  | _ => lift (resp (w_tick w)) (tick (with_call c w))
  end.

(** [for _, x := range l]: the body's error ends the loop. *)
Fixpoint for_each {A} (l : list A) (body : A -> M S unit) : M S unit :=
  match l with
  | [] => mret tt
  | x :: l' => body x ≫= fun _ => for_each l' body
  end.

(** ** Reasoning: weakest preconditions over every fault schedule *)

Definition wp {A} (m : M S A) (Q : outcome A -> World S -> Prop) (w : World S) : Prop :=
  Q (m w).1 (m w).2.

(** [preserves I m]: whatever fails, the database satisfies [I] afterwards. *)
Definition preserves {A} (I : S -> Prop) (m : M S A) : Prop :=
  forall w, I (w_db w) -> I (w_db (m w).2).

Lemma wp_mono {A} (m : M S A) (Q Q' : outcome A -> World S -> Prop) w :
  wp m Q w -> (forall o w', Q o w' -> Q' o w') -> wp m Q' w.
Proof. unfold wp. eauto. Qed.

Lemma wp_ret {A} (a : A) Q w : Q (Ret a) w -> wp (mret a) Q w.
Proof. done. Qed.

Lemma wp_fail {A} (e : error) (Q : outcome A -> World S -> Prop) w :
  Q (Fail e) w -> wp (fail e) Q w.
Proof. done. Qed.

Lemma wp_bind {A B} (m : M S A) (k : A -> M S B) Q w :
  wp m (fun o w' => match o with
                    | Ret a => wp (k a) Q w'
                    | Fail e => Q (Fail e) w'
                    | Crash => Q Crash w'
                    end) w ->
  wp (m ≫= k) Q w.
Proof. unfold wp, mbind, M_bind. by destruct (m w) as [[a|e|] w']. Qed.

Lemma wp_try {A} (m : M S A) Q w :
  wp m (fun o w' => match o with
                    | Ret a => Q (Ret (inr a)) w'
                    | Fail e => Q (Ret (inl e)) w'
                    | Crash => Q Crash w'
                    end) w ->
  wp (try m) Q w.
Proof. unfold wp, try. by destruct (m w) as [[a|e|] w']. Qed.

Lemma wp_ignore {A} (m : M S A) Q w :
  wp m (fun o w' => match o with Crash => Q Crash w' | _ => Q (Ret tt) w' end) w ->
  wp (ignore m) Q w.
Proof. unfold wp, ignore, try, mbind, M_bind. by destruct (m w) as [[a|e|] w']. Qed.

Lemma wp_lift {A} (r : error + A) Q w :
  (forall e, r = inl e -> Q (Fail e) w) -> (forall a, r = inr a -> Q (Ret a) w) ->
  wp (lift r) Q w.
Proof. destruct r; unfold wp; simpl; eauto. Qed.

(** The four ways one statement can end. *)
Definition exec_result {A} (f : stmt S A) (w : World S) (o : outcome A) (w' : World S) : Prop :=
  w_trace w' = w_trace w /\ w_tx w' = w_tx w /\ w_tick w' = Datatypes.S (w_tick w) /\
  match o with
  | Ret a => f (sql_now w) (env_uuid (w_tick w)) (w_db w) = inr (w_db w', a)
  | Fail e => (w_db w' = w_db w /\
               (e = ErrConn \/ f (sql_now w) (env_uuid (w_tick w)) (w_db w) = inl e)) \/
              (e = ErrConn /\ exists a, f (sql_now w) (env_uuid (w_tick w)) (w_db w) = inr (w_db w', a))
  | Crash => w_db w' = w_db w \/
              exists a, f (sql_now w) (env_uuid (w_tick w)) (w_db w) = inr (w_db w', a)
  end.

Lemma exec_spec {A} (f : stmt S A) w : exec_result f w (exec f w).1 (exec f w).2.
Proof.
  unfold exec, exec_result.
  destruct (env_fault _) as [|[]|[]], (f _ _ _) as [e|[db a]] eqn:E; simpl; eauto 10.
Qed.

Lemma wp_exec {A} (f : stmt S A) Q w :
  (forall o w', exec_result f w o w' -> Q o w') -> wp (exec f) Q w.
Proof. intros HQ. apply HQ, exec_spec. Qed.

Lemma exec_ok {A} (f : stmt S A) w db a :
  env_fault (w_tick w) = FOk ->
  f (sql_now w) (env_uuid (w_tick w)) (w_db w) = inr (db, a) ->
  exec f w = (Ret a, with_db db (tick w)).
Proof. unfold exec. by intros -> ->. Qed.

Lemma wp_tx {A} (body : M S (txend A)) (Q : outcome A -> World S -> Prop) w :
  (forall o w', w_db w' = w_db w -> (forall a, o <> Ret a) -> Q o w') ->
  wp body (fun o w' =>
    match o with
    | Ret (Commit a) =>
        forall w'', w_db w'' = w_db w' ->
          (forall o', o' = Ret a \/ o' = Fail ErrConn \/ o' = Crash -> Q o' w'')
    | Ret (Rollback a) => forall w'', w_db w'' = w_db w -> Q (Ret a) w''
    | _ => True
    end) (with_tx (Some (env_now (w_tick w))) (tick w)) ->
  wp (tx body) Q w.
Proof.
  intros Hback Hbody. unfold wp, tx in *.
  destruct (env_fault (w_tick w)); simpl; [|by apply Hback..].
  destruct (body _) as [[[a|a]|e|] w2]; simpl in *; try (by apply Hback); [|by apply Hbody].
  destruct (env_fault (w_tick w2)) as [|[]|[]]; simpl;
    first [apply Hbody; [done|tauto] | by apply Hback].
Qed.

(** [now] and [uuid] do not touch the database. *)
Lemma wp_now Q w :
  (forall t w', w_db w' = w_db w -> w_trace w' = w_trace w -> w_tx w' = w_tx w -> Q (Ret t) w') ->
  wp time_Now Q w.
Proof. intros HQ. by apply HQ. Qed.

Lemma wp_uuid Q w :
  (forall u w', w_db w' = w_db w -> w_trace w' = w_trace w -> w_tx w' = w_tx w -> Q (Ret u) w') ->
  wp uuid_New Q w.
Proof. intros HQ. by apply HQ. Qed.

Lemma wp_ext {A} c (resp : nat -> error + A) Q w :
  (forall o w', w_db w' = w_db w -> w_tx w' = w_tx w -> Q o w') -> wp (ext c resp) Q w.
Proof.
  intros HQ. unfold wp, ext.
  destruct (env_fault _) as [| |[]]; try (by apply HQ); by destruct (resp _); apply HQ.
Qed.

Lemma wp_for_each {A} (l : list A) body (I : World S -> Prop) (Q : outcome unit -> World S -> Prop) w :
  I w ->
  (forall x w, x ∈ l -> I w ->
     wp (body x) (fun o w' => match o with Ret _ => I w' | _ => Q o w' end) w) ->
  (forall w, I w -> Q (Ret tt) w) ->
  wp (for_each l body) Q w.
Proof.
  intros HI Hbody HQ. revert w HI. induction l as [|x l IH]; intros w HI; simpl.
  - by apply HQ.
  - apply wp_bind. eapply wp_mono; [apply Hbody; [left|done]|].
    intros [[]|e|] w' Hw'; try done. apply IH; [|done].
    intros y v Hy. apply Hbody. by right.
Qed.

(** *** What a successful call says *)

Lemma bind_ret {A B} (m : M S A) (k : A -> M S B) w b w' :
  (m ≫= k) w = (Ret b, w') -> exists a w1, m w = (Ret a, w1) /\ k a w1 = (Ret b, w').
Proof. unfold mbind, M_bind. destruct (m w) as [[a|e|] w1]; try done. eauto. Qed.

(** The converse, for running a program forward. *)
Lemma bind_ok {A B} (m : M S A) (k : A -> M S B) w a w1 r :
  m w = (Ret a, w1) -> k a w1 = r -> (m ≫= k) w = r.
Proof. unfold mbind, M_bind. by intros -> ->. Qed.

Lemma bind_step {A B} (m : M S A) (k : A -> M S B) w a w1 : m w = (Ret a, w1) -> (m ≫= k) w = k a w1.
Proof. unfold mbind, M_bind. by intros ->. Qed.
Lemma wrap_err_ok {A} p (m : M S A) w a w1 : m w = (Ret a, w1) -> wrap_err p m w = (Ret a, w1).
Proof. unfold wrap_err, try, mbind, M_bind. by intros ->. Qed.

Lemma query_row_some {A} (q : Z -> S -> option A) w a :
  env_fault (w_tick w) = FOk -> q (sql_now w) (w_db w) = Some a -> query_row q w = (Ret a, tick w).
Proof. intros Hf Hq. unfold query_row. by rewrite (exec_ok _ w (w_db w) a) by (done || by rewrite Hq). Qed.

Lemma query_row_ok {A} e (q : Z -> S -> option A) w a :
  env_fault (w_tick w) = FOk -> q (sql_now w) (w_db w) = Some a ->
  no_rows_as e (query_row q) w = (Ret a, tick w).
Proof.
  intros Hf Hq. unfold no_rows_as, try, query_row, mbind, M_bind.
  rewrite (exec_ok _ w (w_db w) a) by (done || by rewrite Hq). done.
Qed.

Lemma update_ok (f : Z -> S -> S) w :
  env_fault (w_tick w) = FOk -> update f w = (Ret tt, with_db (f (sql_now w) (w_db w)) (tick w)).
Proof. intros Hf. by apply exec_ok. Qed.

Lemma query_ok {A} (q : Z -> S -> A) w :
  env_fault (w_tick w) = FOk -> query q w = (Ret (q (sql_now w) (w_db w)), tick w).
Proof. intros Hf. unfold query. rewrite (exec_ok _ w (w_db w) (q (sql_now w) (w_db w))) by done. done. Qed.

Lemma tx_ok {A} (body : M S (txend A)) w a w2 :
  (forall n, env_fault n = FOk) ->
  body (with_tx (Some (env_now (w_tick w))) (tick w)) = (Ret (Commit a), w2) ->
  tx body w = (Ret a, tick (with_tx None w2)).
Proof. intros ff Hb. unfold tx. by rewrite ff, Hb, ff. Qed.

Lemma exec_ret {A} (f : stmt S A) w a w' :
  exec f w = (Ret a, w') ->
  f (sql_now w) (env_uuid (w_tick w)) (w_db w) = inr (w_db w', a) /\ w_tick w' = Datatypes.S (w_tick w).
Proof. intros H. pose proof (exec_spec f w) as Hs. rewrite H in Hs. destruct Hs as (_ & _ & Ht & Hr). done. Qed.

Lemma query_ret {A} (q : Z -> S -> A) w a w' :
  query q w = (Ret a, w') -> a = q (sql_now w) (w_db w) /\ w_db w' = w_db w.
Proof. intros [[= <- <-] _]%exec_ret. done. Qed.

Lemma query_row_ret {A} (q : Z -> S -> option A) w a w' :
  query_row q w = (Ret a, w') -> q (sql_now w) (w_db w) = Some a /\ w_db w' = w_db w.
Proof. intros [H _]%exec_ret. destruct (q _ _); naive_solver. Qed.

Lemma update_ret (f : Z -> S -> S) w u w' :
  update f w = (Ret u, w') -> w_db w' = f (sql_now w) (w_db w).
Proof. intros [[= <-] _]%exec_ret. done. Qed.

Lemma no_rows_as_ret {A} e (m : M S A) w a w' :
  no_rows_as e m w = (Ret a, w') -> m w = (Ret a, w').
Proof. unfold no_rows_as, try, mbind, M_bind. destruct (m w) as [[b|e'|] w1]; naive_solver. Qed.

Lemma wrap_err_ret {A} p (m : M S A) w a w' : wrap_err p m w = (Ret a, w') -> m w = (Ret a, w').
Proof. unfold wrap_err, try, mbind, M_bind. destruct (m w) as [[b|e|] w1]; naive_solver. Qed.
Lemma try_ret {A} (m : M S A) w a w' : try m w = (Ret (inr a), w') -> m w = (Ret a, w').
Proof. unfold try. destruct (m w) as [[b|e'|] w1]; naive_solver. Qed.

Lemma try_ok {A} (m : M S A) w a w' : m w = (Ret a, w') -> try m w = (Ret (inr a), w').
Proof. unfold try. by intros ->. Qed.
Lemma try_err {A} (m : M S A) w e w' : try m w = (Ret (inl e), w') -> m w = (Fail e, w').
Proof. unfold try. destruct (m w) as [[b|e'|] w1]; naive_solver. Qed.

Lemma now_ret w t w' : time_Now w = (Ret t, w') -> t = env_now (w_tick w) /\ w' = tick w.
Proof. unfold time_Now. intros [= <- <-]. done. Qed.

(** What a transaction that returned did: its body committed or gave up. *)
Lemma tx_ret {A} (body : M S (txend A)) w a w' :
  tx body w = (Ret a, w') ->
  exists w0 w2, w_db w0 = w_db w /\
    ((body w0 = (Ret (Commit a), w2) /\ w_db w' = w_db w2) \/
     (body w0 = (Ret (Rollback a), w2) /\ w_db w' = w_db w)).
Proof.
  unfold tx. destruct (env_fault (w_tick w)); try done.
  destruct (body _) as [[[x|x]|e|] w2] eqn:E; try done.
  - destruct (env_fault (w_tick w2)); try done. intros [= -> <-]. eexists _, w2.
    split; [|left; split; [exact E|done]]. done.
  - intros [= -> <-]. eexists _, w2. split; [|right; split; [exact E|done]]. done.
Qed.

(** Injection on a statement's result, without computing the databases. *)
Lemma inr_pair {E A B} (a c : A) (b d : B) : @inr E (A * B) (a, b) = inr (c, d) -> a = c /\ b = d.
Proof. by intros [= -> ->]. Qed.

(** What a statement, or a transaction, can have done to the database. *)
Lemma exec_cases {A} (f : stmt S A) w :
  w_db (exec f w).2 = w_db w \/
  exists a, f (sql_now w) (env_uuid (w_tick w)) (w_db w) = inr (w_db (exec f w).2, a).
Proof.
  destruct (exec_spec f w) as (_ & _ & _ & Ho). destruct (exec f w).1; naive_solver.
Qed.

Lemma update_cases (f : Z -> S -> S) w :
  w_db (update f w).2 = w_db w \/ w_db (update f w).2 = f (sql_now w) (w_db w).
Proof.
  unfold update. destruct (exec_cases (fun now _ s => inr (f now s, tt)) w) as [->|[a Ha]]; [by left|right].
  by injection Ha as ->.
Qed.

Lemma update_n_cases (f : Z -> S -> S * nat) w :
  w_db (update_n f w).2 = w_db w \/ w_db (update_n f w).2 = (f (sql_now w) (w_db w)).1.
Proof.
  unfold update_n. destruct (exec_cases (fun now _ s => inr (f now s)) w) as [->|[a Ha]]; [by left|right].
  injection Ha as Ha. by rewrite Ha.
Qed.

(** A continuation that only computes leaves the database as it was. *)
Lemma bind_db {A B} (m : M S A) (k : A -> M S B) w :
  (forall a w, w_db (k a w).2 = w_db w) -> w_db ((m ≫= k) w).2 = w_db (m w).2.
Proof. intros Hk. unfold mbind, M_bind. by destruct (m w) as [[a|e|] w1]. Qed.

Lemma tx_cases {A} (body : M S (txend A)) w :
  w_db (tx body w).2 = w_db w \/
  exists w0 a w2, w_db w0 = w_db w /\ body w0 = (Ret (Commit a), w2) /\ w_db (tx body w).2 = w_db w2.
Proof.
  unfold tx. destruct (env_fault (w_tick w)); [|by left..].
  destruct (body _) as [[[a|a]|e|] w2] eqn:E; [|by left..].
  destruct (env_fault (w_tick w2)) as [|[]|[]]; simpl; try (by left);
    right; eexists _, a, w2; (split; [|split; [exact E|done]]); done.
Qed.

(** *** Guarantees: a program started in [P] only makes [R]-steps *)

Definition guards {A} (P : S -> Prop) (R : S -> S -> Prop) (m : M S A) : Prop :=
  forall w, P (w_db w) -> R (w_db w) (w_db (m w).2).

Section guards.
Context (P : S -> Prop) (R : S -> S -> Prop) `{!PreOrder R}.
Context `{!Stable P R}.

Lemma guards_ret {A} (a : A) : guards P R (mret a).
Proof. intros w _. simpl. reflexivity. Qed.

Lemma guards_fail {A} e : guards P R (fail (A:=A) e).
Proof. intros w _. simpl. reflexivity. Qed.

Lemma guards_lift {A} (r : error + A) : guards P R (lift r).
Proof. intros w _. destruct r; simpl; reflexivity. Qed.

Lemma guards_now : guards P R time_Now.
Proof. intros w _. simpl. reflexivity. Qed.

Lemma guards_bind {A B} (m : M S A) (k : A -> M S B) :
  guards P R m -> (forall a, guards P R (k a)) -> guards P R (m ≫= k).
Proof.
  intros Hm Hk w HP. specialize (Hm w HP). unfold mbind, M_bind.
  destruct (m w) as [[a|e|] w']; simpl in *; try done.
  transitivity (w_db w'); [done|]. apply Hk. by eapply stable.
Qed.

(** The first call may make finer steps [R'], which keep what [P] says,
    and the continuation may rely on what its result says. *)
Lemma guards_bind_gen {A B} (R' : S -> S -> Prop) (m : M S A) (k : A -> M S B) (Pa : A -> S -> Prop) :
  (forall s s', R' s s' -> R s s') -> Stable P R' ->
  guards P R' m ->
  (forall w a w', P (w_db w) -> m w = (Ret a, w') -> Pa a (w_db w')) ->
  (forall a, guards (fun s => P s /\ Pa a s) R (k a)) ->
  guards P R (m ≫= k).
Proof.
  intros Hsub Hst Hm Hpost Hk w HP. specialize (Hm w HP). specialize (Hpost w).
  unfold mbind, M_bind. destruct (m w) as [[a|e|] w']; simpl in *; [|by apply Hsub..].
  transitivity (w_db w'); [by apply Hsub|]. apply Hk. split; [by eapply Hst|eauto].
Qed.

Lemma guards_bind_post {A B} (m : M S A) (k : A -> M S B) (Pa : A -> S -> Prop) :
  guards P R m ->
  (forall w a w', P (w_db w) -> m w = (Ret a, w') -> Pa a (w_db w')) ->
  (forall a, guards (fun s => P s /\ Pa a s) R (k a)) ->
  guards P R (m ≫= k).
Proof. by apply guards_bind_gen. Qed.

Lemma guards_bind_rel {A B} (R' : S -> S -> Prop) (m : M S A) (k : A -> M S B) :
  (forall s s', R' s s' -> R s s') -> Stable P R' ->
  guards P R' m -> (forall a, guards P R (k a)) -> guards P R (m ≫= k).
Proof.
  intros Hsub Hst Hm Hk. apply (guards_bind_gen R' m k (fun _ _ => True)); try done.
  intros a w [HP _]. by apply Hk.
Qed.

Lemma guards_try {A} (m : M S A) : guards P R m -> guards P R (try m).
Proof.
  intros Hm w HP. specialize (Hm w HP). unfold try. by destruct (m w) as [[a|e|] w'].
Qed.

Lemma guards_ignore {A} (m : M S A) : guards P R m -> guards P R (ignore m).
Proof.
  intros Hm w HP. specialize (Hm w HP). unfold ignore, try, mbind, M_bind.
  by destruct (m w) as [[a|e|] w'].
Qed.

Lemma guards_exec {A} (f : stmt S A) :
  (forall t u db db' a, P db -> f t u db = inr (db', a) -> R db db') -> guards P R (exec f).
Proof.
  intros Hf w HP. destruct (exec_spec f w) as (_ & _ & _ & Hr).
  destruct (exec f w).1; simpl in *; [eauto|..].
  - destruct Hr as [[-> _]|[_ [a Ha]]]; [reflexivity|eauto].
  - destruct Hr as [->|[a Ha]]; [reflexivity|eauto].
Qed.

Lemma guards_update f : (forall t db, P db -> R db (f t db)) -> guards P R (update f).
Proof. intros Hf. apply guards_exec. intros t u db db' a HP [= <- _]. eauto. Qed.

Lemma guards_query {A} (q : Z -> S -> A) : guards P R (query q).
Proof. apply guards_exec. intros t u db db' a HP [= <- _]. reflexivity. Qed.

Lemma guards_query_row {A} (q : Z -> S -> option A) : guards P R (query_row q).
Proof.
  apply guards_exec. intros t u db db' a HP Hq.
  destruct (q t db); simplify_eq. reflexivity.
Qed.

Lemma guards_no_rows_as {A} e (m : M S A) : guards P R m -> guards P R (no_rows_as e m).
Proof.
  intros Hm w HP. specialize (Hm w HP). unfold no_rows_as, try, mbind, M_bind.
  by destruct (m w) as [[a|e'|] w'].
Qed.

Lemma guards_for_each {A} (l : list A) body :
  (forall x, guards P R (body x)) -> guards P R (for_each l body).
Proof.
  intros Hb. induction l as [|x l IH]; simpl; [apply guards_ret|].
  by apply guards_bind.
Qed.

Lemma guards_ext {A} c (resp : nat -> error + A) : guards P R (ext c resp).
Proof.
  intros w HP. unfold ext. destruct (env_fault _) as [| |[]]; simpl; try reflexivity;
    destruct (resp _); simpl; reflexivity.
Qed.

Lemma guards_tx_wp {A} (body : M S (txend A)) :
  (forall w, P (w_db w) ->
     wp body (fun o w' => forall a, o = Ret (Commit a) -> R (w_db w) (w_db w')) w) ->
  guards P R (tx body).
Proof.
  intros Hbody w HP. apply (wp_tx body (fun _ w' => R (w_db w) (w_db w'))).
  - intros ? ? ->. done.
  - eapply wp_mono; [by apply Hbody|]. intros [[a|a]|e|] w' Hw'; try done.
    + intros ? -> ? _. by eapply Hw'.
    + intros ? ->. done.
Qed.

Lemma guards_tx {A} (body : M S (txend A)) : guards P R body -> guards P R (tx body).
Proof. intros Hb. apply guards_tx_wp. intros w HP. unfold wp. intros a _. by apply Hb. Qed.
End guards.

(** The continuation needs nothing of [P]. *)
Lemma guards_bind_any {A B} (P : S -> Prop) R `{!PreOrder R} (m : M S A) (k : A -> M S B) :
  guards P R m -> (forall a, guards (fun _ => True) R (k a)) -> guards P R (m ≫= k).
Proof.
  intros Hm Hk w HP. specialize (Hm w HP). unfold mbind, M_bind.
  destruct (m w) as [[a|e|] w']; simpl in *; try done.
  transitivity (w_db w'); [done|]. by apply Hk.
Qed.

Lemma guards_pure {A} (P : S -> Prop) (R : S -> S -> Prop) (phi : Prop) (m : M S A) :
  (phi -> guards P R m) -> guards (fun s => P s /\ phi) R m.
Proof. intros Hm w [HP Hphi]. by apply Hm. Qed.

Lemma guards_weaken {A} (P P' : S -> Prop) (R : S -> S -> Prop) (m : M S A) :
  guards P R m -> (forall s, P' s -> P s) -> guards P' R m.
Proof. intros Hm HP w Hw. auto. Qed.

(** *** Invariant preservation *)

(** [frame proj m]: [m] leaves the part [proj] of the database alone. *)
Definition frame {A B} (proj : S -> B) (m : M S A) : Prop :=
  forall w, proj (w_db (m w).2) = proj (w_db w).

Lemma frame_preserves {A B} (proj : S -> B) (P : B -> Prop) (m : M S A) :
  frame proj m -> preserves (fun s => P (proj s)) m.
Proof. intros Hf w HP. by rewrite Hf. Qed.

Section frames.
Context {B : Type} (proj : S -> B).

Lemma frame_bind {A C} (m : M S A) (k : A -> M S C) :
  frame proj m -> (forall a, frame proj (k a)) -> frame proj (m ≫= k).
Proof.
  intros Hm Hk w. specialize (Hm w). unfold mbind, M_bind.
  destruct (m w) as [[a|e|] w1]; simpl in *; [|done..]. rewrite Hk. exact Hm.
Qed.
Lemma frame_ret {A} (a : A) : frame proj (mret a).
Proof. done. Qed.
Lemma frame_fail {A} e : frame proj (fail (A:=A) e).
Proof. done. Qed.
Lemma frame_lift {A} (r : error + A) : frame proj (lift r).
Proof. by destruct r. Qed.
Lemma frame_now : frame proj time_Now.
Proof. done. Qed.
Lemma frame_uuid : frame proj uuid_New.
Proof. done. Qed.
Lemma frame_ext {A} c (resp : nat -> error + A) : frame proj (ext c resp).
Proof. intros w. by apply (wp_ext c resp (fun _ w' => proj (w_db w') = proj (w_db w))); intros ? ? ->. Qed.
Lemma frame_try {A} (m : M S A) : frame proj m -> frame proj (try m).
Proof. intros Hm w. specialize (Hm w). unfold try. by destruct (m w) as [[a|e|] w1]. Qed.
Lemma frame_ignore {A} (m : M S A) : frame proj m -> frame proj (ignore m).
Proof. intros Hm. apply frame_bind; [by apply frame_try|]. intros; apply frame_ret. Qed.
Lemma frame_no_rows_as {A} e (m : M S A) : frame proj m -> frame proj (no_rows_as e m).
Proof. intros Hm. apply frame_bind; [by apply frame_try|]. intros []; [apply frame_fail|apply frame_ret]. Qed.
Lemma frame_wrap {A} p (m : M S A) : frame proj m -> frame proj (wrap_err p m).
Proof. intros Hm. apply frame_bind; [by apply frame_try|]. intros []; [apply frame_fail|apply frame_ret]. Qed.
Lemma frame_exec {A} (f : stmt S A) :
  (forall t u db db' a, f t u db = inr (db', a) -> proj db' = proj db) -> frame proj (exec f).
Proof.
  intros Hf w. destruct (exec_spec f w) as (_ & _ & _ & Ho). destruct (exec f w).1; simpl in Ho; [by eapply Hf|..].
  - destruct Ho as [[-> _]|[_ [a Ha]]]; [done|by eapply Hf].
  - destruct Ho as [->|[a Ha]]; [done|by eapply Hf].
Qed.
Lemma frame_query {A} (q : Z -> S -> A) : frame proj (query q).
Proof. apply frame_exec. by intros t u db db' a [= <- _]. Qed.
Lemma frame_query_row {A} (q : Z -> S -> option A) : frame proj (query_row q).
Proof. apply frame_exec. intros t u db db' a Heq. destruct (q t db); [|done]. by injection Heq as <- _. Qed.
Lemma frame_tx {A} (body : M S (txend A)) : frame proj body -> frame proj (tx body).
Proof.
  intros Hb w. destruct (tx_cases body w) as [->|(w0 & a & w2 & H0 & H1 & ->)]; [done|].
  specialize (Hb w0). by rewrite H1, H0 in Hb.
Qed.
Lemma frame_for_each {A} (l : list A) body : (forall x, frame proj (body x)) -> frame proj (for_each l body).
Proof. intros Hb. induction l as [|x l IH]; simpl; [apply frame_ret|]. by apply frame_bind. Qed.
End frames.

Lemma preserves_wp {A} (I : S -> Prop) (m : M S A) :
  preserves I m <-> forall w, I (w_db w) -> wp m (fun _ w' => I (w_db w')) w.
Proof. done. Qed.

Lemma preserves_ret {A} I (a : A) : preserves I (mret a).
Proof. by intros w. Qed.

Lemma preserves_fail {A} I e : preserves I (fail (A:=A) e).
Proof. by intros w. Qed.

Lemma preserves_lift {A} I (r : error + A) : preserves I (lift r).
Proof. by destruct r; intros w. Qed.

Lemma preserves_bind {A B} I (m : M S A) (k : A -> M S B) :
  preserves I m -> (forall a, preserves I (k a)) -> preserves I (m ≫= k).
Proof.
  intros Hm Hk w HI. specialize (Hm w HI). unfold mbind, M_bind.
  destruct (m w) as [[a|e|] w']; simpl in *; try done. by apply Hk.
Qed.

Lemma preserves_try {A} I (m : M S A) : preserves I m -> preserves I (try m).
Proof.
  intros Hm w HI. specialize (Hm w HI). unfold try.
  by destruct (m w) as [[a|e|] w'].
Qed.

Lemma preserves_ignore {A} I (m : M S A) : preserves I m -> preserves I (ignore m).
Proof. intros Hm. apply preserves_bind; [by apply preserves_try|]. intros; apply preserves_ret. Qed.

Lemma preserves_exec {A} (I : S -> Prop) (f : stmt S A) :
  (forall t u db db' a, I db -> f t u db = inr (db', a) -> I db') -> preserves I (exec f).
Proof.
  intros Hf w HI. destruct (exec_spec f w) as (_ & _ & _ & Hr).
  destruct (exec f w).1; simpl in *; [eauto|..].
  - destruct Hr as [[-> _]|[_ [a Ha]]]; eauto.
  - destruct Hr as [->|[a Ha]]; eauto.
Qed.

Lemma preserves_query {A} I (q : Z -> S -> A) : preserves I (query q).
Proof. apply preserves_exec. intros t u db db' a HI [= <- _]. done. Qed.

Lemma preserves_query_row {A} I (q : Z -> S -> option A) : preserves I (query_row q).
Proof.
  apply preserves_exec. intros t u db db' a HI Hq.
  destruct (q t db); naive_solver.
Qed.

Lemma preserves_update (I : S -> Prop) f :
  (forall t db, I db -> I (f t db)) -> preserves I (update f).
Proof. intros Hf. apply preserves_exec. intros t u db db' a HI [= <- _]. eauto. Qed.

Lemma preserves_update_n (I : S -> Prop) f :
  (forall t db, I db -> I (f t db).1) -> preserves I (update_n f).
Proof.
  intros Hf. apply preserves_exec. intros t u db db' a HI [= Heq].
  specialize (Hf t db HI). by rewrite Heq in Hf.
Qed.

Lemma preserves_no_rows_as {A} I e (m : M S A) : preserves I m -> preserves I (no_rows_as e m).
Proof.
  intros Hm. apply preserves_bind; [by apply preserves_try|].
  intros []; [apply preserves_fail|apply preserves_ret].
Qed.

Lemma preserves_wrap_err {A} I p (m : M S A) : preserves I m -> preserves I (wrap_err p m).
Proof.
  intros Hm. apply preserves_bind; [by apply preserves_try|].
  intros []; [apply preserves_fail|apply preserves_ret].
Qed.

Lemma preserves_now I : preserves I time_Now.
Proof. by intros w. Qed.

Lemma preserves_uuid I : preserves I uuid_New.
Proof. by intros w. Qed.

Lemma preserves_ext {A} I c (resp : nat -> error + A) : preserves I (ext c resp).
Proof. intros w HI. by apply (wp_ext c resp (fun _ w' => I (w_db w'))); intros ? ? ->. Qed.

Lemma preserves_tx {A} (I : S -> Prop) (body : M S (txend A)) :
  (forall w, I (w_db w) ->
     wp body (fun o w' => forall a, o = Ret (Commit a) -> I (w_db w')) w) ->
  preserves I (tx body).
Proof.
  intros Hbody w HI. apply (wp_tx body (fun _ w' => I (w_db w'))).
  - by intros ? ? ->.
  - eapply wp_mono; [by apply Hbody|]. intros [[a|a]|e|] w' Hw'; try done.
    + intros ? -> ? _. by eapply Hw'.
    + by intros ? ->.
Qed.

Lemma preserves_tx_body {A} (I : S -> Prop) (body : M S (txend A)) :
  preserves I body -> preserves I (tx body).
Proof. intros Hb. apply preserves_tx. intros w HI. unfold wp. intros _ _. by apply Hb. Qed.

(** Only the runs of the body that commit matter. *)
Lemma preserves_tx_ret {A} (I : S -> Prop) (body : M S (txend A)) :
  (forall w a w', I (w_db w) -> body w = (Ret (Commit a), w') -> I (w_db w')) -> preserves I (tx body).
Proof.
  intros Hb. apply preserves_tx. intros w HI. unfold wp. intros a Ha.
  destruct (body w) as [o w'] eqn:E. simpl in *. subst. by eapply Hb.
Qed.

(** The continuation may use what a value the call returned says. *)
Lemma preserves_bind_ret {A B} (I : S -> Prop) (m : M S A) (k : A -> M S B) (phi : A -> Prop) :
  preserves I m -> (forall w a w', I (w_db w) -> m w = (Ret a, w') -> phi a) ->
  (forall a, phi a -> preserves I (k a)) -> preserves I (m ≫= k).
Proof.
  intros Hm Hphi Hk w HI. specialize (Hm w HI). specialize (fun a => Hphi w a). unfold mbind, M_bind.
  destruct (m w) as [[a|e|] w']; simpl in *; try done. apply Hk; eauto.
Qed.

Lemma preserves_for_each {A} I (l : list A) body :
  (forall x, preserves I (body x)) -> preserves I (for_each l body).
Proof.
  intros Hb. induction l as [|x l IH]; simpl; [apply preserves_ret|].
  by apply preserves_bind.
Qed.
End effects.

(** ** Calls out of the process *)

Section calls.
Context `{env : Env} {S : Type} (P : extcall -> Prop).

(** Every call [m] makes satisfies [P]. *)
Definition calls {A} (m : M S A) : Prop :=
  forall w, Forall P (w_trace w) -> Forall P (w_trace (m w).2).

Lemma calls_ret {A} (a : A) : calls (mret a).
Proof. by intros w. Qed.
Lemma calls_fail {A} e : calls (fail (A:=A) e).
Proof. by intros w. Qed.
Lemma calls_lift {A} (r : error + A) : calls (lift r).
Proof. by destruct r; intros w. Qed.
Lemma calls_now : calls time_Now.
Proof. by intros w. Qed.
Lemma calls_uuid : calls uuid_New.
Proof. by intros w. Qed.
Lemma calls_bind {A B} (m : M S A) (k : A -> M S B) : calls m -> (forall a, calls (k a)) -> calls (m ≫= k).
Proof.
  intros Hm Hk w HP. specialize (Hm w HP). unfold mbind, M_bind.
  destruct (m w) as [[a|e|] w']; simpl in *; try done. by apply Hk.
Qed.
Lemma calls_try {A} (m : M S A) : calls m -> calls (try m).
Proof. intros Hm w HP. specialize (Hm w HP). unfold try. by destruct (m w) as [[a|e|] w']. Qed.
Lemma calls_wrap_err {A} p (m : M S A) : calls m -> calls (wrap_err p m).
Proof. intros Hm. apply calls_bind; [by apply calls_try|]. intros []; [apply calls_fail|apply calls_ret]. Qed.
Lemma calls_exec {A} (f : stmt S A) : calls (exec f).
Proof. intros w HP. destruct (exec_spec f w) as [-> _]. done. Qed.
Lemma calls_ext {A} c (resp : nat -> error + A) : P c -> calls (ext c resp).
Proof.
  intros Hc w HP. unfold ext. destruct (env_fault _) as [| |[]]; simpl; try done;
    try (by constructor); destruct (resp _); simpl; by constructor.
Qed.
End calls.

(** ** Total correctness: with no fault injected, the call returns *)

Section total.
Context `{env : Env} {S : Type} {T : nat}.

(** From the [T]-th effect on. *)
Definition total {A} (P : S -> Prop) (m : M S A) (Q : A -> S -> Prop) : Prop :=
  forall w, (T <= w_tick w)%nat -> P (w_db w) ->
  exists a w', m w = (Ret a, w') /\ Q a (w_db w') /\ (T <= w_tick w')%nat.

(** The call comes back: with a value or an error, and no effect is undone. *)
Definition steady {A} (m : M S A) : Prop := forall w, (m w).1 <> Crash /\ (w_tick w <= w_tick (m w).2)%nat.
(** It answers without an error. *)
Definition answers {A} (m : M S A) : Prop := forall w, exists a w', m w = (Ret a, w').

Lemma total_ret {A} P (a : A) (Q : A -> S -> Prop) : (forall s, P s -> Q a s) -> total P (mret a) Q.
Proof. intros H w HT HP. exists a, w. eauto. Qed.

Lemma total_bind {A B} P (m : M S A) (k : A -> M S B) Q R :
  total P m Q -> (forall a, total (Q a) (k a) R) -> total P (m ≫= k) R.
Proof.
  intros Hm Hk w HT HP. destruct (Hm w HT HP) as (a & w1 & Heq & HQ & HT1).
  destruct (Hk a w1 HT1 HQ) as (b & w2 & Heq2 & HR). exists b, w2.
  unfold mbind, M_bind. by rewrite Heq.
Qed.

Lemma total_conseq {A} (P P' : S -> Prop) (m : M S A) (Q Q' : A -> S -> Prop) :
  total P m Q -> (forall s, P' s -> P s) -> (forall a s, Q a s -> Q' a s) -> total P' m Q'.
Proof. intros H HP HQ w HT Hw. destruct (H w HT (HP _ Hw)) as (a & w' & Heq & Ha & ?). eauto 10. Qed.

Lemma total_pure {A} P (phi : Prop) (m : M S A) Q :
  (phi -> total P m Q) -> total (fun s => P s /\ phi) m Q.
Proof. intros H w HT [HP Hphi]. by apply H. Qed.

Lemma total_try_ret {A} P (m : M S A) Q :
  total P m Q -> total P (try m) (fun r s => exists a, r = inr a /\ Q a s).
Proof.
  intros H w HT HP. destruct (H w HT HP) as (a & w' & Heq & HQ & HT'). exists (inr a), w'.
  unfold try. rewrite Heq. eauto.
Qed.

(** [if err := m; err != nil {...}] when the call succeeds. *)
Lemma total_try_bind {A B} P (m : M S A) (k : error + A -> M S B) Q R :
  total P m Q -> (forall a, total (Q a) (k (inr a)) R) -> total P (try m ≫= k) R.
Proof.
  intros Hm Hk. eapply total_bind; [by apply total_try_ret|].
  intros r w HT (a & -> & HQ). by apply Hk.
Qed.

Lemma total_ignore {A} P (m : M S A) Q : total P m (fun _ => Q) -> total P (ignore m) (fun _ => Q).
Proof.
  intros H w HT HP. destruct (H w HT HP) as (x & w' & Heq & HQ). exists tt, w'.
  unfold ignore, try, mbind, M_bind. by rewrite Heq.
Qed.

(** What a call may do, seen from a caller that looks at its error: the
    error is one the call does return. *)
Definition may {A} (m : M S A) (r : error + A) : Prop :=
  match r with inl e => exists w, (m w).1 = Fail e | inr a => exists w w', m w = (Ret a, w') end.
Lemma may_not_fail {A} (m : M S A) e : may m (inl e) -> ~ answers m.
Proof. intros [w Hw] H. destruct (H w) as (a & w' & E). by rewrite E in Hw. Qed.

Lemma total_try_preserves {A} (P : S -> Prop) (m : M S A) :
  preserves P m -> steady m -> total P (try m) (fun r s => P s /\ may m r).
Proof.
  intros Hf Hc w HT HP. specialize (Hf w HP). destruct (Hc w) as [Hn Ht]. unfold try, may.
  destruct (m w) as [[a|e|] w'] eqn:E; simpl in *; [| |done]; eexists _, w'; (split; [done|]); (split; [split; [done|]|lia]).
  - by exists w, w'.
  - exists w. by rewrite E.
Qed.
Lemma total_try_frame {A B} (proj : S -> B) (P : B -> Prop) (m : M S A) :
  frame proj m -> steady m -> total (fun s => P (proj s)) (try m) (fun r s => P (proj s) /\ may m r).
Proof. intros Hf. apply total_try_preserves. by apply frame_preserves. Qed.

Lemma total_ignore_frame {A B} (proj : S -> B) (P : B -> Prop) (m : M S A) :
  frame proj m -> steady m -> total (fun s => P (proj s)) (ignore m) (fun _ s => P (proj s)).
Proof.
  intros Hf Hc. unfold ignore. eapply total_bind; [by apply total_try_frame|].
  intros a. apply total_ret. by intros s [].
Qed.

Lemma steady_ret {A} (a : A) : steady (mret a).
Proof. by intros w. Qed.
Lemma steady_fail {A} e : steady (fail (A:=A) e).
Proof. by intros w. Qed.
Lemma steady_lift {A} (r : error + A) : steady (lift r).
Proof. by destruct r. Qed.
Lemma steady_now : steady time_Now.
Proof. intros w. simpl. split; [done|lia]. Qed.
Lemma steady_uuid : steady uuid_New.
Proof. intros w. simpl. split; [done|lia]. Qed.
(** An answer of the outside at the current effect. *)
Lemma steady_answer {A} (r : World S -> error + A) : steady (fun w => lift (r w) (tick w)).
Proof. intros w. destruct (r w); simpl; (split; [done|lia]). Qed.
(** The continuation only has to cope with values the call returned. *)
Lemma steady_bind_ret {A B} (m : M S A) (k : A -> M S B) :
  steady m -> (forall a w w', m w = (Ret a, w') -> steady (k a)) -> steady (m ≫= k).
Proof.
  intros Hm Hk w. destruct (Hm w) as [Hn Ht]. specialize (fun a => Hk a w). unfold mbind, M_bind.
  destruct (m w) as [[a|e|] w']; simpl in *; try done. destruct (Hk a w' eq_refl w'). split; [done|lia].
Qed.
Lemma steady_bind {A B} (m : M S A) (k : A -> M S B) :
  steady m -> (forall a, steady (k a)) -> steady (m ≫= k).
Proof. intros Hm Hk. by apply steady_bind_ret. Qed.
Lemma steady_try {A} (m : M S A) : steady m -> steady (try m).
Proof. intros Hm w. destruct (Hm w) as [Hn Ht]. unfold try. by destruct (m w) as [[a|e|] w']. Qed.
Lemma steady_ignore {A} (m : M S A) : steady m -> steady (ignore m).
Proof. intros Hm. apply steady_bind; [by apply steady_try|]. intros ?. apply steady_ret. Qed.
Lemma steady_wrap_err {A} p (m : M S A) : steady m -> steady (wrap_err p m).
Proof. intros Hm. apply steady_bind; [by apply steady_try|]. intros []; [apply steady_fail|apply steady_ret]. Qed.
Lemma steady_no_rows_as {A} e (m : M S A) : steady m -> steady (no_rows_as e m).
Proof. intros Hm. apply steady_bind; [by apply steady_try|]. intros []; [apply steady_fail|apply steady_ret]. Qed.
Lemma steady_for_each {A} (l : list A) body :
  (forall x, steady (body x)) -> steady (for_each l body).
Proof.
  intros Hb. induction l as [|x l IH]; simpl; [apply steady_ret|]. by apply steady_bind.
Qed.

Context (ff : forall n, env_fault n = FOk).

Lemma steady_exec {A} (f : stmt S A) : steady (exec f).
Proof. intros w. unfold exec. rewrite ff. destruct (f _ _ _) as [e|[s a]]; simpl; (split; [done|lia]). Qed.
Lemma steady_ext {A} c (resp : nat -> error + A) : steady (ext c resp).
Proof. intros w. unfold ext. rewrite ff. destruct (resp _); simpl; (split; [done|lia]). Qed.
Lemma steady_tx {A} (body : M S (txend A)) : steady body -> steady (tx body).
Proof.
  intros Hb w. unfold tx. rewrite ff. destruct (Hb (with_tx (Some (env_now (w_tick w))) (tick w))) as [Hn Ht].
  destruct (body _) as [[[a|a]|e|] w2]; simpl in *; try (split; [done|lia]).
  rewrite ff. simpl. split; [done|lia].
Qed.

Lemma total_exec {A} P (f : stmt S A) Q :
  (forall t u s, P s -> exists s' a, f t u s = inr (s', a) /\ Q a s') -> total P (exec f) Q.
Proof.
  intros H w HT HP. destruct (H (sql_now w) (env_uuid (w_tick w)) (w_db w) HP) as (s' & a & Heq & HQ).
  exists a. eexists. split; [by apply exec_ok|]. split; [done|simpl; lia].
Qed.

Lemma total_update P f Q :
  (forall t s, P s -> Q (f t s)) -> total P (update f) (fun _ => Q).
Proof. intros H. apply total_exec. intros t u s HP. eauto. Qed.

Lemma total_query {A} P (q : Z -> S -> A) :
  total P (query q) (fun a s => P s /\ exists t, a = q t s).
Proof. apply total_exec. intros t u s HP. eauto 10. Qed.

Lemma total_query_any {A} P (q : Z -> S -> A) : total P (query q) (fun _ s => P s).
Proof. apply total_exec. intros t u s HP. eauto 10. Qed.

Lemma total_query_row {A} P (q : Z -> S -> option A) (Q : A -> S -> Prop) e :
  (forall t s, P s -> exists a, q t s = Some a /\ Q a s) ->
  total P (no_rows_as e (query_row q)) (fun a s => P s /\ Q a s).
Proof.
  intros H w HT HP. destruct (H (sql_now w) (w_db w) HP) as (a & Heq & HQ).
  exists a, (with_db (w_db w) (tick w)). split; [|split; [done|simpl; lia]].
  unfold no_rows_as, try, query_row, mbind, M_bind.
  erewrite exec_ok; [done|apply ff|]. by rewrite Heq.
Qed.

Lemma total_ext {A} P c (resp : nat -> error + A) (a : A) :
  (forall n, resp n = inr a) -> total P (ext c resp) (fun _ s => P s).
Proof.
  intros H w HT HP. unfold ext. rewrite ff, H. eexists _, _. split; [done|]. split; [done|simpl; lia].
Qed.

Lemma total_now P : total P time_Now (fun _ s => P s).
Proof. intros w HT HP. unfold time_Now. eexists _, _. split; [done|]. split; [done|simpl; lia]. Qed.

Lemma total_for_each {A} (I : S -> Prop) (l : list A) body :
  (forall x, x ∈ l -> total I (body x) (fun _ => I)) -> total I (for_each l body) (fun _ => I).
Proof.
  induction l as [|x l IH]; intros Hb; simpl; [by apply total_ret|].
  eapply total_bind; [apply Hb; left|]. intros ?. apply IH. intros y Hy. apply Hb. by right.
Qed.
End total.
#[global] Arguments total {S} T {A} P m Q.

#[export] Hint Resolve steady_ret steady_fail steady_lift steady_now steady_uuid : dokas.
(** Peels a program apart under [steady]; [ff] says that nothing fails. *)
Ltac steady_steps ff :=
  repeat first
  [ solve [auto with dokas]
  | apply (steady_exec ff) | apply (steady_ext ff) | apply (steady_tx ff)
  | apply steady_wrap_err | apply steady_no_rows_as | apply steady_ignore
  | apply steady_bind; [|intros ?] | apply steady_try | apply steady_for_each; intros ?
  | match goal with |- steady (match ?x with _ => _ end) => destruct x eqn:? end ].

#[export] Hint Resolve preserves_ret preserves_fail preserves_lift preserves_now
  preserves_uuid preserves_ext preserves_query preserves_query_row : dokas.

#[export] Hint Resolve frame_ret frame_fail frame_lift frame_now frame_uuid frame_ext frame_query
  frame_query_row : dokas.
(** Peels a program apart under [frame], leaving the statements that write. *)
Ltac frame_steps :=
  repeat first
  [ solve [auto with dokas]
  | apply frame_bind; [|intros ?]
  | apply frame_try | apply frame_ignore | apply frame_no_rows_as | apply frame_tx
  | apply frame_for_each; intros ?
  | match goal with |- frame _ (match ?x with _ => _ end) => destruct x eqn:? end ].

(** A statement whose writes [proj] does not see. *)
Ltac frame_stmt :=
  apply frame_exec; intros ? ? [] ? ? Heq; repeat case_match; try discriminate Heq; by injection Heq as <- _.

#[export] Hint Extern 0 (Stable _ _) => typeclasses eauto : dokas.
#[export] Hint Extern 0 (PreOrder _) => typeclasses eauto : dokas.

(** Fault-free environments, for the functional statements. *)
Definition fault_free `{Env} : Prop := forall n, env_fault n = FOk.
(** Nothing fails from the [n]-th effect on. *)
Definition calm_from `{Env} (n : nat) : Prop := forall m, (n <= m)%nat -> env_fault m = FOk.

(** Inverts what a returned program says, statement by statement. *)
Ltac ret_step :=
  match goal with
  | H : (_ ≫= _) _ = (Ret _, _) |- _ =>
      let w := fresh "w" in let a := fresh "a" in let H1 := fresh "H" in
      apply bind_ret in H as (a & w & H1 & H); cbv beta in H
  | H : mret _ _ = (Ret _, _) |- _ => injection H as H; subst
  | H : fail _ _ = (Ret _, _) |- _ => discriminate H
  | H : no_rows_as _ _ _ = (Ret _, _) |- _ => apply no_rows_as_ret in H
  | H : query _ _ = (Ret _, _) |- _ => apply query_ret in H as [-> H]
  | H : query_row _ _ = (Ret _, _) |- _ =>
      let H2 := fresh "H" in apply query_row_ret in H as [H2 H]
  | H : update _ _ = (Ret _, _) |- _ => apply update_ret in H
  | H : time_Now _ = (Ret _, _) |- _ => apply now_ret in H as [-> ->]
  | H : exec _ _ = (Ret _, _) |- _ => apply exec_ret in H as [H _]; cbv beta in H
  | H : (match ?x with _ => _ end) _ = (Ret _, _) |- _ => destruct x eqn:?
  end.
Ltac ret_inv := repeat ret_step.
(** Rewrites along the statements that left the database alone. *)
Ltac db_eqs := cbn [w_db tick] in *; repeat match goal with H : w_db _ = w_db _ |- _ => rewrite ?H in *; clear H end.

(** Peels a program apart under [preserves], leaving the statements. *)
Ltac preserve_step :=
  match goal with
  | |- preserves _ (_ ≫= _) => apply preserves_bind; [|intros ?]
  | |- preserves _ (mret _) => apply preserves_ret
  | |- preserves _ (fail _) => apply preserves_fail
  | |- preserves _ (lift _) => apply preserves_lift
  | |- preserves _ time_Now => apply preserves_now
  | |- preserves _ uuid_New => apply preserves_uuid
  | |- preserves _ (ext _ _) => apply preserves_ext
  | |- preserves _ (try _) => apply preserves_try
  | |- preserves _ (ignore _) => apply preserves_ignore
  | |- preserves _ (no_rows_as _ _) => apply preserves_no_rows_as
  | |- preserves _ (for_each _ _) => apply preserves_for_each; intros ?
  | |- preserves _ (match ?x with _ => _ end) => destruct x eqn:?
  | |- preserves _ (let _ := _ in _) => cbv zeta
  end.
Ltac preserve := repeat (first [progress (auto with dokas) | preserve_step]).

(** Peels a program apart under [calls], leaving the calls. *)
Ltac call_steps :=
  repeat first
  [ apply calls_ret | apply calls_fail | apply calls_lift | apply calls_now | apply calls_uuid | apply calls_exec
  | apply calls_bind; [|intros ?] | apply calls_try
  | match goal with |- calls _ (match ?x with _ => _ end) => destruct x eqn:? end ].

(** Peels a program apart under [guards], leaving the statements. *)
Ltac guard_step :=
  match goal with
  | |- guards _ _ (_ ≫= _) => apply guards_bind; [try typeclasses eauto..| |intros ?]
  | |- guards _ _ (mret _) => apply guards_ret; typeclasses eauto
  | |- guards _ _ (fail _) => apply guards_fail; typeclasses eauto
  | |- guards _ _ (lift _) => apply guards_lift; typeclasses eauto
  | |- guards _ _ time_Now => apply guards_now; typeclasses eauto
  | |- guards _ _ (ext _ _) => apply guards_ext; typeclasses eauto
  | |- guards _ _ (query _) => apply guards_query; typeclasses eauto
  | |- guards _ _ (query_row _) => apply guards_query_row; typeclasses eauto
  | |- guards _ _ (try _) => apply guards_try
  | |- guards _ _ (tx _) => apply guards_tx; [try typeclasses eauto..|]
  | |- guards _ _ (ignore _) => apply guards_ignore
  | |- guards _ _ (no_rows_as _ _) => apply guards_no_rows_as
  | |- guards _ _ (for_each _ _) => apply guards_for_each; [try typeclasses eauto..|intros ?]
  | |- guards _ _ (match ?x with _ => _ end) => destruct x eqn:?
  | |- guards _ _ (let _ := _ in _) => cbv zeta
  end.
(** One bind: the first call by the hints, the continuation left. *)
Ltac guard_bind :=
  apply guards_bind; [try typeclasses eauto..| |intros ?]; [solve [guard_steps_] | cbv beta]
with guard_steps_ := repeat (first [progress (eauto with dokas) | guard_step]).
Ltac guard_steps := repeat (first [progress (eauto with dokas) | guard_step]).
