(* ===== verification/Schema.v ===== *)
(** The shared PostgreSQL database: one record per table row, one record of
    tables per component, and the record of all of them.  Column names and
    constraints are those of the migrations; identifiers are uuids ([N], with
    [0] for uuid.Nil) and times are nanoseconds since the epoch ([Z]). *)
From S2P Require Import Prelude Effects.
From Stdlib Require Import SpecFloat.

Abbreviation uuid := N (only parsing).
Abbreviation time := Z (only parsing).
Definition uuid_Nil : uuid := 0%N.

(** ** Drills (internal/drill) *)

Inductive StepName : Type :=
  StepProvision | StepFetch | StepRestore | StepAssert | StepReport | StepTeardown.

Inductive Status : Type :=
  StatusPending | StatusRunning | StatusSucceeded | StatusFailed | StatusSkipped.

#[global] Instance StepName_eq_dec : EqDecision StepName.
Proof. solve_decision. Defined.
#[global] Instance Status_eq_dec : EqDecision Status.
Proof. solve_decision. Defined.

Definition StepName_index (n : StepName) : nat :=
  match n with
  | StepProvision => 0 | StepFetch => 1 | StepRestore => 2
  | StepAssert => 3 | StepReport => 4 | StepTeardown => 5
  end.
#[global] Instance StepName_countable : Countable StepName.
Proof.
  refine (inj_countable' StepName_index
    (fun i => match i with 0 => StepProvision | 1 => StepFetch | 2 => StepRestore
              | 3 => StepAssert | 4 => StepReport | _ => StepTeardown end%nat) _).
  by intros [].
Defined.

Record Target : Type := mkTarget {
  t_ID : uuid; t_AccountID : uuid; t_CreatedByUserID : uuid;
  t_Name : string; t_SourceKind : string; t_SourceURI : string;
  t_TeamID : option uuid; t_CreatedAt : time;
  t_DrillCadence : string; t_NextDrillAt : option time; t_IsSample : bool
}.

(** A database_targets row: the Go struct and the soft-delete column. *)
Record TargetRow : Type := mkTargetRow { tr_target : Target; tr_deleted_at : option time }.

Record Assertion : Type := mkAssertion {
  as_ID : uuid; as_TargetID : uuid; as_Kind : string; as_Config : string; as_CreatedAt : time
}.

Record Drill : Type := mkDrill {
  d_ID : uuid; d_TargetID : uuid; d_AccountID : uuid; d_CreatedByUserID : uuid;
  d_Status : Status; d_StartedAt : option time; d_CompletedAt : option time;
  d_Error : option string; d_EvidencePath : option string; d_SandboxDB : option string;
  d_SourceHash : option string; d_CreatedAt : time
}.

Record Step : Type := mkStep {
  s_ID : uuid; s_DrillID : uuid; s_Name : StepName; s_Status : Status;
  s_StartedAt : option time; s_CompletedAt : option time; s_Error : option string;
  s_IdempotencyKey : string; s_Ordinal : Z;
  s_OutputSnippet : option string; s_OutputSHA256 : option string;
  s_OutputTruncated : option bool
}.

Record AssertionResult : Type := mkAssertionResult {
  ar_ID : uuid; ar_DrillID : uuid; ar_Kind : string;
  ar_Expected : string; ar_Actual : string; ar_Passed : bool; ar_At : time
}.

(** An idempotency_keys row, keyed by (account_id, key, scope). *)
Record IdemRow : Type := mkIdemRow { ik_UserID : uuid; ik_TargetID : string; ik_CreatedAt : time }.

(** A Go [any] as encoding/json and the sandbox driver produce them. *)
Inductive any : Type :=
| AString (s : string)
| AFloat64 (f : spec_float)
| AInt (z : Z)
| ABool (b : bool)
| ANil
| AList (l : list any)
| AMap (l : list (string * any)).

(** A map[string]any literal, in the order it is written. *)
Abbreviation metadata := (list (string * any)).

(** An audit_events row (internal/audit); [ev_ID] is the bigserial, and the
    JSONB metadata is kept as the value it spells. *)
Record AuditEvent : Type := mkAuditEvent {
  ev_ID : Z; ev_At : time; ev_AccountID : option uuid; ev_ActorID : option uuid;
  ev_Action : string; ev_TargetKind : option string; ev_TargetID : option string;
  ev_IP : option string; ev_UserAgent : option string; ev_Metadata : metadata
}.

(** River job arguments of the drill pipeline. *)
Inductive JobArgs : Type :=
| ProvisionArgs (DrillID : uuid)
| FetchArgs (DrillID : uuid)
| RestoreArgs (DrillID : uuid) (FilePath : string)
| AssertArgs (DrillID : uuid)
| ReportArgs (DrillID : uuid)
| TeardownArgs (DrillID : uuid) (FailureReason : string).

Record Job : Type := mkJob { j_Args : JobArgs; j_Priority : Z }.

Record DrillDB : Type := mkDrillDB {
  targets           : gmap uuid TargetRow;
  target_assertions : gmap uuid Assertion;
  drills            : gmap uuid Drill;
  drill_steps       : gmap (uuid * StepName) Step;
  assertion_results : gmap uuid AssertionResult;
  idempotency_keys  : gmap (uuid * string * string) IdemRow;
  river_jobs        : gmap N Job;
  river_seq         : N
}.

(** ** Accounts (internal/account) *)

Abbreviation Plan := string (only parsing).
Abbreviation Role := string (only parsing).

Record Account : Type := mkAccount {
  a_ID : uuid; a_Name : string; a_Slug : string; a_StripeCustomerID : option string;
  a_Plan : Plan; a_CreatedAt : time; a_TrialEndsAt : option time;
  a_SubscriptionStatus : option string; a_Unlimited : bool
}.

(** An accounts row: the Go struct and the columns it does not carry. *)
Record AccountRow : Type := mkAccountRow {
  acr_account : Account;
  acr_stripe_subscription_id : option string;
  acr_subscription_status_updated_at : option time;
  acr_deleted_at : option time;
  acr_purge_after : option time
}.

(** A users row; internal/auth's User struct is a projection of it. *)
Record User : Type := mkUser {
  u_ID : uuid; u_Email : string; u_EmailVerified : bool; u_PasswordHash : string; u_IsStaff : bool;
  u_MFAEnabled : bool; u_totp_secret : option string; u_totp_last_used_counter : option Z;
  u_CreatedAt : time; u_DeletedAt : option time
}.

Record Membership : Type := mkMembership {
  m_AccountID : uuid; m_UserID : uuid; m_Role : Role; m_CreatedAt : time
}.

Record Invitation : Type := mkInvitation {
  i_ID : uuid; i_AccountID : uuid; i_Email : string; i_Role : Role;
  i_InvitedByUserID : uuid; i_ExpiresAt : time; i_AcceptedAt : option time;
  i_CreatedAt : time; i_TokenHash : string
}.

Record Team : Type := mkTeam { tm_ID : uuid; tm_AccountID : uuid; tm_Name : string }.
Record TeamRow : Type := mkTeamRow { tmr_team : Team; tmr_deleted_at : option time }.

Record AccountDB : Type := mkAccountDB {
  accounts         : gmap uuid AccountRow;
  users            : gmap uuid User;
  memberships      : gmap (uuid * uuid) Membership;   (* (account, user) *)
  invitations      : gmap uuid Invitation;
  teams            : gmap uuid TeamRow;
  team_memberships : gset (uuid * uuid);              (* (team, user) *)
  stripe_events    : gset string
}.

(** ** Sessions and credentials (internal/auth) *)

Record Session : Type := mkSession {
  se_ID : uuid; se_UserID : uuid; se_CreatedAt : time; se_ExpiresAt : time;
  se_ImpersonatorID : option uuid; se_MFAPending : bool; se_StaffVerifiedAt : option time
}.
(** A sessions row: the Go struct and the columns it does not carry. *)
Record SessionRow : Type := mkSessionRow {
  ser_session : Session; ser_token_hash : string; ser_last_seen_at : time;
  ser_current_account_id : option uuid
}.
Record RecoveryRow : Type := mkRecoveryRow {
  rc_user_id : uuid; rc_code_hash : string; rc_used_at : option time
}.
(** magic_link_tokens and email_verification_tokens share one shape. *)
Record TokenRow : Type := mkTokenRow {
  tk_id : uuid; tk_user_id : uuid; tk_token_hash : string; tk_expires_at : time;
  tk_consumed_at : option time
}.
Record Attempt : Type := mkAttempt {
  at_email : string; at_ip : option string; at_succeeded : bool; at_at : time
}.
Record AuthDB : Type := mkAuthDB {
  sessions                  : gmap uuid SessionRow;
  mfa_recovery_codes        : gmap uuid RecoveryRow;
  magic_link_tokens         : gmap uuid TokenRow;
  email_verification_tokens : gmap uuid TokenRow;
  login_attempts            : list Attempt
}.

(** ** Heartbeats (internal/heartbeat) *)

Record Heartbeat : Type := mkHeartbeat {
  h_ID : uuid; h_AccountID : uuid; h_CreatedByUserID : uuid; h_Name : string; h_Slug : string;
  h_PingToken : string; h_PeriodSeconds : Z; h_GraceSeconds : Z; h_Status : string;
  h_LastPingAt : option time; h_ExpectedBy : option time; h_CreatedAt : time
}.
Record HeartbeatRow : Type := mkHeartbeatRow { hr_heartbeat : Heartbeat; hr_deleted_at : option time }.
Record Ping : Type := mkPing {
  p_ID : uuid; p_ReceivedAt : time; p_Kind : string; p_SourceIP : option string;
  p_UserAgent : option string; p_heartbeat_id : uuid
}.
Record MonitorDB : Type := mkMonitorDB {
  heartbeats      : gmap uuid HeartbeatRow;
  heartbeat_pings : gmap uuid Ping
}.

(** ** Webhooks (internal/webhooks) *)

Record Endpoint : Type := mkEndpoint {
  e_ID : uuid; e_Account : uuid; e_URL : string; e_Secret : string; e_Enabled : bool; e_CreatedAt : time
}.
Record EndpointRow : Type := mkEndpointRow { er_endpoint : Endpoint; er_deleted_at : option time }.
Record Delivery : Type := mkDelivery {
  dl_ID : uuid; dl_EndpointID : uuid; dl_AccountID : uuid; dl_Event : string; dl_Payload : string;
  dl_Status : string; dl_AttemptCount : Z; dl_LastStatusCode : option Z; dl_LastError : option string;
  dl_CreatedAt : time; dl_UpdatedAt : time; dl_DeliveredAt : option time
}.
Record DeliveryRow : Type := mkDeliveryRow { dr_delivery : Delivery; dr_event_key : option string }.
(** internal/alerting and internal/push: the other ways out. *)
Record Channels : Type := mkChannels { SlackWebhookURL : string; PagerDutyRoutingKey : string }.
Record Device : Type := mkDevice {
  dv_ID : uuid; dv_UserID : uuid; dv_AccountID : uuid; dv_Token : string; dv_Platform : string;
  dv_CreatedAt : time; dv_LastSeenAt : time
}.

(** [webhook_jobs] are the pending River jobs of kind webhook.deliver. *)
Record HookDB : Type := mkHookDB {
  webhook_endpoints      : gmap uuid EndpointRow;
  webhook_deliveries     : gmap uuid DeliveryRow;
  webhook_jobs           : gmap N uuid;
  account_alert_channels : gmap uuid Channels;
  user_fcm_tokens        : gmap uuid Device
}.

(** ** Bearer credentials (internal/apikey, mobileauth, sharelink) *)

Record Key : Type := mkKey {
  k_ID : uuid; k_AccountID : uuid; k_Name : string; k_Prefix : string; k_Scopes : list string;
  k_CreatedByUserID : uuid; k_CreatedAt : time; k_LastUsedAt : option time; k_RevokedAt : option time
}.
Record KeyRow : Type := mkKeyRow { kr_key : Key; kr_key_hash : string }.
Record MobileToken : Type := mkMobileToken {
  mt_ID : uuid; mt_UserID : uuid; mt_AccountID : uuid; mt_Prefix : string; mt_DeviceName : string;
  mt_CreatedAt : time; mt_LastUsedAt : option time; mt_ExpiresAt : time; mt_RevokedAt : option time
}.
Record MobileTokenRow : Type := mkMobileTokenRow { mtr_token : MobileToken; mtr_token_hash : string }.
Record Challenge : Type := mkChallenge {
  ch_UserID : uuid; ch_AccountID : uuid; ch_DeviceName : string; ch_expires_at : time
}.
Record Link : Type := mkLink {
  l_ID : uuid; l_DrillID : uuid; l_AccountID : uuid; l_CreatedByID : uuid; l_TokenPrefix : string;
  l_Label : string; l_ExpiresAt : time; l_RevokedAt : option time; l_LastViewedAt : option time;
  l_ViewCount : Z; l_CreatedAt : time
}.
Record LinkRow : Type := mkLinkRow { lr_link : Link; lr_token_hash : string }.
(** An api_idempotency row, keyed by (account_id, idempotency_key). *)
Record StoredResponse : Type := mkStoredResponse {
  sr_request_fingerprint : string; sr_status_code : Z; sr_response_body : string; sr_created_at : time
}.
Record KeyDB : Type := mkKeyDB {
  api_keys              : gmap uuid KeyRow;
  mobile_auth_tokens    : gmap uuid MobileTokenRow;
  mobile_mfa_challenges : gmap uuid Challenge;
  drill_share_links     : gmap uuid LinkRow;
  api_idempotency       : gmap (uuid * string) StoredResponse
}.

(** ** Evidence (internal/evidence) *)

Record Signature : Type := mkSignature {
  Algorithm : string; PublicKeyID : string; Value : string; PDFSHA256 : string; SignedAt : time
}.
Record SignatureRecord : Type := mkSignatureRecord { sg_Signature : Signature; RetainUntil : time }.
(** The two tables, the files of the evidence directory or bucket, and the
    scheduled River jobs that erase an account: its id and when they are due. *)
Record EvidenceDB : Type := mkEvidenceDB {
  account_evidence_keys : gmap uuid string;
  evidence_signatures   : gmap uuid SignatureRecord;
  evidence_files        : gmap string string;
  purge_jobs            : gmap N (uuid * time)
}.

(** ** The database *)

(** ** Mail (internal/email) *)

Record Suppression : Type := mkSuppression { su_email : string; su_reason : string; su_detail : option string; su_suppressed_at : time }.
(** At most one suppression per address, up to case. *)
Record MailDB : Type := mkMailDB { email_suppressions : list Suppression; email_sends : list time }.

Record DB : Type := mkDB {
  drill_db     : DrillDB;
  account_db   : AccountDB;
  audit_events : list AuditEvent;
  auth_db      : AuthDB;
  monitor_db   : MonitorDB;
  hook_db      : HookDB;
  key_db       : KeyDB;
  evidence_db  : EvidenceDB;
  mail_db      : MailDB
}.

Abbreviation GO := (M DB).
