(* ===== verification/Encoding.v ===== *)
(** The parts of the Go standard library that spell bytes as text
    (encoding/base64, encoding/base32) and compare or trim text (strings),
    and crypto/rand.  Text is treated byte by byte: the case mapping of
    strings.ToLower, ToUpper and EqualFold is modelled for ASCII, and
    TrimSpace for ASCII white space. *)
From S2P Require Import Prelude Crypto Effects Schema.
From Stdlib Require Import Ascii.

(** NULLIF(x, '') *)
Definition nullif_empty (s : string) : option string := if bool_decide (s = "") then None else Some s.

(** ** base64 *)

Definition alphabet_std : string := "ABCDEFGHIJKLMNOPQRSTUVWXYZabcdefghijklmnopqrstuvwxyz0123456789+/".
Definition alphabet_url : string := "ABCDEFGHIJKLMNOPQRSTUVWXYZabcdefghijklmnopqrstuvwxyz0123456789-_".

Abbreviation chars := String.list_ascii_of_string.
Abbreviation unchars := String.string_of_list_ascii.

Definition symbol (alphabet : string) (v : Z) : ascii := nth (Z.to_nat v) (chars alphabet) "000"%char.
Fixpoint index_of (c : ascii) (l : list ascii) : option Z :=
  match l with
  | [] => None
  | a :: l' => if bool_decide (a = c) then Some 0 else Z.succ <$> index_of c l'
  end.
Definition symbol_value (alphabet : string) (c : ascii) : option Z := index_of c (chars alphabet).

Fixpoint b64_encode (l : list Z) (pad : bool) (sym : Z -> ascii) : list ascii :=
  match l with
  | b0 :: b1 :: b2 :: l' =>
      sym (b0 / 4) :: sym ((b0 mod 4) * 16 + b1 / 16) :: sym ((b1 mod 16) * 4 + b2 / 64)
        :: sym (b2 mod 64) :: b64_encode l' pad sym
  | [b0; b1] =>
      [sym (b0 / 4); sym ((b0 mod 4) * 16 + b1 / 16); sym ((b1 mod 16) * 4)]
        ++ (if pad then ["="%char] else [])
  | [b0] => [sym (b0 / 4); sym ((b0 mod 4) * 16)] ++ (if pad then ["="%char; "="%char] else [])
  | [] => []
  end.

(** Decodes full groups and one last partial or padded group. *)
Fixpoint b64_decode (l : list ascii) (pad : bool) (val : ascii -> option Z) : option (list Z) :=
  match l with
  | [] => Some []
  | c0 :: c1 :: l1 =>
      v0 ← val c0; v1 ← val c1;
      let b0 := 4 * v0 + v1 / 16 in
      match l1 with
      | [] => if pad then None else Some [b0]
      | c2 :: l2 =>
          if bool_decide (c2 = "="%char) then
            (if pad && bool_decide (l2 = ["="%char]) then Some [b0] else None)
          else
            v2 ← val c2;
            let b1 := (v1 mod 16) * 16 + v2 / 4 in
            match l2 with
            | [] => if pad then None else Some [b0; b1]
            | c3 :: l3 =>
                if bool_decide (c3 = "="%char) then
                  (if pad && bool_decide (l3 = []) then Some [b0; b1] else None)
                else
                  v3 ← val c3;
                  rest ← b64_decode l3 pad val;
                  Some (b0 :: b1 :: (v2 mod 4) * 64 + v3 :: rest)
            end
      end
  | [_] => None
  end.

Definition is_newline (c : ascii) : bool := (byte_of c =? 10) || (byte_of c =? 13).

Definition StdEncoding_Encode (s : string) : string :=
  unchars (b64_encode (bytes_of s) true (symbol alphabet_std)).
Definition StdEncoding_Decode (s : string) : option string :=
  of_bytes <$> b64_decode (filter (fun c => is_newline c = false) (chars s)) true (symbol_value alphabet_std).
Definition RawStdEncoding_Encode (s : string) : string :=
  unchars (b64_encode (bytes_of s) false (symbol alphabet_std)).
Definition RawURLEncoding_Encode (s : string) : string :=
  unchars (b64_encode (bytes_of s) false (symbol alphabet_url)).
Definition RawURLEncoding_Decode (s : string) : option string :=
  of_bytes <$> b64_decode (filter (fun c => is_newline c = false) (chars s)) false (symbol_value alphabet_url).

Section base64_ok.
Context (alphabet : string).
Context (good : forallb (fun n => bool_decide (symbol_value alphabet (symbol alphabet (Z.of_nat n)) = Some (Z.of_nat n))
                  && negb (bool_decide (symbol alphabet (Z.of_nat n) = "="%char))
                  && negb (is_newline (symbol alphabet (Z.of_nat n)))) (seq 0 64) = true).

Lemma symbol_good v : 0 <= v < 64 ->
  symbol_value alphabet (symbol alphabet v) = Some v /\ symbol alphabet v <> "="%char /\
  is_newline (symbol alphabet v) = false.
Proof.
  intros Hv. rewrite forallb_forall in good. specialize (good (Z.to_nat v)).
  rewrite Z2Nat.id in good by lia.
  rewrite !andb_true_iff, !negb_true_iff, bool_decide_eq_true, bool_decide_eq_false in good.
  destruct good as [[? ?] ?]; [|done]. apply in_seq. lia.
Qed.

Local Ltac sym_rewrite :=
  repeat match goal with
  | |- context [symbol_value alphabet (symbol alphabet ?v)] =>
      rewrite (proj1 (symbol_good v ltac:(Z.to_euclidean_division_equations; lia)))
  | |- context [bool_decide (symbol alphabet ?v = "="%char)] =>
      rewrite (bool_decide_eq_false_2 (symbol alphabet v = "="%char))
        by (apply symbol_good; Z.to_euclidean_division_equations; lia)
  end.

Lemma b64_roundtrip n l pad : (length l <= n)%nat -> Forall is_byte l ->
  b64_decode (b64_encode l pad (symbol alphabet)) pad (symbol_value alphabet) = Some l.
Proof.
  revert l. induction n as [|n IH]; intros l Hn Hl; [by destruct l; simpl in *; [|lia]|].
  unfold is_byte in Hl.
  destruct l as [|b0 [|b1 [|b2 l]]]; [done| | |]; rewrite ?Forall_cons in Hl; simpl in Hn.
  - destruct Hl as [H0 _]. destruct pad; cbn -[symbol symbol_value Z.div Z.modulo Z.mul Z.add];
      sym_rewrite; cbn -[Z.div Z.modulo Z.mul Z.add]; repeat f_equal;
      Z.to_euclidean_division_equations; lia.
  - destruct Hl as [H0 [H1 _]]. destruct pad; cbn -[symbol symbol_value Z.div Z.modulo Z.mul Z.add];
      sym_rewrite; cbn -[symbol symbol_value Z.div Z.modulo Z.mul Z.add]; sym_rewrite;
      cbn -[Z.div Z.modulo Z.mul Z.add]; repeat f_equal; Z.to_euclidean_division_equations; lia.
  - destruct Hl as [H0 [H1 [H2 Hl]]].
    cbn -[symbol symbol_value Z.div Z.modulo Z.mul Z.add].
    sym_rewrite; cbn -[symbol symbol_value Z.div Z.modulo Z.mul Z.add]; sym_rewrite.
    cbn -[symbol symbol_value Z.div Z.modulo Z.mul Z.add].
    rewrite IH by (done || lia). cbn -[Z.div Z.modulo Z.mul Z.add].
    repeat f_equal; Z.to_euclidean_division_equations; lia.
Qed.

(** The output consists of symbols and, when padding, of "=". *)
Lemma b64_symbols (P : ascii -> Prop) n l pad :
  (forall v, 0 <= v < 64 -> P (symbol alphabet v)) -> P "="%char ->
  (length l <= n)%nat -> Forall is_byte l -> Forall P (b64_encode l pad (symbol alphabet)).
Proof.
  intros HP Heq. revert l. induction n as [|n IH]; intros l Hn Hl; [by destruct l; simpl in *; [|lia]|].
  unfold is_byte in Hl.
  destruct l as [|b0 [|b1 [|b2 l]]]; [done| | |]; rewrite ?Forall_cons in Hl; simpl in Hn;
    destruct pad; cbn -[symbol Z.div Z.modulo Z.mul Z.add];
    repeat (apply Forall_cons; split); try exact Heq; try apply Forall_nil_2;
    try (apply HP; Z.to_euclidean_division_equations; lia); apply IH; naive_solver lia.
Qed.
Lemma b64_no_newline n l pad : (length l <= n)%nat -> Forall is_byte l ->
  Forall (fun c => is_newline c = false) (b64_encode l pad (symbol alphabet)).
Proof. apply b64_symbols; [intros v Hv; by apply symbol_good|done]. Qed.
End base64_ok.

Lemma filter_all {A} (P : A -> Prop) `{forall x, Decision (P x)} l : Forall P l -> filter P l = l.
Proof. induction 1; [done|]. rewrite filter_cons_True by done. by f_equal. Qed.

Lemma StdEncoding_Decode_Encode s : StdEncoding_Decode (StdEncoding_Encode s) = Some s.
Proof.
  unfold StdEncoding_Decode, StdEncoding_Encode.
  rewrite String.list_ascii_of_string_of_list_ascii.
  rewrite filter_all by (eapply (b64_no_newline alphabet_std); [vm_compute; reflexivity|done|apply bytes_of_range]).
  rewrite (b64_roundtrip alphabet_std ltac:(vm_compute; reflexivity) (length (bytes_of s)))
    by (done || apply bytes_of_range).
  simpl. by rewrite of_bytes_of.
Qed.

(** ** strings *)

Definition lower_char (c : ascii) : ascii :=
  let b := byte_of c in if (65 <=? b) && (b <=? 90) then of_byte (b + 32) else c.
Definition upper_char (c : ascii) : ascii :=
  let b := byte_of c in if (97 <=? b) && (b <=? 122) then of_byte (b - 32) else c.
Definition map_string (f : ascii -> ascii) (s : string) : string := unchars (f <$> chars s).
Definition ToLower : string -> string := map_string lower_char.
Definition ToUpper : string -> string := map_string upper_char.
Definition EqualFold (a b : string) : bool := bool_decide (ToLower a = ToLower b).

Definition white (c : ascii) : bool :=
  let b := byte_of c in (b =? 32) || ((9 <=? b) && (b <=? 13)).
Fixpoint drop_while {A} (p : A -> bool) (l : list A) : list A :=
  match l with [] => [] | x :: l' => if p x then drop_while p l' else l end.
Definition trim_by (p : ascii -> bool) (s : string) : string :=
  unchars (rev (drop_while p (rev (drop_while p (chars s))))).
Definition TrimSpace : string -> string := trim_by white.

(** ** crypto/rand *)

(** The system's randomness; rand.Read draws at the current effect. *)
Class Rand : Type := { rand_bytes : nat -> nat -> error + string }.
Definition rand_Read `{Rand} (n : nat) : GO string :=
  fun w => lift (rand_bytes (w_tick w) n) (tick w).

(** It fills the buffer it is given. *)
Class RandOk `{Rand} : Prop := { rand_length : forall t n b, rand_bytes t n = inr b -> String.length b = n }.

(** panic: nothing after it runs. *)
Definition panic {A} : GO A := fun w => (Crash, w).
(** rand.Read by callers that panic when it fails. *)
Definition must_rand `{Rand} (n : nat) : GO string :=
  r ← try (rand_Read n); match r with inr b => mret b | inl _ => panic end.

(** ** Opaque bearer tokens

    internal/auth, internal/account: 32 random bytes in URL-safe base64, of
    which the database keeps the SHA-256 only. *)
Definition hashToken (raw : string) : string := RawStdEncoding_Encode (sha256 raw).
Definition generateToken `{Rand} : GO (string * string) :=
  b ← rand_Read 32;
  let raw := RawURLEncoding_Encode b in
  mret (raw, hashToken raw).

(** strings.Index, strings.Contains, strings.HasPrefix *)
Definition Contains (s sub : string) : bool :=
  match String.index 0 sub s with Some _ => true | None => false end.
Definition HasPrefix (s p : string) : bool := String.prefix p s.
Lemma HasPrefix_app p s : HasPrefix (p +:+ s) p = true.
Proof. unfold HasPrefix. induction p as [|c p IH]; [by destruct s|]. simpl. destruct (ascii_dec c c); [exact IH|done]. Qed.
Definition remove_char (c : ascii) (s : string) : string :=
  unchars (filter (fun x => x <> c) (chars s)).

(** [regexp.MustCompile(`[^class]+`).ReplaceAllString(s, "-")] *)
Fixpoint collapse (ok : ascii -> bool) (in_run : bool) (l : list ascii) : list ascii :=
  match l with
  | [] => []
  | c :: l' =>
      if ok c then c :: collapse ok false l'
      else if in_run then collapse ok true l' else "-"%char :: collapse ok true l'
  end.
Definition dash (c : ascii) : bool := bool_decide (c = "-"%char).
Definition digit (c : ascii) : bool := let b := byte_of c in (48 <=? b) && (b <=? 57).
Definition lower (c : ascii) : bool := let b := byte_of c in (97 <=? b) && (b <=? 122).
Definition upper (c : ascii) : bool := let b := byte_of c in (65 <=? b) && (b <=? 90).
Definition alnum (c : ascii) : bool := digit c || lower c || upper c.

(** PostgreSQL's citext comparison. *)
Definition citext_eq (a b : string) : bool := bool_decide (ToLower a = ToLower b).
Definition citext_le (a b : string) : bool := String.leb (ToLower a) (ToLower b).

(** rand.Read and what is built on it leave the database alone. *)
Lemma preserves_rand_Read `{Rand} I n : preserves I (rand_Read n).
Proof. intros w HI. unfold rand_Read. by destruct (rand_bytes _ _). Qed.
#[export] Hint Resolve preserves_rand_Read : dokas.
Lemma preserves_generateToken `{Rand} I : preserves I generateToken.
Proof. unfold generateToken. preserve. Qed.
#[export] Hint Resolve preserves_generateToken : dokas.
Lemma rand_Read_ret `{Rand} n w b w' : rand_Read n w = (Ret b, w') -> w_db w' = w_db w /\ rand_bytes (w_tick w) n = inr b.
Proof. unfold rand_Read. destruct (rand_bytes _ _); simpl; [discriminate|by intros [= <- <-]]. Qed.
Lemma generateToken_ret `{Rand} w raw hash w' :
  generateToken w = (Ret (raw, hash), w') -> w_db w' = w_db w /\ hash = hashToken raw.
Proof. unfold generateToken. intros (b & w1 & [Hdb _]%rand_Read_ret & [= <- <- <-])%bind_ret. done. Qed.

(** *** Lower case and trimming commute *)

Lemma byte_of_inj a b : byte_of a = byte_of b -> a = b.
Proof. intros H. rewrite <- (of_byte_of a), <- (of_byte_of b). by rewrite H. Qed.

Lemma lower_char_cases c :
  (65 <= byte_of c <= 90 /\ byte_of (lower_char c) = byte_of c + 32) \/
  (~ 65 <= byte_of c <= 90 /\ lower_char c = c).
Proof.
  unfold lower_char. pose proof (byte_of_range c) as Hr. unfold is_byte in Hr.
  destruct (Z.leb_spec 65 (byte_of c)), (Z.leb_spec (byte_of c) 90); simpl; [left|right..]; try (split; [lia|done]).
  rewrite byte_of_of_byte by (unfold is_byte; lia). split; [lia|done].
Qed.

Lemma white_lower c : white (lower_char c) = white c.
Proof.
  unfold white. destruct (lower_char_cases c) as [[Hc ->]|[_ ->]]; [|done].
  destruct (Z.eqb_spec (byte_of c) 32), (Z.eqb_spec (byte_of c + 32) 32), (Z.leb_spec 9 (byte_of c)),
    (Z.leb_spec (byte_of c) 13), (Z.leb_spec 9 (byte_of c + 32)), (Z.leb_spec (byte_of c + 32) 13); simpl; lia.
Qed.

Lemma lower_idem c : lower_char (lower_char c) = lower_char c.
Proof.
  destruct (lower_char_cases c) as [[Hc Hl]|[_ Hl]]; [|by rewrite Hl].
  destruct (lower_char_cases (lower_char c)) as [[Hc' _]|[_ ->]]; [lia|done].
Qed.

Lemma drop_while_fmap {A} (p : A -> bool) (f : A -> A) l :
  (forall x, p (f x) = p x) -> drop_while p (f <$> l) = f <$> drop_while p l.
Proof. intros Hp. induction l as [|x l IH]; simpl; [done|]. rewrite Hp. by destruct (p x). Qed.

Lemma chars_unchars l : chars (unchars l) = l.
Proof. apply String.list_ascii_of_string_of_list_ascii. Qed.

Lemma ToLower_TrimSpace s : ToLower (TrimSpace s) = TrimSpace (ToLower s).
Proof.
  unfold ToLower, TrimSpace, map_string, trim_by. rewrite !chars_unchars. f_equal.
  rewrite (drop_while_fmap white lower_char) by apply white_lower. rewrite <- (map_rev lower_char).
  change (map lower_char ?l) with (lower_char <$> l).
  rewrite (drop_while_fmap white lower_char) by apply white_lower. apply (map_rev lower_char).
Qed.

Lemma ToLower_idem s : ToLower (ToLower s) = ToLower s.
Proof.
  unfold ToLower, map_string. rewrite chars_unchars. f_equal. rewrite <- list_fmap_compose.
  apply list_fmap_ext. intros i x _. apply lower_idem.
Qed.

(** ** base32 (StdEncoding.WithPadding(NoPadding)) *)

Definition alphabet_32 : string := "ABCDEFGHIJKLMNOPQRSTUVWXYZ234567".

(** The [n] low bits of [z], most significant first, and back. *)
Fixpoint to_bits (n : nat) (z : Z) : list bool :=
  match n with O => [] | S n' => Z.testbit z (Z.of_nat n') :: to_bits n' z end.
Definition of_bits (l : list bool) : Z := foldl (fun a b => 2 * a + Z.b2z b) 0 l.

(** Five bits at a time; the last group is filled up with zeros. *)
Fixpoint symbols32 (fuel : nat) (bits : list bool) : list ascii :=
  match fuel with
  | O => []
  | S f => match bits with
           | [] => []
           | _ => let g := take 5 bits in
                  symbol alphabet_32 (of_bits (g ++ repeat false (5 - length g))) :: symbols32 f (drop 5 bits)
           end
  end.
Definition Base32_Encode (s : string) : string :=
  let bits := concat (to_bits 8 <$> bytes_of s) in unchars (symbols32 (length bits) bits).

(** Bytes in a quantum of this many symbols; a last quantum of 1, 3 or 6
    symbols yields none. *)
Definition quantum_bytes (n : nat) : nat :=
  match n with 8 => 5 | 7 => 4 | 5 => 3 | 4 => 2 | 2 => 1 | _ => 0 end%nat.
Fixpoint take_bytes (n : nat) (bits : list bool) : list Z :=
  match n with O => [] | S n' => of_bits (take 8 bits) :: take_bytes n' (drop 8 bits) end.
Fixpoint decode32 (fuel : nat) (l : list ascii) : option (list Z) :=
  match fuel with
  | O => Some []
  | S f => match l with
           | [] => Some []
           | _ => vs ← mapM (symbol_value alphabet_32) (take 8 l);
                  rest ← decode32 f (drop 8 l);
                  Some (take_bytes (quantum_bytes (length vs)) (concat (to_bits 5 <$> vs)) ++ rest)
           end
  end.
Definition Base32_Decode (s : string) : option string :=
  let l := filter (fun c => is_newline c = false) (chars s) in
  of_bytes <$> decode32 (length l) l.

Example base32_foobar : Base32_Encode "foobar" = "MZXW6YTBOI" /\ Base32_Decode "MZXW6YTBOI" = Some "foobar".
Proof. by vm_compute. Qed.
