(* ===== verification/Net.v ===== *)
(** The part of Go's package net the code relies on: IP addresses as bytes,
    their text form, and the address classes of net.IP's predicates. *)
From S2P Require Import Prelude Crypto Encoding.
From Stdlib Require Import Ascii.

(** net.IP: 4 or 16 bytes. *)
Abbreviation IP := (list Z).

Definition To4 (ip : IP) : option IP :=
  if (length ip =? 4)%nat then Some ip
  else if (length ip =? 16)%nat && bool_decide (take 12 ip = repeat 0 10 ++ [0xff; 0xff]) then Some (drop 12 ip)
  else None.
Definition byte_at (i : nat) (ip : IP) : Z := nth i ip 0.

(** ip.Equal: 4-byte addresses and their 16-byte forms are equal. *)
Definition Equal (a b : IP) : bool :=
  match To4 a, To4 b with
  | Some x, Some y => bool_decide (x = y)
  | None, None => bool_decide (a = b)
  | _, _ => false
  end.
Definition IPv4zero : IP := [0; 0; 0; 0].
Definition IPv6unspecified : IP := repeat 0 16.
Definition IPv6loopback : IP := repeat 0 15 ++ [1].

Definition IsUnspecified (ip : IP) : bool := Equal ip IPv4zero || Equal ip IPv6unspecified.
Definition IsLoopback (ip : IP) : bool :=
  match To4 ip with Some ip4 => byte_at 0 ip4 =? 127 | None => Equal ip IPv6loopback end.
Definition IsPrivate (ip : IP) : bool :=
  match To4 ip with
  | Some ip4 =>
      (byte_at 0 ip4 =? 10) || ((byte_at 0 ip4 =? 172) && (Z.land (byte_at 1 ip4) 0xf0 =? 16))
      || ((byte_at 0 ip4 =? 192) && (byte_at 1 ip4 =? 168))
  | None => (length ip =? 16)%nat && (Z.land (byte_at 0 ip) 0xfe =? 0xfc)
  end.
Definition IsMulticast (ip : IP) : bool :=
  match To4 ip with
  | Some ip4 => Z.land (byte_at 0 ip4) 0xf0 =? 0xe0
  | None => (length ip =? 16)%nat && (byte_at 0 ip =? 0xff)
  end.
Definition IsLinkLocalMulticast (ip : IP) : bool :=
  match To4 ip with
  | Some ip4 => (byte_at 0 ip4 =? 224) && (byte_at 1 ip4 =? 0) && (byte_at 2 ip4 =? 0)
  | None => (length ip =? 16)%nat && (byte_at 0 ip =? 0xff) && (Z.land (byte_at 1 ip) 0x0f =? 0x02)
  end.
Definition IsLinkLocalUnicast (ip : IP) : bool :=
  match To4 ip with
  | Some ip4 => (byte_at 0 ip4 =? 169) && (byte_at 1 ip4 =? 254)
  | None => (length ip =? 16)%nat && (byte_at 0 ip =? 0xfe) && (Z.land (byte_at 1 ip) 0xc0 =? 0x80)
  end.

(** ** Text *)

Fixpoint split_on (sep : ascii) (cur l : list ascii) : list (list ascii) :=
  match l with
  | [] => [rev cur]
  | c :: l' => if bool_decide (c = sep) then rev cur :: split_on sep [] l' else split_on sep (c :: cur) l'
  end.

(** A decimal field of a dotted quad: up to 255, no leading zero. *)
Definition dec_value (l : list ascii) : Z := foldl (fun v c => 10 * v + (byte_of c - 48)) 0 l.
Definition quad_field (l : list ascii) : option Z :=
  if bool_decide (l = []) || negb (forallb digit l) then None
  else if (1 <? length l)%nat && bool_decide (head l = Some "0"%char) then None
  else if 255 <? dec_value l then None else Some (dec_value l).
Definition parse_quad (l : list ascii) : option IP :=
  fs ← mapM quad_field (split_on "." [] l);
  if (length fs =? 4)%nat then Some fs else None.

(** A group of an IPv6 address: one to four hexadecimal digits. *)
Definition hex_value_any (c : ascii) : option Z := hex_value (lower_char c).
Definition hex_group (l : list ascii) : option IP :=
  if bool_decide (l = []) || (4 <? length l)%nat then None
  else v ← foldl (fun v c => a ← v; h ← hex_value_any c; Some (16 * a + h)) (Some 0) l;
       Some [v / 256; v mod 256].

(** Groups up to the end; the last may be a dotted quad. *)
Fixpoint hex_groups (gs : list (list ascii)) : option IP :=
  match gs with
  | [] => Some []
  | [g] => if bool_decide ("."%char ∈ g) then parse_quad g else hex_group g
  | g :: gs' => b ← hex_group g; bs ← hex_groups gs'; Some (b ++ bs)
  end.

(** The text before and after the first "::". *)
Fixpoint cut_ellipsis (pre l : list ascii) : option (list ascii * list ascii) :=
  match l with
  | [] => None
  | c :: l' =>
      match l' with
      | d :: l'' => if bool_decide (c = ":"%char) && bool_decide (d = ":"%char) then Some (rev pre, l'')
                    else cut_ellipsis (c :: pre) l'
      | [] => None
      end
  end.
Definition groups_of (l : list ascii) : option IP :=
  if bool_decide (l = []) then Some [] else hex_groups (split_on ":" [] l).
Definition parse_v6 (l : list ascii) : option IP :=
  match cut_ellipsis [] l with
  | None => bs ← groups_of l; if (length bs =? 16)%nat then Some bs else None
  | Some (a, b) =>
      if bool_decide ("."%char ∈ a) then None else
      x ← groups_of a; y ← groups_of b;
      if (length x + length y <? 16)%nat then Some (x ++ repeat 0 (16 - length x - length y) ++ y) else None
  end.

(** net.ParseIP: 16 bytes, IPv4 in its mapped form; zones are refused. *)
Definition ParseIP (s : string) : option IP :=
  let l := chars s in
  if bool_decide (":"%char ∈ l) then parse_v6 l
  else (fun q => repeat 0 10 ++ [0xff; 0xff] ++ q) <$> parse_quad l.

(** net.SplitHostPort on the addresses a dialer sees: host:port or [host]:port. *)
Fixpoint last_colon (n : nat) (l : list ascii) (best : option nat) : option nat :=
  match l with
  | [] => best
  | c :: l' => last_colon (S n) l' (if bool_decide (c = ":"%char) then Some n else best)
  end.
Definition SplitHostPort (s : string) : option (string * string) :=
  let l := chars s in
  i ← last_colon 0 l None;
  match l with
  | "["%char :: l' =>
      match split_on "]" [] l' with
      | [host; rest] =>
          if bool_decide (head rest = Some ":"%char) && negb (bool_decide (":"%char ∈ drop 1 rest))
             && negb (bool_decide ("["%char ∈ l'))
          then Some (unchars host, unchars (drop 1 rest)) else None
      | _ => None
      end
  | _ =>
      let host := take i l in
      if bool_decide (":"%char ∈ host) || bool_decide ("["%char ∈ l) || bool_decide ("]"%char ∈ l) then None
      else Some (unchars host, unchars (drop (S i) l))
  end.

Example ParseIP_v4 : ParseIP "192.168.1.1" = Some (repeat 0 10 ++ [255; 255; 192; 168; 1; 1]).
Proof. reflexivity. Qed.
Example ParseIP_v6 : ParseIP "fe80::1" = Some ([254; 128] ++ repeat 0 13 ++ [1]).
Proof. reflexivity. Qed.
Example ParseIP_mapped : (ParseIP "::ffff:10.0.0.1" ≫= To4) = Some [10; 0; 0; 1].
Proof. reflexivity. Qed.
Example ParseIP_zone : ParseIP "fe80::1%eth0" = None.
Proof. reflexivity. Qed.
Example SplitHostPort_v6 : SplitHostPort "[::1]:443" = Some ("::1", "443").
Proof. reflexivity. Qed.

(** ** Address ranges

    An address as a number, and its membership in a CIDR block. *)

Definition num (ip : IP) : Z := foldl (fun v b => 256 * v + b) 0 ip.
Definition in_block (bits : Z) (base len n : Z) : Prop := n / 2 ^ (bits - len) = base / 2 ^ (bits - len).

(** A proper address: 4 or 16 bytes. *)
Definition wf_ip (ip : IP) : Prop := (length ip = 4%nat \/ length ip = 16%nat) /\ Forall is_byte ip.

Lemma foldl_num l v : foldl (fun v b => 256 * v + b) v l = v * 256 ^ Z.of_nat (length l) + num l.
Proof.
  unfold num. revert v. induction l as [|b l IH]; intros v; simpl foldl; [simpl; lia|].
  rewrite (IH (256 * v + b)), (IH (256 * 0 + b)).
  replace (Z.of_nat (length (b :: l))) with (Z.succ (Z.of_nat (length l))) by (simpl; lia).
  rewrite Z.pow_succ_r by lia. ring.
Qed.

Lemma num_cons b l : num (b :: l) = b * 256 ^ Z.of_nat (length l) + num l.
Proof. unfold num at 1. simpl. rewrite foldl_num. f_equal. Qed.
Lemma num_app l1 l2 : num (l1 ++ l2) = num l1 * 256 ^ Z.of_nat (length l2) + num l2.
Proof. unfold num at 1. rewrite foldl_app. apply foldl_num. Qed.

Lemma num_range l : Forall is_byte l -> 0 <= num l < 256 ^ Z.of_nat (length l).
Proof.
  induction 1 as [|b l Hb _ IH]; [simpl; unfold num; simpl; lia|].
  rewrite num_cons. simpl length. rewrite Nat2Z.inj_succ, Z.pow_succ_r by lia. unfold is_byte in Hb. nia.
Qed.

(** The leading bytes are the quotient by the weight of the others. *)
Lemma num_prefix l1 l2 : Forall is_byte l2 -> num (l1 ++ l2) / 256 ^ Z.of_nat (length l2) = num l1.
Proof.
  intros H2%num_range. rewrite num_app. rewrite Z.div_add_l by (apply Z.pow_nonzero; lia).
  rewrite (Z.div_small (num l2)) by done. lia.
Qed.

Lemma num_inj l1 l2 :
  Forall is_byte l1 -> Forall is_byte l2 -> length l1 = length l2 -> num l1 = num l2 -> l1 = l2.
Proof.
  intros H1. revert l2. induction H1 as [|b l1 Hb H1 IH]; intros l2 H2 Hl Hn; [by destruct l2|].
  destruct H2 as [|c l2 Hc H2]; [done|]. simpl in Hl. injection Hl as Hl.
  rewrite !num_cons, Hl in Hn. pose proof (num_range _ H1) as R1. pose proof (num_range _ H2) as R2.
  rewrite Hl in R1. assert (b = c) as -> by nia. f_equal. apply IH; [done..|lia].
Qed.

(** A test on bytes holds of all of them when it holds of the 256. *)
Lemma byte_cases (P : Z -> bool) b : forallb P (Z.of_nat <$> seq 0 256) = true -> is_byte b -> P b = true.
Proof.
  intros HP Hb. rewrite forallb_forall in HP. apply HP. apply list_elem_of_In, list_elem_of_fmap.
  exists (Z.to_nat b). unfold is_byte in Hb. rewrite elem_of_seq. lia.
Qed.

(** A block whose prefix is [n] bytes and [k] bits of the byte after them. *)
Lemma in_block_prefix l1 l2 base k :
  Forall is_byte l2 -> 0 <= k ->
  (num (l1 ++ l2) / 2 ^ (8 * Z.of_nat (length l2) + k) = base) <-> num l1 / 2 ^ k = base.
Proof.
  intros H2 Hk. rewrite Z.pow_add_r by lia.
  replace (2 ^ (8 * Z.of_nat (length l2))) with (256 ^ Z.of_nat (length l2)) by (rewrite Z.pow_mul_r by lia; done).
  rewrite <- Z.div_div by (first [apply Z.pow_nonzero; lia | apply Z.pow_pos_nonneg; lia]).
  by rewrite num_prefix.
Qed.
