(* ===== verification/Path.v ===== *)
(** path/filepath on Unix: Clean, Join, Abs and Rel, on the slash-separated
    elements of a path. *)
From S2P Require Import Prelude Crypto Effects Schema Encoding.
From Stdlib Require Import Ascii.

Definition slash : ascii := "/"%char.

(** strings.Split(path, "/") and strings.Join(elems, "/"), on characters. *)
Fixpoint split (l : list ascii) : list (list ascii) :=
  match l with
  | [] => [[]]
  | c :: l' =>
      if bool_decide (c = slash) then [] :: split l'
      else match split l' with e :: es => (c :: e) :: es | [] => [[c]] end
  end.
Fixpoint join (es : list (list ascii)) : list ascii :=
  match es with
  | [] => []
  | [e] => e
  | e :: es' => e ++ slash :: join es'
  end.

Definition dot : list ascii := ["."%char].
Definition dotdot : list ascii := ["."%char; "."%char].

(** The elements of a cleaned path, latest first. *)
Definition clean_step (rooted : bool) (st : list (list ascii)) (e : list ascii) : list (list ascii) :=
  if bool_decide (e = []) || bool_decide (e = dot) then st
  else if bool_decide (e = dotdot) then
    match st with
    | [] => if rooted then [] else [dotdot]
    | top :: st' => if bool_decide (top = dotdot) then dotdot :: st else st'
    end
  else e :: st.
Definition elements (rooted : bool) (l : list ascii) : list (list ascii) :=
  rev (foldl (clean_step rooted) [] (split l)).

Definition rooted (l : list ascii) : bool := match l with c :: _ => bool_decide (c = slash) | [] => false end.

Definition clean (l : list ascii) : list ascii :=
  if rooted l then slash :: join (elements true l)
  else match elements false l with [] => dot | es => join es end.

Definition Clean (path : string) : string := unchars (clean (chars path)).
Definition IsAbs (path : string) : bool := rooted (chars path).
Definition Join (elem : list string) : string :=
  match filter (fun e => e <> "") elem with
  | [] => ""
  | es => Clean (unchars (join (chars <$> es)))
  end.

(** [wd] is os.Getwd(). *)
Definition Abs (wd : error + string) (path : string) : error + string :=
  if IsAbs path then inr (Clean path)
  else match wd with inl e => inl e | inr d => inr (Join [d; path]) end.

Fixpoint strip (base targ : list (list ascii)) : list (list ascii) * list (list ascii) :=
  match base, targ with
  | b :: base', t :: targ' => if bool_decide (b = t) then strip base' targ' else (base, targ)
  | _, _ => (base, targ)
  end.
Definition Rel (basepath targpath : string) : option string :=
  let base := chars basepath in let targ := chars targpath in
  if bool_decide (clean base = clean targ) then Some "."
  else if negb (Bool.eqb (rooted base) (rooted targ)) then None
  else match strip (elements (rooted base) base) (elements (rooted targ) targ) with
       | (b :: bs, ts) =>
           if bool_decide (b = dotdot) then None
           else Some (unchars (join (replicate (S (length bs)) dotdot ++ ts)))
       | ([], ts) => Some (unchars (join ts))
       end.

Example Clean_1 : Clean "/srv//backups/./x/../../etc" = "/srv/etc" /\ Clean "../a/.." = ".." /\ Clean "" = ".".
Proof. by vm_compute. Qed.
Example Rel_1 : Rel "/srv/backups" "/srv/backups/a/b" = Some "a/b" /\ Rel "/srv/backups" "/etc/passwd" = Some "../../etc/passwd".
Proof. by vm_compute. Qed.

(** ** Elements and their spelling *)

Definition plain (e : list ascii) : Prop := e <> [] /\ e <> dot /\ slash ∉ e.

Lemma split_no_slash l : Forall (fun e => slash ∉ e) (split l).
Proof.
  induction l as [|c l IH]; simpl; [repeat constructor; by intros ?%not_elem_of_nil|].
  case_bool_decide as Hc; [constructor; [by intros ?%not_elem_of_nil|done]|].
  destruct (split l) as [|e es]; [repeat constructor; set_solver|].
  apply Forall_cons in IH as [He Hes]. constructor; [set_solver|done].
Qed.

Lemma clean_step_plain r st e :
  slash ∉ e -> Forall plain st -> Forall plain (clean_step r st e).
Proof.
  intros He Hst. unfold clean_step.
  destruct (decide (e = [])) as [->|H1]; [by rewrite bool_decide_eq_true_2|].
  destruct (decide (e = dot)) as [->|H2]; [done|].
  rewrite (bool_decide_eq_false_2 (e = [])), (bool_decide_eq_false_2 (e = dot)) by done. simpl.
  assert (plain dotdot) as Hdd by (split; [done|split; [done|unfold dotdot; set_solver]]).
  case_bool_decide as H3; [|by apply Forall_cons; split; [split; [|split]|]].
  destruct st as [|top st']; [destruct r; [done|by apply Forall_cons]|].
  case_bool_decide; [by apply Forall_cons|by apply Forall_cons in Hst as [_ ?]].
Qed.

Lemma elements_plain r l : Forall plain (elements r l).
Proof.
  unfold elements. apply Forall_rev. pose proof (split_no_slash l) as Hs. revert Hs.
  assert (Forall plain (@nil (list ascii))) as H0 by constructor. revert H0. generalize (@nil (list ascii)) as st.
  induction (split l) as [|e es IH]; simpl; intros st Hst Hs; [done|].
  apply Forall_cons in Hs as [He Hs]. apply IH; [by apply clean_step_plain|done].
Qed.

Lemma elements_rooted l : Forall (fun e => e <> dotdot) (elements true l).
Proof.
  unfold elements. apply Forall_rev.
  assert (Forall (fun e => e <> dotdot) (@nil (list ascii))) as H0 by constructor. revert H0. generalize (@nil (list ascii)) as st.
  induction (split l) as [|e es IH]; simpl; intros st Hst; [done|]. apply IH. unfold clean_step.
  destruct (bool_decide (e = []) || bool_decide (e = dot)); [done|].
  case_bool_decide; [|by constructor]. destruct st as [|top st']; [done|].
  apply Forall_cons in Hst as [Ht Hst]. by rewrite (bool_decide_eq_false_2 (top = dotdot)).
Qed.

Lemma split_app_slash e l : slash ∉ e -> split (e ++ slash :: l) = e :: split l.
Proof.
  induction e as [|c e IH]; simpl; intros He; [done|].
  rewrite bool_decide_eq_false_2 by set_solver. by rewrite IH by set_solver.
Qed.
Lemma split_plain e : slash ∉ e -> split e = [e].
Proof.
  induction e as [|c e IH]; simpl; intros He; [done|].
  rewrite bool_decide_eq_false_2 by set_solver. by rewrite IH by set_solver.
Qed.
Lemma split_join es : es <> [] -> Forall (fun e => slash ∉ e) es -> split (join es) = es.
Proof.
  induction es as [|e es IH]; [done|]. intros _ [He Hes]%Forall_cons.
  destruct es as [|e' es]; simpl join; [by apply split_plain|].
  rewrite split_app_slash by done. f_equal. by apply IH.
Qed.

(** Joining is injective on plain elements. *)
Lemma join_inj es fs : Forall plain es -> Forall plain fs -> join es = join fs -> es = fs.
Proof.
  intros He Hf Hj.
  assert (forall l, Forall plain l -> Forall (fun e => slash ∉ e) l) as Hp
    by (intros l Hl; eapply Forall_impl; [exact Hl|intros ? (_ & _ & ?); done]).
  assert (forall l, Forall plain l -> join l = [] -> l = []) as Hn.
  { intros [|e l] Hl H0; [done|].
    apply Forall_cons in Hl as [[Hne _] _]. destruct l; simpl in H0; [by subst|]. by destruct e. }
  destruct (decide (es = [])) as [->|]; [symmetry; by apply Hn|].
  destruct (decide (fs = [])) as [->|]; [by apply Hn|].
  rewrite <- (split_join es), <- (split_join fs) by auto. by rewrite Hj.
Qed.

Lemma strip_spec base targ b t : strip base targ = (b, t) ->
  exists p, base = p ++ b /\ targ = p ++ t.
Proof.
  revert targ. induction base as [|x base IH]; intros [|y targ]; simpl; try (intros [= <- <-]; by exists []).
  case_bool_decide as Hxy; [subst y|intros [= <- <-]; by exists []].
  intros (p & -> & ->)%IH. by exists (x :: p).
Qed.

Lemma join_cons_prefix es fs : es <> [] -> fs <> [] -> join (es ++ fs) = join es ++ slash :: join fs.
Proof.
  induction es as [|e es IH]; [done|]. intros _ Hf. destruct es as [|e' es].
  - simpl. destruct fs; [done|]. done.
  - change (e ++ slash :: join ((e' :: es) ++ fs) = (e ++ slash :: join (e' :: es)) ++ slash :: join fs).
    rewrite IH by done. by rewrite <- app_assoc.
Qed.

(** A relative path that does not start by going up stays below its base. *)
Lemma Rel_inside base targ rel :
  rooted (chars base) = true -> rooted (chars targ) = true -> Rel base targ = Some rel ->
  rel <> ".." -> HasPrefix rel "../" = false ->
  exists below, elements true (chars targ) = elements true (chars base) ++ below.
Proof.
  intros Hb Ht. unfold Rel. rewrite Hb, Ht. simpl.
  case_bool_decide as Heq.
  { intros _ _ _. exists []. rewrite app_nil_r. unfold clean in Heq. rewrite Hb, Ht in Heq. injection Heq as Heq.
    symmetry. by apply join_inj; [apply elements_plain|apply elements_plain|]. }
  destruct (strip _ _) as [b ts] eqn:E. apply strip_spec in E as (p & Eb & Et). rewrite Eb, Et.
  destruct b as [|b bs]; [intros _ _ _; exists ts; by rewrite app_nil_r|].
  case_bool_decide; [done|]. intros [= <-] Hdd Hpre. exfalso. revert Hdd Hpre.
  change (replicate (S (length bs)) dotdot ++ ts) with (dotdot :: replicate (length bs) dotdot ++ ts).
  destruct (replicate (length bs) dotdot ++ ts) as [|x xs]; [intros H1; by destruct H1|].
  intros _. change (join (dotdot :: x :: xs)) with (dotdot ++ slash :: join (x :: xs)).
  generalize (join (x :: xs)). intros [|y l] Hp; discriminate Hp.
Qed.

(** ** A plain name in a directory *)

Lemma split_app l l' : split (l ++ slash :: l') = split l ++ split l'.
Proof.
  induction l as [|c l IH]; simpl; [done|]. case_bool_decide; [by rewrite IH|]. rewrite IH.
  destruct (split l) as [|e es] eqn:E; [|done]. destruct l; simpl in E; [done|]. case_bool_decide; [done|].
  by destruct (split l).
Qed.

Definition plain_name (s : string) : Prop := plain (chars s) /\ chars s <> dotdot.

Lemma elements_snoc r l f : plain f -> f <> dotdot -> elements r (l ++ slash :: f) = elements r l ++ [f].
Proof.
  intros (H1 & H2 & H3) Hdd. unfold elements. rewrite split_app, (split_plain f), foldl_app by done. simpl.
  unfold clean_step at 1. rewrite !bool_decide_eq_false_2 by done. done.
Qed.

Lemma clean_elements l : elements (rooted l) l <> [] ->
  clean l = (if rooted l then [slash] else []) ++ join (elements (rooted l) l).
Proof. unfold clean. intros He. destruct (rooted l); [done|]. by destruct (elements false l). Qed.

Lemma chars_inj s s' : chars s = chars s' -> s = s'.
Proof. intros H. rewrite <- (String.string_of_list_ascii_of_string s), H. apply String.string_of_list_ascii_of_string. Qed.

Lemma Join_name dir f : plain_name f ->
  exists r es, chars (Join [dir; f]) = (if (r : bool) then [slash] else []) ++ join (es ++ [chars f]) /\ Forall plain es /\
    (forall f', plain_name f' -> chars (Join [dir; f']) = (if r then [slash] else []) ++ join (es ++ [chars f'])).
Proof.
  intros Hf.
  assert (exists r es, Forall plain es /\
    (forall f', plain_name f' -> chars (Join [dir; f']) = (if (r : bool) then [slash] else []) ++ join (es ++ [chars f'])))
    as (r & es & He & Hall); [|exists r, es; auto].
  destruct (decide (dir = "")) as [->|Hd].
  - exists false, []. split; [constructor|]. intros f' [Hp Hdd]. destruct Hp as (H1 & H2 & H3).
    assert (f' <> "") by (by intros ->). unfold Join. rewrite !filter_cons, filter_nil, decide_False, decide_True by (naive_solver).
    simpl. unfold Clean. rewrite !chars_unchars. unfold clean.
    assert (rooted (chars f') = false) as ->.
    { destruct (chars f') as [|c l]; [done|]. simpl. apply bool_decide_eq_false_2. intros ->. apply H3. left. }
    unfold elements. rewrite split_plain by done. simpl. unfold clean_step. rewrite !bool_decide_eq_false_2 by done. done.
  - exists (rooted (chars dir)), (elements (rooted (chars dir)) (chars dir)). split; [apply elements_plain|].
    intros f' [Hp Hdd]. assert (f' <> "") by (intros ->; by destruct Hp).
    unfold Join. rewrite !filter_cons, filter_nil, !decide_True by done. simpl. unfold Clean. rewrite !chars_unchars.
    assert (rooted (chars dir ++ slash :: chars f') = rooted (chars dir)) as Hr.
    { destruct (chars dir) eqn:E; [|done]. destruct Hd. by apply chars_inj. }
    rewrite clean_elements; rewrite Hr, elements_snoc by done; [done|]. by destruct (elements _ _).
Qed.

(** Different names in one directory are different paths, none empty. *)
Lemma Join_inj dir f f' : plain_name f -> plain_name f' -> Join [dir; f] = Join [dir; f'] -> f = f'.
Proof.
  intros Hf Hf' Heq. destruct (Join_name dir f Hf) as (r & es & H1 & He & Hall). rewrite Heq, (Hall f' Hf') in H1.
  apply app_inv_head in H1. apply join_inj in H1.
  - apply app_inj_tail in H1 as [_ H1]. symmetry. by apply chars_inj.
  - apply Forall_app. split; [done|]. by constructor; [apply Hf'|].
  - apply Forall_app. split; [done|]. by constructor; [apply Hf|].
Qed.
Lemma Join_nonempty dir f : plain_name f -> Join [dir; f] <> "".
Proof.
  intros Hf Heq. destruct (Join_name dir f Hf) as (r & es & H1 & _ & _). rewrite Heq in H1.
  destruct r; [done|]. symmetry in H1. simpl in H1. destruct Hf as [(Hne & _) _].
  destruct es as [|e es]; simpl in H1; [done|]. destruct (es ++ [chars f]) eqn:E; [by destruct es|].
  by destruct e.
Qed.
