(* ===== verification/Time.v ===== *)
(** The part of Go's package time that formats: the UTC calendar and
    RFC 3339.  Instants are nanoseconds since the epoch. *)
From S2P Require Import Prelude Crypto Effects Schema Encoding.
From Stdlib Require Import Ascii.

Definition ns : Z := 1000000000.

(** The civil date of a day number (days since 1970-01-01), proleptic
    Gregorian: years start in March within eras of 400 years. *)
Definition civil (days : Z) : Z * Z * Z :=
  let z := days + 719468 in
  let era := z / 146097 in
  let doe := z mod 146097 in
  let yoe := (doe - doe / 1460 + doe / 36524 - doe / 146096) / 365 in
  let doy := doe - (365 * yoe + yoe / 4 - yoe / 100) in
  let mp := (5 * doy + 2) / 153 in
  let d := doy - (153 * mp + 2) / 5 + 1 in
  let m := if mp <? 10 then mp + 3 else mp - 9 in
  (yoe + era * 400 + (if m <=? 2 then 1 else 0), m, d).

(** [%0*d] *)
Fixpoint padded (n : nat) (z : Z) : string :=
  match n with
  | O => ""
  | S n' => String (of_byte (48 + z / 10 ^ Z.of_nat n' mod 10)) (padded n' z)
  end.

Definition FormatDate (t : time) : string :=
  let '(y, m, d) := civil (t / ns / 86400) in
  padded 4 y +:+ "-" +:+ padded 2 m +:+ "-" +:+ padded 2 d.
(** t.UTC().Format(time.RFC3339) *)
Definition FormatRFC3339 (t : time) : string :=
  let s := t / ns mod 86400 in
  FormatDate t +:+ "T" +:+ padded 2 (s / 3600) +:+ ":" +:+ padded 2 (s / 60 mod 60) +:+ ":" +:+ padded 2 (s mod 60) +:+ "Z".

Example rfc_epoch : FormatRFC3339 0 = "1970-01-01T00:00:00Z".
Proof. reflexivity. Qed.
Example rfc_leap : FormatRFC3339 (1709210096 * ns) = "2024-02-29T12:34:56Z".
Proof. reflexivity. Qed.
Example rfc_year_end : FormatRFC3339 (1798761599 * ns + 5) = "2026-12-31T23:59:59Z".
Proof. reflexivity. Qed.

(** t.UTC().Format(time.RFC3339Nano): the fraction without trailing zeros. *)
Fixpoint drop_zeros (l : list ascii) : list ascii :=
  match l with
  | [] => []
  | c :: l' => match drop_zeros l' with
               | [] => if bool_decide (c = "0"%char) then [] else [c]
               | l'' => c :: l''
               end
  end.
Definition fraction (t : time) : string :=
  match drop_zeros (chars (padded 9 (t mod ns))) with [] => "" | l => "." +:+ unchars l end.
Definition FormatRFC3339Nano (t : time) : string :=
  let s := t / ns mod 86400 in
  FormatDate t +:+ "T" +:+ padded 2 (s / 3600) +:+ ":" +:+ padded 2 (s / 60 mod 60) +:+ ":" +:+ padded 2 (s mod 60)
  +:+ fraction t +:+ "Z".

(** The formats 20060102 and 20060102T150405Z. *)
Definition FormatCompactDate (t : time) : string :=
  let '(y, m, d) := civil (t / ns / 86400) in padded 4 y +:+ padded 2 m +:+ padded 2 d.
Definition FormatCompact (t : time) : string :=
  let s := t / ns mod 86400 in
  FormatCompactDate t +:+ "T" +:+ padded 2 (s / 3600) +:+ padded 2 (s / 60 mod 60) +:+ padded 2 (s mod 60) +:+ "Z".

Example rfc_nano : FormatRFC3339Nano (1709210096 * ns + 120000) = "2024-02-29T12:34:56.00012Z" /\
  FormatRFC3339Nano (1709210096 * ns) = "2024-02-29T12:34:56Z" /\ FormatCompact (1709210096 * ns) = "20240229T123456Z".
Proof. by vm_compute. Qed.
