(* ===== verification/Http.v ===== *)
(** What a handler answers: net/http as far as the handlers use it.  The text
    of pages and error messages is not modelled, only which page. *)
From S2P Require Import Prelude Crypto Effects Schema Encoding.

Definition StatusOK : Z := 200.
Definition StatusCreated : Z := 201.
Definition StatusNoContent : Z := 204.
Definition StatusBadRequest : Z := 400.
Definition StatusUnauthorized : Z := 401.
Definition StatusPaymentRequired : Z := 402.
Definition StatusForbidden : Z := 403.
Definition StatusNotFound : Z := 404.
Definition StatusConflict : Z := 409.
Definition StatusGone : Z := 410.
Definition StatusRequestEntityTooLarge : Z := 413.

Definition StatusUnprocessableEntity : Z := 422.
Definition StatusTooManyRequests : Z := 429.
Definition StatusInternalServerError : Z := 500.
Definition StatusServiceUnavailable : Z := 503.

Inductive response : Type :=
| HTTPError (code : Z)                   (* http.Error, http.NotFound *)
| Redirect (url : string)                (* http.Redirect with 303 *)
| Render (code : Z) (page : string)      (* a templ page, by its name *)
| Text (code : Z) (body : string).       (* bytes written to the response *)

(** [v, err := m(...); if err != nil { return bad(err) }; return k(v)] *)
Definition or_else `{Env} {A R} (m : GO A) (bad : error -> R) (k : A -> GO R) : GO R :=
  r ← try m; match r with inl e => mret (bad e) | inr a => k a end.
