(* ===== verification/AuditLog.v ===== *)
(** The audit log (internal/audit/log.go). *)
From S2P Require Import Prelude Crypto Effects Schema Encoding Net.
From Stdlib Require Import Ascii.

Section audit.
Context `{env : Env}.

(** audit.Event; the literals of the code mostly leave IP and UserAgent out. *)
Record Event : Type := EventLit {
  e_AccountID : option uuid; e_ActorID : option uuid; e_Action : string;
  e_TargetKind : string; e_TargetID : string; e_IP : string; e_UserAgent : string; e_Metadata : metadata
}.
Definition mkEvent (acct actor : option uuid) (action kind id : string) (md : metadata) : Event :=
  EventLit acct actor action kind id "" "" md.

(** The next value of the bigserial: above every id in the table. *)
Definition next_event_id (l : list AuditEvent) : Z := 1 + foldr (fun e m => Z.max (ev_ID e) m) 0 l.

(** Logger.Record: an address PostgreSQL cannot read as INET, or an account
    that does not exist, is refused by the INSERT. *)
Definition Record_ (e : Event) : GO unit :=
  exec (fun now _ db =>
    match (if bool_decide (e_IP e = "") then Some None else Some <$> env_inet (e_IP e)),
          match e_AccountID e with Some a => accounts (account_db db) !! a | None => None end, e_AccountID e with
    | None, _, _ => inl (ErrNew "invalid input syntax for type inet")
    | _, None, Some _ => inl (ErrConstraint "audit_events_account_id_fkey")
    | Some ip, _, _ =>
        inr (db{{ audit_events ::= fun l =>
          l ++ [mkAuditEvent (next_event_id l) now (e_AccountID e) (e_ActorID e) (e_Action e)
                  (nullif_empty (e_TargetKind e)) (nullif_empty (e_TargetID e)) ip (nullif_empty (e_UserAgent e)) (e_Metadata e)] }}, tt)
    end).

(** ClientIP, on the X-Forwarded-For header and RemoteAddr. *)
Definition comma : ascii := ","%char.
Fixpoint index_char (c : ascii) (s : string) : option nat :=
  match s with
  | EmptyString => None
  | String d s' => if bool_decide (d = c) then Some 0%nat else S <$> index_char c s'
  end.
Definition ClientIP (xff RemoteAddr : string) : string :=
  if negb (bool_decide (xff = "")) then
    match index_char comma xff with
    | Some (S i) => TrimSpace (String.substring 0 (S i) xff)
    | _ => TrimSpace xff
    end
  else match SplitHostPort RemoteAddr with Some (host, _) => host | None => RemoteAddr end.

(** audit.Entry: an event with its actor's email. *)
Record Entry : Type := mkEntry {
  en_ID : Z; en_At : time; en_ActorEmail : string; en_Action : string; en_TargetKind : string;
  en_TargetID : string; en_IP : string; en_Metadata : metadata
}.
Definition entry (db : DB) (e : AuditEvent) : Entry :=
  mkEntry (ev_ID e) (ev_At e)
    (default "" (a ← ev_ActorID e; u_Email <$> users (account_db db) !! a))
    (ev_Action e) (default "" (ev_TargetKind e)) (default "" (ev_TargetID e)) (default "" (ev_IP e)) (ev_Metadata e).

(** The page of events older than [beforeID] that pass [p], newest first; a
    limit outside 1..200 falls back to 50. *)
Definition page (p : AuditEvent -> bool) (accountID : uuid) (limit beforeID : Z) (db : DB) : list Entry :=
  let limit := if (limit <=? 0) || (200 <? limit) then 50 else limit in
  entry db <$> take (Z.to_nat limit)
    (order_by (fun x y => ev_ID y <=? ev_ID x)
       (filter (fun e => bool_decide (ev_AccountID e = Some accountID) && p e
                         && ((beforeID =? 0) || (ev_ID e <? beforeID)) = true)
          (audit_events db))).

Definition ListForAccount (accountID : uuid) (limit beforeID : Z) : GO (list Entry) :=
  query (fun _ db => page (fun _ => true) accountID limit beforeID db).

Definition AlertActions : list string := ["drill.failed"; "drill.completed"; "heartbeat.down"; "heartbeat.up"].
Definition ListAlertsForAccount (accountID : uuid) (limit beforeID : Z) : GO (list Entry) :=
  query (fun _ db => page (fun e => bool_decide (ev_Action e ∈ AlertActions)) accountID limit beforeID db).

(** Recording an event only touches the log. *)
Lemma frame_Record {B} (proj : DB -> B) e :
  (forall f db, proj (db{{ audit_events ::= f }}) = proj db) -> frame proj (Record_ e).
Proof.
  intros Hp. apply frame_exec. intros t n db db' x Heq. repeat case_match; simplify_eq; apply Hp.
Qed.
End audit.
