(* ===== verification/Plans.v ===== *)
(** internal/account/limits.go and trial.go: plans, caps, cadences and the
    trial window. *)
From S2P Require Import Prelude Effects Schema.

Definition PlanTrial : Plan := "trial".
Definition PlanStarter : Plan := "starter".
Definition PlanPro : Plan := "pro".
Definition PlanScale : Plan := "scale".

Definition IsPaid (p : Plan) : bool :=
  bool_decide (p = PlanStarter) || bool_decide (p = PlanPro) || bool_decide (p = PlanScale).

(** Unlimited is the zero value: a Limits field left unset means "no cap". *)
Definition Unlimited : Z := 0.

Record Limits : Type := mkLimits {
  Databases : Z; Seats : Z; APIKeys : Z; Webhooks : Z; Heartbeats : Z;
  DrillsPerDay : Z; MaxDumpBytes : Z
}.
#[global] Instance Limits_eq_dec : EqDecision Limits.
Proof. solve_decision. Defined.

Definition gb : Z := Z.shiftl 1 30.

Definition LimitsFor (p : Plan) : Limits :=
  if bool_decide (p = PlanScale) then
    mkLimits 100 Unlimited Unlimited Unlimited Unlimited 500 (2 * 1024 * gb)
  else if bool_decide (p = PlanPro) then
    mkLimits 25 Unlimited Unlimited Unlimited 50 150 (500 * gb)
  else if bool_decide (p = PlanStarter) then
    mkLimits 5 Unlimited 10 10 25 30 (50 * gb)
  else if bool_decide (p = PlanTrial) then
    mkLimits 1 Unlimited 2 2 3 5 (5 * gb)
  else mkLimits 1 2 1 1 1 2 (1 * gb).

Definition AllowedCadences (p : Plan) : list string :=
  if bool_decide (p = PlanScale) || bool_decide (p = PlanPro) || bool_decide (p = PlanStarter)
  then ["off"; "monthly"; "weekly"; "daily"]
  else if bool_decide (p = PlanTrial) then ["off"; "monthly"; "weekly"]
  else ["off"; "monthly"; "weekly"].

Definition CadenceAllowed (p : Plan) (cadence : string) : bool :=
  existsb (fun c => bool_decide (c = cadence)) (AllowedCadences p).

(** allowed[len(allowed)-1] *)
Definition TopCadence (p : Plan) : string := List.last (AllowedCadences p) "".

Definition AtLimit (count limit : Z) : bool := negb (limit =? Unlimited) && (limit <=? count).

Definition zero_limits : Limits := mkLimits 0 0 0 0 0 0 0.

Definition EffectiveLimits (a : Account) : Limits :=
  if a_Unlimited a then zero_limits else LimitsFor (a_Plan a).

Definition IsPaidAccount (a : Account) : bool := a_Unlimited a || IsPaid (a_Plan a).

Definition CadenceAllowedForAccount (a : Account) (cadence : string) : bool :=
  if a_Unlimited a then
    bool_decide (cadence = "off") || bool_decide (cadence = "monthly") || bool_decide (cadence = "weekly")
    || bool_decide (cadence = "daily") || bool_decide (cadence = "hourly")
  else CadenceAllowed (a_Plan a) cadence.

Definition AllowedCadencesForAccount (a : Account) : list string :=
  if a_Unlimited a then ["off"; "monthly"; "weekly"; "daily"; "hourly"] else AllowedCadences (a_Plan a).

Definition TopCadenceForAccount (a : Account) : string :=
  if a_Unlimited a then "hourly" else TopCadence (a_Plan a).

(** ** The trial window; [now] is time.Now() *)

Definition hour : Z := 3600 * 1000000000.
Definition day : Z := 24 * hour.
Definition TrialDuration : Z := 14 * day.

Definition TrialActive (now : time) (a : Account) : bool :=
  if a_Unlimited a then false
  else bool_decide (a_Plan a = PlanTrial)
       && match a_TrialEndsAt a with Some e => now <? e | None => false end.

Definition TrialLapsed (now : time) (a : Account) : bool :=
  if a_Unlimited a then false
  else if negb (bool_decide (a_Plan a = PlanTrial)) then false
  else match a_TrialEndsAt a with None => true | Some e => e <? now end.

Definition TrialDaysLeft (now : time) (a : Account) : Z :=
  if negb (bool_decide (a_Plan a = PlanTrial)) then 0
  else match a_TrialEndsAt a with
  | None => 0
  | Some e =>
      let remaining := e - now in
      if remaining <=? 0 then 0
      else let days := Z.quot remaining day in
           if 0 <? Z.rem remaining day then days + 1 else days
  end.

(** ** Theorems *)

(** Cap [a] allows no more than cap [b]. *)
Definition cap_le (a b : Z) : Prop := b = Unlimited \/ (a <> Unlimited /\ a <= b).
Definition limits_le (x y : Limits) : Prop :=
  cap_le (Databases x) (Databases y) /\ cap_le (Seats x) (Seats y) /\ cap_le (APIKeys x) (APIKeys y) /\
  cap_le (Webhooks x) (Webhooks y) /\ cap_le (Heartbeats x) (Heartbeats y) /\
  cap_le (DrillsPerDay x) (DrillsPerDay y) /\ cap_le (MaxDumpBytes x) (MaxDumpBytes y).

Lemma AtLimit_cap_le a b n : cap_le a b -> AtLimit n b = true -> AtLimit n a = true.
Proof.
  unfold cap_le, AtLimit, Unlimited. rewrite !andb_true_iff, !negb_true_iff, !Z.eqb_neq, !Z.leb_le. lia.
Qed.

Definition known_plans : list Plan := [PlanTrial; PlanStarter; PlanPro; PlanScale].

(** a plan value that is not one of the four gets caps no wider than any
    plan's, so a bad value never widens access; the caps grow along trial,
    starter, pro, scale; every cap fits its machine integer. *)
Theorem LimitsFor_monotone p q :
  (p ∉ known_plans -> q ∈ known_plans -> limits_le (LimitsFor p) (LimitsFor q)) /\
  limits_le (LimitsFor PlanTrial) (LimitsFor PlanStarter) /\
  limits_le (LimitsFor PlanStarter) (LimitsFor PlanPro) /\
  limits_le (LimitsFor PlanPro) (LimitsFor PlanScale) /\
  0 < MaxDumpBytes (LimitsFor p) < 2 ^ 63.
Proof.
  assert (forall a b, (b =? Unlimited) || (negb (a =? Unlimited) && (a <=? b)) = true -> cap_le a b) as Hc.
  { intros a b H. unfold cap_le. apply orb_true_iff in H as [H|H]; [left; lia|right; lia]. }
  split; [|split; [|split; [|split]]].
  - intros Hp Hq. unfold LimitsFor at 1. unfold known_plans in *.
    rewrite !bool_decide_eq_false_2 by set_solver.
    rewrite !elem_of_cons, elem_of_nil in Hq. repeat (destruct Hq as [->|Hq]; [repeat split; by apply Hc|]). done.
  - repeat split; by apply Hc.
  - repeat split; by apply Hc.
  - repeat split; by apply Hc.
  - unfold LimitsFor. repeat case_bool_decide; simpl; vm_compute; split; congruence.
Qed.

(** a plan's headline cadence is one it may select, an Unlimited account
    may select whatever any plan may, and "off" is always allowed. *)
Theorem cadences_consistent a c :
  CadenceAllowed (a_Plan a) (TopCadence (a_Plan a)) = true /\
  CadenceAllowedForAccount a "off" = true /\
  CadenceAllowedForAccount a (TopCadenceForAccount a) = true /\
  (CadenceAllowed (a_Plan a) c = true -> CadenceAllowedForAccount a c = true) /\
  (CadenceAllowedForAccount a c = true <-> c ∈ AllowedCadencesForAccount a).
Proof.
  assert (forall p c, CadenceAllowed p c = true <-> c ∈ AllowedCadences p) as HA.
  { intros p c'. unfold CadenceAllowed. rewrite existsb_exists. setoid_rewrite bool_decide_eq_true.
    setoid_rewrite list_elem_of_In. naive_solver. }
  assert (forall p, AllowedCadences p = ["off"; "monthly"; "weekly"; "daily"] \/
                    AllowedCadences p = ["off"; "monthly"; "weekly"]) as Hp.
  { intros p. unfold AllowedCadences. destruct (_ || _); [by left|]. by destruct (bool_decide _); right. }
  rewrite !HA. unfold CadenceAllowedForAccount, TopCadenceForAccount, AllowedCadencesForAccount, TopCadence.
  destruct (Hp (a_Plan a)) as [E|E]; destruct (a_Unlimited a) eqn:Hu; rewrite ?HA, ?E; simpl;
    rewrite ?orb_true_iff, ?bool_decide_eq_true; repeat split; try (by set_solver).
Qed.

(** away from the exact end instant a trial account is either active or
    lapsed, one without an end date is lapsed, and an Unlimited or paid
    account is neither. *)
Theorem trial_window now a :
  (a_Unlimited a = true \/ a_Plan a <> PlanTrial -> TrialActive now a = false /\ TrialLapsed now a = false) /\
  (a_Unlimited a = false -> a_Plan a = PlanTrial -> a_TrialEndsAt a <> Some now ->
     TrialLapsed now a = negb (TrialActive now a)) /\
  (TrialActive now a = true <-> a_Unlimited a = false /\ 0 < TrialDaysLeft now a).
Proof.
  assert (0 < day) as Hday by done.
  unfold TrialActive, TrialLapsed, TrialDaysLeft. split; [|split].
  - intros [->|Hp]; [done|]. rewrite bool_decide_eq_false_2 by done. by destruct (a_Unlimited a).
  - intros -> Hp Hne. rewrite bool_decide_eq_true_2 by done. simpl.
    destruct (a_TrialEndsAt a) as [e|]; [|done].
    assert (e <> now) by congruence. destruct (Z.ltb_spec now e), (Z.ltb_spec e now); simpl; lia.
  - destruct (a_Unlimited a); [split; [done|by intros [? _]]|]. case_bool_decide; simpl; [|split; [done|lia]].
    destruct (a_TrialEndsAt a) as [e|]; [|split; [done|lia]].
    rewrite Z.ltb_lt. destruct (Z.leb_spec (e - now) 0); [split; [lia|lia]|].
    split; [|lia]. intros _. split; [done|].
    assert (0 <= Z.quot (e - now) day) by (apply Z.quot_pos; lia).
    pose proof (Z.quot_rem' (e - now) day). destruct (Z.ltb_spec 0 (Z.rem (e - now) day)); nia.
Qed.

Definition demo_trial : Account :=
  mkAccount 1 "Acme" "acme" None PlanTrial 0 (Some (3 * day + 1)) None false.

Lemma LimitsFor_monotone_witness :
  "enterprise" ∉ known_plans /\ limits_le (LimitsFor "enterprise") (LimitsFor PlanTrial).
Proof.
  assert ("enterprise" ∉ known_plans) as H by (unfold known_plans; set_solver). split; [exact H|].
  apply (LimitsFor_monotone "enterprise" PlanTrial); [exact H|left].
Defined.
Lemma cadences_consistent_witness : CadenceAllowedForAccount demo_trial "weekly" = true.
Proof.
  destruct (cadences_consistent demo_trial "weekly") as (_ & _ & _ & H & _). apply H. reflexivity.
Defined.
Lemma trial_window_witness : TrialLapsed 0 demo_trial = negb (TrialActive 0 demo_trial).
Proof.
  destruct (trial_window 0 demo_trial) as (_ & H & _).
  apply H; [reflexivity|reflexivity|discriminate].
Defined.
