(* ===== verification/Rbac.v ===== *)
(** internal/auth/rbac.go and the roles of internal/account/store.go. *)
From S2P Require Import Prelude Effects Schema.

Definition RoleOwner : Role := "owner".
Definition RoleAdmin : Role := "admin".
Definition RoleMember : Role := "member".
Definition RoleViewer : Role := "viewer".
Definition RoleExec : Role := "exec".
Definition RoleAuditor : Role := "auditor".

Definition Valid (r : Role) : bool :=
  bool_decide (r ∈ [RoleOwner; RoleAdmin; RoleMember; RoleViewer; RoleExec; RoleAuditor]).

Definition ValidInviteRole (r : Role) : bool :=
  bool_decide (r = RoleAdmin) || bool_decide (r = RoleMember) || bool_decide (r = RoleViewer)
  || bool_decide (r = RoleExec) || bool_decide (r = RoleAuditor).

Lemma ValidInviteRole_Valid r : ValidInviteRole r = true -> Valid r = true.
Proof.
  unfold ValidInviteRole, Valid. rewrite !orb_true_iff, !bool_decide_eq_true. intros H.
  rewrite !elem_of_cons. naive_solver.
Qed.

(** The actions; the constants' text is not inspected by the code. *)
Inductive Action : Type :=
| ActionAccountRead | ActionAccountWrite | ActionMemberRead | ActionMemberWrite
| ActionTeamRead | ActionTeamWrite | ActionBillingRead | ActionBillingWrite
| ActionTargetRead | ActionTargetWrite | ActionDrillRead | ActionDrillWrite
| ActionHeartbeatRead | ActionHeartbeatWrite | ActionEvidenceRead.

#[global] Instance Action_eq_dec : EqDecision Action.
Proof. solve_decision. Defined.

Definition owner_row (a : Action) : bool :=
  match a with
  | ActionAccountRead => true | ActionAccountWrite => true
  | ActionMemberRead => true | ActionMemberWrite => true
  | ActionTeamRead => true | ActionTeamWrite => true
  | ActionBillingRead => true | ActionBillingWrite => true
  | ActionTargetRead => true | ActionTargetWrite => true
  | ActionDrillRead => true | ActionDrillWrite => true
  | ActionHeartbeatRead => true | ActionHeartbeatWrite => true
  | ActionEvidenceRead => true
  end.
Definition admin_row (a : Action) : bool :=
  match a with
  | ActionAccountRead => true | ActionAccountWrite => true
  | ActionMemberRead => true | ActionMemberWrite => true
  | ActionTeamRead => true | ActionTeamWrite => true
  | ActionBillingRead => true | ActionBillingWrite => false
  | ActionTargetRead => true | ActionTargetWrite => true
  | ActionDrillRead => true | ActionDrillWrite => true
  | ActionHeartbeatRead => true | ActionHeartbeatWrite => true
  | ActionEvidenceRead => true
  end.
Definition member_row (a : Action) : bool :=
  match a with
  | ActionAccountRead => true | ActionAccountWrite => false
  | ActionMemberRead => true | ActionMemberWrite => false
  | ActionTeamRead => true | ActionTeamWrite => false
  | ActionBillingRead => true | ActionBillingWrite => false
  | ActionTargetRead => true | ActionTargetWrite => true
  | ActionDrillRead => true | ActionDrillWrite => true
  | ActionHeartbeatRead => true | ActionHeartbeatWrite => true
  | ActionEvidenceRead => true
  end.
Definition viewer_row (a : Action) : bool :=
  match a with
  | ActionAccountRead => true | ActionAccountWrite => false
  | ActionMemberRead => true | ActionMemberWrite => false
  | ActionTeamRead => true | ActionTeamWrite => false
  | ActionBillingRead => true | ActionBillingWrite => false
  | ActionTargetRead => true | ActionTargetWrite => false
  | ActionDrillRead => true | ActionDrillWrite => false
  | ActionHeartbeatRead => true | ActionHeartbeatWrite => false
  | ActionEvidenceRead => true
  end.
Definition exec_row (a : Action) : bool :=
  match a with
  | ActionAccountRead => true | ActionAccountWrite => false
  | ActionMemberRead => true | ActionMemberWrite => false
  | ActionTeamRead => true | ActionTeamWrite => false
  | ActionBillingRead => true | ActionBillingWrite => false
  | ActionTargetRead => true | ActionTargetWrite => false
  | ActionDrillRead => true | ActionDrillWrite => false
  | ActionHeartbeatRead => true | ActionHeartbeatWrite => false
  | ActionEvidenceRead => true
  end.
Definition auditor_row (a : Action) : bool :=
  match a with
  | ActionAccountRead => true | ActionAccountWrite => false
  | ActionMemberRead => false | ActionMemberWrite => false
  | ActionTeamRead => false | ActionTeamWrite => false
  | ActionBillingRead => false | ActionBillingWrite => false
  | ActionTargetRead => true | ActionTargetWrite => false
  | ActionDrillRead => true | ActionDrillWrite => false
  | ActionHeartbeatRead => true | ActionHeartbeatWrite => false
  | ActionEvidenceRead => true
  end.

Definition roleMatrix (r : Role) : option (Action -> bool) :=
  if bool_decide (r = RoleOwner) then Some owner_row
  else if bool_decide (r = RoleAdmin) then Some admin_row
  else if bool_decide (r = RoleMember) then Some member_row
  else if bool_decide (r = RoleViewer) then Some viewer_row
  else if bool_decide (r = RoleExec) then Some exec_row
  else if bool_decide (r = RoleAuditor) then Some auditor_row
  else None.

Definition Allowed (r : Role) (a : Action) : bool :=
  match roleMatrix r with Some m => m a | None => false end.

Definition ErrNoAccount : error := ErrNew "auth: no current account".
Definition ErrForbidden : error := ErrNew "auth: forbidden".

(** Authorize on the membership the request's context carries, if any. *)
Definition Authorize (m : option Membership) (a : Action) : option error :=
  match m with
  | None => Some ErrNoAccount
  | Some m => if Allowed (m_Role m) a then None else Some ErrForbidden
  end.

(** RequireAction: 403, or the wrapped handler's response. *)
Definition RequireAction {R} (forbidden : R) (a : Action) (next : R) (m : option Membership) : R :=
  match Authorize m a with Some _ => forbidden | None => next end.

(** ** Theorems *)

Definition is_write (a : Action) : bool :=
  match a with
  | ActionAccountWrite | ActionMemberWrite | ActionTeamWrite | ActionBillingWrite | ActionTargetWrite
  | ActionDrillWrite | ActionHeartbeatWrite => true
  | _ => false
  end.

Lemma roleMatrix_cases r :
  (Valid r = false /\ roleMatrix r = None) \/
  r ∈ [RoleOwner; RoleAdmin; RoleMember; RoleViewer; RoleExec; RoleAuditor].
Proof.
  destruct (decide (r ∈ [RoleOwner; RoleAdmin; RoleMember; RoleViewer; RoleExec; RoleAuditor])) as [H|H];
    [by right|left].
  unfold Valid, roleMatrix. rewrite !bool_decide_eq_false_2 by set_solver. done.
Qed.

Ltac each_role H :=
  rewrite !elem_of_cons, elem_of_nil in H; repeat (destruct H as [->|H]; [|]); [..|done].

(** access control at the middleware: a role outside the six known ones
    is denied everything, the owner is allowed everything, viewers,
    executives and auditors can write nothing, only the owner writes billing,
    and member administration is the owner's and the admin's; a request with
    no membership never reaches the handler. *)
Theorem authorize_matrix r m a :
  (Valid r = false -> Allowed r a = false) /\
  Allowed RoleOwner a = true /\
  (r ∈ [RoleViewer; RoleExec; RoleAuditor] -> is_write a = true -> Allowed r a = false) /\
  (Allowed r ActionBillingWrite = true -> r = RoleOwner) /\
  (Allowed r ActionMemberWrite = true -> r = RoleOwner \/ r = RoleAdmin) /\
  (forall R (forbidden next : R), forbidden <> next ->
     (RequireAction forbidden a next m = next <-> exists mb, m = Some mb /\ Allowed (m_Role mb) a = true)).
Proof.
  split; [|split; [by destruct a|split; [|split; [|split]]]].
  - intros H. unfold Allowed. destruct (roleMatrix_cases r) as [[_ ->]|Hr]; [done|].
    unfold Valid in H. by rewrite bool_decide_eq_true_2 in H.
  - intros Hr Ha. each_role Hr; by destruct a.
  - intros H. destruct (roleMatrix_cases r) as [[_ E]|Hr]; [by unfold Allowed in H; rewrite E in H|].
    each_role Hr; done.
  - intros H. destruct (roleMatrix_cases r) as [[_ E]|Hr]; [by unfold Allowed in H; rewrite E in H|].
    each_role Hr; first [by left|by right|done].
  - intros R f n Hne. unfold RequireAction, Authorize. destruct m as [mb|];
      [destruct (Allowed (m_Role mb) a) eqn:E|].
    + split; [by exists mb|done].
    + split; [by intros H; destruct (Hne H)|intros (mb' & [= <-] & H); congruence].
    + split; [by intros H; destruct (Hne H)|by intros (mb' & [=] & _)].
Qed.

Lemma authorize_matrix_witness : Allowed RoleAuditor ActionDrillWrite = false.
Proof.
  destruct (authorize_matrix RoleAuditor None ActionDrillWrite) as (_ & _ & H & _).
  apply H; [right; right; left|reflexivity].
Defined.
