(* ===== verification/AccountStore.v ===== *)
(** internal/account/store.go and team.go: accounts, members, invitations,
    subscriptions and teams. *)
From S2P Require Import Prelude Crypto Effects Schema Encoding Plans Rbac.
From Stdlib Require Import Ascii.

Definition ErrNotFound : error := ErrNew "account: not found".
Definition ErrInvitationGone : error := ErrNew "account: invitation expired or already accepted".
Definition ErrInvitationWrongEmail : error := ErrNew "account: invitation was issued to a different email".
Definition ErrSlugUnavailable : error := ErrNew "account: slug unavailable".
Definition ErrTeamNameTaken : error := ErrNew "account: a team with that name already exists".

(** ** Helpers *)

Fixpoint before_at (l : list ascii) : option (list ascii) :=
  match l with
  | [] => None
  | c :: l' => if bool_decide (c = "@"%char) then Some [] else cons c <$> before_at l'
  end.
Definition emailLocal (email : string) : string :=
  match before_at (chars email) with
  | Some (c :: l) => unchars (c :: l)
  | _ => email
  end.

Definition slugify (s : string) : string :=
  let s := ToLower s in
  let s := unchars (collapse alnum false (chars s)) in
  let s := trim_by dash s in
  let s := if bool_decide (s = "") then "user" else s in
  if (40 <? String.length s)%nat then String.substring 0 40 s else s.

Definition shortID `{UuidLib} (id : uuid) : string :=
  String.substring 0 6 (remove_char "-"%char (uuid_String id)).

Fixpoint sql_state (e : error) : option string :=
  match e with
  | ErrUnique => Some "23505"
  | ErrConstraint _ => Some "23514"
  | ErrWrap _ e => sql_state e
  | _ => None
  end.
Definition isUniqueViolation (e : error) : bool :=
  match sql_state e with
  | Some s => bool_decide (s = "23505")
  | None => Contains (ToLower (Error e)) "duplicate"
  end.

(** The error text, which quotes the input, is dropped. *)
Definition ParseRole (s : string) : option Role :=
  let r := ToLower (TrimSpace s) in if Valid r then Some r else None.

(** The CHECK constraint on accounts.plan. *)
Definition plan_check (p : Plan) : bool := bool_decide (p ∈ [PlanTrial; PlanStarter; PlanPro; PlanScale]).

Definition live_account (r : AccountRow) : bool := bool_decide (acr_deleted_at r = None).
Definition live_team (r : TeamRow) : bool := bool_decide (tmr_deleted_at r = None).

(** [for ... : if role == RoleOwner { ownerCount++ }; if uid == userID { ... }] *)
Definition lock_step (userID : uuid) (acc : nat * Role * bool) (m : Membership) : nat * Role * bool :=
  let '(ownerCount, targetRole, found) := acc in
  (if bool_decide (m_Role m = RoleOwner) then S ownerCount else ownerCount,
   if bool_decide (m_UserID m = userID) then m_Role m else targetRole,
   if bool_decide (m_UserID m = userID) then true else found).

Section account_store.
Context `{env : Env} `{uuids : UuidLib} `{rand : Rand}.

(** ** Accounts *)

Definition insert_account (name slug : string) : GO Account :=
  exec (fun now id db =>
    if sql_exists (fun r => live_account r && citext_eq (a_Slug (acr_account r)) slug) (accounts (account_db db))
    then inl ErrUnique
    else match accounts (account_db db) !! id with
    | Some _ => inl ErrUnique
    | None =>
        let a := mkAccount id name slug None PlanTrial now (Some (now + 14 * day)) None false in
        inr (db{{ account_db -> accounts ::= <[ id := mkAccountRow a None None None None ]> }}, a)
    end).

(** The memberships foreign keys and role check, and the row. *)
Definition membership_checks (db : DB) (accountID userID : uuid) (role : Role) : option error :=
  if negb (Valid role) then Some (ErrConstraint "memberships_role_check")
  else match accounts (account_db db) !! accountID, users (account_db db) !! userID with
  | Some _, Some _ => None
  | None, _ => Some (ErrConstraint "memberships_account_id_fkey")
  | _, None => Some (ErrConstraint "memberships_user_id_fkey")
  end.

Definition insert_membership (accountID userID : uuid) (role : Role) : GO unit :=
  exec (fun now _ db =>
    match membership_checks db accountID userID role, memberships (account_db db) !! (accountID, userID) with
    | Some e, _ => inl e
    | None, Some _ => inl ErrUnique
    | None, None =>
        inr (db{{ account_db -> memberships ::=
               <[ (accountID, userID) := mkMembership accountID userID role now ]> }}, tt)
    end).

Definition CreatePersonalAccount (userID : uuid) (email : string) : GO Account :=
  let local := emailLocal email in
  let name := local +:+ "'s workspace" in
  let slug := slugify local +:+ "-" +:+ shortID userID in
  tx (
    r ← try (insert_account name slug);
    match r with
    | inl e => fail (if isUniqueViolation e then ErrSlugUnavailable else e)
    | inr acct =>
        insert_membership (a_ID acct) userID RoleOwner;;
        mret (Commit acct)
    end).

Definition GetAccount (accountID : uuid) : GO Account :=
  no_rows_as ErrNotFound (query_row (fun _ db =>
    r ← accounts (account_db db) !! accountID;
    if live_account r then Some (acr_account r) else None)).

Definition update_account (accountID : uuid) (f : Account -> Account) : GO unit :=
  update (fun _ db => db{{ account_db -> accounts ::=
    alter (fun r => r{{ acr_account ::= f }}) accountID }}).

Definition SetStripeCustomerID (accountID : uuid) (customerID : string) : GO unit :=
  update_account accountID (fun a => a{{ a_StripeCustomerID := Some customerID }}).

Definition SetUnlimited (accountID : uuid) (unlimited : bool) : GO unit :=
  update_account accountID (fun a => a{{ a_Unlimited := unlimited }}).

(** accounts a JOIN memberships m (owners) JOIN users u, under [p]. *)
Definition owner_join (p : Account -> User -> bool) (db : DB) : list (Account * User) :=
  omap (fun m =>
    r ← accounts (account_db db) !! m_AccountID m;
    u ← users (account_db db) !! m_UserID m;
    if live_account r && p (acr_account r) u then Some (acr_account r, u) else None)
  (sql_select (fun m => bool_decide (m_Role m = RoleOwner)) (memberships (account_db db))).

Definition SetUnlimitedByOwnerEmail (email : string) (unlimited : bool) : GO uuid :=
  ids ← query (fun _ db => (fun au => a_ID au.1) <$>
          owner_join (fun _ u => bool_decide (ToLower (u_Email u) = ToLower email)) db);
  match ids with
  | [] => fail (ErrNew "account: no account owned by that email")
  | [id] => SetUnlimited id unlimited;; mret id
  | _ => fail (ErrNew "account: email owns multiple accounts — set by ID")
  end.

(** ** Subscriptions *)

(** [WHERE stripe_customer_id = $c AND (updated_at IS NULL OR updated_at <= $t)] *)
Definition sync_where (customerID : string) (eventCreated : time) (r : AccountRow) : bool :=
  bool_decide (a_StripeCustomerID (acr_account r) = Some customerID) &&
  match acr_subscription_status_updated_at r with None => true | Some t => t <=? eventCreated end.

Definition sync_set (subscriptionID status : string) (plan : Plan) (eventCreated : time)
    (r : AccountRow) : AccountRow :=
  r{{ acr_account -> a_Plan := plan;
      acr_stripe_subscription_id := nullif_empty subscriptionID;
      acr_account -> a_SubscriptionStatus := nullif_empty status;
      acr_subscription_status_updated_at := Some eventCreated }}.

Definition SyncSubscription (customerID subscriptionID status : string) (plan : Plan)
    (eventCreated : time) : GO unit :=
  exec (fun _ _ db =>
    let p := sync_where customerID eventCreated in
    if negb (plan_check plan) && sql_exists p (accounts (account_db db))
    then inl (ErrConstraint "accounts_plan_check")
    else inr (db{{ account_db -> accounts ::=
                sql_update p (sync_set subscriptionID status plan eventCreated) }}, tt)).

Definition cancel_set (eventCreated graceUntil : time) (r : AccountRow) : AccountRow :=
  r{{ acr_account -> a_Plan := PlanTrial;
      acr_stripe_subscription_id := None;
      acr_account -> a_SubscriptionStatus := Some "canceled";
      acr_subscription_status_updated_at := Some eventCreated;
      acr_account -> a_TrialEndsAt := Some graceUntil }}.

Definition HandleSubscriptionCanceled (customerID : string) (eventCreated graceUntil : time) : GO unit :=
  update (fun _ db => db{{ account_db -> accounts ::=
    sql_update (sync_where customerID eventCreated) (cancel_set eventCreated graceUntil) }}).

Record OwnerContact : Type := mkOwnerContact { oc_AccountID : uuid; oc_AccountName : string; oc_OwnerEmail : string }.

Definition OwnerByStripeCustomer (customerID : string) : GO OwnerContact :=
  query_row (fun _ db =>
    '(a, u) ← head (owner_join (fun a _ => bool_decide (a_StripeCustomerID a = Some customerID)) db);
    Some (mkOwnerContact (a_ID a) (a_Name a) (u_Email u))).

(** true on first sight of the event, false on a duplicate. *)
Definition RecordStripeEvent (eventID : string) : GO bool :=
  n ← update_n (fun _ db =>
        if bool_decide (eventID ∈ stripe_events (account_db db)) then (db, 0%nat)
        else (db{{ account_db -> stripe_events ::= union {[ eventID ]} }}, 1%nat));
  mret (n =? 1)%nat.

(** ** Members *)

Definition of_user_order (l : list (Account * Role)) : list (Account * Role) :=
  order_by (fun x y => a_CreatedAt x.1 <=? a_CreatedAt y.1) l.

(** The query reads seven columns; the other fields keep their zero values. *)
Definition ListAccountsForUser (userID : uuid) : GO (list (Account * Role)) :=
  query (fun _ db =>
    of_user_order (omap (fun m =>
      r ← accounts (account_db db) !! m_AccountID m;
      let a := acr_account r in
      if live_account r
      then Some (mkAccount (a_ID a) (a_Name a) (a_Slug a) (a_StripeCustomerID a) (a_Plan a)
                   (a_CreatedAt a) None None false, m_Role m)
      else None)
    (sql_select (fun m => bool_decide (m_UserID m = userID)) (memberships (account_db db))))).

Definition GetMembership (accountID userID : uuid) : GO Membership :=
  no_rows_as ErrNotFound (query_row (fun _ db => memberships (account_db db) !! (accountID, userID))).

Definition ListMembers (accountID : uuid) : GO (list (Membership * string)) :=
  query (fun _ db =>
    order_by (fun x y => m_CreatedAt x.1 <=? m_CreatedAt y.1)
      (omap (fun m =>
         u ← users (account_db db) !! m_UserID m;
         if bool_decide (u_DeletedAt u = None) then Some (m, u_Email u) else None)
       (sql_select (fun m => bool_decide (m_AccountID m = accountID)) (memberships (account_db db))))).

(** Inside a transaction only: FOR UPDATE keeps the rows until it ends. *)
Definition lockMembers (accountID userID : uuid) : GO (nat * Role * bool) :=
  rows ← query (fun _ db =>
    sql_select (fun m => bool_decide (m_AccountID m = accountID)) (memberships (account_db db)));
  mret (foldl (lock_step userID) (0%nat, "", false) rows).

Definition set_role (accountID userID : uuid) (role : Role) : GO unit :=
  update (fun _ db => db{{ account_db -> memberships ::=
    alter (fun m => m{{ m_Role := role }}) (accountID, userID) }}).

Definition UpdateMemberRole (accountID userID : uuid) (role : Role) : GO unit :=
  if negb (Valid role) then fail (ErrNew "invalid role") else
  tx (
    '(ownerCount, currentRole, found) ← lockMembers accountID userID;
    if negb (found : bool) then fail ErrNotFound
    else if negb (bool_decide (role = RoleOwner)) && bool_decide (currentRole = RoleOwner)
            && (ownerCount <=? 1)%nat
    then fail (ErrNew "cannot demote the only owner")
    else set_role accountID userID role;; mret (Commit tt)).

(** TransferOwnership's two halves: the reads, which take no lock, and the
    writes. *)
Definition transfer_check (accountID fromUserID toUserID : uuid) : GO unit :=
  fromRole ← no_rows_as ErrNotFound (query_row (fun _ db =>
    m_Role <$> memberships (account_db db) !! (accountID, fromUserID)));
  if negb (bool_decide (fromRole = RoleOwner))
  then fail (ErrNew "account: only the current owner can transfer ownership") else
  toExists ← query (fun _ db => bool_decide (is_Some (memberships (account_db db) !! (accountID, toUserID))));
  if negb (toExists : bool) then fail ErrNotFound else mret tt.

Definition transfer_write (accountID fromUserID toUserID : uuid) : GO unit :=
  set_role accountID fromUserID RoleAdmin;;
  set_role accountID toUserID RoleOwner.

Definition TransferOwnership (accountID fromUserID toUserID : uuid) : GO unit :=
  if bool_decide (fromUserID = toUserID)
  then fail (ErrNew "account: cannot transfer ownership to the current owner") else
  tx (
    transfer_check accountID fromUserID toUserID;;
    transfer_write accountID fromUserID toUserID;;
    mret (Commit tt)).

Definition RemoveMember (accountID userID : uuid) : GO unit :=
  tx (
    '(ownerCount, role, found) ← lockMembers accountID userID;
    if negb (found : bool) then fail ErrNotFound
    else if bool_decide (role = RoleOwner) && (ownerCount <=? 1)%nat
    then fail (ErrNew "cannot remove the only owner")
    else update (fun _ db => db{{ account_db -> memberships ::= delete (accountID, userID) }});;
         mret (Commit tt)).

(** ** Invitations *)

Definition insert_invitation (inv : Invitation) : GO (uuid * time) :=
  exec (fun now id db =>
    if negb (ValidInviteRole (i_Role inv)) then inl (ErrConstraint "invitations_role_check")
    else if sql_exists (fun i => bool_decide (i_TokenHash i = i_TokenHash inv)) (invitations (account_db db))
    then inl ErrUnique
    else match accounts (account_db db) !! i_AccountID inv, users (account_db db) !! i_InvitedByUserID inv,
               invitations (account_db db) !! id with
    | None, _, _ => inl (ErrConstraint "invitations_account_id_fkey")
    | _, None, _ => inl (ErrConstraint "invitations_invited_by_user_id_fkey")
    | _, _, Some _ => inl ErrUnique
    | Some _, Some _, None =>
        inr (db{{ account_db -> invitations ::= <[ id := inv{{ i_ID := id; i_CreatedAt := now }} ]> }}, (id, now))
    end).

(** The raw token goes into the mail; [i_TokenHash] stands for the column. *)
Definition CreateInvitation (accountID invitedBy : uuid) (email : string) (role : Role) (ttl : Z)
    : GO (string * Invitation) :=
  if negb (ValidInviteRole role) then fail (ErrNew "invalid invite role") else
  '(raw, hash) ← generateToken;
  now ← time_Now;
  let inv := mkInvitation uuid_Nil accountID (TrimSpace (ToLower email)) role invitedBy (now + ttl) None 0 hash in
  '(id, at_) ← insert_invitation inv;
  mret (raw, inv{{ i_ID := id; i_CreatedAt := at_ }}).

Definition by_hash (hash : string) (db : DB) : option Invitation :=
  head (sql_select (fun i => bool_decide (i_TokenHash i = hash)) (invitations (account_db db))).

(** The row that some callers read beside ErrInvitationGone is dropped. *)
Definition LookupInvitation (rawToken : string) : GO Invitation :=
  inv ← no_rows_as ErrNotFound (query_row (fun _ db => by_hash (hashToken rawToken) db));
  match i_AcceptedAt inv with
  | Some _ => fail ErrInvitationGone
  | None =>
      now ← time_Now;
      if i_ExpiresAt inv <? now then fail ErrInvitationGone else mret inv
  end.

Definition AcceptInvitation (rawToken : string) (userID : uuid) (userEmail : string) : GO Invitation :=
  tx (
    inv ← no_rows_as ErrNotFound (query_row (fun _ db => by_hash (hashToken rawToken) db));
    match i_AcceptedAt inv with
    | Some _ => fail ErrInvitationGone
    | None =>
        now ← time_Now;
        if i_ExpiresAt inv <? now then fail ErrInvitationGone
        else if negb (EqualFold (TrimSpace userEmail) (i_Email inv)) then fail ErrInvitationWrongEmail
        else
          exec (fun now _ db =>
            match memberships (account_db db) !! (i_AccountID inv, userID) with
            | Some _ => inr (db, tt)
            | None =>
                match membership_checks db (i_AccountID inv) userID (i_Role inv) with
                | Some e => inl e
                | None =>
                    inr (db{{ account_db -> memberships ::=
                           <[ (i_AccountID inv, userID) :=
                                mkMembership (i_AccountID inv) userID (i_Role inv) now ]> }}, tt)
                end
            end);;
          now ← time_Now;
          update (fun _ db => db{{ account_db -> invitations ::=
            alter (fun i => i{{ i_AcceptedAt := Some now }}) (i_ID inv) }});;
          mret (Commit (inv{{ i_AcceptedAt := Some now }}))
    end).

Definition ListPendingInvitations (accountID : uuid) : GO (list Invitation) :=
  query (fun _ db =>
    order_by (fun x y => i_CreatedAt y <=? i_CreatedAt x)
      (sql_select (fun i => bool_decide (i_AccountID i = accountID) && bool_decide (i_AcceptedAt i = None))
         (invitations (account_db db)))).

(** ** Teams *)

(** teams_account_name_unique, over the rows other than [except]. *)
Definition team_name_taken (db : DB) (accountID : uuid) (name : string) (except : uuid) : bool :=
  sql_exists (fun r => live_team r && bool_decide (tm_AccountID (tmr_team r) = accountID)
                && citext_eq (tm_Name (tmr_team r)) name
                && negb (bool_decide (tm_ID (tmr_team r) = except))) (teams (account_db db)).

Definition insert_team (accountID : uuid) (name : string) : GO uuid :=
  exec (fun _ id db =>
    match accounts (account_db db) !! accountID with
    | None => inl (ErrConstraint "teams_account_id_fkey")
    | Some _ =>
        if team_name_taken db accountID name id || bool_decide (is_Some (teams (account_db db) !! id))
        then inl ErrUnique
        else inr (db{{ account_db -> teams ::=
                    <[ id := mkTeamRow (mkTeam id accountID name) None ]> }}, id)
    end).

Definition CreateTeam (accountID : uuid) (name : string) : GO Team :=
  r ← try (insert_team accountID name);
  match r with
  | inl e => fail (if isUniqueViolation e then ErrTeamNameTaken else e)
  | inr id => mret (mkTeam id accountID name)
  end.

Definition RenameTeam (accountID teamID : uuid) (name : string) : GO unit :=
  r ← try (exec (fun _ _ db =>
    match teams (account_db db) !! teamID with
    | Some r =>
        if bool_decide (tm_AccountID (tmr_team r) = accountID) && live_team r then
          if team_name_taken db accountID name teamID then inl ErrUnique
          else inr (db{{ account_db -> teams ::=
                      alter (fun r => r{{ tmr_team -> tm_Name := name }}) teamID }}, 1%nat)
        else inr (db, 0%nat)
    | None => inr (db, 0%nat)
    end));
  match r with
  | inl e => fail (if isUniqueViolation e then ErrTeamNameTaken else e)
  | inr n => if (n =? 0)%nat then fail ErrNotFound else mret tt
  end.

(** The row goes, the foreign keys cascade: team_memberships are deleted and
    database_targets.team_id is set to NULL. *)
Definition DeleteTeam (accountID teamID : uuid) : GO unit :=
  n ← update_n (fun _ db =>
    match teams (account_db db) !! teamID with
    | Some r =>
        if bool_decide (tm_AccountID (tmr_team r) = accountID)
        then (db{{ account_db -> teams ::= delete teamID;
                   account_db -> team_memberships ::= filter (fun e : uuid * uuid => e.1 <> teamID);
                   drill_db -> targets ::=
                     sql_update (fun t => bool_decide (t_TeamID (tr_target t) = Some teamID))
                       (fun t => t{{ tr_target -> t_TeamID := None }}) }}, 1%nat)
        else (db, 0%nat)
    | None => (db, 0%nat)
    end);
  if (n =? 0)%nat then fail ErrNotFound else mret tt.

Definition ListTeams (accountID : uuid) : GO (list Team) :=
  query (fun _ db =>
    order_by (fun x y => citext_le (tm_Name x) (tm_Name y))
      (tmr_team <$> sql_select (fun r => bool_decide (tm_AccountID (tmr_team r) = accountID) && live_team r)
                      (teams (account_db db)))).

Definition team_in (db : DB) (accountID teamID : uuid) (only_live : bool) : bool :=
  match teams (account_db db) !! teamID with
  | Some r => bool_decide (tm_AccountID (tmr_team r) = accountID) && (negb only_live || live_team r)
  | None => false
  end.

Definition AddTeamMember (accountID teamID userID : uuid) : GO unit :=
  n ← update_n (fun _ db =>
    if team_in db accountID teamID true
       && bool_decide (is_Some (memberships (account_db db) !! (accountID, userID)))
       && negb (bool_decide ((teamID, userID) ∈ team_memberships (account_db db)))
    then (db{{ account_db -> team_memberships ::= union {[ (teamID, userID) ]} }}, 1%nat)
    else (db, 0%nat));
  if (n =? 0)%nat then
    ok ← query (fun _ db => bool_decide ((teamID, userID) ∈ team_memberships (account_db db))
                            && team_in db accountID teamID false);
    if negb (ok : bool) then fail ErrNotFound else mret tt
  else mret tt.

Definition RemoveTeamMember (accountID teamID userID : uuid) : GO unit :=
  update (fun _ db =>
    if team_in db accountID teamID false
    then db{{ account_db -> team_memberships ::= fun s => s ∖ {[ (teamID, userID) ]} }}
    else db).

Definition TeamMemberships (accountID : uuid) : GO (list (uuid * uuid)) :=
  query (fun _ db => filter (fun e => team_in db accountID e.1 true = true)
                       (elements (team_memberships (account_db db)))).

Definition TeamIDsForUser (accountID userID : uuid) : GO (list uuid) :=
  query (fun _ db => fst <$> filter (fun e => team_in db accountID e.1 true && bool_decide (e.2 = userID) = true)
                               (elements (team_memberships (account_db db)))).

Definition GetTeam (accountID teamID : uuid) : GO Team :=
  no_rows_as ErrNotFound (query_row (fun _ db =>
    r ← teams (account_db db) !! teamID;
    if bool_decide (tm_AccountID (tmr_team r) = accountID) && live_team r then Some (tmr_team r) else None)).
End account_store.
