(* ===== verification/DrillStore.v ===== *)
(** internal/drill/store.go: the drill domain's statements. *)
From S2P Require Import Prelude Crypto Effects Schema AuditLog.

Definition ErrNotFound : error := ErrNew "drill: not found".

(** AllSteps is the canonical execution order. *)
Definition AllSteps : list StepName :=
  [StepProvision; StepFetch; StepRestore; StepAssert; StepReport; StepTeardown].

Definition StepName_String (n : StepName) : string :=
  match n with
  | StepProvision => "provision" | StepFetch => "fetch" | StepRestore => "restore"
  | StepAssert => "assert" | StepReport => "report" | StepTeardown => "teardown"
  end.

Definition Terminal (s : Status) : bool :=
  match s with StatusSucceeded | StatusFailed | StatusSkipped => true | _ => false end.

(** Scope narrows a listing to what a viewer may see. *)
Record Scope : Type := mkScope { All : bool; TeamIDs : list uuid }.
Definition ScopeAll : Scope := mkScope true [].

(** [$all OR team_id IS NULL OR team_id = ANY($teams)] *)
Definition in_scope (sc : Scope) (t : Target) : bool :=
  All sc || match t_TeamID t with None => true | Some tm => bool_decide (tm ∈ TeamIDs sc) end.

(** The CHECK constraints of the migrations. *)
Definition source_kind_check (k : string) : bool := bool_decide (k = "postgres_dump_local").
Definition cadence_check (c : string) : bool := bool_decide (c ∈ ["off"; "weekly"; "daily"; "hourly"]).
Definition assertion_kind_check (k : string) : bool :=
  bool_decide (k ∈ ["row_count"; "table_exists"; "column_exists"; "no_nulls"]).

Definition live (t : TargetRow) : bool := bool_decide (tr_deleted_at t = None).

(** [(created_at, id) < (at, id)] of the keyset pages; no cursor admits all. *)
Definition before_cursor (after : option (time * uuid)) (at_ : time) (id : uuid) : bool :=
  match after with
  | None => true
  | Some (cat, cid) => (at_ <? cat) || ((at_ =? cat) && (id <? cid)%N)
  end.

(** [ORDER BY created_at DESC, id DESC] *)
Definition newest_first {R} (at_ : R -> time) (id : R -> uuid) (x y : R) : bool :=
  (at_ y <? at_ x) || ((at_ y =? at_ x) && (id y <=? id x)%N).
Definition oldest_first {R} (at_ : R -> time) (id : R -> uuid) (x y : R) : bool :=
  (at_ x <? at_ y) || ((at_ x =? at_ y) && (id x <=? id y)%N).

Section drill_store.
Context `{env : Env} `{uuids : UuidLib}.

(** ** Targets *)

Definition CreateTarget (t : Target) : GO Target :=
  exec (fun now id db =>
    if negb (source_kind_check (t_SourceKind t)) then inl (ErrConstraint "source_kind_check")
    else if t_IsSample t && sql_exists (fun r => live r && t_IsSample (tr_target r)
              && bool_decide (t_AccountID (tr_target r) = t_AccountID t)) (targets (drill_db db))
    then inl ErrUnique
    else match targets (drill_db db) !! id with
    | Some _ => inl ErrUnique
    | None =>
        let row := mkTarget id (t_AccountID t) (t_CreatedByUserID t) (t_Name t) (t_SourceKind t)
                     (t_SourceURI t) None now "off" None (t_IsSample t) in
        inr (db{{ drill_db -> targets ::= <[ id := mkTargetRow row None ]> }},
             t{{ t_ID := id; t_CreatedAt := now }})
    end).

Definition SetTargetTeam (accountID targetID : uuid) (teamID : option uuid) : GO unit :=
  n ← update_n (fun _ db =>
    let team_ok := match teamID with
      | None => true
      | Some tid => match teams (account_db db) !! tid with
          | Some r => bool_decide (tm_AccountID (tmr_team r) = accountID)
                      && bool_decide (tmr_deleted_at r = None)
          | None => false
          end
      end in
    let p r := bool_decide (t_ID (tr_target r) = targetID)
               && bool_decide (t_AccountID (tr_target r) = accountID) && live r && team_ok in
    (db{{ drill_db -> targets ::=
           sql_update p (fun r => r{{ tr_target -> t_TeamID := teamID }}) }},
     sql_count p (targets (drill_db db))));
  if (n =? 0)%nat then fail ErrNotFound else mret tt.

Definition GetSampleTarget (accountID : uuid) : GO Target :=
  no_rows_as ErrNotFound (query_row (fun _ db =>
    tr_target <$> head (sql_select (fun r => bool_decide (t_AccountID (tr_target r) = accountID)
      && t_IsSample (tr_target r) && live r) (targets (drill_db db))))).

Definition ListTargets (accountID : uuid) (scope : Scope) : GO (list Target) :=
  query (fun _ db => order_by (newest_first t_CreatedAt t_ID)
    (tr_target <$> sql_select (fun r => bool_decide (t_AccountID (tr_target r) = accountID)
       && live r && in_scope scope (tr_target r)) (targets (drill_db db)))).

(** The columns ListTargetsPage and GetTargetByID do not select are zero. *)
Definition page_columns (t : Target) : Target := t{{ t_DrillCadence := ""; t_NextDrillAt := None }}.
Definition byid_columns (t : Target) : Target :=
  t{{ t_TeamID := None; t_DrillCadence := ""; t_NextDrillAt := None }}.

Definition ListTargetsPage (accountID : uuid) (scope : Scope) (after : option (time * uuid))
    (limit : Z) : GO (list Target) :=
  query (fun _ db => take (Z.to_nat limit) (page_columns <$>
    order_by (newest_first t_CreatedAt t_ID)
      (tr_target <$> sql_select (fun r => bool_decide (t_AccountID (tr_target r) = accountID)
         && live r && in_scope scope (tr_target r)
         && before_cursor after (t_CreatedAt (tr_target r)) (t_ID (tr_target r)))
       (targets (drill_db db))))).

Definition GetTarget (accountID targetID : uuid) (scope : Scope) : GO Target :=
  no_rows_as ErrNotFound (query_row (fun _ db =>
    match targets (drill_db db) !! targetID with
    | Some r => if bool_decide (t_AccountID (tr_target r) = accountID) && live r
                   && in_scope scope (tr_target r)
                then Some (tr_target r) else None
    | None => None
    end)).

Definition GetTargetByID (targetID : uuid) : GO Target :=
  no_rows_as ErrNotFound (query_row (fun _ db =>
    (fun r => byid_columns (tr_target r)) <$> targets (drill_db db) !! targetID)).

(** CreatorEmail: "" when the user is gone. *)
Definition CreatorEmail (userID : uuid) : GO string :=
  r ← try (query_row (fun _ db => u_Email <$> users (account_db db) !! userID));
  match r with
  | inr email => mret email
  | inl e => if errors_Is e ErrNoRows then mret "" else fail e
  end.

Definition SetTargetSchedule (accountID targetID : uuid) (cadence : string)
    (nextAt : option time) : GO unit :=
  n ← exec (fun _ _ db =>
    let p r := bool_decide (t_ID (tr_target r) = targetID)
               && bool_decide (t_AccountID (tr_target r) = accountID) && live r in
    let n := sql_count p (targets (drill_db db)) in
    if negb (cadence_check cadence) && negb (n =? 0)%nat then inl (ErrConstraint "drill_cadence_check")
    else inr (db{{ drill_db -> targets ::= sql_update p (fun r =>
                r{{ tr_target -> t_DrillCadence := cadence; tr_target -> t_NextDrillAt := nextAt }}) }}, n));
  if (n =? 0)%nat then fail ErrNotFound else mret tt.

(** DueSchedule pairs a due target with its account's plan. *)
Record DueSchedule : Type := mkDue { ds_Target : Target; ds_Plan : Plan; ds_Unlimited : bool }.

Definition due (now : time) (db : DB) (r : TargetRow) : option DueSchedule :=
  let t := tr_target r in
  match accounts (account_db db) !! t_AccountID t, t_NextDrillAt t with
  | Some a, Some at_ =>
      if live r && bool_decide (acr_deleted_at a = None)
         && negb (bool_decide (t_DrillCadence t = "off")) && (at_ <=? now) && negb (t_IsSample t)
         && (bool_decide (a_Plan (acr_account a) ∈ ["starter"; "pro"; "scale"])
             || a_Unlimited (acr_account a))
      then Some (mkDue (t{{ t_TeamID := None; t_IsSample := false }})
                   (a_Plan (acr_account a)) (a_Unlimited (acr_account a)))
      else None
  | _, _ => None
  end.
Definition DueTargets : GO (list DueSchedule) :=
  query (fun now db => omap (due now db) (snd <$> map_to_list (targets (drill_db db)))).

Definition AdvanceTargetSchedule (targetID : uuid) (nextAt : time) : GO unit :=
  update (fun _ db => db{{ drill_db -> targets ::=
    alter (fun r => r{{ tr_target -> t_NextDrillAt := Some nextAt }}) targetID }}).

(** ** Drills *)

Definition drill_visible (db : DB) (scope : Scope) (d : Drill) : bool :=
  All scope || match targets (drill_db db) !! d_TargetID d with
               | Some r => in_scope (mkScope false (TeamIDs scope)) (tr_target r)
               | None => false
               end.

Definition GetDrill (accountID drillID : uuid) (scope : Scope) : GO Drill :=
  no_rows_as ErrNotFound (query_row (fun _ db =>
    match drills (drill_db db) !! drillID with
    | Some d => if bool_decide (d_AccountID d = accountID) && drill_visible db scope d
                then Some d else None
    | None => None
    end)).

Definition GetDrillByID (drillID : uuid) : GO Drill :=
  no_rows_as ErrNotFound (query_row (fun _ db => drills (drill_db db) !! drillID)).

Definition ListDrillsPage (accountID : uuid) (scope : Scope) (after : option (time * uuid))
    (limit : Z) : GO (list Drill) :=
  query (fun _ db => take (Z.to_nat limit) (order_by (newest_first d_CreatedAt d_ID)
    (sql_select (fun d => bool_decide (d_AccountID d = accountID) && drill_visible db scope d
       && before_cursor after (d_CreatedAt d) (d_ID d)) (drills (drill_db db))))).

Definition ListDrills (accountID : uuid) (scope : Scope) (limit : Z) : GO (list Drill) :=
  query (fun _ db => take (Z.to_nat limit) (order_by (newest_first d_CreatedAt d_ID)
    (sql_select (fun d => bool_decide (d_AccountID d = accountID) && drill_visible db scope d)
      (drills (drill_db db))))).

Definition ListDrillsByCreator (userID : uuid) (limit : Z) : GO (list Drill) :=
  query (fun _ db => take (Z.to_nat limit) (order_by (newest_first d_CreatedAt d_ID)
    (sql_select (fun d => bool_decide (d_CreatedByUserID d = userID)) (drills (drill_db db))))).

(** UPDATE drills SET ... WHERE id = $1 [AND guard] *)
Definition update_drill (drillID : uuid) (guard : Drill -> bool) (f : time -> Drill -> Drill) : GO unit :=
  update (fun now db => db{{ drill_db -> drills ::=
    alter (fun d => if guard d then f now d else d) drillID }}).

Definition MarkDrillRunning (drillID : uuid) : GO unit :=
  update_drill drillID
    (fun d => bool_decide (d_Status d = StatusPending) || bool_decide (d_Status d = StatusRunning))
    (fun now d => d{{ d_Status := StatusRunning;
                      d_StartedAt := Some (default now (d_StartedAt d)) }}).

Definition MarkDrillSucceeded (drillID : uuid) (evidencePath : string) : GO unit :=
  update_drill drillID (fun _ => true)
    (fun now d => d{{ d_Status := StatusSucceeded; d_CompletedAt := Some now;
                      d_EvidencePath := Some evidencePath; d_Error := None }}).

Definition MarkDrillFailed (drillID : uuid) (reason : string) : GO unit :=
  update_drill drillID (fun _ => true)
    (fun now d => d{{ d_Status := StatusFailed;
                      d_CompletedAt := Some (default now (d_CompletedAt d));
                      d_Error := Some reason }}).

Definition SetSandboxDB (drillID : uuid) (name : string) : GO unit :=
  update_drill drillID (fun _ => true) (fun _ d => d{{ d_SandboxDB := Some name }}).

Definition SetSourceHash (drillID : uuid) (hash : string) : GO unit :=
  update_drill drillID (fun _ => true) (fun _ d => d{{ d_SourceHash := Some hash }}).

Definition MarkEvidence (drillID : uuid) (path : string) : GO unit :=
  update_drill drillID (fun _ => true) (fun _ d => d{{ d_EvidencePath := Some path }}).

(** ** Target assertions *)

Definition ListTargetAssertions (targetID : uuid) : GO (list Assertion) :=
  query (fun _ db => order_by (oldest_first as_CreatedAt as_ID)
    (sql_select (fun a => bool_decide (as_TargetID a = targetID)) (target_assertions (drill_db db)))).

Definition ListAssertionsForTargets (targetIDs : list uuid) : GO (gmap uuid (list Assertion)) :=
  match targetIDs with
  | [] => mret ∅
  | _ => query (fun _ db =>
      foldl (fun out a => <[ as_TargetID a := default [] (out !! as_TargetID a) ++ [a] ]> out) ∅
        (order_by (oldest_first as_CreatedAt as_ID)
          (sql_select (fun a => bool_decide (as_TargetID a ∈ targetIDs))
            (target_assertions (drill_db db)))))
  end.

Definition CreateAssertion (targetID : uuid) (kind config : string) : GO Assertion :=
  exec (fun now id db =>
    if negb (assertion_kind_check kind) then inl (ErrConstraint "assertions_kind_check")
    else match targets (drill_db db) !! targetID, target_assertions (drill_db db) !! id with
    | None, _ => inl (ErrConstraint "assertions_target_id_fkey")
    | _, Some _ => inl ErrUnique
    | Some _, None =>
        let a := mkAssertion id targetID kind config now in
        inr (db{{ drill_db -> target_assertions ::= <[ id := a ]> }}, a)
    end).

Definition DeleteAssertion (accountID assertionID : uuid) : GO unit :=
  n ← update_n (fun _ db =>
    let p a := bool_decide (as_ID a = assertionID)
      && match targets (drill_db db) !! as_TargetID a with
         | Some r => bool_decide (t_AccountID (tr_target r) = accountID)
         | None => false
         end in
    (db{{ drill_db -> target_assertions ::= sql_delete p }},
     sql_count p (target_assertions (drill_db db))));
  if (n =? 0)%nat then fail ErrNotFound else mret tt.

(** ** Steps *)

(** INSERT ... ON CONFLICT (drill_id, name) DO UPDATE SET name = EXCLUDED.name *)
Definition CreateStepIfMissing (drillID : uuid) (name : StepName) (ordinal : Z)
    (idemKey : string) : GO Step :=
  exec (fun _ id db =>
    match drill_steps (drill_db db) !! (drillID, name), drills (drill_db db) !! drillID with
    | Some s, _ => inr (db, s)
    | None, None => inl (ErrConstraint "drill_steps_drill_id_fkey")
    | None, Some _ =>
        if sql_exists (fun s => bool_decide (s_IdempotencyKey s = idemKey) || bool_decide (s_ID s = id))
             (drill_steps (drill_db db))
        then inl ErrUnique
        else let s := mkStep id drillID name StatusPending None None None idemKey ordinal None None None in
             inr (db{{ drill_db -> drill_steps ::= <[ (drillID, name) := s ]> }}, s)
    end).

Definition GetStep (drillID : uuid) (name : StepName) : GO Step :=
  no_rows_as ErrNotFound (query_row (fun _ db => drill_steps (drill_db db) !! (drillID, name))).

Definition ListSteps (drillID : uuid) : GO (list Step) :=
  query (fun _ db => order_by (fun x y => s_Ordinal x <=? s_Ordinal y)
    (sql_select (fun s => bool_decide (s_DrillID s = drillID)) (drill_steps (drill_db db)))).

(** UPDATE drill_steps SET ... WHERE drill_id = $1 AND name = $2 [AND guard] *)
Definition update_step (drillID : uuid) (name : StepName) (guard : Status -> bool)
    (f : time -> Step -> Step) : GO unit :=
  update (fun now db => db{{ drill_db -> drill_steps ::=
    alter (fun s => if guard (s_Status s) then f now s else s) (drillID, name) }}).

Definition MarkStepRunning (drillID : uuid) (name : StepName) : GO unit :=
  update_step drillID name
    (fun st => bool_decide (st ∈ [StatusPending; StatusRunning; StatusFailed]))
    (fun now s => s{{ s_Status := StatusRunning; s_StartedAt := Some (default now (s_StartedAt s)) }}).

Definition stepOutputCap : nat := 16 * 1024.

Definition output_snippet (output : string) : string * bool :=
  if (stepOutputCap <? String.length output)%nat
  then (String.substring 0 stepOutputCap output, true) else (output, false).

Definition SetStepOutput (drillID : uuid) (name : StepName) (output : string) : GO unit :=
  match output with
  | EmptyString => mret tt
  | _ =>
      let hex := hex_EncodeToString (sha256 output) in
      let '(snippet, truncated) := output_snippet output in
      update_step drillID name (fun _ => true)
        (fun _ s => s{{ s_OutputSnippet := Some snippet; s_OutputSHA256 := Some hex;
                        s_OutputTruncated := Some truncated }})
  end.

Definition MarkStepSucceeded (drillID : uuid) (name : StepName) : GO unit :=
  update_step drillID name (fun st => negb (bool_decide (st = StatusSkipped)))
    (fun now s => s{{ s_Status := StatusSucceeded; s_CompletedAt := Some now; s_Error := None }}).

Definition MarkStepFailed (drillID : uuid) (name : StepName) (reason : string) : GO unit :=
  update_step drillID name (fun _ => true)
    (fun now s => s{{ s_Status := StatusFailed; s_CompletedAt := Some now; s_Error := Some reason }}).

Definition MarkStepSkipped (drillID : uuid) (name : StepName) : GO unit :=
  update_step drillID name (fun st => bool_decide (st = StatusPending))
    (fun now s => s{{ s_Status := StatusSkipped; s_CompletedAt := Some now }}).

(** ** Assertion results *)

Definition ClearAssertionResults (drillID : uuid) : GO unit :=
  update (fun _ db => db{{ drill_db -> assertion_results ::=
    sql_delete (fun r => bool_decide (ar_DrillID r = drillID)) }}).

Definition RecordAssertion (drillID : uuid) (kind expected actual : string) (passed : bool) : GO unit :=
  exec (fun now id db =>
    if negb (assertion_kind_check kind) then inl (ErrConstraint "assertion_results_kind_check")
    else match drills (drill_db db) !! drillID, assertion_results (drill_db db) !! id with
    | None, _ => inl (ErrConstraint "assertion_results_drill_id_fkey")
    | _, Some _ => inl ErrUnique
    | Some _, None =>
        inr (db{{ drill_db -> assertion_results ::=
               <[ id := mkAssertionResult id drillID kind expected actual passed now ]> }}, tt)
    end).

Definition ListAssertions (drillID : uuid) : GO (list AssertionResult) :=
  query (fun _ db => order_by (oldest_first ar_At ar_ID)
    (sql_select (fun r => bool_decide (ar_DrillID r = drillID)) (assertion_results (drill_db db)))).

(** ** Idempotent creation *)

Definition CountDrillsSince (accountID : uuid) (since : time) : GO Z :=
  query (fun _ db => Z.of_nat (sql_count (fun d => bool_decide (d_AccountID d = accountID)
    && (since <=? d_CreatedAt d)) (drills (drill_db db)))).

Definition drill_create_scope : string := "drill_create".

(** The drills INSERT; the target must exist. *)
Definition insert_drill (targetID accountID createdBy : uuid) : GO uuid :=
  exec (fun now id db =>
    match targets (drill_db db) !! targetID, drills (drill_db db) !! id with
    | None, _ => inl (ErrConstraint "drills_target_id_fkey")
    | _, Some _ => inl ErrUnique
    | Some _, None =>
        inr (db{{ drill_db -> drills ::= <[ id := mkDrill id targetID accountID createdBy
               StatusPending None None None None None None now ]> }}, id)
    end).

(** The idempotency_keys INSERT of any scope. *)
Definition insert_idem (accountID userID : uuid) (key scope target_id : string) : GO unit :=
  exec (fun now _ db =>
    match idempotency_keys (drill_db db) !! (accountID, key, scope) with
    | Some _ => inl ErrUnique
    | None => inr (db{{ drill_db -> idempotency_keys ::=
                <[ (accountID, key, scope) := mkIdemRow userID target_id now ]> }}, tt)
    end).

Definition CreateDrillIdempotent (accountID createdByUserID targetID : uuid) (key : string)
    : GO (uuid * bool) :=
  if bool_decide (key = "") then fail (ErrNew "empty idempotency key") else
  tx (r ← try (query_row (fun _ db =>
             ik_TargetID <$> idempotency_keys (drill_db db) !! (accountID, key, drill_create_scope)));
      match r with
      | inr existing => id ← lift (uuid_Parse existing); mret (Rollback (id, true))
      | inl e =>
          if errors_Is e ErrNoRows then
            drillID ← insert_drill targetID accountID createdByUserID;
            _ ← insert_idem accountID createdByUserID key drill_create_scope (uuid_String drillID);
            mret (Commit (drillID, false))
          else fail e
      end).
End drill_store.
