(* ===== verification/Assertions.v ===== *)
(** internal/assertions/assertions.go: the checks a drill runs against the
    restored sandbox.  The JSON codec is a parameter; a decoded value is an
    [any], with JSON numbers as IEEE doubles. *)
From S2P Require Import Prelude Crypto Effects Schema.
From Stdlib Require Import SpecFloat Ascii.

Abbreviation config := (gmap string any).

(** encoding/json on the objects this program exchanges. *)
Class JsonLib : Type := {
  json_Marshal : list (string * any) -> error + string;
  json_Unmarshal : string -> error + config
}.

(** Go's conversion of a float64 to int: truncation toward zero. *)
Definition float_int (f : spec_float) : Z :=
  match f with
  | S754_finite s m e =>
      let v := if (0 <=? e)%Z then Z.pos m * 2 ^ e else Z.pos m / 2 ^ (- e) in
      if s then - v else v
  | _ => 0
  end.

Definition KindRowCount := "row_count".
Definition KindTableExists := "table_exists".
Definition KindColumnExists := "column_exists".
Definition KindNoNulls := "no_nulls".
Definition KindSQLQuery := "sql_query".

Definition maxSQLQueryRows : Z := 100.

Record Outcome : Type := mkOutcome {
  o_Kind : string; o_Expected : string; o_Actual : string; o_Passed : bool
}.

(** The rows of a query: the column names, each row's [Values] and the
    iterator's final error. *)
Record Rows : Type := mkRows {
  r_cols : list string; r_rows : list (error + list any); r_err : option error
}.

(** The connection to the sandbox. *)
Record Querier : Type := mkQuerier {
  QueryInt  : string -> list string -> GO Z;
  QueryBool : string -> list string -> GO bool;
  QueryRows : string -> GO Rows
}.

(** Its queries run in the sandbox, never in the application database. *)
Record QuerierOk (q : Querier) : Prop := mkQuerierOk {
  QueryInt_frame  : forall s a, frame drill_db (QueryInt q s a);
  QueryBool_frame : forall s a, frame drill_db (QueryBool q s a);
  QueryRows_frame : forall s, frame drill_db (QueryRows q s)
}.

(** [%q] on printable ASCII: the text between double quotes. *)
Definition dquote : string := of_bytes [34].
Definition quote (s : string) : string := dquote +:+ s +:+ dquote.

(** ** Identifiers *)

Definition is_lower (c : ascii) : bool := (97 <=? byte_of c) && (byte_of c <=? 122).
Definition is_upper (c : ascii) : bool := (65 <=? byte_of c) && (byte_of c <=? 90).
Definition is_digit (c : ascii) : bool := (48 <=? byte_of c) && (byte_of c <=? 57).
Definition is_underscore (c : ascii) : bool := byte_of c =? 95.

Abbreviation chars := String.list_ascii_of_string.

Definition ident_char (i : nat) (c : ascii) : bool :=
  is_lower c || is_upper c || is_underscore c || (is_digit c && negb (i =? 0)%nat).

Fixpoint ident_chars (i : nat) (l : list ascii) : bool :=
  match l with [] => true | c :: l' => ident_char i c && ident_chars (S i) l' end.

Definition validIdent (s : string) : bool :=
  if bool_decide (s = "") || (63 <? String.length s)%nat then false
  else ident_chars 0 (chars s).

Definition cfg_string (cfg : config) (key : string) : string :=
  match cfg !! key with Some (AString s) => s | _ => "" end.

Definition ident (cfg : config) (key : string) : error + string :=
  let v := cfg_string cfg key in
  if validIdent v then inr v
  else inl (ErrNew ("assertions: " +:+ quote key +:+ " is not a valid identifier: " +:+ quote v)).

Definition intFrom (v : any) : Z :=
  match v with AFloat64 f => float_int f | AInt z => z | _ => 0 end.

Definition intVal (cfg : config) (key : string) : Z :=
  match cfg !! key with Some v => intFrom v | None => 0 end.

(** ** Read-only SQL *)

Definition is_space (c : ascii) : bool :=
  let b := byte_of c in (b =? 32) || (b =? 10) || (b =? 9) || (b =? 13).
Definition is_semicolon (c : ascii) : bool := byte_of c =? 59.

Fixpoint drop_while {A} (p : A -> bool) (l : list A) : list A :=
  match l with [] => [] | x :: l' => if p x then drop_while p l' else l end.

(** The text without trailing whitespace and at most one trailing semicolon. *)
Definition statement_body (q : string) : list ascii :=
  let body := drop_while is_space (rev (chars q)) in
  rev (match body with c :: l => if is_semicolon c then l else body | [] => [] end).

Definition hasMultipleStatements (q : string) : bool := existsb is_semicolon (statement_body q).

Fixpoint upperTrim_from (out_empty : bool) (l : list ascii) : list ascii :=
  match l with
  | [] => []
  | c :: l' =>
      if is_space c && out_empty then upperTrim_from out_empty l'
      else if is_lower c then of_byte (byte_of c - 32) :: upperTrim_from false l'
      else if byte_of c <? 128 then c :: upperTrim_from false l'
      else upperTrim_from out_empty l'
  end.
Definition upperTrim (s : string) : list ascii := upperTrim_from true (chars s).

Fixpoint has_prefix (p l : list ascii) : bool :=
  match p, l with
  | [], _ => true
  | a :: p', b :: l' => bool_decide (a = b) && has_prefix p' l'
  | _ :: _, [] => false
  end.

Definition startsWithAny (upper : list ascii) (prefixes : list string) : bool :=
  existsb (fun p => has_prefix (chars p) upper) prefixes.

Definition isIdentByte (c : ascii) : bool := is_upper c || is_digit c || is_underscore c.

(** [prev]: the byte before the current position is an identifier byte. *)
Fixpoint containsWord_from (prev : bool) (upper kw : list ascii) : bool :=
  (has_prefix kw upper && negb prev
   && negb (match drop (length kw) upper with c :: _ => isIdentByte c | [] => false end))
  || match upper with c :: l => containsWord_from (isIdentByte c) l kw | [] => false end.
Definition containsWord (upper : list ascii) (kw : string) : bool :=
  containsWord_from false upper (chars kw).

Definition forbiddenKeywords : list string :=
  ["INSERT"; "UPDATE"; "DELETE"; "TRUNCATE"; "DROP"; "CREATE"; "ALTER"; "GRANT"; "REVOKE";
   "COPY"; "MERGE"; "CALL"].

Definition validateReadOnlySQL (q : string) : option error :=
  if hasMultipleStatements q
  then Some (ErrNew "only a single SELECT (or WITH ... SELECT) is allowed")
  else
    let upper := upperTrim q in
    if negb (startsWithAny upper ["SELECT"; "WITH "; "EXPLAIN"; "SHOW"; "VALUES"])
    then Some (ErrNew "only read-only statements are allowed (SELECT, WITH, EXPLAIN, SHOW, VALUES)")
    else match List.find (containsWord upper) forbiddenKeywords with
         | Some kw => Some (ErrNew ("query contains forbidden keyword " +:+ quote kw))
         | None => None
         end.

(** ** Validation at the form boundary *)

Definition ValidKind (kind : string) : bool :=
  bool_decide (kind ∈ [KindRowCount; KindTableExists; KindColumnExists; KindNoNulls; KindSQLQuery]).

Definition ValidateConfig (kind : string) (cfg : config) : option error :=
  if negb (ValidKind kind) then Some (ErrNew ("assertions: unknown kind " +:+ quote kind))
  else if bool_decide (kind = KindSQLQuery) then
    let q := cfg_string cfg "query" in
    if bool_decide (q = "") then Some (ErrNew "assertions: sql_query requires a 'query' string")
    else match validateReadOnlySQL q with
         | Some e => Some (ErrWrap "assertions: sql_query" e)
         | None => None
         end
  else match ident cfg "table" with
  | inl e => Some e
  | inr _ =>
      if bool_decide (kind = KindColumnExists) || bool_decide (kind = KindNoNulls) then
        match ident cfg "column" with inl e => Some e | inr _ => None end
      else if bool_decide (kind = KindRowCount) && (intVal cfg "min_rows" <? 0)
      then Some (ErrNew "assertions: min_rows must be non-negative")
      else None
  end.

(** ** Running an assertion *)

Section run.
Context `{env : Env} `{json : JsonLib}.

Definition outcome_ (kind : string) (expected actual : list (string * any)) (passed : bool) : GO Outcome :=
  exp ← lift (json_Marshal expected);
  act ← lift (json_Marshal actual);
  mret (mkOutcome kind exp act passed).

Definition runRowCount (conn : Querier) (cfg : config) : GO Outcome :=
  table ← lift (ident cfg "table");
  let minRows := intVal cfg "min_rows" in
  n ← wrap_err "row_count" (QueryInt conn ("SELECT count(*) FROM public." +:+ quote table) []);
  outcome_ KindRowCount
    [("table", AString table); ("min_rows", AInt minRows)]
    [("table", AString table); ("rows", AInt n)] (minRows <=? n).

Definition runTableExists (conn : Querier) (cfg : config) : GO Outcome :=
  table ← lift (ident cfg "table");
  exists_ ← wrap_err "table_exists"
    (QueryBool conn "SELECT EXISTS (SELECT 1 FROM information_schema.tables WHERE table_schema = 'public' AND table_name = $1)" [table]);
  outcome_ KindTableExists [("table", AString table)]
    [("table", AString table); ("exists", ABool exists_)] exists_.

Definition runColumnExists (conn : Querier) (cfg : config) : GO Outcome :=
  table ← lift (ident cfg "table");
  column ← lift (ident cfg "column");
  exists_ ← wrap_err "column_exists"
    (QueryBool conn "SELECT EXISTS (SELECT 1 FROM information_schema.columns WHERE table_schema = 'public' AND table_name = $1 AND column_name = $2)" [table; column]);
  outcome_ KindColumnExists [("table", AString table); ("column", AString column)]
    [("table", AString table); ("column", AString column); ("exists", ABool exists_)] exists_.

Definition runNoNulls (conn : Querier) (cfg : config) : GO Outcome :=
  table ← lift (ident cfg "table");
  column ← lift (ident cfg "column");
  nulls ← wrap_err "no_nulls"
    (QueryInt conn ("SELECT count(*) FROM public." +:+ quote table +:+ " WHERE " +:+ quote column +:+ " IS NULL") []);
  outcome_ KindNoNulls
    [("table", AString table); ("column", AString column); ("max_nulls", AInt 0)]
    [("table", AString table); ("column", AString column); ("nulls", AInt nulls)] (nulls =? 0).

(** The capture loop: rows past the cap are counted, not read. *)
Fixpoint capture (cols : list string) (rows : list (error + list any))
    (captured : list any) (total : Z) (truncated : bool) : error + (list any * Z * bool) :=
  match rows with
  | [] => inr (captured, total, truncated)
  | r :: rows' =>
      let total := total + 1 in
      if maxSQLQueryRows <? total then capture cols rows' captured total true
      else match r with
      | inl e => inl (ErrWrap "sql_query: read row" e)
      | inr vals => capture cols rows' (captured ++ [AMap (zip cols vals)]) total truncated
      end
  end.

Definition runSQLQuery (conn : Querier) (cfg : config) : GO Outcome :=
  let q := cfg_string cfg "query" in
  if bool_decide (q = "") then fail (ErrNew "sql_query: missing 'query'") else
  match validateReadOnlySQL q with
  | Some e => fail (ErrWrap "sql_query" e)
  | None =>
      rows ← wrap_err "sql_query" (QueryRows conn q);
      '(captured, total, truncated) ← lift (capture (r_cols rows) (r_rows rows) [] 0 false);
      match r_err rows with
      | Some e => fail (ErrWrap "sql_query" e)
      | None =>
          let want := intFrom <$> cfg !! "expected_rows" in
          let expected := ("query", AString q) ::
            match want with Some w => [("expected_rows", AInt w)] | None => [] end in
          let actual := [("columns", AList (AString <$> r_cols rows)); ("row_count", AInt total);
                         ("rows", AList captured); ("truncated", ABool truncated);
                         ("row_cap", AInt maxSQLQueryRows)] in
          outcome_ KindSQLQuery expected actual
            (match want with Some w => total =? w | None => true end)
      end
  end.

Definition Run (conn : Querier) (kind : string) (cfg : config) : GO Outcome :=
  if bool_decide (kind = KindRowCount) then runRowCount conn cfg
  else if bool_decide (kind = KindTableExists) then runTableExists conn cfg
  else if bool_decide (kind = KindColumnExists) then runColumnExists conn cfg
  else if bool_decide (kind = KindNoNulls) then runNoNulls conn cfg
  else if bool_decide (kind = KindSQLQuery) then runSQLQuery conn cfg
  else fail (ErrNew ("assertions: unknown kind " +:+ quote kind)).
End run.

Arguments Run : simpl never.
