(* ===== verification/Runner.v ===== *)
(** internal/runner/runner.go: the contract between the step workers and
    whatever executes a drill's sandbox. *)
From S2P Require Import Prelude Effects Schema.

Record Sandbox : Type := mkSandbox { sb_DrillID : uuid; sb_DSN : string; sb_Name : string }.

(** The Runner interface.  [Restore] returns the subprocess output together
    with its error. *)
Record Runner : Type := mkRunner {
  Provision : uuid -> GO Sandbox;
  Fetch     : Sandbox -> string -> GO (string * string);
  Restore   : Sandbox -> string -> GO (string * option error);
  Rehydrate : uuid -> string -> error + Sandbox;
  Teardown  : option Sandbox -> GO unit
}.

(** What the workers rely on: the sandbox is isolated from the application
    database. *)
Record RunnerOk (r : Runner) : Prop := mkRunnerOk {
  Provision_frame : forall id, frame drill_db (Provision r id);
  Fetch_frame     : forall sb uri, frame drill_db (Fetch r sb uri);
  Restore_frame   : forall sb p, frame drill_db (Restore r sb p);
  Teardown_frame  : forall sb, frame drill_db (Teardown r sb)
}.
