(* ===== verification/Steps.v ===== *)
(** internal/drill/orchestrator.go and internal/drill/steps/steps.go: the
    six-step drill pipeline, one worker per step. *)
From S2P Require Import Prelude Crypto Effects Schema AuditLog DrillStore Assertions Runner.

(** drill.Notifier event names and analytics event names. *)
Definition EventCompleted : string := "drill.completed".
Definition EventFailed : string := "drill.failed".


(** Deps is the bundle of dependencies every step worker needs; an optional
    one that is nil is [None] (or [false]). *)
Record Deps : Type := mkDeps {
  D_Runner    : Runner;
  D_Connect   : string -> GO Querier;                     (* pgx.Connect *)
  D_Render    : Drill -> Target -> list Step -> list AssertionResult -> string -> time -> error + string;
  D_Finalize  : uuid -> uuid -> string -> GO string;      (* evidence.Service.Finalize *)
  D_Webhooks  : option (uuid -> string -> metadata -> GO unit);  (* Dispatcher.Dispatch *)
  D_Metrics   : bool;
  D_Analytics : bool;
  D_Billing   : option (bool * (string -> string -> GO unit));   (* Enabled, ReportUsage *)
  D_Accounts  : option (uuid -> GO Account);              (* GetAccount *)
  D_Notify    : option (Drill -> string -> string -> GO unit)    (* NotifyDrill *)
}.

(** The promises of the dependencies the pipeline's theorems use: only the
    pipeline writes the drill tables, and stored evidence has a key. *)
Record DepsOk (d : Deps) : Prop := mkDepsOk {
  Runner_ok       : RunnerOk (D_Runner d);
  Connect_frame   : forall dsn, frame drill_db (D_Connect d dsn);
  Connect_ok      : forall dsn w q w', D_Connect d dsn w = (Ret q, w') -> QuerierOk q;
  Finalize_frame  : forall id a pdf, frame drill_db (D_Finalize d id a pdf);
  Finalize_key    : forall id a pdf w key, (D_Finalize d id a pdf w).1 = Ret key -> key <> "";
  Webhooks_frame  : forall f id ev m, D_Webhooks d = Some f -> frame drill_db (f id ev m);
  Billing_frame   : forall b f c i, D_Billing d = Some (b, f) -> frame drill_db (f c i);
  Accounts_frame  : forall f id, D_Accounts d = Some f -> frame drill_db (f id);
  Notify_frame    : forall f dr ev r, D_Notify d = Some f -> frame drill_db (f dr ev r)
}.

Section pipeline.
Context `{env : Env} `{uuids : UuidLib} `{json : JsonLib}.

(** RiverInserter.Insert: the job row, in its own statement. *)
Definition Insert (args : JobArgs) (priority : Z) : GO unit :=
  update (fun _ db =>
    db{{ drill_db -> river_jobs ::= <[ river_seq (drill_db db) := mkJob args priority ]>;
         drill_db -> river_seq ::= N.succ }}).

(** ** Orchestrator *)

Fixpoint create_steps (drillID : uuid) (i : Z) (names : list StepName) : GO unit :=
  match names with
  | [] => mret tt
  | name :: rest =>
      r ← try (CreateStepIfMissing drillID name i (uuid_String drillID +:+ "." +:+ StepName_String name));
      match r with
      | inl e => fail (ErrWrap ("create step " +:+ StepName_String name) e)
      | inr _ => create_steps drillID (i + 1) rest
      end
  end.

Definition EnqueueDrill (drillID : uuid) (priority : Z) : GO unit :=
  create_steps drillID 0 AllSteps;;
  r ← try (GetDrillByID drillID);
  match r with
  | inr dr => ignore (Record_ (mkEvent (Some (d_AccountID dr)) (Some (d_CreatedByUserID dr))
                "drill.created" "drill" (uuid_String drillID)
                [("target_id", AString (uuid_String (d_TargetID dr)))]))
  | inl _ => mret tt
  end;;
  r ← try (Insert (ProvisionArgs drillID) (if 0 <? priority then priority else 0));
  match r with
  | inl e => fail (ErrWrap "enqueue provision" e)
  | inr _ => mret tt
  end.

(** ** Helpers shared across workers *)

Context (D : Deps).

Definition opt_string (o : option string) : string := default "" o.

Definition reportUsage (dr : Drill) : GO unit :=
  match D_Billing D, D_Accounts D with
  | Some (true, ReportUsage), Some GetAccount =>
      r ← try (GetAccount (d_AccountID dr));
      match r with
      | inl _ => mret tt
      | inr acct =>
          if bool_decide (opt_string (a_StripeCustomerID acct) = "") then mret tt
          else ignore (ReportUsage (opt_string (a_StripeCustomerID acct)) (uuid_String (d_ID dr)))
      end
  | _, _ => mret tt
  end.

Definition notifyDrill (dr : Drill) (event reason : string) : GO unit :=
  match D_Notify D with
  | None => mret tt
  | Some NotifyDrill => ignore (NotifyDrill dr event reason)
  end.

Definition captureDrill (event : string) (dr : Drill) : GO unit :=
  if D_Analytics D
  then ext (ExtCall "analytics" [uuid_String (d_AccountID dr); event; uuid_String (d_ID dr);
                                 uuid_String (d_TargetID dr)]) (fun _ => inr tt)
  else mret tt.

Definition recordDrillMetric (status : string) (dr : Drill) : GO unit :=
  if D_Metrics D then ext (ExtCall "metrics" [status]) (fun _ => inr tt) else mret tt.

Definition dispatchWebhook (accountID : uuid) (event : string) (data : metadata) : GO unit :=
  match D_Webhooks D with
  | None => mret tt
  | Some Dispatch => ignore (Dispatch accountID event data)
  end.

Definition sandbox (drillID : uuid) : GO Sandbox :=
  dr ← GetDrillByID drillID;
  if bool_decide (opt_string (d_SandboxDB dr) = "") then fail (ErrNew "sandbox db not recorded")
  else lift (Rehydrate (D_Runner D) drillID (opt_string (d_SandboxDB dr))).

Fixpoint steps_after_from (seen : bool) (name : StepName) (l : list StepName) : list StepName :=
  match l with
  | [] => []
  | s :: l' =>
      (if seen && negb (bool_decide (s = StepTeardown)) then [s] else [])
      ++ steps_after_from (seen || bool_decide (s = name)) name l'
  end.
Definition stepsAfter (name : StepName) : list StepName := steps_after_from false name AllSteps.

Definition failAndCleanup (drillID : uuid) (step : StepName) (reason : string) : GO unit :=
  ignore (MarkStepFailed drillID step reason);;
  for_each (stepsAfter step) (fun later => ignore (MarkStepSkipped drillID later));;
  r ← try (Insert (TeardownArgs drillID (StepName_String step +:+ ": " +:+ reason)) 0);
  match r with
  | inl e => fail (ErrWrap "enqueue teardown after failure" e)
  | inr _ => mret tt
  end.

Definition alreadyDone (drillID : uuid) (name : StepName) : GO bool :=
  step ← GetStep drillID name;
  mret (bool_decide (s_Status step = StatusSucceeded)).

Definition lookupDrillAndTarget (drillID : uuid) : GO (Drill * Target) :=
  dr ← GetDrillByID drillID;
  t ← GetTargetByID (d_TargetID dr);
  mret (dr, t).

(** ** Provision *)

Definition provision_chain (drillID : uuid) : GO unit := Insert (FetchArgs drillID) 0.

Definition ProvisionWork (drillID : uuid) : GO unit :=
  done ← alreadyDone drillID StepProvision;
  if (done : bool) then provision_chain drillID else
  MarkDrillRunning drillID;;
  MarkStepRunning drillID StepProvision;;
  r ← try (Provision (D_Runner D) drillID);
  match r with
  | inl e => failAndCleanup drillID StepProvision (Error e)
  | inr sb =>
      r ← try (SetSandboxDB drillID (sb_Name sb));
      match r with
      | inl e => ignore (Teardown (D_Runner D) (Some sb));; fail e
      | inr _ =>
          MarkStepSucceeded drillID StepProvision;;
          provision_chain drillID
      end
  end.

(** ** Fetch *)

Definition chainAlreadyFetched (drillID : uuid) : GO unit :=
  '(_, target) ← lookupDrillAndTarget drillID;
  sb ← sandbox drillID;
  '(localPath, _) ← Fetch (D_Runner D) sb (t_SourceURI target);
  Insert (RestoreArgs drillID localPath) 0.

Definition FetchWork (drillID : uuid) : GO unit :=
  done ← alreadyDone drillID StepFetch;
  if (done : bool) then chainAlreadyFetched drillID else
  MarkStepRunning drillID StepFetch;;
  '(_, target) ← lookupDrillAndTarget drillID;
  sb ← sandbox drillID;
  r ← try (Fetch (D_Runner D) sb (t_SourceURI target));
  match r with
  | inl e => failAndCleanup drillID StepFetch (Error e)
  | inr (localPath, sourceHash) =>
      SetSourceHash drillID sourceHash;;
      MarkStepSucceeded drillID StepFetch;;
      Insert (RestoreArgs drillID localPath) 0
  end.

(** ** Restore *)

Definition RestoreWork (drillID : uuid) (filePath : string) : GO unit :=
  done ← alreadyDone drillID StepRestore;
  if (done : bool) then Insert (AssertArgs drillID) 0 else
  MarkStepRunning drillID StepRestore;;
  sb ← sandbox drillID;
  r ← try (Restore (D_Runner D) sb filePath);
  let '(output, restoreErr) := match r with inr (out, e) => (out, e) | inl e => ("", Some e) end in
  ignore (SetStepOutput drillID StepRestore output);;
  match restoreErr with
  | Some e => failAndCleanup drillID StepRestore (Error e)
  | None =>
      MarkStepSucceeded drillID StepRestore;;
      Insert (AssertArgs drillID) 0
  end.

(** ** Assert *)

Definition runAssertion (drillID : uuid) (q : Querier) (spec : Assertion) : GO unit :=
  match json_Unmarshal (as_Config spec) with
  | inl e => fail (ErrWrap ("assertion " +:+ uuid_String (as_ID spec) +:+ ": bad config") e)
  | inr cfg =>
      out ← wrap_err ("assertion " +:+ uuid_String (as_ID spec) +:+ " (" +:+ as_Kind spec +:+ ")")
              (Run q (as_Kind spec) cfg);
      RecordAssertion drillID (o_Kind out) (o_Expected out) (o_Actual out) (o_Passed out)
  end.

Definition runAssertions (drillID : uuid) (sb : Sandbox) (specs : list Assertion) : GO unit :=
  ClearAssertionResults drillID;;
  q ← wrap_err "connect sandbox" (D_Connect D (sb_DSN sb));
  for_each specs (runAssertion drillID q).

Definition AssertWork (drillID : uuid) : GO unit :=
  done ← alreadyDone drillID StepAssert;
  if (done : bool) then Insert (ReportArgs drillID) 0 else
  MarkStepRunning drillID StepAssert;;
  '(_, target) ← lookupDrillAndTarget drillID;
  specs ← ListTargetAssertions (t_ID target);
  sb ← sandbox drillID;
  r ← try (runAssertions drillID sb specs);
  match r with
  | inl e => failAndCleanup drillID StepAssert (Error e)
  | inr _ =>
      MarkStepSucceeded drillID StepAssert;;
      Insert (ReportArgs drillID) 0
  end.

(** ** Report *)

Definition verdict (ars : list AssertionResult) : bool := forallb ar_Passed ars.

Definition assertions_failed : string := "one or more assertions failed".

(** The in-memory drill the PDF header is rendered from. *)
Definition with_verdict (pass : bool) (dr : Drill) : Drill :=
  if pass then dr{{ d_Status := StatusSucceeded; d_Error := None }}
  else dr{{ d_Status := StatusFailed; d_Error := Some assertions_failed }}.

(** From the rendered PDF to the enqueued teardown. *)
Definition report_finish (drillID : uuid) (dr : Drill) (pass : bool) (pdf : string) : GO unit :=
  r ← try (D_Finalize D drillID (d_AccountID dr) pdf);
  match r with
  | inl e => failAndCleanup drillID StepReport (Error e)
  | inr path =>
      MarkEvidence drillID path;;
      MarkStepSucceeded drillID StepReport;;
      if (pass : bool) then Insert (TeardownArgs drillID "") 0
      else
        ignore (MarkDrillFailed drillID assertions_failed);;
        ignore (Record_ (mkEvent (Some (d_AccountID dr)) (Some (d_CreatedByUserID dr)) "drill.failed"
                  "drill" (uuid_String drillID) [("reason", AString "assertion_failed")]));;
        Insert (TeardownArgs drillID "assertion_failed") 0
  end.

Definition ReportWork (drillID : uuid) : GO unit :=
  done ← alreadyDone drillID StepReport;
  if (done : bool) then Insert (TeardownArgs drillID "") 0 else
  MarkStepRunning drillID StepReport;;
  '(dr, target) ← lookupDrillAndTarget drillID;
  steps ← ListSteps drillID;
  ars ← ListAssertions drillID;
  let pass := verdict ars in
  let dr := with_verdict pass dr in
  r ← try (CreatorEmail (d_CreatedByUserID dr));
  let operator := match r with inr e => e | inl _ => "" end in
  now ← time_Now;
  match D_Render D dr target steps ars operator now with
  | inl e => failAndCleanup drillID StepReport (Error e)
  | inr pdf => report_finish drillID dr pass pdf
  end.

(** ** Teardown *)

Definition drill_failed_event (dr : Drill) (drillID : uuid) (reason : string) : Event :=
  mkEvent (Some (d_AccountID dr)) (Some (d_CreatedByUserID dr)) "drill.failed"
    "drill" (uuid_String drillID) [("reason", AString reason)].

(** The metric, analytics, webhook and push notices of a failed drill. *)
Definition announce_failed (dr : Drill) (drillID : uuid) (reason : string) : GO unit :=
  recordDrillMetric "failed" dr;;
  captureDrill EventFailed dr;;
  dispatchWebhook (d_AccountID dr) "drill.failed" [("drill_id", AString (uuid_String drillID)); ("reason", AString reason)];;
  notifyDrill dr EventFailed reason.

Definition announce_completed (dr dr2 : Drill) (drillID : uuid) : GO unit :=
  ignore (Record_ (mkEvent (Some (d_AccountID dr)) (Some (d_CreatedByUserID dr)) "drill.completed"
            "drill" (uuid_String drillID) []));;
  recordDrillMetric "succeeded" dr;;
  captureDrill EventCompleted dr;;
  dispatchWebhook (d_AccountID dr) "drill.completed"
    [("drill_id", AString (uuid_String drillID)); ("status", AString "succeeded")];;
  notifyDrill dr2 EventCompleted "".

(** The sandbox is destroyed, or the step is marked failed. *)
Definition teardown_sandbox (drillID : uuid) (dr : Drill) : GO unit :=
  sb ← (if bool_decide (opt_string (d_SandboxDB dr) = "") then mret None
        else r ← try (sandbox drillID);
             mret (match r with inr s => Some s | inl _ => None end));
  r ← try (Teardown (D_Runner D) sb);
  match r with
  | inl e => ignore (MarkStepFailed drillID StepTeardown (Error e))
  | inr _ => ignore (MarkStepSucceeded drillID StepTeardown)
  end.

(** Everything after the teardown worker's first read of the drill. *)
Definition teardown_rest (drillID : uuid) (failureReason : string) (dr : Drill) : GO unit :=
  reportUsage dr;;
  teardown_sandbox drillID dr;;
  if negb (bool_decide (failureReason = "")) then
    ignore (MarkDrillFailed drillID failureReason);;
    ignore (Record_ (drill_failed_event dr drillID failureReason));;
    announce_failed dr drillID failureReason
  else if bool_decide (d_Status dr = StatusFailed) then
    announce_failed dr drillID "assertion_failed"
  else
    dr2 ← GetDrillByID drillID;
    MarkDrillSucceeded drillID (opt_string (d_EvidencePath dr2));;
    announce_completed dr dr2 drillID.

Definition TeardownWork (drillID : uuid) (failureReason : string) : GO unit :=
  dr ← GetDrillByID drillID;
  teardown_rest drillID failureReason dr.

(** The River registry: which worker runs a job. *)
Definition Work (j : JobArgs) : GO unit :=
  match j with
  | ProvisionArgs id => ProvisionWork id
  | FetchArgs id => FetchWork id
  | RestoreArgs id p => RestoreWork id p
  | AssertArgs id => AssertWork id
  | ReportArgs id => ReportWork id
  | TeardownArgs id r => TeardownWork id r
  end.
End pipeline.
