(* ===== verification/Demo.v ===== *)
(** Concrete instances of the parameters, for the witnesses: identifiers
    spelled in binary, a clock that advances one second per effect, a sandbox
    in which everything works, and a small database. *)
From S2P Require Import Prelude Crypto Effects Schema AuditLog DrillStore Assertions Runner Steps.
From Stdlib Require Import Ascii.

(** ** Identifiers *)

Fixpoint pos_bits (p : positive) : string :=
  match p with
  | xH => "1"
  | xO p' => "0" +:+ pos_bits p'
  | xI p' => "1" +:+ pos_bits p'
  end.
Fixpoint bits_pos (s : string) : option positive :=
  match s with
  | EmptyString => None
  | String c s' =>
      let one := bool_decide (c = "1"%char) in
      match s' with
      | EmptyString => if one then Some xH else None
      | _ => p ← bits_pos s'; Some (if one then xI p else xO p)
      end
  end.

Lemma bits_pos_cons c s :
  s <> "" -> bits_pos (String c s) = (p ← bits_pos s; Some (if bool_decide (c = "1"%char) then xI p else xO p)).
Proof. by destruct s. Qed.

Lemma bits_pos_bits p : bits_pos (pos_bits p) = Some p.
Proof.
  assert (forall q, pos_bits q <> "") as Hne by (by intros []).
  induction p as [p IH|p IH|]; [..|done].
  - change (pos_bits p~1) with (String "1"%char (pos_bits p)).
    rewrite bits_pos_cons by done. by rewrite IH.
  - change (pos_bits p~0) with (String "0"%char (pos_bits p)).
    rewrite bits_pos_cons by done. by rewrite IH.
Qed.

#[global] Instance demo_uuid : UuidLib := {|
  uuid_String u := match u with N0 => "-" | Npos p => pos_bits p end;
  uuid_Parse s :=
    if bool_decide (s = "-") then inr 0%N
    else match bits_pos s with Some p => inr (Npos p) | None => inl (ErrNew "invalid UUID") end
|}.

#[global] Instance demo_uuid_ok : UuidOk.
Proof.
  constructor. intros [|p]; [done|]. cbn -[bits_pos pos_bits].
  rewrite bool_decide_eq_false_2 by (by destruct p). by rewrite bits_pos_bits.
Qed.

(** ** Environments *)

Definition second : Z := 1000000000.
Definition demo_env_with (faults : nat -> fault) : Env := {|
  env_fault := faults;
  env_now n := 1800000000 * second + Z.of_nat n * second;
  env_uuid n := (1000 + N.of_nat n)%N;
  env_inet s := if bool_decide (s = "unknown") then None else Some s;
  env_jsonb s := Some s
|}.
Definition demo_env : Env := demo_env_with (fun _ => FOk).
Definition fault_at (n : nat) (f : fault) : Env :=
  demo_env_with (fun k => if (k =? n)%nat then f else FOk).

(** JSON: every configuration decodes to the check of the table "events". *)
#[global] Instance demo_json : JsonLib := {|
  json_Marshal _ := inr "{}";
  json_Unmarshal _ := inr {[ "table" := AString "events"; "min_rows" := AInt 1 ]}
|}.

(** ** The database *)

Definition empty_drill_db : DrillDB := mkDrillDB ∅ ∅ ∅ ∅ ∅ ∅ ∅ 1.
Definition empty_account_db : AccountDB := mkAccountDB ∅ ∅ ∅ ∅ ∅ ∅ ∅.
Definition empty_db : DB :=
  mkDB empty_drill_db empty_account_db [] (mkAuthDB ∅ ∅ ∅ ∅ []) (mkMonitorDB ∅ ∅) (mkHookDB ∅ ∅ ∅ ∅ ∅)
    (mkKeyDB ∅ ∅ ∅ ∅ ∅) (mkEvidenceDB ∅ ∅ ∅ ∅)
    (mkMailDB [] []).
Definition world (db : DB) : World DB := mkWorld db 0 None [].

Definition demo_account : Account :=
  mkAccount 1 "Acme" "acme" (Some "cus_1") "starter" 0 None (Some "active") false.
Definition demo_target : Target :=
  mkTarget 10 1 2 "orders" "postgres_dump_local" "/dumps/orders" None 0 "daily"
    (Some (1700000000 * second)) false.
Definition demo_db : DB :=
  empty_db{{ account_db -> accounts := {[ 1%N := mkAccountRow demo_account None None None None ]};
             account_db -> users := {[ 2%N := mkUser 2 "ann@example.com" true "" false false None None 0 None ]};
             account_db -> memberships := {[ (1%N, 2%N) := mkMembership 1 2 "owner" 0 ]};
             drill_db -> targets := {[ 10%N := mkTargetRow demo_target None ]};
             drill_db -> target_assertions := {[ 30%N := mkAssertion 30 10 "row_count" "{}" 0 ]} }}.

(** ** Dependencies: a sandbox whose table holds [rows] rows *)

Definition demo_runner : Runner := {|
  Provision id := mret (mkSandbox id "postgres://sandbox" "sandbox_db");
  Fetch sb uri := mret ("/tmp/dump", "abc123");
  Restore sb p := mret ("restored", None);
  Rehydrate id name := inr (mkSandbox id "postgres://sandbox" name);
  Teardown sb := mret tt
|}.
Definition demo_querier (rows : Z) : Querier :=
  {| QueryInt _ _ := mret rows; QueryBool _ _ := mret true; QueryRows _ := mret (mkRows [] [] None) |}.
Definition demo_deps (rows : Z) : Deps := {|
  D_Runner := demo_runner;
  D_Connect _ := mret (demo_querier rows);
  D_Render _ _ _ _ _ _ := inr "%PDF";
  D_Finalize id _ _ := mret (uuid_String id +:+ ".pdf");
  D_Webhooks := None; D_Metrics := false; D_Analytics := false;
  D_Billing := None; D_Accounts := None; D_Notify := None
|}.

Lemma demo_deps_ok rows : DepsOk (demo_deps rows).
Proof.
  split; try done.
  - intros dsn w q w' [= <- <-]. done.
  - intros id a pdf w key [= <-]. destruct id as [|p]; [done|]. by destruct p.
Qed.
