(* ===== verification/AccountFacts.v ===== *)
(** What internal/account keeps: every account keeps an owner, invitations
    are single use, subscription events apply in order of creation, teams
    stay inside their account. *)
From S2P Require Import Prelude Crypto Effects Schema Encoding Plans Rbac Demo AccountStore.
From Stdlib Require Import Ascii.

(** ** Members and owners *)

(** The columns of a membership are its primary key. *)
Definition members_wf (db : DB) : Prop :=
  forall k m, memberships (account_db db) !! k = Some m -> k = (m_AccountID m, m_UserID m).

Definition is_owner_of (acct : uuid) (m : Membership) : bool :=
  bool_decide (m_AccountID m = acct) && bool_decide (m_Role m = RoleOwner).
Definition owner_count (acct : uuid) (db : DB) : nat :=
  sql_count (is_owner_of acct) (memberships (account_db db)).

Definition Owned (acct : uuid) (db : DB) : Prop := members_wf db /\ (1 <= owner_count acct db)%nat.

Lemma Owned_same acct db db' :
  memberships (account_db db') = memberships (account_db db) -> Owned acct db -> Owned acct db'.
Proof. intros Heq. unfold Owned, members_wf, owner_count. by rewrite Heq. Qed.

(** *** What lockMembers reports *)

Lemma foldl_lock u rows n r f :
  let '(n', r', f') := foldl (lock_step u) (n, r, f) rows in
  n' = (n + length (filter (fun m => m_Role m = RoleOwner) rows))%nat /\
  (f' = true -> (f = true /\ r' = r) \/ exists m, m ∈ rows /\ m_UserID m = u /\ r' = m_Role m).
Proof.
  revert n r f. induction rows as [|m rows IH]; intros n r f; simpl; [split; [lia|by left]|].

  specialize (IH (if bool_decide (m_Role m = RoleOwner) then S n else n)
                 (if bool_decide (m_UserID m = u) then m_Role m else r)
                 (if bool_decide (m_UserID m = u) then true else f)).
  destruct (foldl _ _ _) as [[n' r'] f']. destruct IH as [-> Hf]. split.
  - rewrite filter_cons. repeat case_decide; repeat case_bool_decide; simpl; try done; lia.
  - intros H. destruct (Hf H) as [[H1 H2]|(m' & Hm & H1 & H2)].
    + destruct (bool_decide (m_UserID m = u)) eqn:E; [|by left].
      right. exists m. rewrite bool_decide_eq_true in E. split; [left|done].
    + right. exists m'. split; [by right|done].
Qed.

Section members.
Context `{env : Env} `{uuids : UuidLib} `{rand : Rand}.

Lemma lockMembers_ret acct u w n r f w' :
  members_wf (w_db w) -> lockMembers acct u w = (Ret (n, r, f), w') ->
  w_db w' = w_db w /\ n = owner_count acct (w_db w) /\
  (f = true -> exists m, memberships (account_db (w_db w)) !! (acct, u) = Some m /\ m_Role m = r).
Proof.
  intros Hwf H. unfold lockMembers in H. ret_inv. split; [done|].
  match goal with Hx : foldl ?s ?i ?rows = _ |- _ =>
    pose proof (foldl_lock u rows 0 "" false) as Hl; rewrite Hx in Hl end.
  destruct Hl as [-> Hf]. split.
  - unfold owner_count, sql_count, sql_select. rewrite list_filter_filter. simpl. f_equal.
    apply list_filter_iff. intros m. unfold is_owner_of. rewrite andb_true_iff, !bool_decide_eq_true. naive_solver.
  - intros ->. destruct (Hf eq_refl) as [[[=] _]|(m & Hm & Hu & ->)].
    apply elem_of_sql_select in Hm as [Ha%bool_decide_eq_true (k & Hk)].
    exists m. split; [|done]. pose proof (Hwf _ _ Hk) as ->. congruence.
Qed.

Definition role_set (acct u : uuid) (role : Role) (db : DB) : DB :=
  db{{ account_db -> memberships ::= alter (fun m => m{{ m_Role := role }}) (acct, u) }}.

Lemma memberships_role_set a u role db :
  memberships (account_db (role_set a u role db)) =
  alter (fun m => m{{ m_Role := role }}) (a, u) (memberships (account_db db)).
Proof. by destruct db as [? [] ? ? ? ? ? ? ?]. Qed.

Lemma members_wf_role_set a u role db : members_wf db -> members_wf (role_set a u role db).
Proof.
  intros Hwf k m. rewrite memberships_role_set.
  rewrite lookup_alter. case_decide; subst; [|by apply Hwf].
  intros (m0 & Hm & ->)%fmap_Some. rewrite (Hwf _ _ Hm). by destruct m0.
Qed.

Lemma owner_count_role_set acct a u role db m :
  memberships (account_db db) !! (a, u) = Some m ->
  (owner_count acct (role_set a u role db) + count1 (is_owner_of acct) m =
   owner_count acct db + count1 (is_owner_of acct) m{{ m_Role := role }})%nat.
Proof. intros Hm. unfold owner_count. rewrite memberships_role_set. by apply sql_count_alter. Qed.

Lemma owner_count_pos acct k db m :
  memberships (account_db db) !! k = Some m -> is_owner_of acct m = true -> (1 <= owner_count acct db)%nat.
Proof. intros Hk Hm. unfold owner_count. rewrite (sql_count_delete _ _ _ _ Hk). unfold count1. rewrite Hm. lia. Qed.

Lemma Owned_exec acct {A} (f : stmt DB A) :
  (forall t u db db' a, f t u db = inr (db', a) ->
     memberships (account_db db') = memberships (account_db db)) -> preserves (Owned acct) (exec f).
Proof. intros Hf. apply preserves_exec. intros t u db db' a HO Heq. by eapply Owned_same; [eapply Hf|]. Qed.

Lemma set_role_ret a u role w x w' :
  set_role a u role w = (Ret x, w') -> w_db w' = role_set a u role (w_db w).
Proof. intros H%update_ret. exact H. Qed.

Lemma is_owner_of_set acct m role :
  is_owner_of acct m{{ m_Role := role }} =
  bool_decide (m_AccountID m = acct) && bool_decide (role = RoleOwner).
Proof. by destruct m. Qed.

Ltac lock_inv :=
  match goal with Hl : lockMembers _ _ _ = _ |- _ =>
    apply lockMembers_ret in Hl as (Hdb & -> & Hf); [|done] end.

Lemma UpdateMemberRole_Owned acct a u role : preserves (Owned acct) (UpdateMemberRole a u role).
Proof.
  unfold UpdateMemberRole. preserve. apply preserves_tx_ret. intros w [] w' [Hwf Hn] H. ret_inv. lock_inv.
  rewrite negb_false_iff in *. subst. destruct (Hf eq_refl) as (m & Hm & Hr).
  match goal with Hu : set_role _ _ _ _ = _ |- _ => apply set_role_ret in Hu; rewrite Hu, Hdb end.
  split; [by apply members_wf_role_set|].
  pose proof (owner_count_role_set acct a u role _ _ Hm) as Hc. pose proof (Hwf _ _ Hm) as [= -> ->].
  unfold count1 in Hc. rewrite is_owner_of_set in Hc. unfold is_owner_of in Hc.
  destruct (decide (m_AccountID m = acct)) as [<-|Hne].
  - repeat case_bool_decide; simpl in *; rewrite ?Nat.leb_gt in *; first [lia|congruence].
  - rewrite !(bool_decide_eq_false_2 _ Hne) in Hc. simpl in Hc. lia.
Qed.

Lemma members_wf_delete a u db :
  members_wf db -> members_wf db{{ account_db -> memberships ::= delete (a, u) }}.
Proof.
  intros Hwf k m Hk. apply Hwf. destruct db as [? [] ? ? ? ? ? ? ?]; simpl in *.
  by apply lookup_delete_Some in Hk as [_ Hk].
Qed.

Lemma RemoveMember_Owned acct a u : preserves (Owned acct) (RemoveMember a u).
Proof.
  apply preserves_tx_ret. intros w [] w' [Hwf Hn] H. ret_inv. lock_inv.
  rewrite negb_false_iff in *. subst. destruct (Hf eq_refl) as (m & Hm & Hr).
  match goal with Hu : w_db w' = _ |- _ => rewrite Hu, Hdb end.
  split; [by apply members_wf_delete|].
  pose proof (sql_count_delete (is_owner_of acct) _ _ _ Hm) as Hc. fold (owner_count acct (w_db w)) in Hc.
  pose proof (Hwf _ _ Hm) as [= -> ->].
  assert (owner_count acct (w_db w){{ account_db -> memberships ::= delete (m_AccountID m, m_UserID m) }} =
    sql_count (is_owner_of acct) (delete (m_AccountID m, m_UserID m) (memberships (account_db (w_db w))))) as ->
    by (by destruct (w_db w) as [? [] ? ? ? ? ? ? ?]).
  unfold count1, is_owner_of at 1 in Hc. destruct (decide (m_AccountID m = acct)) as [<-|Hne].
  - repeat case_bool_decide; simpl in *; rewrite ?Nat.leb_gt in *; first [lia|congruence].
  - rewrite !(bool_decide_eq_false_2 _ Hne) in Hc. simpl in Hc. lia.
Qed.

Lemma TransferOwnership_Owned acct a from to : preserves (Owned acct) (TransferOwnership a from to).
Proof.
  unfold TransferOwnership. preserve. apply preserves_tx_ret. intros w [] w' [Hwf Hn] H.
  unfold transfer_check, transfer_write in H. ret_inv.
  rewrite negb_false_iff, bool_decide_eq_true in *. rewrite bool_decide_eq_false in *.
  repeat match goal with Hs : set_role _ _ _ _ = _ |- _ => apply set_role_ret in Hs; try rewrite Hs end.
  db_eqs.
  match goal with Hs : _ <$> _ = Some _ |- _ => apply fmap_Some in Hs as (mf & Hf & ->) end.
  match goal with Hs : is_Some _ |- _ => destruct Hs as [mt Ht] end.
  split; [by do 2 apply members_wf_role_set|].
  pose proof (owner_count_role_set acct a from RoleAdmin _ _ Hf) as H1c.
  assert (memberships (account_db (role_set a from RoleAdmin (w_db w))) !! (a, to) = Some mt) as Ht'.
  { rewrite memberships_role_set, lookup_alter_ne by congruence. done. }
  pose proof (owner_count_role_set acct a to RoleOwner _ _ Ht') as H2c.
  pose proof (Hwf _ _ Hf) as [= -> ->]. pose proof (Hwf _ _ Ht) as [= Ha ->].
  unfold count1 in *. rewrite !is_owner_of_set in H1c, H2c. unfold is_owner_of in *. rewrite <- !Ha in H2c.
  destruct (decide (m_AccountID mf = acct)) as [<-|Hne].
  - apply (owner_count_pos _ (m_AccountID mf, m_UserID mt) _ mt{{ m_Role := RoleOwner }}).
    + by rewrite memberships_role_set, lookup_alter_eq, Ht'.
    + by rewrite is_owner_of_set, !bool_decide_eq_true_2 by congruence.
  - rewrite !(bool_decide_eq_false_2 _ Hne) in H1c, H2c. simpl in *. lia.
Qed.

(** New rows only add to the count. *)
Lemma Owned_insert_membership acct a u role now db :
  memberships (account_db db) !! (a, u) = None -> Owned acct db ->
  Owned acct db{{ account_db -> memberships ::= <[ (a, u) := mkMembership a u role now ]> }}.
Proof.
  intros Hk [Hwf Hn]. destruct db as [? [] ? ? ? ? ? ? ?]. unfold Owned, members_wf, owner_count in *. simpl in *. split.
  - intros k m. rewrite lookup_insert. case_decide; [by intros [= <-]|apply Hwf].
  - rewrite sql_count_insert by done. lia.
Qed.

Lemma AcceptInvitation_Owned acct raw u email : preserves (Owned acct) (AcceptInvitation raw u email).
Proof.
  unfold AcceptInvitation. apply preserves_tx_ret. intros w inv w' HO H. ret_inv.
  db_eqs.
  match goal with Hs : w_db w' = _ |- _ => rewrite Hs end.
  apply (Owned_same acct (w_db w1)); [by destruct (w_db w1) as [? [] ? ? ? ? ? ? ?]|].
  repeat case_match; simplify_eq; [congruence|].
  match goal with Hs : _ = w_db w1 |- _ => rewrite <- Hs end. by apply Owned_insert_membership.
Qed.

Lemma insert_membership_Owned acct a u role : preserves (Owned acct) (insert_membership a u role).
Proof.
  apply preserves_exec. intros t n db db' x HO Heq. repeat case_match; simplify_eq.
  by apply Owned_insert_membership.
Qed.

Lemma insert_account_Owned acct name slug : preserves (Owned acct) (insert_account name slug).
Proof.
  apply Owned_exec. intros t n db db' x Heq. repeat case_match; try discriminate Heq. injection Heq as <- _. by destruct db as [? [] ? ? ? ? ? ? ?].
Qed.

Lemma CreatePersonalAccount_Owned acct u email : preserves (Owned acct) (CreatePersonalAccount u email).
Proof.
  unfold CreatePersonalAccount. cbv zeta. apply preserves_tx_body.
  preserve; auto using insert_account_Owned, insert_membership_Owned.
Qed.

(** The operations that write memberships, one at a time. *)
Inductive member_op : World DB -> World DB -> Prop :=
| op_update a u role w : member_op w (UpdateMemberRole a u role w).2
| op_remove a u w : member_op w (RemoveMember a u w).2
| op_transfer a from to w : member_op w (TransferOwnership a from to w).2
| op_accept raw u email w : member_op w (AcceptInvitation raw u email w).2
| op_create u email w : member_op w (CreatePersonalAccount u email w).2.

(** C18: run one after the other, whatever fails inside them, the operations
    that change memberships leave every account that has an owner with an
    owner, and every membership row filed under its own account and user. *)
Theorem owner_kept acct w w' :
  members_wf (w_db w) -> (1 <= owner_count acct (w_db w))%nat -> rtc member_op w w' ->
  members_wf (w_db w') /\ (1 <= owner_count acct (w_db w'))%nat.
Proof.
  intros Hwf Hn Hr. assert (Owned acct (w_db w)) as HO by by split. clear Hwf Hn. revert HO.
  induction Hr as [w|w w1 w2 Hs _ IH]; [done|]. intros HO. apply IH.
  destruct Hs; [by apply UpdateMemberRole_Owned|by apply RemoveMember_Owned
    |by apply TransferOwnership_Owned|by apply AcceptInvitation_Owned|by apply CreatePersonalAccount_Owned].
Qed.
End members.

(** A second member of the demo account, an admin. *)
Definition two_db : DB :=
  demo_db{{ account_db -> users := {[ 2%N := mkUser 2 "ann@example.com" true "" false false None None 0 None;
                                      3%N := mkUser 3 "bob@example.com" true "" false false None None 0 None ]};
            account_db -> memberships := {[ (1%N, 2%N) := mkMembership 1 2 RoleOwner 0;
                                            (1%N, 3%N) := mkMembership 1 3 RoleAdmin 0 ]} }}.

Lemma two_db_wf : members_wf two_db.
Proof.
  intros k m. change (memberships (account_db two_db)) with
    ({[ (1%N, 2%N) := mkMembership 1 2 RoleOwner 0; (1%N, 3%N) := mkMembership 1 3 RoleAdmin 0 ]}
     : gmap (uuid * uuid) Membership).
  rewrite lookup_insert, lookup_singleton. repeat case_decide; naive_solver.
Qed.

#[global] Instance demo_rand : Rand := {| rand_bytes n len :=
  inr (of_bytes (repeat (Z.of_nat n mod 256) len)) |}.

Lemma owner_kept_witness :
  (1 <= owner_count 1 (w_db (TransferOwnership (env:=demo_env) 1 2 3 (world two_db)).2))%nat.
Proof.
  destruct (owner_kept (env:=demo_env) 1 (world two_db) (TransferOwnership (env:=demo_env) 1 2 3 (world two_db)).2)
    as [_ H]; [exact two_db_wf|vm_compute; lia|apply rtc_once; apply op_transfer|exact H].
Defined.

(** run concurrently, they do not.  TransferOwnership reads the two
    memberships without a lock; when RemoveMember of the new owner commits
    between those reads and the writes, the writes demote the old owner and
    promote nobody, and the account is left without an owner. *)
Theorem transfer_race_loses_owner :
  exists (env : Env) (w w' : World DB) (acct from to : uuid),
    members_wf (w_db w) /\ owner_count acct (w_db w) = 1%nat /\
    (transfer_check (env:=env) acct from to;;
     RemoveMember (env:=env) acct to;;
     tx (env:=env) (transfer_write (env:=env) acct from to;; mret (Commit tt))) w = (Ret tt, w') /\
    owner_count acct (w_db w') = 0%nat.
Proof.
  exists demo_env, (world two_db). eexists _, 1%N, 2%N, 3%N.
  split; [exact two_db_wf|]. split; [vm_compute; reflexivity|].
  split; [vm_compute; reflexivity|]. vm_compute. reflexivity.
Qed.

(** ** Invitations *)

Definition invites_wf (db : DB) : Prop :=
  (forall id i, invitations (account_db db) !! id = Some i -> i_ID i = id) /\
  (forall id1 id2 i1 i2, invitations (account_db db) !! id1 = Some i1 ->
     invitations (account_db db) !! id2 = Some i2 -> i_TokenHash i1 = i_TokenHash i2 -> id1 = id2).

(** The invitation of this token was accepted. *)
Definition spent (hash : string) (db : DB) : Prop :=
  exists id i, invitations (account_db db) !! id = Some i /\ i_TokenHash i = hash /\ i_AcceptedAt i <> None.

Definition Spent (hash : string) (db : DB) : Prop := invites_wf db /\ spent hash db.

Lemma by_hash_Some h db i :
  by_hash h db = Some i -> exists id, invitations (account_db db) !! id = Some i /\ i_TokenHash i = h.
Proof.
  unfold by_hash. intros H.
  assert (i ∈ sql_select (fun i => bool_decide (i_TokenHash i = h)) (invitations (account_db db))) as Hin
    by (destruct (sql_select _ _); simplify_eq/=; left).
  apply elem_of_sql_select in Hin as [Hh%bool_decide_eq_true (id & Hid)]. eauto.
Qed.

Lemma by_hash_spent h db i : Spent h db -> by_hash h db = Some i -> i_AcceptedAt i <> None.
Proof.
  intros [[_ Hu] (id & i' & Hid & Hh & Ha)] (id2 & Hid2 & Hh2)%by_hash_Some.
  assert (id = id2) as <- by (eapply Hu; eauto; congruence). congruence.
Qed.

Section invitations.
Context `{env : Env} `{uuids : UuidLib} `{rand : Rand}.

Lemma accept_spent raw u email w inv w' :
  Spent (hashToken raw) (w_db w) -> AcceptInvitation raw u email w <> (Ret inv, w').
Proof.
  intros HS H. unfold AcceptInvitation in H. apply tx_ret in H as (w0 & w2 & Hdb & [[H _]|[H _]]); ret_inv;
    match goal with Hb : by_hash _ _ = Some _ |- _ => rewrite Hdb in Hb; by apply by_hash_spent in Hb end.
Qed.

Definition accepted_at (now : time) (id : uuid) (db : DB) : DB :=
  db{{ account_db -> invitations ::= alter (fun i => i{{ i_AcceptedAt := Some now }}) id }}.

Lemma lookup_accepted now id db k i' :
  invitations (account_db (accepted_at now id db)) !! k = Some i' ->
  exists i, invitations (account_db db) !! k = Some i /\ i_ID i' = i_ID i /\ i_TokenHash i' = i_TokenHash i.
Proof.
  destruct db as [? [] ? ? ? ? ? ? ?]; simpl. rewrite lookup_alter. case_decide; subst; [|eauto].
  intros (i & Hi & ->)%fmap_Some. exists i. by destruct i.
Qed.

Lemma invites_wf_accepted now id db : invites_wf db -> invites_wf (accepted_at now id db).
Proof.
  intros [Hk Hu]. split.
  - intros k i' (i & Hi & -> & _)%lookup_accepted. by apply Hk.
  - intros k1 k2 i1' i2' (i1 & H1 & _ & ->)%lookup_accepted (i2 & H2 & _ & ->)%lookup_accepted. by apply Hu.
Qed.

Lemma spent_accepted h now id db : spent h db -> spent h (accepted_at now id db).
Proof.
  intros (k & i & Hi & Hh & Ha). destruct db as [? [] ? ? ? ? ? ? ?]; simpl in *.
  exists k. simpl. rewrite lookup_alter. case_decide; subst; [|by exists i]. rewrite Hi.
  eexists. split; [reflexivity|]. destruct i; split; [reflexivity|discriminate].
Qed.

Lemma Spent_insert h inv id db :
  invitations (account_db db) !! id = None -> i_ID inv = id ->
  (forall k i, invitations (account_db db) !! k = Some i -> i_TokenHash i <> i_TokenHash inv) ->
  Spent h db -> Spent h db{{ account_db -> invitations ::= <[ id := inv ]> }}.
Proof.
  intros Hn Hid Hfresh [[Hk Hu] (k & i & Hi & Hh & Ha)]. destruct db as [? [] ? ? ? ? ? ? ?].
  unfold Spent, invites_wf, spent in *. simpl in *. split; [split|].
  - intros k' i'. rewrite lookup_insert. case_decide; [naive_solver|apply Hk].
  - intros k1 k2 i1 i2. rewrite !lookup_insert. repeat case_decide; subst; try naive_solver.
  - exists k, i. rewrite lookup_insert_ne by congruence. done.
Qed.

Lemma AcceptInvitation_Spent h raw u email : preserves (Spent h) (AcceptInvitation raw u email).
Proof.
  unfold AcceptInvitation. apply preserves_tx_ret. intros w inv w' HS H. ret_inv. db_eqs.
  match goal with Hs : w_db w' = _ |- _ => rewrite Hs end.
  assert (Spent h (w_db w1)) as [Hwf Hsp].
  { repeat case_match; simplify_eq; [congruence|].
    match goal with Hs : _ = w_db w1 |- _ => rewrite <- Hs end. by destruct (w_db w) as [? [] ? ? ? ? ? ? ?]. }
  split; [by apply invites_wf_accepted|by apply spent_accepted].
Qed.

Lemma CreateInvitation_Spent h acct by_ email role ttl :
  preserves (Spent h) (CreateInvitation acct by_ email role ttl).
Proof.
  unfold CreateInvitation. preserve. apply preserves_exec. intros t n db db' x HS Heq.
  repeat case_match; try discriminate Heq. injection Heq as <- _.
  apply Spent_insert; [done|done| |done]. intros k i Hi Hh.
  match goal with Hx : sql_exists _ _ = false |- _ => apply not_true_iff_false in Hx; apply Hx end.
  apply sql_exists_true. exists k, i. split; [done|]. by apply bool_decide_eq_true.
Qed.

Inductive invite_op : World DB -> World DB -> Prop :=
| op_invite a by_ email role ttl w : invite_op w (CreateInvitation a by_ email role ttl w).2
| op_accepted raw u email w : invite_op w (AcceptInvitation raw u email w).2.

Lemma invite_op_Spent h w w' : Spent h (w_db w) -> rtc invite_op w w' -> Spent h (w_db w').
Proof.
  intros HS Hr. revert HS. induction Hr as [w|w w1 w2 Hs _ IH]; [done|]. intros HS. apply IH.
  destruct Hs; [by apply CreateInvitation_Spent|by apply AcceptInvitation_Spent].
Qed.

Lemma spent_by_hash h db : Spent h db -> exists i t, by_hash h db = Some i /\ i_AcceptedAt i = Some t.
Proof.
  intros HS. destruct HS as [Hwf (k & i & Hi & Hh & Ha)] eqn:E. clear E.
  assert (by_hash h db <> None) as Hb.
  { unfold by_hash. intros Hn. assert (i ∈ sql_select (fun i => bool_decide (i_TokenHash i = h))
      (invitations (account_db db))) as Hin by (apply elem_of_sql_select; split; [by apply bool_decide_eq_true|by exists k]).
    destruct (sql_select _ _); [by apply not_elem_of_nil in Hin|done]. }
  destruct (by_hash h db) as [i'|] eqn:E; [|done]. exists i'.
  pose proof (by_hash_spent h db i' HS E). destruct (i_AcceptedAt i'); [eauto|done].
Qed.

Lemma accept_gone raw u email w :
  fault_free -> Spent (hashToken raw) (w_db w) -> (AcceptInvitation raw u email w).1 = Fail ErrInvitationGone.
Proof.
  intros ff (i & t & Hb & Ha)%spent_by_hash.
  unfold AcceptInvitation, tx. rewrite ff. unfold no_rows_as, try, query_row, mbind, M_bind.
  erewrite exec_ok; [|apply ff|simpl; by rewrite Hb]. simpl. by rewrite Ha.
Qed.

(** What a successful acceptance did. *)
Lemma accept_ret raw u email w inv w1 :
  AcceptInvitation raw u email w = (Ret inv, w1) ->
  exists i n now db, by_hash (hashToken raw) (w_db w) = Some i /\ i_AcceptedAt i = None /\
    env_now n <= i_ExpiresAt i /\ EqualFold (TrimSpace email) (i_Email i) = true /\
    inv = i{{ i_AcceptedAt := Some now }} /\ w_db w1 = accepted_at now (i_ID i) db /\
    invitations (account_db db) = invitations (account_db (w_db w)) /\
    match memberships (account_db (w_db w)) !! (i_AccountID i, u) with
    | Some m0 => memberships (account_db db) = memberships (account_db (w_db w))
    | None => exists at_, memberships (account_db db) =
        <[ (i_AccountID i, u) := mkMembership (i_AccountID i) u (i_Role i) at_ ]> (memberships (account_db (w_db w)))
    end.
Proof.
  intros H. apply tx_ret in H as (w0 & v & Hdb & [[H Hv]|[H Hv]]); revert Hv; ret_inv; intros Hv;
    [|congruence]. rewrite Hv. clear Hv. db_eqs.
  match goal with Hs : w_db v = _, He : _ = inr (w_db ?x, _) |- _ =>
    exists a, (w_tick w2), (env_now (w_tick x)), (w_db x); rewrite Hs; clear Hs; rename He into Hins end.
  do 2 (split; [done|]). split; [lia|]. split; [by destruct (EqualFold _ _)|]. do 2 (split; [done|]).
  repeat case_match; simplify_eq; match goal with Hs : _ = w_db w3 |- _ => rewrite <- Hs end; [done|].
  destruct (w_db w) as [? [] ? ? ? ? ? ? ?]; simpl in *. eauto.
Qed.

(** C19: an invitation is redeemed at most once.  When AcceptInvitation
    returns, the invitation was unaccepted, unexpired and addressed to the
    user's email; the user is a member of its account, with the invited role
    unless already a member; no other membership changed; and from then on,
    whatever invitations are issued or accepted and whatever fails, the token
    is never accepted again: without faults a second attempt, even by the
    same user, is told ErrInvitationGone. *)
Theorem invitation_single_use raw u email w inv w1 :
  invites_wf (w_db w) -> AcceptInvitation raw u email w = (Ret inv, w1) ->
  EqualFold (TrimSpace email) (i_Email inv) = true /\ (exists n, env_now n <= i_ExpiresAt inv) /\
  (exists m, memberships (account_db (w_db w1)) !! (i_AccountID inv, u) = Some m /\
     match memberships (account_db (w_db w)) !! (i_AccountID inv, u) with
     | Some m0 => m = m0
     | None => m_Role m = i_Role inv
     end) /\
  (forall k, k <> (i_AccountID inv, u) ->
     memberships (account_db (w_db w1)) !! k = memberships (account_db (w_db w)) !! k) /\
  forall w2, rtc invite_op w1 w2 -> forall u' email',
    (forall inv' w3, AcceptInvitation raw u' email' w2 <> (Ret inv', w3)) /\
    (fault_free -> (AcceptInvitation raw u' email' w2).1 = Fail ErrInvitationGone).
Proof.
  intros Hwf (i & n & now & db & Hb & Ha & Hn & He & -> & Hdb & Hi & Hm)%accept_ret.
  assert (i_Email i{{ i_AcceptedAt := Some now }} = i_Email i /\ i_AccountID i{{ i_AcceptedAt := Some now }} = i_AccountID i
    /\ i_Role i{{ i_AcceptedAt := Some now }} = i_Role i /\ i_ExpiresAt i{{ i_AcceptedAt := Some now }} = i_ExpiresAt i)
    as (-> & -> & -> & ->) by by destruct i.
  split; [done|]. split; [by exists n|]. rewrite Hdb.
  assert (memberships (account_db (accepted_at now (i_ID i) db)) = memberships (account_db db)) as ->
    by by destruct db as [? [] ? ? ? ? ? ? ?].
  split; [|split].
  - destruct (memberships _ !! (_, u)) as [m0|] eqn:E; [exists m0; by rewrite Hm|].
    destruct Hm as [at_ ->]. eexists. rewrite lookup_insert_eq. done.
  - intros k Hk. destruct (memberships _ !! (_, u)) as [m0|] eqn:E; [by rewrite Hm|].
    destruct Hm as [at_ ->]. by rewrite lookup_insert_ne.
  - assert (Spent (hashToken raw) (w_db w1)) as HS.
    { rewrite Hdb. split; [apply invites_wf_accepted; unfold invites_wf; by rewrite Hi|].
      apply by_hash_Some in Hb as (k & Hk & Hh). pose proof (proj1 Hwf _ _ Hk) as <-.
      destruct db as [? [] ? ? ? ? ? ? ?]; simpl in *. subst. exists (i_ID i). eexists. simpl.
      rewrite lookup_alter_eq, Hk. split; [reflexivity|]. destruct i; split; [exact Hh|discriminate]. }
    intros w2 Hr u' email'. pose proof (invite_op_Spent _ _ _ HS Hr) as HS2. split.
    + intros inv' w3. by apply accept_spent.
    + intros ff. by apply accept_gone.
Qed.

(** What a successful CreateInvitation stored. *)
Lemma create_invitation_ret acct by_ email role ttl w raw inv w1 :
  CreateInvitation acct by_ email role ttl w = (Ret (raw, inv), w1) ->
  i_TokenHash inv = hashToken raw /\ i_AcceptedAt inv = None /\ i_AccountID inv = acct /\
  i_Email inv = TrimSpace (ToLower email) /\ i_Role inv = role /\ ValidInviteRole role = true /\
  is_Some (accounts (account_db (w_db w)) !! acct) /\ invitations (account_db (w_db w)) !! i_ID inv = None /\
  (forall k i, invitations (account_db (w_db w)) !! k = Some i -> i_TokenHash i <> i_TokenHash inv) /\
  w_db w1 = (w_db w){{ account_db -> invitations ::= <[ i_ID inv := inv ]> }}.
Proof.
  unfold CreateInvitation. intros H. ret_inv.
  match goal with Hg : generateToken _ = _ |- _ => apply generateToken_ret in Hg as [Hdb ->] end.
  match goal with Hi : insert_invitation _ _ = _ |- _ => unfold insert_invitation in Hi; apply exec_ret in Hi as [Hi _] end.
  db_eqs. repeat case_match; try discriminate. simplify_eq/=.
  rewrite negb_false_iff in *. do 7 (split; [done|]). split; [done|]. split; [|done].
  intros k i Hi Hh. match goal with Hx : sql_exists _ _ = false |- _ => apply not_true_iff_false in Hx; apply Hx end.
  apply sql_exists_true. exists k, i. split; [done|]. by apply bool_decide_eq_true.
Qed.

Lemma by_hash_unique h db k i :
  invitations (account_db db) !! k = Some i -> i_TokenHash i = h ->
  (forall k' i', invitations (account_db db) !! k' = Some i' -> i_TokenHash i' = h -> i' = i) ->
  by_hash h db = Some i.
Proof.
  intros Hk Hh Hu. unfold by_hash.
  destruct (sql_select _ _) as [|i' l] eqn:E.
  - assert (i ∈ sql_select (fun i => bool_decide (i_TokenHash i = h)) (invitations (account_db db))) as Hin
      by (apply elem_of_sql_select; split; [by apply bool_decide_eq_true|by exists k]).
    rewrite E in Hin. by apply not_elem_of_nil in Hin.
  - simpl. f_equal.
    assert (i' ∈ sql_select (fun i => bool_decide (i_TokenHash i = h)) (invitations (account_db db))) as Hin
      by (rewrite E; left).
    apply elem_of_sql_select in Hin as [Hh'%bool_decide_eq_true (k' & Hk')]. eauto.
Qed.

Lemma created_by_hash raw inv db :
  i_TokenHash inv = hashToken raw ->
  (forall k i, invitations (account_db db) !! k = Some i -> i_TokenHash i <> i_TokenHash inv) ->
  by_hash (hashToken raw) db{{ account_db -> invitations ::= <[ i_ID inv := inv ]> }} = Some inv.
Proof.
  intros Hh Hf. apply (by_hash_unique _ _ (i_ID inv)); destruct db as [? [] ? ? ? ? ? ? ?]; simpl in *.
  - apply lookup_insert_eq.
  - done.
  - intros k' i'. rewrite lookup_insert. case_decide; [naive_solver|]. intros Hi' Hh'. destruct (Hf _ _ Hi'). congruence.
Qed.

(** the link works.  The token CreateInvitation hands out resolves, until
    the invitation expires, to that invitation, and the person it was sent
    to, with the address typed in any letter case, can accept it and is then
    a member with the invited role. *)
Theorem invitation_roundtrip acct by_ email email' role ttl w raw inv w1 u usr :
  fault_free -> CreateInvitation acct by_ email role ttl w = (Ret (raw, inv), w1) ->
  (forall n, (n <= 3)%nat -> env_now (w_tick w1 + n)%nat <= i_ExpiresAt inv) ->
  (LookupInvitation raw w1).1 = Ret inv /\
  (users (account_db (w_db w)) !! u = Some usr -> ToLower email' = ToLower email ->
   memberships (account_db (w_db w)) !! (acct, u) = None ->
   exists inv' w2, AcceptInvitation raw u email' w1 = (Ret inv', w2) /\
     exists m, memberships (account_db (w_db w2)) !! (acct, u) = Some m /\ m_Role m = role).
Proof.
  intros ff Hc Ht. pose proof Hc as (Hh & Ha & Hac & Hem & Hro & Hv & [arow Hacc] & Hid & Hf & Hdb)%create_invitation_ret.
  pose proof (created_by_hash raw inv (w_db w) Hh Hf) as Hb. rewrite <- Hdb in Hb.
  split.
  - unfold LookupInvitation, no_rows_as, try, query_row, mbind, M_bind.
    erewrite exec_ok; [|apply ff|simpl; by rewrite Hb]. simpl. rewrite Ha. unfold time_Now. simpl.
    specialize (Ht 1%nat ltac:(lia)). replace (w_tick w1 + 1)%nat with (S (w_tick w1)) in Ht by lia.
    destruct (Z.ltb_spec (i_ExpiresAt inv) (env_now (S (w_tick w1)))); [lia|done].
  - intros Hu He Hm.
    assert (memberships (account_db (w_db w1)) = memberships (account_db (w_db w)) /\
            users (account_db (w_db w1)) = users (account_db (w_db w)) /\
            accounts (account_db (w_db w1)) = accounts (account_db (w_db w))) as (Em & Eu & Ea)
      by (rewrite Hdb; by destruct (w_db w) as [? [] ? ? ? ? ? ? ?]).
    assert (exists inv' w2, AcceptInvitation raw u email' w1 = (Ret inv', w2)) as (inv' & w2 & Hacp).
    { eexists _, _. unfold AcceptInvitation. eapply tx_ok; [exact ff|].
      eapply bind_ok; [apply query_row_ok; [apply ff|exact Hb]|]. cbv beta. rewrite Ha.
      eapply bind_ok; [reflexivity|]. cbv beta. cbn [w_tick tick with_tx].
      specialize (Ht 2%nat ltac:(lia)). replace (w_tick w1 + 2)%nat with (S (S (w_tick w1))) in Ht by lia.
      destruct (Z.ltb_spec (i_ExpiresAt inv) (env_now (S (S (w_tick w1))))); [lia|].
      assert (EqualFold (TrimSpace email') (i_Email inv) = true) as ->.
      { unfold EqualFold. rewrite bool_decide_eq_true, Hem, !ToLower_TrimSpace, ToLower_idem. by f_equal. }
      simpl negb. cbv iota.
      eapply bind_ok; [apply exec_ok; [apply ff|]; cbn [w_db tick with_tx];
        rewrite Hac, Em, Hm; unfold membership_checks; rewrite Ea, Eu, Hacc, Hu, Hro, (ValidInviteRole_Valid _ Hv);
        reflexivity|].
      eapply bind_ok; [reflexivity|]. eapply bind_ok; [apply update_ok, ff|]. reflexivity. }
    exists inv', w2. split; [done|].
    apply accept_ret in Hacp as (i & n & now & db & Hb' & _ & _ & _ & _ & Hdb2 & _ & Hmm).
    rewrite Hb in Hb'. injection Hb' as <-. rewrite Em, Hac, Hm in Hmm. destruct Hmm as [at_ Hmm].
    rewrite Hdb2. destruct db as [? [] ? ? ? ? ? ? ?]; simpl in *. rewrite Hmm. eexists. by rewrite lookup_insert_eq.
Qed.
End invitations.

(** An invitation of the demo account, sent to carol, who has signed up. *)
Definition carol_invite : Invitation :=
  mkInvitation 40 1 "carol@example.com" RoleMember 2 (2000000000 * second) None 0 (hashToken "tok").
Definition invite_db : DB :=
  demo_db{{ account_db -> users ::= <[ 5%N := mkUser 5 "Carol@example.com" true "" false false None None 0 None ]>;
            account_db -> invitations := {[ 40%N := carol_invite ]} }}.

Lemma invite_db_wf : invites_wf invite_db.
Proof.
  unfold invites_wf.
  change (invitations (account_db invite_db)) with ({[ 40%N := carol_invite ]} : gmap uuid Invitation).
  setoid_rewrite lookup_singleton_Some. split; [by intros id i [<- <-]|].
  intros id1 id2 i1 i2 [<- _] [<- _] _. reflexivity.
Qed.

Lemma invitation_single_use_witness :
  (AcceptInvitation (env:=demo_env) "tok" 5 "Carol@example.com"
     (AcceptInvitation (env:=demo_env) "tok" 5 "Carol@example.com" (world invite_db)).2).1 = Fail ErrInvitationGone.
Proof.
  destruct (AcceptInvitation (env:=demo_env) "tok" 5 "Carol@example.com" (world invite_db)) as [o w1] eqn:E.
  destruct o as [inv|e|].
  - destruct (invitation_single_use (env:=demo_env) "tok" 5 "Carol@example.com" (world invite_db) inv w1 invite_db_wf E)
      as (_ & _ & _ & _ & H).
    destruct (H w1 (rtc_refl _ _) 5%N "Carol@example.com") as [_ H']. apply H'. intros n. reflexivity.
  - exfalso. assert ((AcceptInvitation (env:=demo_env) "tok" 5 "Carol@example.com" (world invite_db)).1 = Fail e)
      as H by (rewrite E; reflexivity). vm_compute in H. discriminate H.
  - exfalso. assert ((AcceptInvitation (env:=demo_env) "tok" 5 "Carol@example.com" (world invite_db)).1 = Crash)
      as H by (rewrite E; reflexivity). vm_compute in H. discriminate H.
Defined.

Lemma invitation_roundtrip_witness :
  exists raw inv w1, CreateInvitation (env:=demo_env) 1 2 " Carol@Example.com" RoleMember day (world invite_db) = (Ret (raw, inv), w1) /\
    (LookupInvitation (env:=demo_env) raw w1).1 = Ret inv.
Proof.
  destruct (CreateInvitation (env:=demo_env) 1 2 " Carol@Example.com" RoleMember day (world invite_db)) as [o w1] eqn:E.
  pose proof E as E'. vm_compute in E'. injection E' as <- <-. do 3 eexists. split; [reflexivity|].
  apply (proj1 (invitation_roundtrip (env:=demo_env) 1 2 " Carol@Example.com" "carol@example.com" RoleMember day
    (world invite_db) _ _ _ 5 (mkUser 5 "Carol@example.com" true "" false false None None 0 None)
    (fun n => eq_refl) E ltac:(intros n Hn; do 4 (destruct n as [|n]; [vm_compute; congruence|]); lia))).
Defined.
