(* ===== verification/TeamFacts.v ===== *)
(** Teams partition an account: no team, team member or database assignment
    ever crosses an account boundary or dangles. *)
From S2P Require Import Prelude Crypto Effects Schema Encoding Demo DrillStore AccountStore.

(** A team of this account exists. *)
Definition team_of (db : DB) (accountID tm : uuid) : Prop :=
  exists r, teams (account_db db) !! tm = Some r /\ tm_AccountID (tmr_team r) = accountID.

Definition TeamsOk (db : DB) : Prop :=
  (forall k r tm, targets (drill_db db) !! k = Some r -> t_TeamID (tr_target r) = Some tm ->
     team_of db (t_AccountID (tr_target r)) tm) /\
  (forall tm u, (tm, u) ∈ team_memberships (account_db db) ->
     exists acct, team_of db acct tm /\ is_Some (memberships (account_db db) !! (acct, u))).

Section teams.
Context `{env : Env} `{uuids : UuidLib}.

(** Team rows may change as long as every team keeps its account. *)
Lemma TeamsOk_weaken db db' :
  TeamsOk db -> targets (drill_db db') = targets (drill_db db) ->
  team_memberships (account_db db') ⊆ team_memberships (account_db db) ->
  memberships (account_db db') = memberships (account_db db) ->
  (forall acct tm, team_of db acct tm -> team_of db' acct tm) -> TeamsOk db'.
Proof.
  intros [H1 H2] Ht Hm Hmem Hto. split; [rewrite Ht; eauto|]. rewrite Hmem.
  intros tm u Hin%Hm. destruct (H2 _ _ Hin) as (acct & ? & ?); eauto.
Qed.

Lemma CreateTeam_ok acct name : preserves TeamsOk (CreateTeam acct name).
Proof.
  unfold CreateTeam. preserve. apply preserves_exec. intros t n db db' x HT Heq.
  repeat case_match; try discriminate Heq. injection Heq as <- _.
  match goal with Hx : _ || _ = false |- _ => apply orb_false_iff in Hx as [_ Hn%bool_decide_eq_false] end.
  apply (TeamsOk_weaken db); [done|by destruct db as [? [] ? ? ? ? ? ? ?]..|].
  intros a0 tm (r & Hr & Ha). exists r. split; [|done]. destruct db as [? [] ? ? ? ? ? ? ?]; simpl in *.
  rewrite lookup_insert_ne; [done|]. intros ->. by destruct Hn.
Qed.

Lemma RenameTeam_ok acct tm name : preserves TeamsOk (RenameTeam acct tm name).
Proof.
  unfold RenameTeam. preserve. apply preserves_exec. intros t n db db' x HT Heq.
  repeat case_match; simplify_eq; try done.
  apply (TeamsOk_weaken db); [done|by destruct db as [? [] ? ? ? ? ? ? ?]..|].
  intros a0 tm' (r & Hr & Ha). destruct db as [? [] ? ? ? ? ? ? ?]; simpl in *. unfold team_of. simpl.
  destruct (decide (tm = tm')) as [<-|Hne]; [|exists r; by rewrite lookup_alter_ne].
  rewrite lookup_alter_eq, Hr. eexists. split; [reflexivity|]. by destruct r as [[] ?].
Qed.

Lemma DeleteTeam_ok acct tm : preserves TeamsOk (DeleteTeam acct tm).
Proof.
  unfold DeleteTeam. preserve. apply preserves_update_n. intros t db [H1 H2].
  repeat case_match; simpl; try done.
  assert (forall a tm', tm' <> tm -> team_of db a tm' -> team_of db{{ account_db -> teams ::= delete tm;
      account_db -> team_memberships ::= filter (fun e : uuid * uuid => e.1 <> tm);
      drill_db -> targets ::= sql_update (fun t => bool_decide (t_TeamID (tr_target t) = Some tm))
                       (fun t => t{{ tr_target -> t_TeamID := None }}) }} a tm') as Hto.
  { intros a tm' Hne (r & Hr & Ha). exists r. split; [|done]. destruct db as [[] [] ? ? ? ? ?]; simpl in *.
    by rewrite lookup_delete_ne. }
  split.
  - intros k r tm' Hk Htm.
    assert (exists r0, targets (drill_db db) !! k = Some r0 /\
      r = if bool_decide (t_TeamID (tr_target r0) = Some tm) then r0{{ tr_target -> t_TeamID := None }} else r0)
      as (r0 & Hr0 & ->).
    { destruct db as [[] [] ? ? ? ? ?]; simpl in *. apply lookup_sql_update_Some in Hk as (r0 & ? & ->). eauto. }
    case_bool_decide as Hd; [by destruct r0 as [[] ?]|].
    apply Hto; [congruence|]. by eapply H1.
  - intros tm' u Hin.
    assert (tm' <> tm /\ (tm', u) ∈ team_memberships (account_db db)) as [Hne Hin'].
    { destruct db as [[] [] ? ? ? ? ?]; simpl in *. by apply elem_of_filter in Hin. }
    destruct (H2 _ _ Hin') as (a & Ha & Hm). exists a. split; [by apply Hto|]. by destruct db as [[] [] ? ? ? ? ?].
Qed.

Lemma AddTeamMember_ok acct tm u : preserves TeamsOk (AddTeamMember acct tm u).
Proof.
  unfold AddTeamMember. preserve. apply preserves_update_n. intros t db HT.
  destruct (team_in db acct tm true) eqn:Et; simpl; [|done]. destruct (bool_decide (is_Some _)) eqn:Hmem; simpl; [|done].
  apply bool_decide_eq_true in Hmem. case_bool_decide; simpl; [done|].
  destruct HT as [HT1 HT2]. split; [by destruct db as [? [] ? ? ? ? ? ? ?]|].
  intros tm' u' Hin.
  assert ((tm', u') = (tm, u) \/ (tm', u') ∈ team_memberships (account_db db)) as [[= -> ->]|Hin'].
  { destruct db as [? [] ? ? ? ? ? ? ?]; simpl in *. set_solver. }
  - exists acct. split; [|by destruct db as [? [] ? ? ? ? ? ? ?]].
    unfold team_in in Et. destruct (teams _ !! tm) as [r|] eqn:E; [|done]. exists r.
    rewrite andb_true_iff, bool_decide_eq_true in Et. split; [by destruct db as [? [] ? ? ? ? ? ? ?]|tauto].
  - destruct (HT2 _ _ Hin') as (a & Ha & Hm). exists a. by destruct db as [? [] ? ? ? ? ? ? ?].
Qed.

Lemma RemoveTeamMember_ok acct tm u : preserves TeamsOk (RemoveTeamMember acct tm u).
Proof.
  apply preserves_update. intros t db HT. case_match; [|done].
  apply (TeamsOk_weaken db); [done|by destruct db as [? [] ? ? ? ? ? ? ?]| |by destruct db as [? [] ? ? ? ? ? ? ?]..].
  destruct db as [? [] ? ? ? ? ? ? ?]; simpl. set_solver.
Qed.

Lemma SetTargetTeam_ok acct target team : preserves TeamsOk (SetTargetTeam acct target team).
Proof.
  unfold SetTargetTeam. preserve. apply preserves_update_n. intros t db [H1 H2]. simpl.
  split; [|by destruct db as [[] ? ? ? ? ? ?]]. intros k r tm Hk Htm.
  simpl in Hk. apply lookup_sql_update_Some in Hk as (r0 & Hr0 & ->).
  destruct (bool_decide (t_ID (tr_target r0) = target) && _ && _ && _) eqn:E; [|by eapply H1].
  rewrite !andb_true_iff, !bool_decide_eq_true in E. destruct E as [[[_ Ha] _] Hteam].
  destruct r0 as [[] ?]; simpl in *. unfold constant in Htm. subst team t_AccountID.
  destruct (teams (account_db db) !! tm) as [tr|] eqn:Et; [|done].
  rewrite andb_true_iff, !bool_decide_eq_true in Hteam. exists tr. by destruct Hteam.
Qed.

Lemma CreateTarget_ok t : preserves TeamsOk (CreateTarget t).
Proof.
  apply preserves_exec. intros now id db db' x [H1 H2] Heq. repeat case_match; try discriminate Heq.
  injection Heq as <- _. split; [|by destruct db as [[] ? ? ? ? ? ?]].
  intros k r tm Hk Htm. destruct db as [[] ? ? ? ? ? ?]; simpl in *.
  apply lookup_insert_Some in Hk as [[<- <-]|[_ Hk]]; [done|]. by eapply H1.
Qed.

(** Everything that writes teams, their members or assignments. *)
Inductive team_op : World DB -> World DB -> Prop :=
| op_create_team a name w : team_op w (CreateTeam a name w).2
| op_rename a tm name w : team_op w (RenameTeam a tm name w).2
| op_delete a tm w : team_op w (DeleteTeam a tm w).2
| op_add a tm u w : team_op w (AddTeamMember a tm u w).2
| op_drop a tm u w : team_op w (RemoveTeamMember a tm u w).2
| op_assign a target tm w : team_op w (SetTargetTeam a target tm w).2
| op_target t w : team_op w (CreateTarget t w).2.


(** adding a team member succeeds only for a member of the account and a
    live team of the same account, or changes nothing because the user was
    on the team already. *)
Theorem AddTeamMember_inside acct tm u w w' :
  AddTeamMember acct tm u w = (Ret tt, w') ->
  (tm, u) ∈ team_memberships (account_db (w_db w')) /\
  ((is_Some (memberships (account_db (w_db w)) !! (acct, u)) /\ team_of (w_db w) acct tm) \/
   (w_db w' = w_db w /\ team_of (w_db w) acct tm)).
Proof.
  unfold AddTeamMember. intros (n & w1 & [Hex _]%exec_ret & Hb)%bind_ret. cbv beta in Hex.
  assert (team_in (w_db w) acct tm false = true -> team_of (w_db w) acct tm) as Hto.
  { unfold team_in. destruct (teams _ !! tm) as [r|] eqn:E; [|done].
    rewrite andb_true_iff, bool_decide_eq_true. intros [Ha _]. by exists r. }
  destruct (team_in (w_db w) acct tm true && _ && _) eqn:E; injection Hex as Hdb <-.
  - rewrite !andb_true_iff, bool_decide_eq_true in E. destruct E as [[Ht Hm] _]. injection Hb as <-.
    split; [rewrite <- Hdb; destruct (w_db w) as [? [] ? ? ? ? ? ? ?]; simpl; set_solver|].
    left. split; [done|]. apply Hto. unfold team_in in *. destruct (teams _ !! tm); [|done].
    rewrite andb_true_iff in *. naive_solver.
  - simpl in Hb. ret_inv. rewrite negb_false_iff, andb_true_iff, bool_decide_eq_true in *.
    match goal with Hx : _ ∈ _ /\ _ |- _ => destruct Hx as [Hin Ht] end.
    match goal with Hx : w_db w' = w_db w1 |- _ => rewrite Hx end. rewrite <- Hdb in *. split; [done|]. right. split; [done|by apply Hto].
Qed.
End teams.

(** The demo account with one team. *)
Definition ops_db : DB := demo_db{{ account_db -> teams := {[ 5%N := mkTeamRow (mkTeam 5 1 "ops") None ]} }}.

(** The same with a second member, on the team. *)
Definition team_member_db : DB :=
  ops_db{{ account_db -> users ::= <[ 3%N := mkUser 3 "bob@example.com" true "" false false None None 0 None ]>;
           account_db -> memberships ::= <[ (1%N, 3%N) := mkMembership 1 3 "member" 0 ]>;
           account_db -> team_memberships := {[ (5%N, 3%N) ]} }}.

Lemma ops_db_ok : TeamsOk ops_db.
Proof.
  split; [|by intros tm u []%not_elem_of_empty].
  intros k r tm Hk Htm.
  change (targets (drill_db ops_db)) with ({[ 10%N := mkTargetRow demo_target None ]} : gmap uuid TargetRow) in Hk.
  apply lookup_singleton_Some in Hk as [_ <-]. done.
Qed.


(** The membership goes, the rows that put the user on teams stay: a member
    who is taken out of the account and invited again is on his old teams. *)
Lemma removed_member_keeps_team :
  let w := (RemoveMember (env:=demo_env) 1 3 (world team_member_db)).2 in
  TeamsOk team_member_db /\ (RemoveMember (env:=demo_env) 1 3 (world team_member_db)).1 = Ret tt /\
  memberships (account_db (w_db w)) !! (1%N, 3%N) = None /\ (5%N, 3%N) ∈ team_memberships (account_db (w_db w)).
Proof.
  cbv zeta. split; [|split; [vm_compute; reflexivity|split; [vm_compute; reflexivity|]]].
  - split.
    + intros k r tm Hk Htm.
      change (targets (drill_db team_member_db)) with ({[ 10%N := mkTargetRow demo_target None ]} : gmap uuid TargetRow) in Hk.
      apply lookup_singleton_Some in Hk as [_ <-]. done.
    + intros tm u Hin. change (team_memberships (account_db team_member_db)) with ({[ (5%N, 3%N) ]} : gset (uuid * uuid)) in Hin.
      apply elem_of_singleton in Hin as [= -> ->]. exists 1%N. split; [by eexists|]. vm_compute. by eexists.
  - assert (team_memberships (account_db (w_db (RemoveMember (env:=demo_env) 1 3 (world team_member_db)).2)) = {[ (5%N, 3%N) ]}) as ->
      by (vm_compute; reflexivity). by apply elem_of_singleton.
Qed.

Lemma AddTeamMember_inside_witness :
  (5%N, 2%N) ∈ team_memberships (account_db (w_db (AddTeamMember (env:=demo_env) 1 5 2 (world ops_db)).2)).
Proof.
  destruct (AddTeamMember_inside (env:=demo_env) 1 5 2 (world ops_db) (AddTeamMember (env:=demo_env) 1 5 2 (world ops_db)).2)
    as [H _]; [vm_compute; reflexivity|exact H].
Defined.
