(* ===== verification/Billing.v ===== *)
(** internal/billing and internal/web/handlers/billing.go: prices and plans,
    the Stripe client, webhook signatures and the webhook handler. *)
From S2P Require Import Prelude Crypto Effects Schema AuditLog Encoding Plans Demo AccountStore Http.
From Stdlib Require Import Ascii.

(** ** Text *)

(** strings.Split on one character, strings.Cut at one character. *)
Fixpoint split_chars (sep : ascii) (l : list ascii) : list (list ascii) :=
  match l with
  | [] => [[]]
  | c :: l' =>
      if bool_decide (c = sep) then [] :: split_chars sep l'
      else match split_chars sep l' with p :: ps => (c :: p) :: ps | [] => [[c]] end
  end.
Definition Split (s : string) (sep : ascii) : list string := unchars <$> split_chars sep (chars s).
Fixpoint cut_chars (sep : ascii) (l : list ascii) : option (list ascii * list ascii) :=
  match l with
  | [] => None
  | c :: l' =>
      if bool_decide (c = sep) then Some ([], l')
      else '(k, v) ← cut_chars sep l'; Some (c :: k, v)
  end.
Definition Cut (s : string) (sep : ascii) : option (string * string) :=
  '(k, v) ← cut_chars sep (chars s); Some (unchars k, unchars v).

(** strconv.ParseInt(s, 10, 64) *)
Fixpoint digits_value (acc : Z) (l : list ascii) : option Z :=
  match l with
  | [] => Some acc
  | c :: l' => if digit c then digits_value (acc * 10 + (byte_of c - 48)) l' else None
  end.
Definition ParseInt64 (s : string) : option Z :=
  let '(sign, l) := match chars s with
    | c :: l => if bool_decide (c = "-"%char) then (-1, l)
                else if bool_decide (c = "+"%char) then (1, l) else (1, c :: l)
    | [] => (1, [])
    end in
  match l with
  | [] => None
  | _ => n ← digits_value 0 l;
         if bool_decide (- 2 ^ 63 <= sign * n < 2 ^ 63) then Some (sign * n) else None
  end.

(** ** The service *)

Record CheckoutInput : Type := mkCheckoutInput { CustomerID : string; PriceID_ : string; SuccessURL : string; CancelURL : string }.

Record Config : Type := mkConfig {
  SecretKey : string; WebhookSecret : string; PriceStarter : string; PricePro : string; PriceScale : string;
  MeterEvent : string
}.

Record Service : Type := mkService {
  Enabled       : bool;
  Create        : uuid -> string -> string -> GO string;
  Checkout      : CheckoutInput -> GO string;
  Portal        : string -> string -> GO string;
  PriceID       : string -> string;
  PlanForPrice  : string -> string;
  VerifyWebhook : string -> string -> GO unit;
  ReportUsage   : string -> string -> GO unit
}.

Definition notConfigured : error := ErrNew "billing: Stripe is not configured".
Definition noopService : Service := {|
  Enabled := false;
  Create _ _ _ := mret "";
  Checkout _ := fail notConfigured;
  Portal _ _ := fail notConfigured;
  PriceID _ := "";
  PlanForPrice _ := PlanTrial;
  VerifyWebhook _ _ := fail notConfigured;
  ReportUsage _ _ := mret tt
|}.

Definition stripe_PriceID (cfg : Config) (plan : string) : string :=
  if bool_decide (plan = PlanStarter) then PriceStarter cfg
  else if bool_decide (plan = PlanPro) then PricePro cfg
  else if bool_decide (plan = PlanScale) then PriceScale cfg
  else "".

Definition stripe_PlanForPrice (cfg : Config) (priceID : string) : string :=
  if bool_decide (priceID = PriceStarter cfg) then PlanStarter
  else if bool_decide (priceID = PricePro cfg) then PlanPro
  else if bool_decide (priceID = PriceScale cfg) then PlanScale
  else PlanTrial.

(** ** Webhook signatures *)

Definition second_ns : Z := 1000000000.
Definition webhookTolerance : Z := 5 * 60 * second_ns.

Definition signature_part (acc : string * list string) (part : string) : string * list string :=
  match Cut (TrimSpace part) "="%char with
  | None => acc
  | Some (k, v) =>
      if bool_decide (k = "t") then (v, acc.2)
      else if bool_decide (k = "v1") then (acc.1, acc.2 ++ [v])
      else acc
  end.
Definition parseSignatureHeader (h : string) : string * list string :=
  foldl signature_part ("", []) (Split h ","%char).

(** The HMAC of "<timestamp>.<body>" under the signing secret. *)
Definition webhook_mac (secret ts payload : string) : string := hmac sha256 secret (ts +:+ "." +:+ payload).

Section stripe.
Context `{env : Env} `{uuids : UuidLib}.

Definition stripe_VerifyWebhook (cfg : Config) (payload sigHeader : string) : GO unit :=
  let '(ts, sigs) := parseSignatureHeader sigHeader in
  if bool_decide (ts = "") || bool_decide (sigs = [])
  then fail (ErrNew "stripe: malformed Stripe-Signature header") else
  match ParseInt64 ts with
  | None => fail (ErrNew "stripe: bad timestamp in signature")
  | Some tsInt =>
      now ← time_Now;
      let d := now - tsInt * second_ns in
      if (webhookTolerance <? d) || (d <? - webhookTolerance)
      then fail (ErrNew "stripe: webhook timestamp outside tolerance") else
      let want := webhook_mac (WebhookSecret cfg) ts payload in
      if existsb (fun sig => bool_decide (hex_DecodeString sig = Some want)) sigs
      then mret tt
      else fail (ErrNew "stripe: webhook signature does not match")
  end.

(** The REST client: a form POST under an idempotency key, answered by the
    string-valued members of the JSON response. *)
Context (post : string -> list (string * string) -> string -> GO (string -> option string)).

Definition sessionURL (resp : string -> option string) : error + string :=
  let u := default "" (resp "url") in
  if bool_decide (u = "") then inl (ErrNew "stripe: session response had no url") else inr u.

Definition stripe_Create (accountID : uuid) (email name : string) : GO string :=
  resp ← post "/customers"
    ([("email", email)] ++ (if bool_decide (name = "") then [] else [("name", name)])
     ++ [("metadata[account_id]", uuid_String accountID)])
    ("account-create-" +:+ uuid_String accountID);
  let id := default "" (resp "id") in
  if bool_decide (id = "") then fail (ErrNew "stripe: empty id in customer response") else mret id.

Definition stripe_Checkout (i : CheckoutInput) : GO string :=
  if bool_decide (CustomerID i = "") || bool_decide (PriceID_ i = "")
  then fail (ErrNew "billing: checkout needs a customer and a price") else
  resp ← post "/checkout/sessions"
    [("mode", "subscription"); ("customer", CustomerID i); ("line_items[0][price]", PriceID_ i);
     ("line_items[0][quantity]", "1"); ("success_url", SuccessURL i); ("cancel_url", CancelURL i)] "";
  lift (sessionURL resp).

Definition stripe_Portal (customerID returnURL : string) : GO string :=
  if bool_decide (customerID = "") then fail (ErrNew "billing: portal needs a customer") else
  resp ← post "/billing_portal/sessions" [("customer", customerID); ("return_url", returnURL)] "";
  lift (sessionURL resp).

Definition stripe_ReportUsage (cfg : Config) (customerID identifier : string) : GO unit :=
  if bool_decide (MeterEvent cfg = "") then mret tt
  else if bool_decide (customerID = "") then fail (ErrNew "billing: report usage needs a customer") else
  _ ← post "/billing/meter_events"
    ([("event_name", MeterEvent cfg); ("payload[stripe_customer_id]", customerID); ("payload[value]", "1")]
     ++ (if bool_decide (identifier = "") then [] else [("identifier", identifier)])) identifier;
  mret tt.

Definition stripeService (cfg : Config) : Service := {|
  Enabled := true;
  Create := stripe_Create;
  Checkout := stripe_Checkout;
  Portal := stripe_Portal;
  PriceID := stripe_PriceID cfg;
  PlanForPrice := stripe_PlanForPrice cfg;
  VerifyWebhook := stripe_VerifyWebhook cfg;
  ReportUsage := stripe_ReportUsage cfg
|}.

Definition New (c : Config) : Service := if bool_decide (SecretKey c = "") then noopService else stripeService c.
End stripe.

(** ** Events *)

Record WebhookEvent : Type := mkWebhookEvent {
  ev_id : string; ev_Created : time; ev_Type : string; ev_CustomerID : string; ev_SubscriptionID : string;
  ev_Status : string; ev_PriceIDs : list string
}.

(** The members of the JSON body that ParseWebhook's struct names, as
    encoding/json fills them. *)
Record Envelope : Type := mkEnvelope {
  env_id : string; env_created : Z; env_type : string; obj_id : string; obj_customer : string;
  obj_status : string; item_price_ids : list string
}.

Definition ParseWebhook (unmarshal : string -> error + Envelope) (payload : string) : error + WebhookEvent :=
  match unmarshal payload with
  | inl e => inl (ErrWrap "stripe: decode webhook" e)
  | inr v => inr (mkWebhookEvent (env_id v) (env_created v * second_ns) (env_type v) (obj_customer v) (obj_id v)
                    (obj_status v) (filter (fun p => p <> "") (item_price_ids v)))
  end.

Definition SubscriptionActive (status : string) : bool :=
  bool_decide (status = "active") || bool_decide (status = "trialing").

Definition IsSubscriptionEvent (eventType : string) : bool :=
  bool_decide (eventType ∈ ["customer.subscription.created"; "customer.subscription.updated";
                            "customer.subscription.deleted"]).

(** ** The handlers *)

Record Message : Type := mkMessage { To_ : string; Subject : string; TextBody : string }.

Definition quote : string := String "034"%char EmptyString.
Definition nl : string := String "010"%char EmptyString.
Definition ProductName : string := "Dokaz".

Definition PaymentFailedMessage (to accountName portalLink : string) : Message :=
  let p := ProductName in
  mkMessage to ("Payment issue on your " +:+ p +:+ " subscription")
    ("We couldn't process the last payment on your " +:+ p +:+ " subscription for " +:+ quote +:+ accountName +:+ quote
     +:+ "." +:+ nl +:+ nl
     +:+ "Card declines usually clear themselves on the next retry — your bank may" +:+ nl
     +:+ "have flagged a routine charge — but we wanted to let you know so it" +:+ nl
     +:+ "doesn't slip past." +:+ nl +:+ nl
     +:+ "Update your card here, and " +:+ p +:+ " will re-attempt the payment automatically:" +:+ nl +:+ nl
     +:+ portalLink +:+ nl +:+ nl
     +:+ "If nothing changes after Stripe's retries, the subscription will be" +:+ nl
     +:+ "canceled and your workspace will drop into a 7-day grace window. Signed" +:+ nl
     +:+ "reports stay available throughout — no drills stop." +:+ nl +:+ nl
     +:+ "— " +:+ p +:+ nl).

Definition postCancellationGrace : Z := 7 * day.

(** The first item that maps to a paid plan. *)
Definition plan_of_items (planForPrice : string -> string) (items : list string) : string :=
  default PlanTrial (head (filter (fun p => p <> PlanTrial) (planForPrice <$> items))).

Section handlers.
Context `{env : Env} `{uuids : UuidLib}.
Context (billing : Service) (unmarshal : string -> error + Envelope).
Context (Send : Message -> GO unit) (baseURL : string) (absoluteURL : string -> string).

Definition sendPaymentFailedEmail (customerID : string) : GO unit :=
  if bool_decide (customerID = "") then mret tt else
  r ← try (OwnerByStripeCustomer customerID);
  match r with
  | inl _ => mret tt
  | inr owner =>
      r ← try (Portal billing customerID (baseURL +:+ "/account"));
      let portalLink := match r with
        | inl _ => baseURL +:+ "/account"
        | inr l => if bool_decide (l = "") then baseURL +:+ "/account" else l
        end in
      ignore (Send (PaymentFailedMessage (oc_OwnerEmail owner) (oc_AccountName owner) portalLink))
  end.

(** The response is the HTTP status code. *)
(** The event id, recorded first: go on, or answer at once. *)
Definition dedup (id : string) (next : GO Z) : GO Z :=
  if bool_decide (id = "") then next else
  r ← try (RecordStripeEvent id);
  match r with
  | inl _ => mret StatusInternalServerError
  | inr fresh => if negb (fresh : bool) then mret StatusOK else next
  end.

(** What a subscription event does once it is past the dedup gate. *)
Definition sync_event (ev : WebhookEvent) : GO Z :=
  if bool_decide (ev_Type ev = "customer.subscription.deleted") then
    now ← time_Now;
    r ← try (HandleSubscriptionCanceled (ev_CustomerID ev) (ev_Created ev) (now + postCancellationGrace));
    mret (match r with inl _ => StatusInternalServerError | inr _ => StatusOK end)
  else
    r ← try (SyncSubscription (ev_CustomerID ev) (ev_SubscriptionID ev) (ev_Status ev)
               (plan_of_items (PlanForPrice billing) (ev_PriceIDs ev)) (ev_Created ev));
    mret (match r with inl _ => StatusInternalServerError | inr _ => StatusOK end).

(** [body] is the request's body, of which at most 1 MiB is read. *)
Definition stripeWebhook (body sigHeader : string) : GO Z :=
  let body := String.substring 0 (Z.to_nat (Z.shiftl 1 20)) body in
  r ← try (VerifyWebhook billing body sigHeader);
  match r with
  | inl _ => mret StatusBadRequest
  | inr _ =>
      match ParseWebhook unmarshal body with
      | inl _ => mret StatusBadRequest
      | inr ev =>
          if bool_decide (ev_Type ev = "invoice.payment_failed") then
            dedup (ev_id ev) (sendPaymentFailedEmail (ev_CustomerID ev);; mret StatusOK)
          else if negb (IsSubscriptionEvent (ev_Type ev)) then mret StatusOK
          else dedup (ev_id ev) (sync_event ev)
      end
  end.

(** The signed-in account owner. *)
Definition ensureStripeCustomer (acct : Account) (userEmail : string) : GO string :=
  match a_StripeCustomerID acct with
  | Some id => if bool_decide (id = "") then
      id ← Create billing (a_ID acct) userEmail (a_Name acct); SetStripeCustomerID (a_ID acct) id;; mret id
    else mret id
  | None => id ← Create billing (a_ID acct) userEmail (a_Name acct); SetStripeCustomerID (a_ID acct) id;; mret id
  end.

(** What the browser is told: an HTTP error, or a redirect to Stripe. *)

Definition billingCheckout (acct : Account) (userID : uuid) (userEmail plan : string) : GO response :=
  let plan := TrimSpace plan in
  let priceID := PriceID billing plan in
  if bool_decide (priceID = "") then mret (HTTPError StatusBadRequest)
  else if negb (bool_decide (a_Plan acct = PlanTrial)) then
    match a_StripeCustomerID acct with
    | None => mret (HTTPError StatusInternalServerError)
    | Some c =>
        if bool_decide (c = "") then mret (HTTPError StatusInternalServerError) else
        r ← try (Portal billing c (absoluteURL "/account"));
        mret (match r with inl _ => HTTPError StatusInternalServerError | inr url => Redirect url end)
    end
  else
    r ← try (ensureStripeCustomer acct userEmail);
    match r with
    | inl _ => mret (HTTPError StatusInternalServerError)
    | inr customerID =>
        r ← try (Checkout billing (mkCheckoutInput customerID priceID (absoluteURL "/account?billing=success")
                                     (absoluteURL "/account")));
        match r with
        | inl _ => mret (HTTPError StatusInternalServerError)
        | inr url =>
            ignore (Record_ (mkEvent (Some (a_ID acct)) (Some userID) "billing.checkout_started" "account"
                      (uuid_String (a_ID acct)) [("plan", AString plan)]));;
            mret (Redirect url)
        end
    end.

Definition billingPortal (acct : Account) : GO response :=
  match a_StripeCustomerID acct with
  | None => mret (HTTPError StatusBadRequest)
  | Some c =>
      r ← try (Portal billing c (absoluteURL "/account"));
      mret (match r with inl _ => HTTPError StatusInternalServerError | inr url => Redirect url end)
  end.
End handlers.

(** ** Signatures *)

Section signature_facts.
Context `{env : Env}.

(** a webhook body is accepted exactly when the header carries a
    timestamp within five minutes of the clock and some v1 signature that is
    the hex form of the HMAC-SHA256 of that timestamp and the body under the
    signing secret. *)
Theorem VerifyWebhook_accepts cfg payload header w :
  (exists w', stripe_VerifyWebhook cfg payload header w = (Ret tt, w')) <->
  exists n, (parseSignatureHeader header).1 <> "" /\ ParseInt64 (parseSignatureHeader header).1 = Some n /\
    Z.abs (env_now (w_tick w) - n * second_ns) <= webhookTolerance /\
    exists sig, sig ∈ (parseSignatureHeader header).2 /\
      hex_DecodeString sig = Some (webhook_mac (WebhookSecret cfg) (parseSignatureHeader header).1 payload).
Proof.
  unfold stripe_VerifyWebhook. destruct (parseSignatureHeader header) as [ts sigs]. simpl.
  case_bool_decide as Hts; simpl; [split; [by intros [? [=]]|naive_solver]|].
  case_bool_decide as Hs; simpl.
  { subst. split; [by intros [? [=]]|]. intros (n & _ & _ & _ & sig & []%not_elem_of_nil & _). }
  destruct (ParseInt64 ts) as [n|]; [|split; [by intros [? [=]]|naive_solver]].
  unfold time_Now, mbind, M_bind. simpl.
  destruct (Z.ltb_spec webhookTolerance (env_now (w_tick w) - n * second_ns)); simpl.
  { split; [by intros [? [=]]|]. intros (n' & _ & [= <-] & Ha & _). lia. }
  destruct (Z.ltb_spec (env_now (w_tick w) - n * second_ns) (- webhookTolerance)); simpl.
  { split; [by intros [? [=]]|]. intros (n' & _ & [= <-] & Ha & _). lia. }
  destruct (existsb _ sigs) eqn:E.
  - apply existsb_exists in E as (sig & Hin%list_elem_of_In & Hsig%bool_decide_eq_true).
    split; [|by eauto]. intros _. exists n. split; [done|]. split; [done|]. split; [lia|by exists sig].
  - split; [by intros [? [=]]|]. intros (n' & _ & [= <-] & _ & sig & Hin & Hsig).
    rewrite <- not_true_iff_false, existsb_exists in E. destruct E. exists sig.
    by rewrite <- list_elem_of_In, bool_decide_eq_true.
Qed.
End signature_facts.

(** The header Stripe sends. *)
Definition stripe_header (ts : string) (mac : string) : string :=
  "t=" +:+ ts +:+ ",v1=" +:+ hex_EncodeToString mac.

Lemma split_chars_app sep l1 l2 :
  Forall (fun c => c <> sep) l1 -> split_chars sep (l1 ++ sep :: l2) = l1 :: split_chars sep l2.
Proof.
  induction 1 as [|c l1 Hc _ IH]; simpl; [by rewrite bool_decide_eq_true_2|].
  by rewrite bool_decide_eq_false_2, IH.
Qed.
Lemma split_chars_one sep l : Forall (fun c => c <> sep) l -> split_chars sep l = [l].
Proof. induction 1 as [|c l Hc _ IH]; simpl; [done|]. by rewrite bool_decide_eq_false_2, IH. Qed.

Lemma drop_while_none {A} (p : A -> bool) l : Forall (fun x => p x = false) l -> drop_while p l = l.
Proof. destruct 1 as [|x l Hx _]; simpl; [done|]. by rewrite Hx. Qed.

Lemma trim_none s : Forall (fun c => white c = false) (chars s) -> TrimSpace s = s.
Proof.
  intros H. unfold TrimSpace, trim_by. rewrite (drop_while_none white (chars s)) by done.
  rewrite drop_while_none by by apply Forall_rev. by rewrite rev_involutive, String.string_of_list_ascii_of_string.
Qed.

Lemma chars_app a b : chars (a +:+ b) = chars a ++ chars b.
Proof. induction a as [|c a IH]; simpl; [done|]. by rewrite IH. Qed.

Definition hexchar (c : ascii) : bool := digit c || lower c.
Lemma hex_chars s : Forall (fun c => hexchar c = true) (chars (hex_EncodeToString s)).
Proof.
  assert (forall z, 0 <= z < 16 -> hexchar (hex_digit z) = true) as Hd.
  { intros z Hz. assert (forallb (fun n => hexchar (hex_digit (Z.of_nat n))) (seq 0 16) = true) as H by done.
    rewrite forallb_forall in H. specialize (H (Z.to_nat z)). rewrite Z2Nat.id in H by lia. apply H, in_seq. lia. }
  induction s as [|c s IH]; simpl; [constructor|]. pose proof (byte_of_range c) as Hr. unfold is_byte in Hr.
  repeat constructor; [apply Hd..|exact IH]; Z.to_euclidean_division_equations; lia.
Qed.

Lemma hexchar_plain c : hexchar c = true -> white c = false /\ c <> ","%char.
Proof.
  unfold hexchar, digit, lower, white. intros H. split.
  - destruct (Z.leb_spec 48 (byte_of c)), (Z.leb_spec (byte_of c) 57), (Z.leb_spec 97 (byte_of c)),
      (Z.leb_spec (byte_of c) 122), (Z.eqb_spec (byte_of c) 32), (Z.leb_spec 9 (byte_of c)),
      (Z.leb_spec (byte_of c) 13); simpl in *; lia || done.
  - intros ->. done.
Qed.

Lemma parse_stripe_header ts mac :
  Forall (fun c => digit c = true) (chars ts) ->
  parseSignatureHeader (stripe_header ts mac) = (ts, [hex_EncodeToString mac]).
Proof.
  intros Hts. unfold parseSignatureHeader, stripe_header, Split.
  assert (forall s, Forall (fun c => digit c = true) (chars s) -> Forall (fun c => hexchar c = true) (chars s)) as Hdh.
  { intros s Hs. eapply Forall_impl; [exact Hs|]. unfold hexchar. by intros c ->. }
  assert (forall s, Forall (fun c => hexchar c = true) (chars s) -> Forall (fun c => white c = false) (chars s)
            /\ Forall (fun c => c <> ","%char) (chars s)) as Hpl.
  { intros s Hs. split; (eapply Forall_impl; [exact Hs|]); intros c Hc; by apply hexchar_plain. }
  destruct (Hpl ts (Hdh _ Hts)) as [Hw1 Hc1]. destruct (Hpl _ (hex_chars mac)) as [Hw2 Hc2].
  rewrite !chars_app. simpl (chars "t="). simpl (chars ",v1=").
  change (["t"%char; "="%char] ++ chars ts ++ [","%char; "v"%char; "1"%char; "="%char] ++ chars (hex_EncodeToString mac))
    with (("t"%char :: "="%char :: chars ts) ++ ","%char :: ("v"%char :: "1"%char :: "="%char :: chars (hex_EncodeToString mac))).
  rewrite split_chars_app by (repeat constructor; done).
  rewrite split_chars_one by (repeat constructor; done). simpl fmap. unfold foldl, signature_part.
  rewrite !trim_none by (simpl; rewrite chars_unchars; repeat constructor; done).
  unfold Cut. cbn [String.list_ascii_of_string]. rewrite !chars_unchars. simpl. by rewrite !String.string_of_list_ascii_of_string.
Qed.

(** the header Stripe builds, the decimal timestamp and the hex of the
    HMAC, passes the check whenever the timestamp is within the tolerance,
    for every secret and body. *)
Theorem stripe_signature_roundtrip `{env : Env} cfg payload ts n w :
  Forall (fun c => digit c = true) (chars ts) -> ParseInt64 ts = Some n ->
  Z.abs (env_now (w_tick w) - n * second_ns) <= webhookTolerance ->
  exists w', stripe_VerifyWebhook cfg payload
    (stripe_header ts (webhook_mac (WebhookSecret cfg) ts payload)) w = (Ret tt, w').
Proof.
  intros Hts Hn Ht. apply VerifyWebhook_accepts. rewrite parse_stripe_header by done. simpl.
  exists n. split; [by intros ->|]. split; [done|]. split; [done|].
  eexists. split; [left|]. apply hex_Decode_Encode.
Qed.

(** ** The webhook handler *)

(** The service calls that the handlers make do not write the account
    tables; mail does not either. *)
Record ServiceOk (s : Service) : Prop := mkServiceOk {
  Create_frame : forall i e n, frame account_db (Create s i e n);
  Checkout_frame : forall i, frame account_db (Checkout s i);
  Portal_frame : forall c u, frame account_db (Portal s c u);
  VerifyWebhook_frame : forall p h, frame account_db (VerifyWebhook s p h)
}.

Section stripe_ok.
Context `{env : Env} `{uuids : UuidLib}.
Context (post : string -> list (string * string) -> string -> GO (string -> option string)).
Context (post_frame : forall p f k, frame account_db (post p f k)).

Lemma stripeService_ok cfg : ServiceOk (stripeService post cfg).
Proof.
  split; intros; simpl; unfold stripe_Create, stripe_Checkout, stripe_Portal, stripe_VerifyWebhook; frame_steps.
Qed.
End stripe_ok.

Section webhook_facts.
Context `{env : Env} `{uuids : UuidLib}.
Context (billing : Service) (HB : ServiceOk billing) (unmarshal : string -> error + Envelope).
Context (Send : Message -> GO unit) (Send_frame : forall m, frame account_db (Send m)) (baseURL : string).
Implicit Types w : World DB.

Abbreviation accts w := (accounts (account_db (w_db w))).

Lemma sendPaymentFailedEmail_frame c : frame account_db (sendPaymentFailedEmail billing Send baseURL c).
Proof.
  unfold sendPaymentFailedEmail, OwnerByStripeCustomer. pose proof (Portal_frame _ HB). frame_steps.
Qed.

(** One statement on the account rows. *)
Definition touches (p : AccountRow -> bool) w w' : Prop :=
  accts w' = accts w \/ exists f, accts w' = sql_update p f (accts w).

Lemma touches_exec p {A} (f : stmt DB A) w :
  (forall t u db db' a, f t u db = inr (db', a) ->
     exists g, accounts (account_db db') = sql_update p g (accounts (account_db db))) ->
  touches p w (exec f w).2.
Proof.
  intros Hf. destruct (exec_spec f w) as (_ & _ & _ & Ho). unfold touches.
  destruct (exec f w).1; simpl in Ho; [right; by eapply Hf|..].
  - destruct Ho as [[-> _]|[_ [a Ha]]]; [by left|right; by eapply Hf].
  - destruct Ho as [->|[a Ha]]; [by left|right; by eapply Hf].
Qed.

Lemma touches_try_ret p {A B} (m : GO A) (F : error + A -> B) w :
  touches p w (m w).2 -> touches p w ((r ← try m; mret (F r)) w).2.
Proof. unfold try, mbind, M_bind. by destruct (m w) as [[a|e|] w']. Qed.

Lemma sync_event_touches ev w :
  touches (sync_where (ev_CustomerID ev) (ev_Created ev)) w (sync_event billing ev w).2.
Proof.
  unfold sync_event. case_bool_decide.
  - apply (touches_try_ret _ (HandleSubscriptionCanceled _ _ _) _ (tick w)), touches_exec.
    intros t u db db' a [= <- _]. eexists. destruct db as [? [] ? ? ? ? ? ? ?]. reflexivity.
  - apply touches_try_ret, touches_exec. intros t u db db' a Heq. cbv zeta in Heq. case_match; [done|].
    injection Heq as <- _. eexists. destruct db as [? [] ? ? ? ? ? ? ?]. reflexivity.
Qed.

(** What lets an event through the gate. *)
Definition admitted (body sigHeader : string) w (ev : WebhookEvent) : Prop :=
  (exists w1, VerifyWebhook billing body sigHeader w = (Ret tt, w1)) /\
  ParseWebhook unmarshal body = inr ev /\ IsSubscriptionEvent (ev_Type ev) = true /\
  (ev_id ev = "" \/ ev_id ev ∉ stripe_events (account_db (w_db w))).

Lemma dedup_cases id (next : GO Z) w (P : World DB -> Prop) :
  (forall w', accts w' = accts w -> P w') ->
  ((id = "" \/ id ∉ stripe_events (account_db (w_db w))) ->
   forall w', accts w' = accts w -> P (next w').2) ->
  P (dedup id next w).2.
Proof.
  intros Hskip Hnext. unfold dedup. case_bool_decide as Hid; [by apply Hnext; [left|]|].
  assert (frame (fun db => accounts (account_db db)) (RecordStripeEvent id)) as Hf.
  { unfold RecordStripeEvent. frame_steps. apply frame_exec. intros t u db db' a Heq. case_bool_decide; simplify_eq; [done|].
    by destruct db as [? [] ? ? ? ? ? ? ?]. }
  specialize (Hf w). simpl in Hf.
  unfold try, mbind at 1, M_bind at 1. destruct (RecordStripeEvent id w) as [[fresh|e|] w1] eqn:E; simpl in *; [|by apply Hskip..].
  destruct fresh; simpl; [|by apply Hskip]. apply Hnext; [|done]. right. intros Hin.
  unfold RecordStripeEvent in E. apply bind_ret in E as (n & w2 & [Hex _]%exec_ret & Hn).
  rewrite bool_decide_eq_true_2 in Hex by done. by simplify_eq/=.
Qed.

(** C29: whatever happens inside the webhook handler, the accounts are
    untouched unless the body was signed, it is a subscription event, and
    its id was not seen before; and then at most one update is made, to the
    rows of the event's customer whose subscription state is not newer than
    the event. *)
Theorem webhook_gate body sigHeader w :
  let body' := String.substring 0 (Z.to_nat (Z.shiftl 1 20)) body in
  let w' := (stripeWebhook billing unmarshal Send baseURL body sigHeader w).2 in
  accts w' = accts w \/
  exists ev f, admitted body' sigHeader w ev /\
    accts w' = sql_update (sync_where (ev_CustomerID ev) (ev_Created ev)) f (accts w).
Proof.
  cbv zeta. set (body' := String.substring 0 _ body).
  set (P := fun v : World DB => accts v = accts w \/
    exists ev f, admitted body' sigHeader w ev /\
      accts v = sql_update (sync_where (ev_CustomerID ev) (ev_Created ev)) f (accts w)).
  change (P (stripeWebhook billing unmarshal Send baseURL body sigHeader w).2).
  unfold stripeWebhook. fold body'. pose proof (VerifyWebhook_frame _ HB body' sigHeader w) as Hv.
  assert (forall v, account_db (w_db v) = account_db (w_db w) -> P v) as Hsame by (intros v E; left; by rewrite E).
  unfold try, mbind at 1, M_bind at 1. destruct (VerifyWebhook billing body' sigHeader w) as [[[]|e|] w1] eqn:EV;
    simpl in Hv |- *; [|by apply Hsame..].
  destruct (ParseWebhook unmarshal body') as [e|ev] eqn:EP; [by apply Hsame|].
  case_bool_decide as Hty.
  - apply dedup_cases; [intros w' E; left; by rewrite E, Hv|]. intros _ w2 Hw2.
    assert (frame account_db (sendPaymentFailedEmail billing Send baseURL (ev_CustomerID ev);; mret StatusOK)) as Hf
      by (frame_steps; apply sendPaymentFailedEmail_frame).
    left. by rewrite Hf, Hw2, Hv.
  - destruct (IsSubscriptionEvent (ev_Type ev)) eqn:ES; simpl; [|by apply Hsame].
    apply dedup_cases; [intros w' E; left; by rewrite E, Hv|]. intros Hid w2 Hw2. rewrite Hv in Hid, Hw2.
    destruct (sync_event_touches ev w2) as [E|[f E]]; [left; by rewrite E|].
    right. exists ev, f. rewrite E, Hw2. split; [|done]. split; [by exists w1|]. done.
Qed.
End webhook_facts.

(** *** A signed event of the demo account *)

Definition demo_config : Config := mkConfig "sk" "whsec" "price_s" "price_p" "price_x" "".
Definition demo_post (_ : string) (_ : list (string * string)) (_ : string) : GO (string -> option string) :=
  mret (fun _ => Some "https://stripe").
Definition demo_billing `{env : Env} : Service := stripeService demo_post demo_config.
(** The subscription moves the customer to the Growth plan. *)
Definition demo_event (_ : string) : error + Envelope :=
  inr (mkEnvelope "evt_1" 1800000000 "customer.subscription.updated" "sub_1" "cus_1" "active" ["price_p"]).
Definition demo_header : string := stripe_header "1800000000" (webhook_mac "whsec" "1800000000" "{}").
Definition demo_webhook (env : Env) (w : World DB) : outcome Z * World DB :=
  stripeWebhook (env:=env) demo_billing demo_event (fun _ => mret tt) "https://app" "{}" demo_header w.

Lemma demo_billing_ok `{env : Env} : ServiceOk demo_billing.
Proof. apply stripeService_ok. done. Qed.

Definition plan_of (w : World DB) : option Plan := (fun r => a_Plan (acr_account r)) <$> accounts (account_db (w_db w)) !! 1%N.

Lemma VerifyWebhook_accepts_witness :
  exists n, ParseInt64 (parseSignatureHeader demo_header).1 = Some n.
Proof.
  destruct (proj1 (VerifyWebhook_accepts (env:=demo_env) demo_config "{}" demo_header (world demo_db))) as (n & _ & H & _).
  - eexists. vm_compute. reflexivity.
  - exists n. exact H.
Defined.

Lemma stripe_signature_roundtrip_witness :
  exists w', stripe_VerifyWebhook (env:=demo_env) demo_config "body"
    (stripe_header "1800000123" (webhook_mac "whsec" "1800000123" "body")) (world demo_db) = (Ret tt, w').
Proof.
  apply (stripe_signature_roundtrip (env:=demo_env) demo_config "body" "1800000123" 1800000123).
  - repeat constructor.
  - reflexivity.
  - vm_compute. congruence.
Defined.

Lemma webhook_gate_witness :
  plan_of (demo_webhook demo_env (world demo_db)).2 = Some PlanPro /\
  accounts (account_db (w_db (stripeWebhook (env:=demo_env) (demo_billing (env:=demo_env)) demo_event (fun _ => mret tt) "" "{}" "t=1,v1=00"
    (world demo_db)).2)) = accounts (account_db demo_db).
Proof.
  split; [vm_compute; reflexivity|].
  destruct (webhook_gate (env:=demo_env) (demo_billing (env:=demo_env)) (demo_billing_ok (env:=demo_env)) demo_event (fun _ => mret tt) (fun _ => frame_ret _ _) ""
    "{}" "t=1,v1=00" (world demo_db)) as [H|(ev & f & [[w1 H] _] & _)]; [exact H|].
  vm_compute in H. discriminate H.
Defined.

(** an event can be lost.  Its id is recorded before the accounts are
    synced; when the sync statement fails the handler answers 500, Stripe
    delivers again, and the second delivery is taken for a duplicate: it is
    acknowledged and the account never changes, although without the fault
    the first delivery would have moved it to the paid plan. *)
Theorem webhook_event_lost :
  exists (env : Env) (w w1 w2 : World DB),
    demo_webhook env w = (Ret StatusInternalServerError, w1) /\
    demo_webhook env w1 = (Ret StatusOK, w2) /\
    accounts (account_db (w_db w2)) = accounts (account_db (w_db w)) /\
    plan_of w2 = Some PlanStarter /\
    (demo_webhook demo_env w).1 = Ret StatusOK /\ plan_of (demo_webhook demo_env w).2 = Some PlanPro.
Proof.
  exists (fault_at 2 (FErr false)), (world demo_db). do 2 eexists.
  split; [vm_compute; reflexivity|]. split; [vm_compute; reflexivity|]. vm_compute. done.
Qed.

(** ** Subscription events in any order *)

Inductive SubEvent : Type :=
| EvSync (customer subscription status : string) (plan : Plan) (created : time)
| EvCancel (customer : string) (created grace : time).
Definition ev_created (e : SubEvent) : time :=
  match e with EvSync _ _ _ _ t => t | EvCancel _ t _ => t end.
Definition ev_plan_ok (e : SubEvent) : Prop :=
  match e with EvSync _ _ _ p _ => plan_check p = true | EvCancel _ _ _ => True end.

(** The columns a subscription event decides; the end of the trial, which
    only a cancellation moves, is not one of them. *)
Definition sub_view (r : AccountRow) : option string * Plan * option string * option string * option time :=
  (a_StripeCustomerID (acr_account r), a_Plan (acr_account r), acr_stripe_subscription_id r,
   a_SubscriptionStatus (acr_account r), acr_subscription_status_updated_at r).
Definition sub_views (db : DB) : gmap uuid _ := sub_view <$> accounts (account_db db).

Section order.
Context `{env : Env}.

Definition apply_ev (e : SubEvent) : GO unit :=
  match e with
  | EvSync c s st p t => SyncSubscription c s st p t
  | EvCancel c t g => HandleSubscriptionCanceled c t g
  end.

Definition ev_row (e : SubEvent) (r : AccountRow) : AccountRow :=
  match e with
  | EvSync c s st p t => if sync_where c t r then sync_set s st p t r else r
  | EvCancel c t g => if sync_where c t r then cancel_set t g r else r
  end.

Lemma apply_ev_ok (ff : fault_free) e w :
  ev_plan_ok e -> exists w', apply_ev e w = (Ret tt, w') /\
    accounts (account_db (w_db w')) = ev_row e <$> accounts (account_db (w_db w)).
Proof.
  intros Hp. destruct e as [c s st p t|c t g]; simpl in *.
  - unfold SyncSubscription. eexists. split.
    + apply exec_ok; [apply ff|]. cbv zeta. rewrite Hp. reflexivity.
    + simpl. by destruct (w_db w) as [? [] ? ? ? ? ? ? ?].
  - eexists. split; [apply update_ok, ff|]. simpl. by destruct (w_db w) as [? [] ? ? ? ? ? ? ?].
Qed.

(** What an event does to the deciding columns. *)
Definition ev_view (e : SubEvent) (v : option string * Plan * option string * option string * option time) :=
  let '(cust, plan, sub, status, upd) := v in
  let newer t := match upd with None => true | Some u => u <=? t end in
  match e with
  | EvSync c s st p t =>
      if bool_decide (cust = Some c) && newer t then (cust, p, nullif_empty s, nullif_empty st, Some t) else v
  | EvCancel c t g =>
      if bool_decide (cust = Some c) && newer t then (cust, PlanTrial, None, Some "canceled", Some t) else v
  end.

Lemma sub_view_ev e r : sub_view (ev_row e r) = ev_view e (sub_view r).
Proof.
  destruct r as [[] ? ? ? ?], e; simpl; unfold sync_where; simpl; by case_match.
Qed.

Lemma ev_view_comm e1 e2 v :
  ev_created e1 <> ev_created e2 -> ev_view e1 (ev_view e2 v) = ev_view e2 (ev_view e1 v).
Proof.
  destruct v as [[[[cust plan] sub] status] upd].
  intros Hne. destruct e1, e2, upd; simpl in *; repeat case_bool_decide; simpl;
    repeat (case_match; simpl; repeat case_bool_decide; simpl in *); simplify_eq; try done; try lia.
Qed.

Lemma run_views (ff : fault_free) es w :
  Forall ev_plan_ok es ->
  exists w', for_each es apply_ev w = (Ret tt, w') /\
    sub_views (w_db w') = (fun v => foldl (fun v e => ev_view e v) v es) <$> sub_views (w_db w).
Proof.
  intros Hes. revert w. induction Hes as [|e es He _ IH]; intros w; simpl.
  - exists w. split; [done|]. by rewrite map_fmap_id.
  - destruct (apply_ev_ok ff e w He) as (w1 & Hw1 & Ha). destruct (IH w1) as (w2 & Hw2 & Hv).
    exists w2. split; [by eapply bind_ok|]. rewrite Hv. unfold sub_views. rewrite Ha.
    rewrite <- !map_fmap_compose. apply map_fmap_ext. intros k r _. simpl. by rewrite sub_view_ev.
Qed.

Lemma foldl_ev_perm es es' v :
  NoDup (ev_created <$> es) -> es ≡ₚ es' ->
  foldl (fun v e => ev_view e v) v es = foldl (fun v e => ev_view e v) v es'.
Proof.
  intros Hnd Hp. revert v Hnd. induction Hp as [|e l l' _ IH|e1 e2 l|l1 l2 l3 H12 IH1 H23 IH2]; intros v Hnd; simpl in *.
  - done.
  - apply NoDup_cons in Hnd as [_ Hnd]. by apply IH.
  - rewrite (ev_view_comm e1 e2); [done|]. apply NoDup_cons in Hnd as [Hnd _]. set_solver.
  - rewrite IH1 by done. apply IH2. by rewrite <- H12.
Qed.

End order.

