(* ===== verification/AuthStore.v ===== *)
(** internal/auth: sessions, the second factor, one-time links, the login
    throttle, and the middlewares that put the user and the account into a
    request's context. *)
From S2P Require Import Prelude Crypto Effects Schema Encoding Plans Rbac AccountStore.
From Stdlib Require Import Ascii.

Definition ErrNoSession : error := ErrNew "no session".

(** auth.User: what a request knows of its user. *)
Record AuthUser : Type := mkAuthUser {
  au_ID : uuid; au_Email : string; au_EmailVerified : bool; au_IsStaff : bool; au_MFAEnabled : bool; au_CreatedAt : time
}.
Definition auth_user (u : User) : AuthUser :=
  mkAuthUser (u_ID u) (u_Email u) (u_EmailVerified u) (u_IsStaff u) (u_MFAEnabled u) (u_CreatedAt u).

(** ** One-time passwords (totp.go) *)

Definition second : Z := 1000000000.
Definition totpPeriod : Z := 30 * second.
Definition totpDigits : nat := 6.

(** [uint64(t.UTC().Unix()) / uint64(totpPeriod.Seconds())] *)
Definition totp_counter (t : time) : Z := (t / second) mod 2 ^ 64 / 30.

(** [fmt.Sprintf("%0*d", n, z)] for z below 10^n *)
Fixpoint decimal (n : nat) (z : Z) : string :=
  match n with
  | O => ""
  | S n' => String (of_byte (48 + z / 10 ^ Z.of_nat n' mod 10)) (decimal n' z)
  end.

(** Dynamic truncation (RFC 4226, 5.3) of an HMAC-SHA1. *)
Definition truncate (sum : list Z) : Z :=
  let offset := Z.to_nat (Z.land (List.last sum 0) 15) in
  let at_ i := nth (offset + i) sum 0 in
  Z.lor (Z.lor (Z.lor (Z.shiftl (Z.land (at_ 0%nat) 127) 24) (Z.shiftl (at_ 1%nat) 16)) (Z.shiftl (at_ 2%nat) 8)) (at_ 3%nat).

Definition TOTPCode (secret : string) (t : time) : option string :=
  key ← Base32_Decode (ToUpper (TrimSpace secret));
  let msg := of_bytes (be_bytes 8 (totp_counter t)) in
  Some (decimal totpDigits (truncate (bytes_of (hmac sha1 key msg)) mod 10 ^ Z.of_nat totpDigits)).

Fixpoint totp_try (secret code : string) (t : time) (skews : list Z) : option Z :=
  match skews with
  | [] => None
  | skew :: l =>
      match TOTPCode secret (t + skew) with
      | None => None
      | Some want => if bool_decide (want = code) then Some (totp_counter (t + skew)) else totp_try secret code t l
      end
  end.
Definition VerifyTOTPWithCounter (secret code : string) (t : time) : option Z :=
  let code := TrimSpace code in
  if negb (String.length code =? totpDigits)%nat then None
  else totp_try secret code t [0; - totpPeriod; totpPeriod].
Definition VerifyTOTP (secret code : string) (t : time) : bool :=
  match VerifyTOTPWithCounter secret code t with Some _ => true | None => false end.

Definition recoveryCodeCount : nat := 10.
Definition normalizeRecoveryCode (s : string) : string :=
  ToLower (remove_char " "%char (remove_char "-"%char (TrimSpace s))).

Section auth_store.
Context `{env : Env} `{uuids : UuidLib} `{rand : Rand}.
(** NewStore's settings. *)
Context (idleTimeout absoluteMaxAge : Z).

Definition GenerateTOTPSecret : GO string := b ← rand_Read 20; mret (Base32_Encode b).

(** ** Sessions (session.go); a request carries at most one session cookie *)

Definition insert_session (id userID : uuid) (hash : string) (now expires : time) (acct : option uuid)
    (mfaPending : bool) : GO unit :=
  exec (fun _ _ db =>
    match users (account_db db) !! userID, sessions (auth_db db) !! id with
    | None, _ => inl (ErrConstraint "sessions_user_id_fkey")
    | _, Some _ => inl ErrUnique
    | Some _, None =>
        if sql_exists (fun s => bool_decide (ser_token_hash s = hash)) (sessions (auth_db db)) then inl ErrUnique
        else inr (db{{ auth_db -> sessions ::=
               <[ id := mkSessionRow (mkSession id userID now expires None mfaPending None) hash now acct ]> }}, tt)
    end).

(** The result is the value of the cookie the response sets. *)
Definition create (userID currentAccountID : uuid) (mfaPending : bool) : GO string :=
  '(raw, hash) ← generateToken;
  id ← uuid_New;
  now ← time_Now;
  insert_session id userID hash now (now + absoluteMaxAge)
    (if bool_decide (currentAccountID = uuid_Nil) then None else Some currentAccountID) mfaPending;;
  mret raw.

Definition Create (userID currentAccountID : uuid) : GO string := create userID currentAccountID false.

Definition delete_sessions (p : SessionRow -> bool) : GO unit :=
  update (fun _ db => db{{ auth_db -> sessions ::= sql_delete p }}).

Definition CreatePending (userID : uuid) : GO string :=
  delete_sessions (fun s => bool_decide (se_UserID (ser_session s) = userID) && se_MFAPending (ser_session s));;
  create userID uuid_Nil true.

Definition of_cookie (c : string) (s : SessionRow) : bool := bool_decide (ser_token_hash s = hashToken c).

Definition find_session (c : string) (db : DB) : option SessionRow := head (sql_select (of_cookie c) (sessions (auth_db db))).

Definition CurrentAccountID (cookie : option string) : GO uuid :=
  match cookie with
  | None => fail ErrNoSession
  | Some c =>
      id ← no_rows_as ErrNoSession (query_row (fun _ db => ser_current_account_id <$> find_session c db));
      mret (default uuid_Nil id)
  end.

Definition SetCurrentAccount (cookie : option string) (accountID : uuid) : GO unit :=
  match cookie with
  | None => fail ErrNoSession
  | Some c =>
      update (fun _ db => db{{ auth_db -> sessions ::= sql_update (of_cookie c)
        (fun s => s{{ ser_current_account_id :=
          if bool_decide (accountID = uuid_Nil) then None else Some accountID }}) }})
  end.

Definition MarkStaffVerified (cookie : option string) : GO unit :=
  match cookie with
  | None => fail ErrNoSession
  | Some c =>
      update (fun now db => db{{ auth_db -> sessions ::= sql_update (of_cookie c)
        (fun s => s{{ ser_session -> se_StaffVerifiedAt := Some now }}) }})
  end.

Definition loadUser (id : uuid) : GO AuthUser :=
  no_rows_as ErrNoSession (query_row (fun _ db =>
    u ← users (account_db db) !! id;
    if bool_decide (u_DeletedAt u = None) then Some (auth_user u) else None)).
Definition LoadUserByID (id : uuid) : GO AuthUser := loadUser id.

(** The session is alive: neither past its end nor idle too long. *)
Definition alive (now : time) (s : SessionRow) : bool :=
  (now <? se_ExpiresAt (ser_session s)) && (now - idleTimeout <? ser_last_seen_at s).

(** UPDATE ... RETURNING: the matching row slides its idle window. *)
Definition slide (c : string) (now : time) : GO Session :=
  exec (fun _ _ db =>
    let p s := of_cookie c s && alive now s in
    match head (sql_select p (sessions (auth_db db))) with
    | None => inl ErrNoRows
    | Some s => inr (db{{ auth_db -> sessions ::= sql_update p (fun s => s{{ ser_last_seen_at := now }}) }}, ser_session s)
    end).

Definition Lookup (cookie : option string) : GO (AuthUser * Session) :=
  match cookie with
  | None => fail ErrNoSession
  | Some c =>
      now ← time_Now;
      sess ← no_rows_as ErrNoSession (slide c now);
      u ← loadUser (se_UserID sess);
      mret (u, sess)
  end.

Definition update_sessions (p : SessionRow -> bool) (f : SessionRow -> SessionRow) : GO nat :=
  update_n (fun _ db => (db{{ auth_db -> sessions ::= sql_update p f }}, sql_count p (sessions (auth_db db)))).

Definition StartImpersonation (cookie : option string) (staffUserID targetUserID : uuid) : GO unit :=
  match cookie with
  | None => fail ErrNoSession
  | Some c =>
      n ← update_sessions (fun s => of_cookie c s && bool_decide (se_ImpersonatorID (ser_session s) = None))
            (fun s => s{{ ser_session -> se_UserID := targetUserID;
                          ser_session -> se_ImpersonatorID := Some staffUserID;
                          ser_current_account_id := None }});
      if (n =? 0)%nat then fail (ErrNew "auth: session already impersonating or not found") else mret tt
  end.

Definition StopImpersonation (cookie : option string) : GO unit :=
  match cookie with
  | None => fail ErrNoSession
  | Some c =>
      n ← update_sessions (fun s => of_cookie c s && negb (bool_decide (se_ImpersonatorID (ser_session s) = None)))
            (fun s => s{{ ser_session ::= fun x =>
                            x{{ se_UserID := default (se_UserID x) (se_ImpersonatorID x); se_ImpersonatorID := None }};
                          ser_current_account_id := None }});
      if (n =? 0)%nat then fail (ErrNew "auth: session is not impersonating") else mret tt
  end.

Definition Destroy (cookie : option string) : GO unit :=
  match cookie with
  | None => mret tt
  | Some c => delete_sessions (of_cookie c)
  end.

(** ** The second factor (mfa.go) *)

Definition update_user (id : uuid) (f : User -> User) : GO unit :=
  update (fun _ db => db{{ account_db -> users ::= alter f id }}).

Definition EnableMFA (userID : uuid) (secret : string) (confirmCounter : Z) : GO unit :=
  update_user userID (fun u => u{{ u_totp_secret := Some secret; u_MFAEnabled := true;
                                   u_totp_last_used_counter := Some confirmCounter }}).

Definition delete_recovery (userID : uuid) : GO unit :=
  update (fun _ db => db{{ auth_db -> mfa_recovery_codes ::=
    sql_delete (fun r => bool_decide (rc_user_id r = userID)) }}).

Definition DisableMFA (userID : uuid) : GO unit :=
  tx (
    update_user userID (fun u => u{{ u_totp_secret := None; u_MFAEnabled := false }});;
    delete_recovery userID;;
    mret (Commit tt)).

Definition VerifyAndConsumeTOTP (userID : uuid) (code : string) : GO bool :=
  tx (
    '(secret, last) ← query_row (fun _ db =>
      u ← users (account_db db) !! userID; Some (u_totp_secret u, u_totp_last_used_counter u));
    match secret with
    | None => mret (Rollback false)
    | Some secret =>
        now ← time_Now;
        match VerifyTOTPWithCounter secret code now with
        | None => mret (Rollback false)
        | Some counter =>
            if match last with Some l => counter <=? l | None => false end then mret (Rollback false)
            else
              update_user userID (fun u => u{{ u_totp_last_used_counter := Some counter }});;
              mret (Commit true)
        end
    end).

Fixpoint recovery_codes (n : nat) : GO (list string) :=
  match n with
  | O => mret []
  | S n' =>
      b ← rand_Read 5;
      let raw := ToLower (Base32_Encode b) in
      rest ← recovery_codes n';
      mret ((String.substring 0 4 raw +:+ "-" +:+ String.substring 4 (String.length raw - 4) raw) :: rest)
  end.
Definition GenerateRecoveryCodes : GO (list string) := recovery_codes recoveryCodeCount.

Definition insert_recovery (userID : uuid) (code : string) : GO unit :=
  exec (fun _ id db =>
    match mfa_recovery_codes (auth_db db) !! id, users (account_db db) !! userID with
    | Some _, _ => inl ErrUnique
    | None, None => inl (ErrConstraint "mfa_recovery_codes_user_id_fkey")
    | None, Some _ =>
        inr (db{{ auth_db -> mfa_recovery_codes ::=
               <[ id := mkRecoveryRow userID (hashToken (normalizeRecoveryCode code)) None ]> }}, tt)
    end).

Definition ReplaceRecoveryCodes (userID : uuid) (codes : list string) : GO unit :=
  tx (
    delete_recovery userID;;
    for_each codes (insert_recovery userID);;
    mret (Commit tt)).

Definition unused_code (userID : uuid) (raw : string) (r : RecoveryRow) : bool :=
  bool_decide (rc_user_id r = userID) && bool_decide (rc_code_hash r = hashToken (normalizeRecoveryCode raw))
  && bool_decide (rc_used_at r = None).

Definition ConsumeRecoveryCode (userID : uuid) (raw : string) : GO bool :=
  n ← update_n (fun now db =>
    (db{{ auth_db -> mfa_recovery_codes ::= sql_update (unused_code userID raw) (fun r => r{{ rc_used_at := Some now }}) }},
     sql_count (unused_code userID raw) (mfa_recovery_codes (auth_db db))));
  mret (n =? 1)%nat.

Definition PendingMFAUser (cookie : option string) : GO AuthUser :=
  match cookie with
  | None => fail ErrNoSession
  | Some c =>
      s ← no_rows_as ErrNoSession (query_row (fun _ db => find_session c db));
      if negb (se_MFAPending (ser_session s)) then fail ErrNoSession else
      now ← time_Now;
      if se_ExpiresAt (ser_session s) <? now then fail ErrNoSession
      else loadUser (se_UserID (ser_session s))
  end.

Definition CompleteMFA (cookie : option string) : GO string :=
  match cookie with
  | None => fail ErrNoSession
  | Some c =>
      s ← no_rows_as ErrNoSession (query_row (fun _ db => find_session c db));
      if negb (se_MFAPending (ser_session s)) then fail ErrNoSession else
      delete_sessions (of_cookie c);;
      create (se_UserID (ser_session s)) uuid_Nil false
  end.

(** ** One-time links (magiclink.go, verification.go) *)

Definition MagicLinkTTL : Z := 15 * 60 * second.
Definition VerificationTTL : Z := 24 * 3600 * second.
Definition ErrMagicLinkInvalid : error := ErrNew "auth: magic link not found".
Definition ErrMagicLinkGone : error := ErrNew "auth: magic link expired or used".
Definition ErrVerificationInvalid : error := ErrNew "auth: verification token not found".
Definition ErrVerificationGone : error := ErrNew "auth: verification token expired or used".

(** The two token tables have the same columns. *)
Definition insert_token (t : gmap uuid TokenRow) (db : DB) (id userID : uuid) (hash : string) (expires : time)
    : error + gmap uuid TokenRow :=
  match t !! id, users (account_db db) !! userID with
  | Some _, _ => inl ErrUnique
  | None, None => inl (ErrConstraint "user_id_fkey")
  | None, Some _ =>
      if sql_exists (fun r => bool_decide (tk_token_hash r = hash)) t then inl ErrUnique
      else inr (<[ id := mkTokenRow id userID hash expires None ]> t)
  end.
Definition token_by_hash (hash : string) (t : gmap uuid TokenRow) : option TokenRow :=
  head (sql_select (fun r => bool_decide (tk_token_hash r = hash)) t).

Definition CreateMagicLinkToken (userID : uuid) : GO string :=
  '(raw, hash) ← generateToken;
  now ← time_Now;
  exec (fun _ id db =>
    match insert_token (magic_link_tokens (auth_db db)) db id userID hash (now + MagicLinkTTL) with
    | inl e => inl e
    | inr t => inr (db{{ auth_db -> magic_link_tokens := t }}, tt)
    end);;
  mret raw.

Definition ConsumeMagicLink (rawToken : string) : GO uuid :=
  tx (
    r ← no_rows_as ErrMagicLinkInvalid (query_row (fun _ db =>
          token_by_hash (hashToken rawToken) (magic_link_tokens (auth_db db))));
    match tk_consumed_at r with
    | Some _ => fail ErrMagicLinkGone
    | None =>
        now ← time_Now;
        if tk_expires_at r <? now then fail ErrMagicLinkGone else
        update (fun now db => db{{ auth_db -> magic_link_tokens ::=
          alter (fun r => r{{ tk_consumed_at := Some now }}) (tk_id r) }});;
        mret (Commit (tk_user_id r))
    end).

Definition CreateVerificationToken (userID : uuid) : GO string :=
  '(raw, hash) ← generateToken;
  now ← time_Now;
  exec (fun _ id db =>
    match insert_token (email_verification_tokens (auth_db db)) db id userID hash (now + VerificationTTL) with
    | inl e => inl e
    | inr t => inr (db{{ auth_db -> email_verification_tokens := t }}, tt)
    end);;
  mret raw.

Definition VerifyEmail (rawToken : string) : GO uuid :=
  tx (
    r ← no_rows_as ErrVerificationInvalid (query_row (fun _ db =>
          token_by_hash (hashToken rawToken) (email_verification_tokens (auth_db db))));
    match tk_consumed_at r with
    | Some _ => fail ErrVerificationGone
    | None =>
        now ← time_Now;
        if tk_expires_at r <? now then fail ErrVerificationGone else
        update (fun now db => db{{ auth_db -> email_verification_tokens ::=
          alter (fun r => r{{ tk_consumed_at := Some now }}) (tk_id r) }});;
        update_user (tk_user_id r) (fun u => u{{ u_EmailVerified := true }});;
        mret (Commit (tk_user_id r))
    end).

(** ** The login throttle (throttle.go) *)

Record LoginThrottle : Type := mkLoginThrottle { maxFails : Z; window : Z }.
Record LockState : Type := mkLockState { Locked : bool; RetryAfter : Z }.

Definition attempts_since (email : string) (succeeded : bool) (since : time) (db : DB) : list time :=
  at_at <$> filter (fun a => citext_eq (at_email a) email && Bool.eqb (at_succeeded a) succeeded && (since <? at_at a) = true)
              (login_attempts (auth_db db)).
(** max(at), min(at) *)
Definition max_at (l : list time) : option time := match l with [] => None | x :: l => Some (foldl Z.max x l) end.
Definition min_at (l : list time) : option time := match l with [] => None | x :: l => Some (foldl Z.min x l) end.

Definition Check_ (t : LoginThrottle) (email : string) : GO LockState :=
  now ← time_Now;
  let cutoff := now - window t in
  lastSuccess ← query (fun _ db => max_at (attempts_since email true cutoff db));
  let since := match lastSuccess with Some s => if cutoff <? s then s else cutoff | None => cutoff end in
  '(fails, oldestFail) ← query (fun _ db =>
    let l := attempts_since email false since db in (Z.of_nat (length l), min_at l));
  if fails <? maxFails t then mret (mkLockState false 0)
  else match oldestFail with
  | None => mret (mkLockState true 0)
  | Some o => now ← time_Now; mret (mkLockState true (Z.max 0 (o + window t - now)))
  end.

Definition RecordAttempt (email ip : string) (succeeded : bool) : GO unit :=
  update (fun now db => db{{ auth_db -> login_attempts ::= fun l =>
    l ++ [mkAttempt email (nullif_empty ip) succeeded now] }}).

Definition Prune (olderThan : Z) : GO unit :=
  now ← time_Now;
  update (fun _ db => db{{ auth_db -> login_attempts ::= filter (fun a => at_at a >= now - olderThan) }}).

(** ** Middlewares (context.go) *)

Record Impersonation : Type := mkImpersonation { StaffUserID : uuid; StaffEmail : string }.

(** The values a request's context carries. *)
Record ReqCtx : Type := mkReqCtx {
  cx_user : option AuthUser; cx_account : option Account; cx_membership : option Membership;
  cx_impersonation : option Impersonation; cx_staffVerifiedAt : option time
}.
Definition background : ReqCtx := mkReqCtx None None None None None.

Section middlewares.
Context {R : Type}.

Definition LoadUser (cookie : option string) (next : ReqCtx -> GO R) (ctx : ReqCtx) : GO R :=
  r ← try (Lookup cookie);
  match r with
  | inr (u, sess) =>
      if se_MFAPending sess then next ctx else
      let ctx := ctx{{ cx_user := Some u; cx_staffVerifiedAt := se_StaffVerifiedAt sess }} in
      match se_ImpersonatorID sess with
      | None => next ctx
      | Some staffID =>
          r ← try (loadUser staffID);
          match r with
          | inr staff => next ctx{{ cx_impersonation := Some (mkImpersonation (au_ID staff) (au_Email staff)) }}
          | inl _ => next ctx
          end
      end
  | inl _ => next ctx
  end.

Definition LoadCurrentAccount (cookie : option string) (next : ReqCtx -> GO R) (ctx : ReqCtx) : GO R :=
  match cx_user ctx with
  | None => next ctx
  | Some u =>
      r ← try (CurrentAccountID cookie);
      let currentID := match r with inr id => id | inl _ => uuid_Nil end in
      currentID ← (if bool_decide (currentID = uuid_Nil) then mret uuid_Nil
                   else r ← try (GetMembership currentID (au_ID u));
                        mret (match r with inl _ => uuid_Nil | inr _ => currentID end));
      currentID ← (if negb (bool_decide (currentID = uuid_Nil)) then mret currentID
                   else r ← try (ListAccountsForUser (au_ID u));
                        match r with
                        | inr ((a, _) :: _) => ignore (SetCurrentAccount cookie (a_ID a));; mret (a_ID a)
                        | _ => mret uuid_Nil
                        end);
      if bool_decide (currentID = uuid_Nil) then next ctx else
      acct ← try (GetAccount currentID);
      m ← try (GetMembership currentID (au_ID u));
      match acct, m with
      | inr a, inr m => next ctx{{ cx_account := Some a; cx_membership := Some m }}
      | _, _ => next ctx
      end
  end.

(** The gates answer themselves or pass the request on. *)
Definition RequireStaff (notFound : R) (next : ReqCtx -> GO R) (ctx : ReqCtx) : GO R :=
  match cx_user ctx with
  | Some u => if au_IsStaff u then next ctx else mret notFound
  | None => mret notFound
  end.
Definition RequireUser (toLogin : R) (next : ReqCtx -> GO R) (ctx : ReqCtx) : GO R :=
  match cx_user ctx with Some _ => next ctx | None => mret toLogin end.
Definition RequireAccount (forbidden : R) (next : ReqCtx -> GO R) (ctx : ReqCtx) : GO R :=
  match cx_account ctx with Some _ => next ctx | None => mret forbidden end.
End middlewares.
End auth_store.
