(* ===== verification/RateLimit.v ===== *)
(** internal/ratelimit and internal/web/csrf: the token buckets, and the
    double-submit check in front of every handler. *)
From S2P Require Import Prelude Crypto Effects Schema Encoding Http AuthStore.
From Stdlib Require Import Ascii SpecFloat.

(** ** Floating point: float64 and its conversions (amd64) *)

Module F64.
Definition of_int (z : Z) : spec_float := binary_normalize 53 1024 z 0 false.
Definition add := SFadd 53 1024.
Definition sub := SFsub 53 1024.
Definition mul := SFmul 53 1024.
Definition div := SFdiv 53 1024.
(** int64(f): towards zero; what does not fit gives the least int64. *)
Definition to_int64 (f : spec_float) : Z :=
  let z := match f with
           | S754_finite s m e => let n := Z.shiftl (Zpos m) e in if s then - n else n
           | S754_zero _ => 0
           | _ => - 2 ^ 63
           end in
  if (- 2 ^ 63 <=? z) && (z <? 2 ^ 63) then z else - 2 ^ 63.
End F64.

(** time.Time.Sub saturates, Duration.Seconds splits off the whole seconds. *)
Definition Sub (t u : time) : Z := Z.max (- 2 ^ 63) (Z.min (2 ^ 63 - 1) (t - u)).
Definition Seconds (d : Z) : spec_float :=
  F64.add (F64.of_int (Z.quot d second)) (F64.div (F64.of_int (Z.rem d second)) (F64.of_int second)).

(** ** The limiter (ratelimit.go)

    Its buckets live in the process, behind a mutex: a call is one step. *)
Record bucket : Type := mkBucket { tokens : spec_float; lastSeen : time }.
Record Limiter : Type := mkLimiter { rate : spec_float; burst : spec_float }.

Definition New (perMinute burst : Z) : Limiter :=
  let perMinute := if perMinute <? 1 then 1 else perMinute in
  let burst := if burst <? 1 then 1 else burst in
  mkLimiter (F64.div (F64.of_int perMinute) (F64.of_int 60)) (F64.of_int burst).

Definition minF (a b : spec_float) : spec_float := if SFltb a b then a else b.

(** The bucket of a request: a full one for a new key, else refilled. *)
Definition refill (l : Limiter) (now : time) (b : option bucket) : spec_float :=
  match b with
  | None => burst l
  | Some b => minF (burst l) (F64.add (tokens b) (F64.mul (Seconds (Sub now (lastSeen b))) (rate l)))
  end.
Definition wait (l : Limiter) (t : spec_float) : Z :=
  F64.to_int64 (F64.mul (F64.div (F64.sub (F64.of_int 1) t) (rate l)) (F64.of_int second)).
Definition Allow (l : Limiter) (now : time) (key : string) (buckets : gmap string bucket) : (bool * Z) * gmap string bucket :=
  let t := refill l now (buckets !! key) in
  if SFleb (F64.of_int 1) t
  then ((true, 0), <[ key := mkBucket (F64.sub t (F64.of_int 1)) now ]> buckets)
  else ((false, wait l t), <[ key := mkBucket t now ]> buckets).

Definition sweep (now ttl : Z) (buckets : gmap string bucket) : gmap string bucket :=
  filter (fun kb => negb (lastSeen kb.2 <? now - ttl) = true) buckets.

(** Middleware: the next handler, or 429 and the seconds of Retry-After. *)
Definition retry_seconds (retryAfter : Z) : Z :=
  let secs := F64.to_int64 (Seconds retryAfter) in if secs <? 1 then 1 else secs.
Definition limit_step (l : Limiter) (now : time) (key : string) (buckets : gmap string bucket) : option Z * gmap string bucket :=
  let '((ok, after), buckets) := Allow l now key buckets in
  (if ok : bool then None else Some (retry_seconds after), buckets).

(** The limiters of the server (cmd/server/main.go). *)
Definition authLimiter : Limiter := New 20 10.
Definition appLimiter : Limiter := New 300 100.
Definition v1Limiter : Limiter := New 60 60.
Definition pingLimiter : Limiter := New 120 60.
Definition limiters : list (Limiter * nat) := [(authLimiter, 10%nat); (appLimiter, 100%nat); (v1Limiter, 60%nat); (pingLimiter, 60%nat)].

(** *** A burst *)

(** The requests of [keys], one after the other at one instant: those let
    through, and the buckets after. *)
Fixpoint burst_of (l : Limiter) (now : time) (keys : list string) (buckets : gmap string bucket) : list string * gmap string bucket :=
  match keys with
  | [] => ([], buckets)
  | k :: keys' =>
      let '((ok, _), buckets) := Allow l now k buckets in
      let '(ks, buckets) := burst_of l now keys' buckets in
      (if ok : bool then k :: ks else ks, buckets)
  end.
Definition count_key (k : string) (l : list string) : nat := length (filter (fun x => x = k) l).

(** Whole numbers of tokens, up to the capacity, are spent exactly. *)
Definition exact_upto (l : Limiter) (n : nat) : Prop :=
  burst l = F64.of_int (Z.of_nat n) /\
  SFleb (F64.of_int 1) (F64.of_int 0) = false /\
  forall j, (j <= n)%nat ->
    minF (burst l) (F64.add (F64.of_int (Z.of_nat j)) (F64.mul (Seconds 0) (rate l))) = F64.of_int (Z.of_nat j) /\
    (j <> 0%nat -> SFleb (F64.of_int 1) (F64.of_int (Z.of_nat j)) = true /\
                   F64.sub (F64.of_int (Z.of_nat j)) (F64.of_int 1) = F64.of_int (Z.of_nat (j - 1))).

#[global] Instance spec_float_eq_dec : EqDecision spec_float.
Proof. solve_decision. Defined.

Definition exact_check (l : Limiter) (n : nat) : bool :=
  bool_decide (burst l = F64.of_int (Z.of_nat n)) &&
  forallb (fun j =>
    bool_decide (minF (burst l) (F64.add (F64.of_int (Z.of_nat j)) (F64.mul (Seconds 0) (rate l))) = F64.of_int (Z.of_nat j)) &&
    ((j =? 0)%nat || (SFleb (F64.of_int 1) (F64.of_int (Z.of_nat j)) &&
       bool_decide (F64.sub (F64.of_int (Z.of_nat j)) (F64.of_int 1) = F64.of_int (Z.of_nat (j - 1)))))) (seq 0 (S n)).
Lemma exact_check_ok l n : exact_check l n = true -> exact_upto l n.
Proof.
  unfold exact_check. rewrite andb_true_iff, bool_decide_eq_true, forallb_forall. intros [Hb Hj].
  split; [done|]. split; [done|]. intros j Hle. specialize (Hj j).
  rewrite andb_true_iff, orb_true_iff, andb_true_iff, !bool_decide_eq_true, Nat.eqb_eq in Hj.
  destruct Hj as [H1 H2]; [apply in_seq; lia|]. split; [done|]. intros Hne. by destruct H2.
Qed.
Lemma limiters_exact : Forall (fun ln => exact_upto ln.1 ln.2) limiters.
Proof.
  unfold limiters. repeat (apply Forall_cons_2; [apply exact_check_ok; vm_compute; reflexivity|]). apply Forall_nil_2.
Qed.

Section burst.
Context (l : Limiter) (n : nat) (Hx : exact_upto l n) (now : time).

(** [k] has [j] whole tokens at this instant. *)
Definition has_tokens (k : string) (j : nat) (m : gmap string bucket) : Prop :=
  (j <= n)%nat /\ match m !! k with None => j = n | Some b => tokens b = F64.of_int (Z.of_nat j) /\ lastSeen b = now end.

Lemma has_tokens_refill k j m : has_tokens k j m -> refill l now (m !! k) = F64.of_int (Z.of_nat j).
Proof.
  destruct Hx as (Hb & _ & Hj). intros [Hle Hm]. unfold refill. destruct (m !! k) as [b|]; [|by subst].
  destruct Hm as [-> ->]. unfold Sub. rewrite Z.sub_diag. exact (proj1 (Hj j Hle)).
Qed.
Lemma Allow_tokens k j m : has_tokens k j m ->
  (Allow l now k m).1.1 = negb (j =? 0)%nat /\ has_tokens k (j - 1) (Allow l now k m).2.
Proof.
  intros Hh. pose proof (has_tokens_refill _ _ _ Hh) as Hr. destruct Hh as [Hle _]. destruct Hx as (Hb & H0 & Hj).
  unfold Allow. rewrite Hr. destruct j as [|j].
  - change (Z.of_nat 0) with 0. rewrite H0. split; [done|]. split; [lia|]. simpl. by rewrite lookup_insert_eq.
  - destruct (Hj (S j) Hle) as [_ Hs]. destruct (Hs ltac:(done)) as [-> Hd].
    split; [done|]. split; [lia|]. simpl snd. rewrite lookup_insert_eq. split; [exact Hd|done].
Qed.
Lemma Allow_other k k' j m : k <> k' -> has_tokens k j m -> has_tokens k j (Allow l now k' m).2.
Proof.
  intros Hk [Hle Hm]. split; [done|]. unfold Allow. destruct (SFleb _ _); simpl; by rewrite lookup_insert_ne.
Qed.

Lemma burst_tokens k keys : forall j m, has_tokens k j m ->
  count_key k (burst_of l now keys m).1 = Nat.min (count_key k keys) j.
Proof.
  induction keys as [|k' keys IH]; intros j m Hm; [done|]. simpl burst_of. unfold count_key in *. rewrite filter_cons.
  destruct (decide (k' = k)) as [->|Hne].
  - destruct (Allow_tokens _ _ _ Hm) as [Hok Hm']. destruct (Allow l now k m) as [[ok after] m']. simpl in Hok, Hm'. subst ok.
    specialize (IH _ _ Hm'). destruct (burst_of l now keys m') as [ks m'']. simpl in IH. simpl fst.
    destruct j as [|j]; simpl negb; cbv iota; [rewrite IH; simpl; lia|].
    rewrite filter_cons_True by done. simpl length. rewrite IH. lia.
  - pose proof (Allow_other k k' _ _ (not_eq_sym Hne) Hm) as Hm'. destruct (Allow l now k' m) as [[ok after] m']. simpl in Hm'.
    specialize (IH _ _ Hm'). destruct (burst_of l now keys m') as [ks m'']. simpl in IH. simpl fst.
    destruct ok; [rewrite filter_cons_False by done|]; exact IH.
Qed.
End burst.

(** C33: what a burst gets through.  However many requests reach one of the
    server's limiters at one instant, in any mixture of keys, from buckets
    that are new: each key gets exactly its own requests through, up to the
    burst capacity - 10 sign-in requests, 100 of an account's pages, 60 API
    calls, 60 pings - and no key costs another a request. *)
Theorem limiter_burst l n now keys k :
  (l, n) ∈ limiters -> count_key k (burst_of l now keys ∅).1 = Nat.min (count_key k keys) n.
Proof.
  intros Hl. pose proof limiters_exact as Hx. rewrite Forall_forall in Hx. specialize (Hx _ Hl). simpl in Hx.
  apply (burst_tokens l n Hx now k keys n ∅). split; [done|]. by rewrite lookup_empty.
Qed.

Lemma limiter_burst_witness :
  count_key "ip:1" (burst_of authLimiter 0 (concat (repeat ["ip:1"; "ip:2"] 15)) ∅).1 = 10%nat.
Proof. rewrite (limiter_burst authLimiter 10 0 (concat (repeat ["ip:1"; "ip:2"] 15)) "ip:1" ltac:(left)). reflexivity. Defined.

(** ** The double-submit check (csrf.go) *)

Definition FieldName : string := "_csrf".
Definition isUnsafe (method : string) : bool := bool_decide (method ∈ ["POST"; "PUT"; "PATCH"; "DELETE"]).
(** The prefixes main.go exempts. *)
Definition csrf_exempt : list string := ["/webhooks/"; "/v1/"; "/ping/"; "/mobile/"].
Definition isExempt (exempt : list string) (path : string) : bool := existsb (HasPrefix path) exempt.

Section csrf.
Context `{rand : Rand} {R : Type}.
Definition newToken : GO string := b ← must_rand 32; mret (RawURLEncoding_Encode b).

(** [cookie]: the value of the token cookie, if the request has one;
    [submitted]: its _csrf field.  The answer comes with the cookie to set. *)
Definition csrf_Middleware (exempt : list string) (cookie : option string) (method path submitted : string)
    (forbidden : R) (next : GO R) : GO (R * option string) :=
  let token := default "" cookie in
  let cookieMissing := bool_decide (token = "") in
  '(token, set) ← (if cookieMissing then t ← newToken; mret (t, Some t) else mret (token, None));
  if isUnsafe method && negb (isExempt exempt path) then
    if cookieMissing then mret (forbidden, set) else
    if bool_decide (submitted = "") || negb (bool_decide (submitted = token)) then mret (forbidden, set)
    else r ← next; mret (r, set)
  else r ← next; mret (r, set).

(** Whatever an unsafe request outside the exempt prefixes does beyond
    drawing a token, it carried the token of its cookie. *)
Lemma csrf_gate exempt cookie method path submitted forbidden next :
  isUnsafe method = true -> isExempt exempt path = false ->
  (exists t, cookie = Some t /\ t <> "" /\ submitted = t) \/
  (forall w, w_db (csrf_Middleware exempt cookie method path submitted forbidden next w).2 = w_db w /\
     forall r, (csrf_Middleware exempt cookie method path submitted forbidden next w).1 = Ret r -> r.1 = forbidden).
Proof.
  intros Hu He. unfold csrf_Middleware. rewrite Hu, He. destruct (bool_decide (default "" cookie = "")) eqn:Ec; cbn [andb negb].
  - right. intros w. unfold newToken, must_rand, rand_Read, try, panic, lift, mbind, M_bind, mret, M_ret.
    destruct (rand_bytes _ _); simpl; (split; [done|]); [done|]. by intros r [= <-].
  - destruct cookie as [t|]; [|done]. apply bool_decide_eq_false in Ec. cbn [default] in *.
    destruct (decide (submitted = t)) as [->|Hne]; [left; by exists t|right].
    intros w. unfold mbind, M_bind, mret, M_ret. rewrite (bool_decide_eq_false_2 (submitted = t)) by done.
    rewrite orb_true_r. split; [done|]. by intros r [= <-].
Qed.
End csrf.
