(* ===== verification/Web.v ===== *)
(** What the handlers of internal/web/handlers share: the request's user,
    account and origin, the plan gate, the audit call, number parsing. *)
From S2P Require Import Prelude Crypto Effects Schema Encoding AuditLog Plans Http AuthStore.
From Stdlib Require Import Ascii.

(** What a handler behind RequireUser and RequireAccount takes from its
    request: layoutCtx's account and user, the audit log's IP and agent. *)
Record Who : Type := mkWho {
  acct : Account; user : AuthUser; membership : option Membership; client_ip : string; user_agent : string
}.

(** [_ = h.audit.Record(...)] with the request's account, user and origin. *)
Definition audit_ `{Env} (who : Who) (action kind id : string) (md : metadata) : GO unit :=
  ignore (Record_ (EventLit (Some (a_ID (acct who))) (Some (au_ID (user who))) action kind id
                     (client_ip who) (user_agent who) md)).

(** The plan gate: [None] lets the request pass. *)
Definition enforceLimit (count limit : Z) : option response :=
  if negb (AtLimit count limit) then None else Some (Render StatusForbidden "PlanLimit").

(** [len(existing)] where [existing, _ := List(...)]. *)
Definition count_of {A} (r : error + list A) : Z :=
  match r with inr l => Z.of_nat (length l) | inl _ => 0 end.

Definition not_found_or_500 (notFound e : error) : response :=
  if errors_Is e notFound then HTTPError StatusNotFound else HTTPError StatusInternalServerError.
Definition err_500 (_ : error) : response := HTTPError StatusInternalServerError.
Definition err_404 (_ : error) : response := HTTPError StatusNotFound.

(** [id, err := uuid.Parse(chi.URLParam(r, name))] *)
Definition parse_id `{UuidLib} {R} (idParam : string) (bad : R) (k : uuid -> GO R) : GO R :=
  match uuid_Parse idParam with inl _ => fun w => (Ret bad, w) | inr id => k id end.

(** atoiInRange: the running value is checked before the next digit. *)
Fixpoint atoi_from (n hi : Z) (l : list ascii) : option Z :=
  match l with
  | [] => Some n
  | c :: l' =>
      if negb (digit c) then None
      else let n := n * 10 + (byte_of c - 48) in if hi <? n then None else atoi_from n hi l'
  end.
Definition atoiInRange (s : string) (lo hi : Z) : option Z :=
  if bool_decide (s = "") then None
  else n ← atoi_from 0 hi (chars s); if n <? lo then None else Some n.
