(* ===== verification/Cipher.v ===== *)
(** internal/evidence/cipher.go: envelope encryption.  A master key wraps one
    data-encryption key (DEK) per account, the DEK encrypts the account's
    evidence; destroying the wrapped DEK shreds it. *)
From S2P Require Import Prelude Crypto Aes Effects Schema Encoding.
From stdpp Require Import pretty.
#[local] Open Scope Z_scope.

Definition ErrShredded : error := ErrNew "evidence: encryption key destroyed (crypto-shredded)".

(** An AEAD is the key it was made from. *)
Record Cipher : Type := mkCipher { active : string; retired : list string; ephemeral : bool }.

Definition newAEAD (key : string) : error + string :=
  if bool_decide (String.length key ∈ [16; 24; 32]%nat) then inr key else inl (ErrNew "crypto/aes: invalid key size").

(** The bytes of an identifier, the data a wrapped DEK is bound to. *)
Definition uuid_bytes (u : uuid) : string := of_bytes (be_bytes 16 (Z.of_N u)).

Definition openAAD (aead blob aad : string) : error + string :=
  if (String.length blob <? GCM.NonceSize)%nat then inl (ErrNew "evidence: ciphertext too short") else
  let nonce := String.substring 0 GCM.NonceSize blob in
  let ct := String.substring GCM.NonceSize (String.length blob - GCM.NonceSize) blob in
  match GCM.Open aead nonce ct aad with
  | Some text => inr text | None => inl (ErrNew "cipher: message authentication failed") end.
Definition open (aead blob : string) : error + string := openAAD aead blob "".

Section cipher.
Context `{env : Env} `{rand : Rand}.

Definition sealAAD (aead plaintext aad : string) : GO string :=
  nonce ← rand_Read GCM.NonceSize; mret (nonce +:+ GCM.Seal aead nonce plaintext aad).
Definition seal (aead plaintext : string) : GO string := sealAAD aead plaintext "".

Definition loadMasterKey (b64 name : string) : GO (string * bool) :=
  if bool_decide (b64 = "") then
    key ← rand_Read 32; aead ← lift (newAEAD key); mret (aead, true)
  else
    match StdEncoding_Decode b64 with
    | None => fail (ErrNew ("evidence: " +:+ name +:+ " is not valid base64"))
    | Some k =>
        if negb (String.length k =? 32)%nat
        then fail (ErrNew ("evidence: " +:+ name +:+ " must decode to 32 bytes, got " +:+ pretty (String.length k)))
        else aead ← lift (newAEAD k); mret (aead, false)
    end.

Fixpoint load_retired (keys : list string) (i : nat) : GO (list string) :=
  match keys with
  | [] => mret []
  | b :: keys' =>
      if bool_decide (b = "") then load_retired keys' (S i) else
      '(aead, _) ← loadMasterKey b ("EVIDENCE_ENCRYPTION_KEYS_RETIRED[" +:+ pretty i +:+ "]");
      l ← load_retired keys' (S i); mret (aead :: l)
  end.
Definition NewCipher (activeKeyB64 : string) (retiredKeysB64 : list string) : GO Cipher :=
  '(active, ephemeral) ← loadMasterKey activeKeyB64 "EVIDENCE_ENCRYPTION_KEY";
  retired ← load_retired retiredKeysB64 0;
  mret (mkCipher active retired ephemeral).

Context (c : Cipher).

Definition loadWrappedDEK (accountID : uuid) : GO string :=
  query_row (fun _ db => account_evidence_keys (evidence_db db) !! accountID).

(** INSERT ... ON CONFLICT (account_id) DO NOTHING *)
Definition insert_dek (accountID : uuid) (wrapped : string) : GO unit :=
  exec (fun _ _ db =>
    match account_evidence_keys (evidence_db db) !! accountID, accounts (account_db db) !! accountID with
    | Some _, _ => inr (db, tt)
    | None, None => inl (ErrConstraint "account_evidence_keys_account_id_fkey")
    | None, Some _ => inr (db{{ evidence_db -> account_evidence_keys ::= <[ accountID := wrapped ]> }}, tt)
    end).
Definition mintDEK (accountID : uuid) : GO string :=
  raw ← rand_Read 32;
  wrapped ← sealAAD (active c) raw (uuid_bytes accountID);
  insert_dek accountID wrapped;;
  loadWrappedDEK accountID.

Definition set_wrapped (accountID : uuid) (wrapped : string) : GO unit :=
  update (fun _ db => db{{ evidence_db -> account_evidence_keys ::= alter (fun _ => wrapped) accountID }}).

(** The first retired key that opens the DEK. *)
Fixpoint first_open (keys : list string) (accountID : uuid) (wrapped : string) : option string :=
  match keys with
  | [] => None
  | r :: keys' => match openAAD r wrapped (uuid_bytes accountID) with
                  | inr raw => Some raw | inl _ => first_open keys' accountID wrapped end
  end.

(** The active key first; a DEK only a retired key opens is re-wrapped, on a
    best-effort basis. *)
Definition unwrapDEK (accountID : uuid) (wrapped : string) : GO string :=
  match openAAD (active c) wrapped (uuid_bytes accountID) with
  | inr raw => mret raw
  | inl activeErr =>
      match first_open (retired c) accountID wrapped with
      | Some raw =>
          r ← try (sealAAD (active c) raw (uuid_bytes accountID));
          match r with inr rewrapped => ignore (set_wrapped accountID rewrapped) | inl _ => mret tt end;;
          mret raw
      | None => fail (ErrWrap "evidence: unwrap account key" activeErr)
      end
  end.

Definition accountDEK (accountID : uuid) (create : bool) : GO string :=
  r ← try (loadWrappedDEK accountID);
  wrapped ← (match r with
             | inr w => mret w
             | inl e => if errors_Is e ErrNoRows then (if create then mintDEK accountID else fail ErrShredded)
                        else fail e
             end);
  raw ← unwrapDEK accountID wrapped;
  lift (newAEAD raw).

Definition Encrypt (accountID : uuid) (plaintext : string) : GO string :=
  dek ← accountDEK accountID true; seal dek plaintext.
Definition Decrypt (accountID : uuid) (blob : string) : GO string :=
  dek ← accountDEK accountID false; lift (open dek blob).
Definition ShredAccount (accountID : uuid) : GO unit :=
  update (fun _ db => db{{ evidence_db -> account_evidence_keys ::= delete accountID }}).

(** ** Master-key rotation *)

Inductive KeyClass : Type := ClassActive | ClassRetired | ClassPoison.
Definition classify (accountID : uuid) (wrapped : string) : KeyClass :=
  match openAAD (active c) wrapped (uuid_bytes accountID) with
  | inr _ => ClassActive
  | inl _ => match first_open (retired c) accountID wrapped with Some _ => ClassRetired | None => ClassPoison end
  end.

(** The rows forEachWrapped streams. *)
Definition wrapped_rows : GO (list (uuid * string)) :=
  query (fun _ db => map_to_list (account_evidence_keys (evidence_db db))).

Record KeyAudit : Type := mkKeyAudit { ka_Active : nat; ka_Retired : nat; ka_Poison : list uuid }.
Definition audit_row (a : KeyAudit) (row : uuid * string) : KeyAudit :=
  match classify row.1 row.2 with
  | ClassActive => a{{ ka_Active ::= S }}
  | ClassRetired => a{{ ka_Retired ::= S }}
  | ClassPoison => a{{ ka_Poison ::= fun l => l ++ [row.1] }}
  end.
Definition Audit : GO KeyAudit := rows ← wrapped_rows; mret (foldl audit_row (mkKeyAudit 0 0 []) rows).

Fixpoint rewrap_rows (rows : list (uuid * string)) (rewrapped poison : nat) : GO (nat * nat) :=
  match rows with
  | [] => mret (rewrapped, poison)
  | (id, w) :: rows' =>
      match classify id w with
      | ClassActive => rewrap_rows rows' rewrapped poison
      | ClassPoison => rewrap_rows rows' rewrapped (S poison)
      | ClassRetired =>
          sealed ← sealAAD (active c) (default "" (first_open (retired c) id w)) (uuid_bytes id);
          set_wrapped id sealed;;
          rewrap_rows rows' (S rewrapped) poison
      end
  end.
Definition RewrapAll : GO (nat * nat) := rows ← wrapped_rows; rewrap_rows rows 0 0.

Definition ShredPoison : GO nat :=
  audit ← Audit;
  for_each (ka_Poison audit) ShredAccount;;
  mret (length (ka_Poison audit)).
End cipher.
