(* ===== verification/Signer.v ===== *)
(** internal/evidence/sign.go and cmd/dokaz-verify: detached Ed25519
    signatures over evidence files, the set of verification keys, and the
    stand-alone verifier.  Ed25519 itself, PEM and x509 are parameters. *)
From S2P Require Import Prelude Crypto Effects Schema Encoding Time.
From Stdlib Require Import Ascii.

(** crypto/ed25519. *)
Class Ed25519 : Type := {
  ed_GenerateKey : nat -> error + string;
  ed_Public : string -> string;
  ed_Sign   : string -> string -> string;
  ed_Verify : string -> string -> string -> bool
}.
Class Ed25519Ok `{Ed25519} : Prop := {
  ed_Verify_Sign : forall priv msg, ed_Verify (ed_Public priv) msg (ed_Sign priv msg) = true
}.

(** encoding/pem and crypto/x509; a parsed key is [None] when it is not an
    Ed25519 key. *)
Class KeyFiles : Type := {
  pem_Decode : string -> option (string * string);
  pem_Encode : string -> error + string;
  ParsePKCS8PrivateKey : string -> error + option string;
  ParsePKIXPublicKey : string -> error + option string;
  MarshalPKIXPublicKey : string -> error + string
}.

Definition keyID (pub : string) : string := hex_EncodeToString (sha256 pub).
Definition signedMessage (hexDigest : string) (signedAt : time) : string :=
  hexDigest +:+ "|" +:+ FormatRFC3339Nano signedAt.

Record Signer : Type := mkSigner {
  sn_priv : string; sn_publicKeyID : string; sn_ephemeral : bool; sn_verifyKeys : gmap string string
}.

Section signer.
Context `{env : Env} `{ed : Ed25519} `{files : KeyFiles}.

(** The blocks of a PEM document; each block read shortens the rest. *)
Fixpoint add_keys (fuel : nat) (rest : string) (keys : gmap string string) : error + gmap string string :=
  match fuel with
  | O => inr keys
  | S fuel' =>
      match pem_Decode rest with
      | None => inr keys
      | Some (block, rest') =>
          match ParsePKIXPublicKey block with
          | inl e => inl (ErrWrap "evidence: EVIDENCE_VERIFICATION_KEYS" e)
          | inr None => inl (ErrNew "evidence: verification key is not ed25519")
          | inr (Some pub) => add_keys fuel' rest' (<[ keyID pub := pub ]> keys)
          end
      end
  end.

Definition load_key (keyPEM : string) : GO (string * bool) :=
  if bool_decide (keyPEM = "") then fun w =>
    match ed_GenerateKey (w_tick w) with
    | inl e => (Fail (ErrWrap "generate ephemeral key" e), tick w)
    | inr priv => (Ret (priv, true), tick w)
    end
  else
    match pem_Decode keyPEM with
    | None => fail (ErrNew "evidence: EVIDENCE_SIGNING_KEY is not valid PEM")
    | Some (block, _) =>
        match ParsePKCS8PrivateKey block with
        | inl e => fail (ErrWrap "parse signing key" e)
        | inr None => fail (ErrNew "evidence: signing key is not ed25519")
        | inr (Some priv) => mret (priv, false)
        end
    end.

Definition NewSignerWithVerificationKeys (keyPEM verifyKeysPEM : string) : GO Signer :=
  '(priv, ephemeral) ← load_key keyPEM;
  let pub := ed_Public priv in
  keys ← lift (add_keys (S (String.length verifyKeysPEM)) verifyKeysPEM {[ keyID pub := pub ]});
  mret (mkSigner priv (keyID pub) ephemeral keys).
Definition NewSigner (keyPEM : string) : GO Signer := NewSignerWithVerificationKeys keyPEM "".

Definition VerificationKey (s : Signer) (id : string) : option string := sn_verifyKeys s !! id.

(** The active key first, the retired ones in fingerprint order. *)
Definition pem_entry (s : Signer) (id : string) : error + string :=
  match MarshalPKIXPublicKey (default "" (sn_verifyKeys s !! id)) with
  | inl e => inl (ErrWrap ("evidence: marshal public key " +:+ id) e)
  | inr der =>
      match pem_Encode der with
      | inl e => inl (ErrWrap ("evidence: encode public key " +:+ id) e)
      | inr block =>
          inr ("# PublicKeyID: " +:+ id +:+ String "010" ("# Status: "
               +:+ (if bool_decide (id = sn_publicKeyID s) then "active" else "retired")
               +:+ String "010" block))
      end
  end.
Fixpoint pem_entries (s : Signer) (ids : list string) : error + string :=
  match ids with
  | [] => inr ""
  | id :: ids' =>
      match pem_entry s id, pem_entries s ids' with
      | inl e, _ => inl e
      | inr _, inl e => inl e
      | inr a, inr b => inr (a +:+ b)
      end
  end.
Definition key_order (s : Signer) : list string :=
  sn_publicKeyID s ::
  order_by String.leb (filter (fun id => id <> sn_publicKeyID s) (map_to_list (sn_verifyKeys s)).*1).
Definition AllPublicKeysPEM (s : Signer) : error + string := pem_entries s (key_order s).

Definition Sign (s : Signer) (pdf : string) (signedAt : time) : Signature :=
  let hexDigest := hex_EncodeToString (sha256 pdf) in
  let sig := ed_Sign (sn_priv s) (signedMessage hexDigest signedAt) in
  mkSignature "ed25519" (sn_publicKeyID s) (StdEncoding_Encode sig) hexDigest signedAt.

(** [None] is nil. *)
Definition Verify (pub pdf : string) (sig : Signature) : option error :=
  if negb (bool_decide (Algorithm sig = "ed25519")) then Some (ErrNew ("evidence: unsupported algorithm " +:+ Algorithm sig)) else
  let hexDigest := hex_EncodeToString (sha256 pdf) in
  if negb (bool_decide (hexDigest = PDFSHA256 sig))
  then Some (ErrNew "evidence: PDF digest does not match signature (tampered or wrong file)") else
  match StdEncoding_Decode (Value sig) with
  | None => Some (ErrNew "evidence: signature not valid base64")
  | Some raw =>
      if negb (ed_Verify pub (signedMessage hexDigest (SignedAt sig)) raw)
      then Some (ErrNew "evidence: signature does not verify") else None
  end.

(** ** cmd/dokaz-verify *)

Definition parsePublicKey (pemBytes : string) : error + string :=
  match pem_Decode pemBytes with
  | None => inl (ErrNew "pubkey is not valid PEM")
  | Some (block, _) =>
      match ParsePKIXPublicKey block with
      | inl e => inl e
      | inr None => inl (ErrNew "pubkey is not ed25519")
      | inr (Some pub) => inr pub
      end
  end.

Definition verify (pub pdf : string) (sig : Signature) : bool :=
  if negb (bool_decide (Algorithm sig = "ed25519")) then false else
  let hexDigest := hex_EncodeToString (sha256 pdf) in
  if negb (bool_decide (hexDigest = PDFSHA256 sig)) then false else
  match StdEncoding_Decode (Value sig) with
  | None => false
  | Some raw => ed_Verify pub (hexDigest +:+ "|" +:+ FormatRFC3339Nano (SignedAt sig)) raw
  end.

(** main on the contents of its three files: the exit code.  [wrapped] and
    [bare] are the two readings of the signature file's JSON. *)
Definition parseSignature (wrapped : option Signature) (bare : error + Signature) : error + Signature :=
  match wrapped with Some s => inr s | None => bare end.
Definition main (pdf : string) (wrapped : option Signature) (bare : error + Signature) (pubPEM : string) : Z :=
  match parseSignature wrapped bare with
  | inl _ => 2
  | inr sig =>
      match parsePublicKey pubPEM with
      | inl _ => 2
      | inr pub =>
          if negb (bool_decide (keyID pub = PublicKeyID sig)) then 1
          else if verify pub pdf sig then 0 else 1
      end
  end.
End signer.
