(* ===== verification/EvidenceStore.v ===== *)
(** internal/evidence/store.go and sigv4.go: where evidence lives.  The Store
    interface, the directory and the S3 bucket that implement it, and the
    request signatures of the latter.  One file operation is one effect, so a
    half-written file is not modelled; a bucket is what its server answers. *)
From S2P Require Import Prelude Crypto Effects Schema Encoding Path Time.
From Stdlib Require Import Ascii.
From stdpp Require Import pretty.
#[local] Open Scope Z_scope.

(** ** The interface *)

Class EvidenceStore : Type := {
  st_Put     : string -> string -> GO string;
  st_ReadAll : string -> GO string;
  st_Delete  : string -> GO unit
}.

(** What the Service relies on: there is a view of the stored objects that
    each operation changes under its own key only, and nothing else. *)
Class EvidenceStoreOk `{env : Env} (st : EvidenceStore) : Type := {
  st_key  : string -> string;
  st_view : DB -> string -> option string;
  st_key_inj : forall a b, slash ∉ chars a -> slash ∉ chars b -> st_key a = st_key b -> a = b;
  st_key_nonempty : forall a, slash ∉ chars a -> st_key a <> "";
  st_view_files : forall db db', evidence_files (evidence_db db) = evidence_files (evidence_db db') ->
    st_view db = st_view db';
  Put_ret : forall id c w key w', st_Put id c w = (Ret key, w') -> key = st_key id /\ st_view (w_db w') key = Some c;
  Put_others : forall id c w key, key <> st_key id -> st_view (w_db (st_Put id c w).2) key = st_view (w_db w) key;
  ReadAll_ok : forall key w c, calm_from (w_tick w) -> st_view (w_db w) key = Some c ->
    exists w', st_ReadAll key w = (Ret c, w') /\ w_db w' = w_db w /\ (w_tick w <= w_tick w')%nat;
  ReadAll_view : forall key w, w_db (st_ReadAll key w).2 = w_db w;
  Delete_ok : forall key w, calm_from (w_tick w) ->
    exists w', st_Delete key w = (Ret tt, w') /\ (w_tick w <= w_tick w')%nat;
  Delete_tx : forall key w, w_tx (st_Delete key w).2 = w_tx w /\ (w_tick w <= w_tick (st_Delete key w).2)%nat;
  Delete_ret : forall key w w', st_Delete key w = (Ret tt, w') -> st_view (w_db w') key = None;
  Delete_others : forall key w key', key' <> key -> st_view (w_db (st_Delete key w).2) key' = st_view (w_db w) key';
  Put_frame : forall {B} (proj : DB -> B) id c,
    (forall f db, proj (db{{ evidence_db -> evidence_files ::= f }}) = proj db) -> frame proj (st_Put id c);
  Delete_frame : forall {B} (proj : DB -> B) key,
    (forall f db, proj (db{{ evidence_db -> evidence_files ::= f }}) = proj db) -> frame proj (st_Delete key)
}.

(** ** LocalStore *)
Definition files_set (f : gmap string string -> gmap string string) (db : DB) : DB :=
  db{{ evidence_db -> evidence_files ::= f }}.

Section local.
Context `{env : Env} (dir : string).

Definition os_MkdirAll : GO unit := exec (fun _ _ db => inr (db, tt)).
Definition os_WriteFile (path content : string) : GO unit :=
  exec (fun _ _ db => inr (files_set (insert path content) db, tt)).
Definition local_path (drillID : string) : string := Path.Join [dir; drillID +:+ ".pdf"].

Definition LocalPut (drillID content : string) : GO string :=
  wrap_err "evidence dir" os_MkdirAll;;
  wrap_err "write evidence" (os_WriteFile (local_path drillID) content);;
  mret (local_path drillID).
Definition LocalReadAll (key : string) : GO string :=
  exec (fun _ _ db => match evidence_files (evidence_db db) !! key with
                      | Some c => inr (db, c) | None => inl (ErrNew "open: no such file or directory") end).
(** os.Remove; a missing file is no error. *)
Definition LocalDelete (key : string) : GO unit :=
  exec (fun _ _ db => inr (files_set (delete key) db, tt)).
Definition LocalStore : EvidenceStore := {| st_Put := LocalPut; st_ReadAll := LocalReadAll; st_Delete := LocalDelete |}.
End local.

(** The directory keeps the interface's promises. *)
Section local_ok.
Context `{env : Env} (dir : string).

Lemma chars_append a b : chars (a +:+ b) = chars a ++ chars b.
Proof. induction a as [|c a IH]; simpl; [done|]. by rewrite IH. Qed.

Lemma pdf_name id : slash ∉ chars id -> plain_name (id +:+ ".pdf").
Proof.
  intros Hs. unfold plain_name, plain. rewrite chars_append.
  assert (slash ∉ chars ".pdf") by (vm_compute; set_solver).
  split; [split; [|split; [|set_solver]]|]; by destruct (chars id) as [|? [|? []]].
Qed.

Lemma local_path_inj a b : slash ∉ chars a -> slash ∉ chars b -> local_path dir a = local_path dir b -> a = b.
Proof.
  intros Ha Hb Heq%Join_inj; [|by apply pdf_name..]. apply chars_inj.
  apply (f_equal chars) in Heq. rewrite !chars_append in Heq. by apply app_inv_tail in Heq.
Qed.

Lemma frame_files {A B} (proj : DB -> B) (g : stmt DB A) :
  (forall f db, proj (files_set f db) = proj db) ->
  (forall t u db db' a, g t u db = inr (db', a) -> db' = db \/ exists f, db' = files_set f db) -> frame proj (exec g).
Proof. intros Hp Hg. apply frame_exec. intros t u db db' a [->|[f ->]]%Hg; [done|apply Hp]. Qed.

Lemma files_view f (db : DB) k : evidence_files (evidence_db (files_set f db)) !! k = f (evidence_files (evidence_db db)) !! k.
Proof. by destruct db as [? ? ? ? ? ? ? []]. Qed.

Lemma frame_LocalPut {B} (proj : DB -> B) id content :
  (forall f db, proj (files_set f db) = proj db) -> frame proj (LocalPut dir id content).
Proof.
  intros Hp. assert (forall A e (m : GO A), frame proj m -> frame proj (wrap_err e m)) as Hw.
  { intros A e m Hm. apply frame_bind; [by apply frame_try|]. intros []; [apply frame_fail|apply frame_ret]. }
  unfold LocalPut. apply frame_bind; [|intros _; apply frame_bind; [|intros _; apply frame_ret]]; apply Hw, frame_files;
    try done; intros ? ? ? ? ? [= <- _]; [by left|right]. by eexists.
Qed.

Lemma LocalPut_others id content w key :
  key <> local_path dir id -> evidence_files (evidence_db (w_db (LocalPut dir id content w).2)) !! key
    = evidence_files (evidence_db (w_db w)) !! key.
Proof.
  intros Hk. assert (forall A e (m : GO A), frame (fun db => evidence_files (evidence_db db) !! key) m ->
    frame (fun db => evidence_files (evidence_db db) !! key) (wrap_err e m)) as Hw.
  { intros A e m Hm. apply frame_bind; [by apply frame_try|]. intros []; [apply frame_fail|apply frame_ret]. }
  revert w. change (frame (fun db => evidence_files (evidence_db db) !! key) (LocalPut dir id content)). unfold LocalPut.
  apply frame_bind; [|intros _; apply frame_bind; [|intros _; apply frame_ret]]; apply Hw, frame_exec;
    intros t u db db' x [= <- _]; [done|]. by rewrite files_view, lookup_insert_ne by done.
Qed.

#[export] Instance LocalStore_ok : EvidenceStoreOk (LocalStore dir).
Proof.
  refine {| st_key := local_path dir; st_view db key := evidence_files (evidence_db db) !! key |}.
  - apply local_path_inj.
  - intros x Hx. by apply Join_nonempty, pdf_name.
  - by intros db db' ->.
  - simpl. unfold LocalPut. intros id c w key w' (u & w1 & _ & H)%bind_ret.
    apply bind_ret in H as (u' & w2 & Hw%wrap_err_ret & [= <- <-]). split; [done|].
    apply exec_ret in Hw as [[= <-] _]. by rewrite files_view, lookup_insert_eq.
  - apply LocalPut_others.
  - simpl. intros key w c Hc Hv. exists (tick w). split; [|split; [done|simpl; lia]].
    unfold LocalReadAll. rewrite (exec_ok _ w (w_db w) c) by (first [apply Hc; lia|by rewrite Hv]). done.
  - simpl. intros key. apply (frame_exec (fun db => db)). intros t u db db' x Heq. by case_match; simplify_eq.
  - simpl. intros key w Hc. exists (with_db (files_set (delete key) (w_db w)) (tick w)).
    split; [apply exec_ok; [apply Hc; lia|done]|simpl; lia].
  - intros key w. simpl. unfold LocalDelete. match goal with |- context [exec ?f w] => destruct (exec_spec f w) as (_ & ? & -> & _) end.
    split; [done|lia].
  - simpl. intros key w w' [[= <-] _]%exec_ret. by rewrite files_view, lookup_delete_eq.
  - simpl. intros key w key' Hk. revert w. apply (frame_exec (fun db => evidence_files (evidence_db db) !! key')).
    intros t u db db' x [= <- _]. by rewrite files_view, lookup_delete_ne.
  - intros B proj id c Hp. by apply frame_LocalPut.
  - intros B proj key Hp. apply frame_files; [done|]. intros ? ? ? ? ? [= <- _]. right. by eexists.
Defined.
End local_ok.

(** ** Signature Version 4 (sigv4.go) *)

Definition emptyPayloadHash : string := "e3b0c44298fc1c149afbf4c8996fb92427ae41e4649b934ca495991b7852b855".
Definition sha256Hex (b : string) : string := hex_EncodeToString (sha256 b).

Definition newline : string := String "010" "".
Fixpoint concat_with (sep : string) (l : list string) : string :=
  match l with [] => "" | [s] => s | s :: l' => s +:+ sep +:+ concat_with sep l' end.

Definition unreserved (c : ascii) : bool :=
  alnum c || bool_decide (c ∈ ["-"%char; "_"%char; "."%char; "~"%char]).
Definition upper_hex (z : Z) : ascii := of_byte (if z <? 10 then 48 + z else 55 + z).
Fixpoint rfc3986Escape (s : string) : string :=
  match s with
  | EmptyString => EmptyString
  | String c s' =>
      if unreserved c then String c (rfc3986Escape s')
      else String "%" (String (upper_hex (Z.shiftr (byte_of c) 4)) (String (upper_hex (Z.land (byte_of c) 15)) (rfc3986Escape s')))
  end.
Definition canonicalURI (path : string) : string :=
  if bool_decide (path = "") then "/"
  else unchars (Path.join ((fun seg => chars (rfc3986Escape (unchars seg))) <$> Path.split (chars path))).

(** A request as far as it is signed: the host and the x-amz-* headers it
    carries, by lower-case name. *)
Record S3Request : Type := mkS3Request {
  rq_Method : string; rq_Host : string; rq_Path : string; rq_Query : string; rq_Amz : list (string * string); rq_Body : string
}.

Definition signV4 (req : S3Request) (payloadHash accessKey secretKey region service : string) (t : time) : string :=
  let amzDate := FormatCompact t in
  let dateStamp := FormatCompactDate t in
  let signed := order_by (fun a b => String.leb a.1 b.1)
    (("host", rq_Host req) :: ((fun h => (h.1, TrimSpace h.2)) <$> (rq_Amz req ++ [("x-amz-date", amzDate)]))) in
  let canonHeaders := concat_with "" ((fun h => h.1 +:+ ":" +:+ h.2 +:+ newline) <$> signed) in
  let signedHeaders := concat_with ";" signed.*1 in
  let canonicalRequest := concat_with newline
    [rq_Method req; canonicalURI (rq_Path req); rq_Query req; canonHeaders; signedHeaders; payloadHash] in
  let scope := dateStamp +:+ "/" +:+ region +:+ "/" +:+ service +:+ "/aws4_request" in
  let stringToSign := concat_with newline ["AWS4-HMAC-SHA256"; amzDate; scope; sha256Hex canonicalRequest] in
  let kDate := hmac sha256 ("AWS4" +:+ secretKey) dateStamp in
  let kRegion := hmac sha256 kDate region in
  let kService := hmac sha256 kRegion service in
  let kSigning := hmac sha256 kService "aws4_request" in
  let signature := hex_EncodeToString (hmac sha256 kSigning stringToSign) in
  "AWS4-HMAC-SHA256 Credential=" +:+ accessKey +:+ "/" +:+ scope +:+ ", SignedHeaders=" +:+ signedHeaders
  +:+ ", Signature=" +:+ signature.

(** The vectors of sigv4_test.go. *)
Example signV4_vanilla :
  signV4 (mkS3Request "GET" "example.amazonaws.com" "/" "" [] "") emptyPayloadHash
    "AKIDEXAMPLE" "wJalrXUtnFEMI/K7MDENG+bPxRfiCYEXAMPLEKEY" "us-east-1" "service" (1440938160 * ns)
  = "AWS4-HMAC-SHA256 Credential=AKIDEXAMPLE/20150830/us-east-1/service/aws4_request, SignedHeaders=host;x-amz-date, "
    +:+ "Signature=5fa00fa31553b73ebf1942676e86291e8372ff2a2260956d9b8aae1d763fbf31".
Proof. vm_compute. reflexivity. Qed.
Example canonicalURI_cases :
  canonicalURI <$> [""; "/"; "/3b9f.pdf"; "/a b/c"] = ["/"; "/"; "/3b9f.pdf"; "/a%20b/c"].
Proof. vm_compute. reflexivity. Qed.

(** ** S3Store *)

(** The bucket's server: status, body and new objects for a request with its
    Authorization header. *)
Class Bucket : Type := {
  bk_serve : S3Request -> string -> gmap string string -> (Z * string) * gmap string string
}.

Record S3Store : Type := mkS3Store {
  s3_bucket : string; s3_region : string; s3_endpoint : string; s3_accessKey : string; s3_secretKey : string
}.

(** strings.TrimRight(s, "/") *)
Definition trim_right_slash (s : string) : string :=
  unchars (rev (drop_while (fun c => bool_decide (c = "/"%char)) (rev (chars s)))).
Definition NewS3Store (bucket region endpoint accessKey secretKey : string) : S3Store :=
  let endpoint := if bool_decide (endpoint = "") then "https://s3." +:+ region +:+ ".amazonaws.com" else endpoint in
  mkS3Store bucket region (trim_right_slash endpoint) accessKey secretKey.

(** The host of an endpoint that has no path of its own. *)
Definition host_of (endpoint : string) : string :=
  let n := String.length endpoint in
  if HasPrefix endpoint "https://" then String.substring 8 (n - 8) endpoint
  else if HasPrefix endpoint "http://" then String.substring 7 (n - 7) endpoint else endpoint.

Section s3.
Context `{env : Env} `{bucket : Bucket} (s : S3Store).

(** io.LimitReader *)
Fixpoint limited (n : Z) (b : string) : string :=
  match b with
  | EmptyString => EmptyString
  | String c b' => if n <=? 0 then EmptyString else String c (limited (n - 1) b')
  end.

(** A 404 reads as an empty answer, other 4xx and 5xx are errors. *)
Definition do_ (req : S3Request) (payloadHash : string) : GO string :=
  now ← time_Now;
  let auth := signV4 req payloadHash (s3_accessKey s) (s3_secretKey s) (s3_region s) "s3" now in
  '(status, body) ← wrap_err ("evidence s3: " +:+ rq_Method req) (exec (fun _ _ db =>
      let '(resp, files) := bk_serve req auth (evidence_files (evidence_db db)) in
      inr (files_set (fun _ => files) db, resp)));
  let body := limited (Z.shiftl 8 20) body in
  if status =? 404 then mret ""
  else if 400 <=? status
  then fail (ErrNew ("evidence s3: " +:+ rq_Method req +:+ " " +:+ pretty status +:+ ": " +:+ limited 300 body))
  else mret body.

Definition object_request (method key body hash : string) : S3Request :=
  mkS3Request method (host_of (s3_endpoint s)) ("/" +:+ s3_bucket s +:+ "/" +:+ key) "" [("x-amz-content-sha256", hash)] body.

Definition S3Put (drillID content : string) : GO string :=
  let key := drillID +:+ ".pdf" in
  let hash := sha256Hex content in
  do_ (object_request "PUT" key content hash) hash;; mret key.
Definition S3ReadAll (key : string) : GO string := do_ (object_request "GET" key "" emptyPayloadHash) emptyPayloadHash.
Definition S3Delete (key : string) : GO unit :=
  do_ (object_request "DELETE" key "" emptyPayloadHash) emptyPayloadHash;; mret tt.
Definition S3 : EvidenceStore := {| st_Put := S3Put; st_ReadAll := S3ReadAll; st_Delete := S3Delete |}.
End s3.
