(* ===== verification/Evidence.v ===== *)
(** internal/evidence/service.go: signing, encrypting, storing, verifying and
    expiring the evidence of a drill. *)
From S2P Require Import Prelude Crypto Aes Effects Schema Encoding Time Cipher Signer EvidenceStore.

Definition DefaultRetention : Z := 7 * 365 * 24 * 3600 * ns.
Definition ErrNoSignature : error := ErrNew "evidence: no signature for drill".

(** t.Truncate(time.Microsecond), and what a TIMESTAMPTZ keeps of a time. *)
Definition micros (t : time) : time := t / 1000 * 1000.

Record VerifyResult : Type := mkVerifyResult {
  vr_Signed : bool; vr_Valid : bool; vr_Reason : string; vr_PublicKeyID : string; vr_SignedAt : time; vr_RetainUntil : time
}.

Section service.
Context `{env : Env} `{uuids : UuidLib} `{rand : Rand} `{ed : Ed25519} `{store : EvidenceStore}.
Context (signer : Signer) (cipher : Cipher) (retention : Z).

(** INSERT ... ON CONFLICT (drill_id) DO UPDATE *)
Definition upsert_signature (drillID : uuid) (sig : Signature) (signedAt retainUntil : time) : GO unit :=
  exec (fun _ _ db =>
    match drills (drill_db db) !! drillID with
    | None => inl (ErrConstraint "evidence_signatures_drill_id_fkey")
    | Some _ => inr (db{{ evidence_db -> evidence_signatures ::=
        <[ drillID := mkSignatureRecord (sig{{ SignedAt := micros signedAt }}) (micros retainUntil) ]> }}, tt)
    end).

Definition Finalize (drillID accountID : uuid) (pdf : string) : GO string :=
  now ← time_Now;
  let signedAt := micros now in
  let sig := Sign signer pdf signedAt in
  let retainUntil := signedAt + retention in
  blob ← wrap_err "encrypt evidence" (Encrypt cipher accountID pdf);
  key ← st_Put (uuid_String drillID) blob;
  wrap_err "record signature" (upsert_signature drillID sig signedAt retainUntil);;
  mret key.

Definition GetSignature (drillID : uuid) : GO SignatureRecord :=
  no_rows_as ErrNoSignature (query_row (fun _ db => evidence_signatures (evidence_db db) !! drillID)).

Definition invalid (res : VerifyResult) (reason : string) : VerifyResult := res{{ vr_Reason := reason }}.

Definition ServiceVerify (drillID accountID : uuid) (key : string) : GO VerifyResult :=
  r ← try (GetSignature drillID);
  match r with
  | inl e => if errors_Is e ErrNoSignature then mret (mkVerifyResult false false "" "" 0 0) else fail e
  | inr rec =>
      let sig := sg_Signature rec in
      let res := mkVerifyResult true false "" (PublicKeyID sig) (SignedAt sig) (RetainUntil rec) in
      match VerificationKey signer (PublicKeyID sig) with
      | None => mret (invalid res "signed with a key this server does not hold (key rotated out of the verification set?)")
      | Some pub =>
          r ← try (st_ReadAll key);
          match r with
          | inl e => mret (invalid res ("evidence file unreadable: " +:+ Error e))
          | inr blob =>
              r ← try (Decrypt cipher accountID blob);
              match r with
              | inl e =>
                  mret (invalid res (if errors_Is e ErrShredded then "evidence was crypto-shredded (account deleted)"
                                     else "evidence could not be decrypted (tampered file?)"))
              | inr pdf =>
                  match Signer.Verify pub pdf sig with
                  | Some e => mret (invalid res (Error e))
                  | None => mret res{{ vr_Valid := true }}
                  end
              end
          end
      end
  end.

Definition Read (accountID : uuid) (key : string) : GO string :=
  blob ← st_ReadAll key; Decrypt cipher accountID blob.
Definition DeleteKey (key : string) : GO unit := st_Delete key.
Definition ShredAccountEvidence (accountID : uuid) : GO unit := ShredAccount accountID.

(** The drills whose signature has outlived its retention, with their files. *)
Definition expired (now : time) (db : DB) : list (uuid * option string) :=
  omap (fun '(id, rec) =>
    d ← drills (drill_db db) !! id;
    if RetainUntil rec <? now then Some (id, d_EvidencePath d) else None)
  (map_to_list (evidence_signatures (evidence_db db))).

Definition purge_one (e : uuid * option string) : GO unit :=
  match e.2 with
  | Some path => if bool_decide (path = "") then mret tt
                 else wrap_err ("delete evidence " +:+ uuid_String e.1) (st_Delete path)
  | None => mret tt
  end;;
  update (fun _ db => db{{ evidence_db -> evidence_signatures ::= delete e.1 }}).

(** The number purged; an error stops the pass. *)
Definition PurgeExpired : GO nat :=
  list ← query expired;
  for_each list purge_one;;
  mret (length list).
End service.
