(* ===== verification/Webhooks.v ===== *)
(** internal/webhooks: signatures, endpoints, the delivery log, the fan-out
    of an event, the delivery worker with its guard against private targets,
    and the handlers of internal/web/handlers/webhooks.go. *)
From S2P Require Import Prelude Crypto Effects Schema Encoding Net AuditLog Plans Http AuthStore Web.
From stdpp Require Import pretty.
From Stdlib Require Import Ascii.
#[local] Open Scope Z_scope.

(** ** Signatures (sign.go) *)

Definition Sign (secret body : string) : string := "sha256=" +:+ hex_EncodeToString (hmac sha256 secret body).
Definition Verify (secret body sig : string) : bool := bool_decide (Sign secret body = sig).

(** ** Private targets (worker.go) *)

Definition isPublicIP (ip : IP) : bool :=
  negb (IsLoopback ip || IsPrivate ip || IsUnspecified ip
        || IsLinkLocalUnicast ip || IsLinkLocalMulticast ip || IsMulticast ip).

(** The dialer's Control hook on the resolved address. *)
Definition Control (blockPrivate : bool) (address : string) : option error :=
  if negb blockPrivate then None else
  match SplitHostPort address with
  | None => Some (ErrNew "address")
  | Some (host, _) =>
      match ParseIP host with
      | None => Some (ErrNew ("webhooks: unresolvable target " +:+ host))
      | Some ip =>
          if negb (isPublicIP ip)
          then Some (ErrNew ("webhooks: refusing to connect to non-public address " +:+ host)) else None
      end
  end.

(** What the network does for net/http: whether a URL makes a request, the
    addresses it resolves to, which accept a connection, what they answer,
    and where the Location of an answer, if it has one, leads from its URL. *)
Record Network : Type := mkNetwork {
  new_request : string -> option error;
  resolve     : nat -> string -> list string;
  connects    : nat -> string -> bool;
  respond     : nat -> string -> error + Z;
  location    : nat -> string -> string -> option (error + string)
}.

(** The dialer tries the addresses in turn and reports the first error. *)
Fixpoint dial (net : Network) (blockPrivate : bool) (n : nat) (addrs : list string) (first : error) : error + string :=
  match addrs with
  | [] => inl first
  | a :: l =>
      let next e := match dial net blockPrivate n l e with inr x => inr x | inl _ => inl e end in
      match Control blockPrivate a with
      | Some e => next e
      | None => if connects net n a then inr a else next (ErrNew "dial tcp: connection refused")
      end
  end.

(** redirectBehavior of net/http for a request whose body can be read again:
    the method of the next request and whether the body goes along. *)
Definition redirect (method : string) (code : Z) : option (string * bool) :=
  if (301 <=? code) && (code <=? 303) then Some (if bool_decide (method = "HEAD") then method else "GET", false)
  else if (code =? 307) || (code =? 308) then Some (method, true) else None.
Definition defaultMaxRedirects : nat := 9.

(** http.Client.Do.  Every request of a chain of redirects is dialed through
    the same transport; [call] is the request an address gets. *)
Fixpoint client_do `{env : Env} (net : Network) (blockPrivate : bool) (call : string -> string -> bool -> string -> extcall)
    (redirects : nat) (method : string) (withBody : bool) (url : string) : GO Z := fun w =>
  match dial net blockPrivate (w_tick w) (resolve net (w_tick w) url) (ErrNew "no addresses") with
  | inl err => (Fail err, tick w)
  | inr address =>
      ('(code, loc) ← ext (call address method withBody url)
          (fun n => match respond net n address with inl e => inl e | inr code => inr (code, location net n address url) end);
       match redirect method code, loc with
       | Some _, Some (inl e) => fail e
       | Some (method', withBody'), Some (inr url') =>
           match redirects with
           | O => fail (ErrNew "stopped after 10 redirects")
           | S redirects' => client_do net blockPrivate call redirects' method' withBody' url'
           end
       | _, _ => mret code
       end) w
  end.

(** ** The store (store.go) *)

Definition StatusPending : string := "pending".
Definition StatusDelivered : string := "delivered".
Definition StatusFailed : string := "failed".
Definition ErrNotFound : error := ErrNew "webhooks: not found".

Definition live_endpoint (r : EndpointRow) : bool := bool_decide (er_deleted_at r = None).

Section store.
Context `{env : Env} `{uuids : UuidLib} `{rand : Rand}.

Definition newSecret : GO string := b ← must_rand 24; mret ("whsec_" +:+ RawURLEncoding_Encode b).

Definition insert_endpoint (accountID : uuid) (url secret : string) : GO Endpoint :=
  exec (fun now id db =>
    match webhook_endpoints (hook_db db) !! id, accounts (account_db db) !! accountID with
    | Some _, _ => inl ErrUnique
    | None, None => inl (ErrConstraint "webhook_endpoints_account_id_fkey")
    | None, Some _ =>
        let e := mkEndpoint id accountID url secret true now in
        inr (db{{ hook_db -> webhook_endpoints ::= <[ id := mkEndpointRow e None ]> }}, e)
    end).
Definition CreateEndpoint (accountID : uuid) (url : string) : GO Endpoint :=
  secret ← newSecret; insert_endpoint accountID url secret.

Definition endpoints_of (accountID : uuid) (db : DB) : list Endpoint :=
  order_by (fun x y => e_CreatedAt y <=? e_CreatedAt x)
    (er_endpoint <$> sql_select (fun r => bool_decide (e_Account (er_endpoint r) = accountID) && live_endpoint r)
                       (webhook_endpoints (hook_db db))).
Definition ListEndpoints (accountID : uuid) : GO (list Endpoint) := query (fun _ db => endpoints_of accountID db).
Definition ListEnabledEndpoints (accountID : uuid) : GO (list Endpoint) :=
  all_ ← ListEndpoints accountID; mret (filter (fun e => e_Enabled e = true) all_).

Definition GetEndpoint (accountID endpointID : uuid) : GO Endpoint :=
  no_rows_as ErrNotFound (query_row (fun _ db =>
    r ← webhook_endpoints (hook_db db) !! endpointID;
    if bool_decide (e_Account (er_endpoint r) = accountID) && live_endpoint r then Some (er_endpoint r) else None)).
Definition GetEndpointByID (endpointID : uuid) : GO Endpoint :=
  no_rows_as ErrNotFound (query_row (fun _ db =>
    r ← webhook_endpoints (hook_db db) !! endpointID;
    if live_endpoint r then Some (er_endpoint r) else None)).

Definition DeleteEndpoint (accountID endpointID : uuid) : GO unit :=
  n ← update_n (fun now db =>
    let p r := bool_decide (e_ID (er_endpoint r) = endpointID) && bool_decide (e_Account (er_endpoint r) = accountID)
               && live_endpoint r in
    (db{{ hook_db -> webhook_endpoints ::= sql_update p (fun r => r{{ er_deleted_at := Some now }}) }},
     sql_count p (webhook_endpoints (hook_db db))));
  if (n =? 0)%nat then fail ErrNotFound else mret tt.

(** The row a keyed delivery conflicts with. *)
Definition same_key (endpointID : uuid) (key : string) (r : DeliveryRow) : bool :=
  bool_decide (dl_EndpointID (dr_delivery r) = endpointID) && bool_decide (dr_event_key r = Some key).

Definition CreateDelivery (endpointID accountID : uuid) (event eventKey payload : string) : GO uuid :=
  exec (fun now id db =>
    let t := webhook_deliveries (hook_db db) in
    let key := nullif_empty eventKey in
    match env_jsonb payload with
    | None => inl (ErrNew "invalid input syntax for type json")
    | Some json =>
        match key ≫= (fun k => head (sql_select (same_key endpointID k) t)) with
        | Some r => inr (db, dl_ID (dr_delivery r))
        | None =>
            match t !! id, webhook_endpoints (hook_db db) !! endpointID, accounts (account_db db) !! accountID with
            | Some _, _, _ => inl ErrUnique
            | None, None, _ => inl (ErrConstraint "webhook_deliveries_endpoint_id_fkey")
            | None, Some _, None => inl (ErrConstraint "webhook_deliveries_account_id_fkey")
            | None, Some _, Some _ =>
                let d := mkDelivery id endpointID accountID event json StatusPending 0 None None now now None in
                inr (db{{ hook_db -> webhook_deliveries ::= <[ id := mkDeliveryRow d key ]> }}, id)
            end
        end
    end).

Definition GetDelivery (id : uuid) : GO Delivery :=
  no_rows_as ErrNotFound (query_row (fun _ db => dr_delivery <$> webhook_deliveries (hook_db db) !! id)).

Definition ListDeliveries (accountID endpointID : uuid) (limit : Z) : GO (list Delivery) :=
  query (fun _ db => take (Z.to_nat limit)
    (order_by (fun x y => dl_CreatedAt y <=? dl_CreatedAt x)
      (dr_delivery <$> sql_select (fun r => bool_decide (dl_AccountID (dr_delivery r) = accountID)
                                            && bool_decide (dl_EndpointID (dr_delivery r) = endpointID))
                         (webhook_deliveries (hook_db db))))).

Definition attempted (status : string) (code : Z) (err : string) (deliveredAt : option time) (now : time)
    (d : Delivery) : Delivery :=
  d{{ dl_Status := status; dl_AttemptCount ::= Z.succ;
      dl_LastStatusCode := if code =? 0 then None else Some code; dl_LastError := nullif_empty err;
      dl_UpdatedAt := now;
      dl_DeliveredAt ::= fun old => match deliveredAt with Some t => Some t | None => old end }}.
Definition set_attempt (id : uuid) (status : string) (code : Z) (err : string) (deliveredAt : option time) : GO unit :=
  update (fun now db => db{{ hook_db -> webhook_deliveries ::=
    alter (fun r => r{{ dr_delivery ::= attempted status code err deliveredAt now }}) id }}).
Definition RecordAttempt (id : uuid) (status : string) (code : Z) (err : string) : GO unit :=
  deliveredAt ← (if bool_decide (status = StatusDelivered) then t ← time_Now; mret (Some t) else mret None);
  set_attempt id status code err deliveredAt.

(** ** Fan-out (dispatch.go); json.Marshal of an EventPayload is a parameter *)

Record EventPayload : Type := mkEventPayload {
  ep_Event : string; ep_AccountID : string; ep_CreatedAt : time; ep_Data : metadata
}.
Context (MarshalEvent : EventPayload -> error + string).

Definition MarshalPayload (event accountID : string) (data : metadata) : GO string :=
  now ← time_Now; lift (MarshalEvent (mkEventPayload event accountID now data)).

(** River: a job row, unique by its arguments when asked to. *)
Definition InsertJob (deliveryID : uuid) (unique : bool) : GO unit :=
  exec (fun _ n db =>
    if unique && sql_exists (fun d => bool_decide (d = deliveryID)) (webhook_jobs (hook_db db)) then inr (db, tt)
    else match webhook_jobs (hook_db db) !! n with
         | Some _ => inl ErrUnique
         | None => inr (db{{ hook_db -> webhook_jobs ::= <[ n := deliveryID ]> }}, tt)
         end).

Fixpoint data_get (k : string) (data : metadata) : option any :=
  match data with
  | [] => None
  | (k', v) :: l => if bool_decide (k' = k) then Some v else data_get k l
  end.
(** The first of the keys that holds a non-empty string. *)
Fixpoint source_of (keys : list string) (data : metadata) : string :=
  match keys with
  | [] => ""
  | k :: l =>
      let s := match data_get k data with Some (AString v) => v | _ => "" end in
      if bool_decide (s = "") then source_of l data else s
  end.

Definition send_one (accountID : uuid) (event eventKey payload : string) (e : Endpoint) : GO unit :=
  deliveryID ← wrap_err "create delivery" (CreateDelivery (e_ID e) accountID event eventKey payload);
  wrap_err "enqueue delivery" (InsertJob deliveryID true).

Definition Dispatch (accountID : uuid) (event : string) (data : metadata) : GO unit :=
  endpoints ← wrap_err "list endpoints" (ListEnabledEndpoints accountID);
  if bool_decide (endpoints = []) then mret tt else
  payload ← wrap_err "marshal payload" (MarshalPayload event (uuid_String accountID) data);
  let sourceID := source_of ["drill_id"; "heartbeat_id"] data in
  sourceID ← (if bool_decide (sourceID = "") then u ← uuid_New; mret (uuid_String u) else mret sourceID);
  fanout ← uuid_New;
  let eventKey := event +:+ "|" +:+ sourceID +:+ "|" +:+ uuid_String fanout in
  for_each endpoints (send_one accountID event eventKey payload).

Definition Enqueue (deliveryID : uuid) : GO unit := InsertJob deliveryID false.

(** ** The worker (worker.go) *)

Context (net : Network) (blockPrivate metrics : bool).

Definition recordOutcome (outcome : string) : GO unit :=
  if metrics then ext (ExtCall "metrics" ["webhook_delivery"; outcome]) (fun _ => inr tt) else mret tt.

(** The POST: its headers, which follow every redirect, and its body. *)
Definition request (e : Endpoint) (d : Delivery) (address method : string) (withBody : bool) (url : string) : extcall :=
  ExtCall "http" [address; method; url; dl_Event d; uuid_String (dl_ID d); Sign (e_Secret e) (dl_Payload d);
                  if withBody then dl_Payload d else ""].
Definition post (e : Endpoint) (d : Delivery) : GO Z :=
  match new_request net (e_URL e) with
  | Some err => fail err
  | None => client_do net blockPrivate (request e d) defaultMaxRedirects "POST" true (e_URL e)
  end.

Definition DeliverWork (deliveryID : uuid) : GO unit :=
  d ← wrap_err "load delivery" (GetDelivery deliveryID);
  if bool_decide (dl_Status d = StatusDelivered) then mret tt else
  r ← try (GetEndpointByID (dl_EndpointID d));
  match r with
  | inl _ => wrap_err "record attempt (endpoint gone)" (RecordAttempt (dl_ID d) StatusFailed 0 "endpoint no longer exists")
  | inr endpoint =>
      r ← try (post endpoint d);
      let '(code, ok, reason) := match r with
        | inr code => (code, (200 <=? code) && (code <? 300), "non-2xx response: " +:+ pretty code)
        | inl e => (0, false, Error e)
        end in
      if (ok : bool) then
        wrap_err "record attempt (delivered, will retry)" (RecordAttempt (dl_ID d) StatusDelivered code "");;
        recordOutcome "delivered"
      else
        wrap_err "record attempt (failed, will retry)" (RecordAttempt (dl_ID d) StatusFailed code reason);;
        recordOutcome "failed";;
        fail (ErrNew ("webhook delivery failed: " +:+ reason))
  end.
End store.

(** ** The handlers (internal/web/handlers/webhooks.go) *)

(** net/url.Parse: the scheme and the host of a URL. *)
Class UrlLib : Type := { url_Parse : string -> error + (string * string) }.

Definition validWebhookURL `{UrlLib} (raw : string) : bool :=
  match url_Parse raw with
  | inl _ => false
  | inr (scheme, host) =>
      if negb (bool_decide (scheme = "http")) && negb (bool_decide (scheme = "https")) then false
      else negb (bool_decide (host = ""))
  end.

Section handlers.
Context `{env : Env} `{uuids : UuidLib} `{rand : Rand} `{urls : UrlLib}.
Context (who : Who).

Definition webhooksList : GO response :=
  ignore (ListEndpoints (a_ID (acct who)));; mret (Render StatusOK "WebhooksPage").

(** [form] is the posted url, [None] when ParseForm fails. *)
Definition webhookCreate (form : option string) : GO response :=
  existing ← try (ListEndpoints (a_ID (acct who)));
  match enforceLimit (count_of existing) (Plans.Webhooks (EffectiveLimits (acct who))) with
  | Some r => mret r
  | None =>
      match form with
      | None => mret (HTTPError StatusBadRequest)
      | Some url =>
          let rawURL := TrimSpace url in
          if negb (validWebhookURL rawURL) then
            ignore (ListEndpoints (a_ID (acct who)));; mret (Render StatusBadRequest "WebhooksPageWithError")
          else
            or_else (CreateEndpoint (a_ID (acct who)) rawURL) err_500 (fun e =>
              audit_ who "webhook.created" "webhook_endpoint" (uuid_String (e_ID e)) [("url", AString rawURL)];;
              mret (Redirect ("/account/webhooks?new=" +:+ uuid_String (e_ID e))))
      end
  end.

Definition webhookDelete (idParam : string) : GO response :=
  parse_id idParam (HTTPError StatusBadRequest) (fun endpointID =>
    or_else (DeleteEndpoint (a_ID (acct who)) endpointID) (not_found_or_500 ErrNotFound) (fun _ =>
      audit_ who "webhook.deleted" "webhook_endpoint" (uuid_String endpointID) [];;
      mret (Redirect "/account/webhooks"))).

Definition webhookDeliveries (idParam : string) : GO response :=
  parse_id idParam (HTTPError StatusNotFound) (fun endpointID =>
    or_else (GetEndpoint (a_ID (acct who)) endpointID) err_404 (fun _ =>
      ignore (ListDeliveries (a_ID (acct who)) endpointID 100);; mret (Render StatusOK "WebhookDeliveries"))).

(** A replay is a fresh delivery row without a key; the old row stays. *)
Definition webhookReplay (idParam deliveryParam : string) : GO response :=
  parse_id idParam (HTTPError StatusNotFound) (fun endpointID =>
  parse_id deliveryParam (HTTPError StatusNotFound) (fun deliveryID =>
    or_else (GetDelivery deliveryID) err_404 (fun d =>
      if negb (bool_decide (dl_AccountID d = a_ID (acct who))) || negb (bool_decide (dl_EndpointID d = endpointID))
      then mret (HTTPError StatusNotFound) else
      or_else (CreateDelivery (dl_EndpointID d) (dl_AccountID d) (dl_Event d) "" (dl_Payload d)) err_500 (fun newID =>
      or_else (Enqueue newID) err_500 (fun _ =>
        audit_ who "webhook.replayed" "webhook_delivery" (uuid_String deliveryID)
          [("replay_delivery_id", AString (uuid_String newID))];;
        mret (Redirect ("/account/webhooks/" +:+ uuid_String endpointID +:+ "/deliveries"))))))).
End handlers.
