(* ===== verification/Heartbeat.v ===== *)
(** internal/heartbeat and internal/web/handlers/heartbeats.go: monitors that
    expect a check-in, the public ping, the sweeper that turns overdue
    monitors down, and the handlers. *)
From S2P Require Import Prelude Crypto Effects Schema Encoding Time AuditLog Plans Http AuthStore Web.
From Stdlib Require Import Ascii.

Definition StatusNew : string := "new".
Definition StatusUp : string := "up".
Definition StatusDown : string := "down".
Definition StatusPaused : string := "paused".

Definition KindPing : string := "ping".
Definition KindStart : string := "start".
Definition KindFail : string := "fail".
Definition validKind (k : string) : bool :=
  bool_decide (k = KindPing) || bool_decide (k = KindStart) || bool_decide (k = KindFail).

Definition Overdue (h : Heartbeat) (now : time) : bool :=
  match h_ExpectedBy h with
  | None => false
  | Some e =>
      (bool_decide (h_Status h = StatusNew) || bool_decide (h_Status h = StatusUp))
      && (e + h_GraceSeconds h * ns <? now)
  end.

Definition ErrNotFound : error := ErrNew "heartbeat: not found".

Definition slug_char (c : ascii) : bool := lower c || digit c.
Definition trim_dash (s : string) : string := trim_by dash s.
Definition slugify (name : string) : string :=
  let s := trim_dash (unchars (collapse slug_char false (chars (ToLower name)))) in
  if bool_decide (s = "") then "monitor"
  else if (60 <? String.length s)%nat then trim_dash (String.substring 0 60 s) else s.

Section store.
Context `{env : Env} `{uuids : UuidLib} `{rand : Rand}.

Definition newToken : GO string := b ← must_rand 18; mret (RawURLEncoding_Encode b).

(** The column type and CHECKs of the periods: INTEGER, positive, not negative. *)
Definition int4 (z : Z) : bool := (- 2 ^ 31 <=? z) && (z <? 2 ^ 31).

Definition insert_heartbeat (h : Heartbeat) : GO Heartbeat :=
  exec (fun now id db =>
    if negb (int4 (h_PeriodSeconds h) && int4 (h_GraceSeconds h)) then inl (ErrNew "out of range for type integer") else
    if h_PeriodSeconds h <=? 0 then inl (ErrConstraint "heartbeats_period_seconds_check") else
    if h_GraceSeconds h <? 0 then inl (ErrConstraint "heartbeats_grace_seconds_check") else
    match heartbeats (monitor_db db) !! id, accounts (account_db db) !! h_AccountID h,
          users (account_db db) !! h_CreatedByUserID h with
    | Some _, _, _ => inl ErrUnique
    | None, None, _ => inl (ErrConstraint "heartbeats_account_id_fkey")
    | None, _, None => inl (ErrConstraint "heartbeats_created_by_user_id_fkey")
    | None, Some _, Some _ =>
        if sql_exists (fun r => bool_decide (h_PingToken (hr_heartbeat r) = h_PingToken h)) (heartbeats (monitor_db db))
        then inl ErrUnique else
        let h := h{{ h_ID := id; h_Status := StatusNew; h_LastPingAt := None;
                     h_ExpectedBy := Some (now + h_PeriodSeconds h * ns); h_CreatedAt := now }} in
        inr (db{{ monitor_db -> heartbeats ::= <[ id := mkHeartbeatRow h None ]> }}, h)
    end).
Definition Create (h : Heartbeat) : GO Heartbeat :=
  token ← newToken;
  insert_heartbeat h{{ h_PingToken := token; h_Slug := slugify (h_Name h); h_Status := StatusNew }}.

Definition live_monitor (r : HeartbeatRow) : bool := bool_decide (hr_deleted_at r = None).

Definition List_ (accountID : uuid) : GO (list Heartbeat) :=
  query (fun _ db => order_by (fun x y => h_CreatedAt y <=? h_CreatedAt x)
    (hr_heartbeat <$> sql_select (fun r => bool_decide (h_AccountID (hr_heartbeat r) = accountID) && live_monitor r)
                        (heartbeats (monitor_db db)))).

Definition Get (accountID id : uuid) : GO Heartbeat :=
  no_rows_as ErrNotFound (query_row (fun _ db =>
    r ← heartbeats (monitor_db db) !! id;
    if bool_decide (h_AccountID (hr_heartbeat r) = accountID) && live_monitor r then Some (hr_heartbeat r) else None)).

Definition of_token (token : string) (r : HeartbeatRow) : bool :=
  bool_decide (h_PingToken (hr_heartbeat r) = token) && live_monitor r.

Definition insert_ping (id : uuid) (kind ip ua : string) : GO unit :=
  exec (fun now pid db =>
    match heartbeat_pings (monitor_db db) !! pid with
    | Some _ => inl ErrUnique
    | None => inr (db{{ monitor_db -> heartbeat_pings ::=
        <[ pid := mkPing pid now kind (nullif_empty ip) (nullif_empty ua) id ]> }}, tt)
    end).

(** UPDATE heartbeats ... WHERE id = $1 RETURNING *)
Definition set_heartbeat (id : uuid) (f : time -> Heartbeat -> Heartbeat) : GO Heartbeat :=
  exec (fun now _ db =>
    match heartbeats (monitor_db db) !! id with
    | None => inl ErrNoRows
    | Some r => inr (db{{ monitor_db -> heartbeats ::= alter (fun r => r{{ hr_heartbeat ::= f now }}) id }},
                     f now (hr_heartbeat r))
    end).
Definition pinged (status : string) (rearm : bool) (now : time) (h : Heartbeat) : Heartbeat :=
  let h := h{{ h_Status := status; h_LastPingAt := Some now }} in
  if rearm then h{{ h_ExpectedBy := Some (now + h_PeriodSeconds h * ns) }} else h.

(** The result says whether the visible state changed. *)
Definition RecordPing (token kind ip ua : string) : GO (Heartbeat * bool) :=
  if negb (validKind kind) then fail (ErrNew "heartbeat: invalid ping kind") else
  tx (
    h ← no_rows_as ErrNotFound (query_row (fun _ db =>
          hr_heartbeat <$> head (sql_select (of_token token) (heartbeats (monitor_db db)))));
    insert_ping (h_ID h) kind ip ua;;
    if bool_decide (kind = KindStart) then mret (Commit (h, false)) else
    let rearm := negb (bool_decide (kind = KindFail)) in
    let newStatus := if bool_decide (kind = KindFail) then StatusDown else StatusUp in
    h' ← set_heartbeat (h_ID h) (pinged newStatus rearm);
    mret (Commit (h', negb (bool_decide (h_Status h = newStatus))))).

(** The monitor is due for the flip: active, past its deadline and grace, its
    account live and not on a trial that has ended. *)
Definition lapsing (now : time) (db : DB) (r : HeartbeatRow) : bool :=
  let h := hr_heartbeat r in
  match accounts (account_db db) !! h_AccountID h, h_ExpectedBy h with
  | Some a, Some e =>
      live_monitor r && bool_decide (acr_deleted_at a = None)
      && (bool_decide (h_Status h = StatusNew) || bool_decide (h_Status h = StatusUp))
      && (e + h_GraceSeconds h * ns <? now)
      && negb (bool_decide (a_Plan (acr_account a) = PlanTrial)
               && match a_TrialEndsAt (acr_account a) with Some t => t <? now | None => false end)
  | _, _ => false
  end.
Definition MarkOverdueDown : GO (list Heartbeat) :=
  exec (fun now _ db =>
    let t := heartbeats (monitor_db db) in
    inr (db{{ monitor_db -> heartbeats ::=
           sql_update (lapsing now db) (fun r => r{{ hr_heartbeat -> h_Status := StatusDown }}) }},
         (fun r => (hr_heartbeat r){{ h_Status := StatusDown }}) <$> sql_select (lapsing now db) t)).

(** exec1 on the live monitors of the account with this id. *)
Definition exec1 (accountID id : uuid) (f : time -> HeartbeatRow -> HeartbeatRow) : GO unit :=
  n ← update_n (fun now db =>
    let p r := bool_decide (h_ID (hr_heartbeat r) = id) && bool_decide (h_AccountID (hr_heartbeat r) = accountID)
               && live_monitor r in
    (db{{ monitor_db -> heartbeats ::= sql_update p (f now) }}, sql_count p (heartbeats (monitor_db db))));
  if (n =? 0)%nat then fail ErrNotFound else mret tt.

Definition Pause (accountID id : uuid) : GO unit :=
  exec1 accountID id (fun _ r => r{{ hr_heartbeat -> h_Status := StatusPaused; hr_heartbeat -> h_ExpectedBy := None }}).
Definition Resume (accountID id : uuid) : GO unit :=
  exec1 accountID id (fun now r => r{{ hr_heartbeat ::= fun h =>
    h{{ h_Status := StatusNew; h_ExpectedBy := Some (now + h_PeriodSeconds h * ns) }} }}).
Definition Delete (accountID id : uuid) : GO unit :=
  exec1 accountID id (fun now r => r{{ hr_deleted_at := Some now }}).

Definition ListPings (heartbeatID : uuid) (limit : Z) : GO (list Ping) :=
  query (fun _ db => take (Z.to_nat limit) (order_by (fun x y => p_ReceivedAt y <=? p_ReceivedAt x)
    (sql_select (fun p => bool_decide (p_heartbeat_id p = heartbeatID)) (heartbeat_pings (monitor_db db))))).

Definition PrunePings (retention : Z) : GO nat :=
  now ← time_Now;
  update_n (fun _ db =>
    let p x := p_ReceivedAt x <? now - retention in
    (db{{ monitor_db -> heartbeat_pings ::= sql_delete p }}, sql_count p (heartbeat_pings (monitor_db db)))).
End store.

(** ** The sweeper (sweeper.go) and the notifiers (multinotifier.go) *)

Definition EventUp : string := "heartbeat.up".
Definition EventDown : string := "heartbeat.down".

Definition EventData `{UuidLib} (h : Heartbeat) : metadata :=
  [("heartbeat_id", AString (uuid_String (h_ID h))); ("name", AString (h_Name h)); ("status", AString (h_Status h));
   ("period_seconds", AInt (h_PeriodSeconds h)); ("grace_seconds", AInt (h_GraceSeconds h))]
  ++ match h_LastPingAt h with Some t => [("last_ping_at", AString (FormatRFC3339 t))] | None => [] end.

(** The interfaces the sweeper and the ping handler call through. *)
Class Dispatcher : Type := { d_Dispatch : option (uuid -> string -> metadata -> GO unit) }.
Class Notifier : Type := { n_Notify : option (Heartbeat -> string -> GO unit) }.

(** A missing dependency is a nil interface. *)
Definition call {A} (f : option A) (k : A -> GO unit) : GO unit :=
  match f with Some f => k f | None => mret tt end.

(** MultiNotifier.Notify: every notifier runs, the first error is returned. *)
Fixpoint notify_all `{Env} (l : list (option (Heartbeat -> string -> GO unit))) (hb : Heartbeat) (event : string)
    (firstErr : option error) : GO unit :=
  match l with
  | [] => match firstErr with Some e => fail e | None => mret tt end
  | None :: l' => notify_all l' hb event firstErr
  | Some n :: l' =>
      r ← try (n hb event);
      notify_all l' hb event (match r, firstErr with inl e, None => Some e | _, _ => firstErr end)
  end.
Definition MultiNotify `{Env} (l : list (option (Heartbeat -> string -> GO unit))) (hb : Heartbeat) (event : string) : GO unit :=
  notify_all l hb event None.

Section sweeper.
Context `{env : Env} `{uuids : UuidLib} `{disp : Dispatcher} `{notif : Notifier} (audit : bool).

(** The alerts of one flipped monitor; errors are logged and skipped. *)
Definition alert_down (h : Heartbeat) : GO unit :=
  let data := EventData h in
  call d_Dispatch (fun f => ignore (f (h_AccountID h) EventDown data));;
  (if audit then ignore (Record_ (mkEvent (Some (h_AccountID h)) None EventDown "heartbeat" (uuid_String (h_ID h)) data))
   else mret tt);;
  call n_Notify (fun f => ignore (f h EventDown)).

Definition SweeperWork : GO unit :=
  downed ← MarkOverdueDown;
  for_each downed alert_down.
End sweeper.

(** ** The handlers (internal/web/handlers/heartbeats.go, drills.go, plan.go) *)

Definition durationSeconds (value unit_ : string) : option Z :=
  n ← atoiInRange value 0 1000000;
  per ← (if bool_decide (unit_ = "minutes") then Some 60
         else if bool_decide (unit_ = "hours") then Some 3600
         else if bool_decide (unit_ = "days") then Some 86400 else None);
  let secs := n * per in
  if 366 * 86400 <? secs then None else Some secs.

Section handlers.
Context `{env : Env} `{uuids : UuidLib} `{rand : Rand} `{disp : Dispatcher} `{notif : Notifier}.
Context (who : Who).

Record HBForm : Type := mkHBForm {
  f_name : string; f_period_value : string; f_period_unit : string; f_grace_value : string; f_grace_unit : string
}.

Definition heartbeatsList : GO response :=
  or_else (List_ (a_ID (acct who))) (fun _ => Render StatusOK "HeartbeatsError")
    (fun _ => mret (Render StatusOK "HeartbeatsPage")).

Definition renderHBFormError : response := Render StatusBadRequest "HeartbeatNewForm".

Definition heartbeatCreate (form : option HBForm) : GO response :=
  existing ← try (List_ (a_ID (acct who)));
  match enforceLimit (count_of existing) (Heartbeats (EffectiveLimits (acct who))) with
  | Some r => mret r
  | None =>
      match form with
      | None => mret (HTTPError StatusBadRequest)
      | Some v =>
          let name := TrimSpace (f_name v) in
          if bool_decide (name = "") then mret renderHBFormError else
          match durationSeconds (TrimSpace (f_period_value v)) (TrimSpace (f_period_unit v)) with
          | None => mret renderHBFormError
          | Some periodSecs =>
              if periodSecs <=? 0 then mret renderHBFormError else
              match (if bool_decide (TrimSpace (f_grace_value v) = "") then Some 0
                     else durationSeconds (TrimSpace (f_grace_value v)) (TrimSpace (f_grace_unit v))) with
              | None => mret renderHBFormError
              | Some graceSecs =>
                  if graceSecs <? 0 then mret renderHBFormError else
                  or_else (Create (mkHeartbeat uuid_Nil (a_ID (acct who)) (au_ID (user who)) name "" "" periodSecs graceSecs "" None None 0))
                    (fun _ => HTTPError StatusInternalServerError)
                    (fun hb =>
                      audit_ who "heartbeat.created" "heartbeat" (uuid_String (h_ID hb))
                        [("name", AString (h_Name hb)); ("period_seconds", AInt periodSecs)];;
                      mret (Redirect ("/heartbeats/" +:+ uuid_String (h_ID hb))))
              end
          end
      end
  end.

(** heartbeatDetail and heartbeatStatusPartial: the monitor of this account, or 404. *)
Definition heartbeatDetail (idParam : string) : GO response :=
  match uuid_Parse idParam with
  | inl _ => mret (HTTPError StatusNotFound)
  | inr id =>
      or_else (Get (a_ID (acct who)) id) (fun _ => HTTPError StatusNotFound)
        (fun hb => ignore (ListPings (h_ID hb) 50);; mret (Render StatusOK "HeartbeatDetail"))
  end.
Definition heartbeatStatusPartial (idParam : string) : GO response :=
  match uuid_Parse idParam with
  | inl _ => mret (HTTPError StatusNotFound)
  | inr id =>
      or_else (Get (a_ID (acct who)) id) (fun _ => HTTPError StatusNotFound)
        (fun _ => mret (Render StatusOK "HeartbeatStatusCard"))
  end.

Definition heartbeatStateChange (idParam action : string) (fn : uuid -> uuid -> GO unit) : GO response :=
  match uuid_Parse idParam with
  | inl _ => mret (HTTPError StatusNotFound)
  | inr id =>
      or_else (fn (a_ID (acct who)) id) (not_found_or_500 ErrNotFound)
        (fun _ =>
          audit_ who action "heartbeat" (uuid_String id) [];;
          mret (Redirect ("/heartbeats/" +:+ uuid_String id)))
  end.
Definition heartbeatPause (idParam : string) : GO response := heartbeatStateChange idParam "heartbeat.paused" Pause.
Definition heartbeatResume (idParam : string) : GO response := heartbeatStateChange idParam "heartbeat.resumed" Resume.

Definition heartbeatDelete (idParam : string) : GO response :=
  match uuid_Parse idParam with
  | inl _ => mret (HTTPError StatusNotFound)
  | inr id =>
      or_else (Delete (a_ID (acct who)) id) (not_found_or_500 ErrNotFound)
        (fun _ =>
          audit_ who "heartbeat.deleted" "heartbeat" (uuid_String id) [];;
          mret (Redirect "/heartbeats"))
  end.

(** ping: the public endpoint; a real edge is dispatched, audited, notified. *)
Context (ip ua : string).
Definition ping_edge (hb : Heartbeat) : GO unit :=
  let event := if bool_decide (h_Status hb = StatusDown) then EventDown else EventUp in
  let data := EventData hb in
  call d_Dispatch (fun f => ignore (f (h_AccountID hb) event data));;
  ignore (Record_ (EventLit (Some (h_AccountID hb)) None event "heartbeat" (uuid_String (h_ID hb)) ip ua data));;
  call n_Notify (fun f => ignore (f hb event)).
Definition ping (token action : string) : GO response :=
  let kind :=
    if bool_decide (action = "") then Some KindPing
    else if bool_decide (action = "fail") then Some KindFail
    else if bool_decide (action = "start") then Some KindStart else None in
  match kind with
  | None => mret (HTTPError StatusNotFound)
  | Some kind =>
      or_else (RecordPing token kind ip ua) (not_found_or_500 ErrNotFound)
        (fun '(hb, transitioned) =>
          (if (transitioned : bool) then ping_edge hb else mret tt);;
          mret (Text StatusOK "OK"))
  end.
End handlers.
