(* ===== verification/ApiKey.v ===== *)
(** internal/apikey and internal/web/handlers/apikeys.go: the keys of the /v1
    API, of which the database keeps the SHA-256 only, and their scopes. *)
From S2P Require Import Prelude Crypto Effects Schema Encoding AuditLog Plans Http AuthStore Web.

Definition keyPrefix : string := "so_".

Definition ErrNotFound : error := ErrNew "apikey: not found".
Definition ErrRevoked : error := ErrNew "apikey: revoked".

Definition ScopeDatabasesRead : string := "databases:read".
Definition ScopeDatabasesWrite : string := "databases:write".
Definition ScopeDrillsRead : string := "drills:read".
Definition ScopeDrillsWrite : string := "drills:write".
Definition ScopeHeartbeatsRead : string := "heartbeats:read".
Definition ScopeAccountDelete : string := "account:delete".

Definition AllScopes : list string :=
  [ScopeDatabasesRead; ScopeDatabasesWrite; ScopeDrillsRead; ScopeDrillsWrite; ScopeHeartbeatsRead].
Definition GrantableScopes : list string :=
  [ScopeDatabasesRead; ScopeDatabasesWrite; ScopeDrillsRead; ScopeDrillsWrite; ScopeHeartbeatsRead; ScopeAccountDelete].

Definition ValidScope (s : string) : bool :=
  bool_decide (s ∈ [ScopeDatabasesRead; ScopeDatabasesWrite; ScopeDrillsRead; ScopeDrillsWrite; ScopeHeartbeatsRead;
                    ScopeAccountDelete]).

Definition HasScope (k : Key) (s : string) : bool := existsb (fun sc => bool_decide (sc = s)) (k_Scopes k).

(** The requested scopes in canonical order, or the default set. *)
Definition normalizeScopes (in_ : list string) : list string :=
  let out := filter (fun s => s ∈ in_) GrantableScopes in
  if bool_decide (out = []) then AllScopes else out.

Definition hash (raw : string) : string := hex_EncodeToString (sha256 raw).

(** The non-secret leading slice. *)
Definition displayPrefix (raw : string) : string :=
  if (String.length raw <? 12)%nat then raw else String.substring 0 12 raw.

Section store.
Context `{env : Env} `{rand : Rand}.

Definition generate : GO string := b ← rand_Read 30; mret (keyPrefix +:+ RawURLEncoding_Encode b).

Definition insert_key (k : Key) (h : string) : GO Key :=
  exec (fun now id db =>
    match api_keys (key_db db) !! id, accounts (account_db db) !! k_AccountID k,
          users (account_db db) !! k_CreatedByUserID k with
    | Some _, _, _ => inl ErrUnique
    | None, None, _ => inl (ErrConstraint "api_keys_account_id_fkey")
    | None, _, None => inl (ErrConstraint "api_keys_created_by_user_id_fkey")
    | None, Some _, Some _ =>
        if sql_exists (fun r => bool_decide (kr_key_hash r = h)) (api_keys (key_db db)) then inl ErrUnique else
        let k := k{{ k_ID := id; k_CreatedAt := now }} in
        inr (db{{ key_db -> api_keys ::= <[ id := mkKeyRow k h ]> }}, k)
    end).

(** The record and the raw key, shown this once.  (The returned record leaves
    CreatedByUserID at its zero value; the row does not.) *)
Definition Create (accountID createdBy : uuid) (name : string) (scopes : list string) : GO (Key * string) :=
  raw ← generate;
  k ← insert_key (mkKey uuid_Nil accountID name (displayPrefix raw) (normalizeScopes scopes) createdBy 0 None None) (hash raw);
  mret (k{{ k_CreatedByUserID := uuid_Nil }}, raw).

(** The key row with this hash whose account is live. *)
Definition usable (h : string) (db : DB) (r : KeyRow) : bool :=
  bool_decide (kr_key_hash r = h) &&
  match accounts (account_db db) !! k_AccountID (kr_key r) with
  | Some a => bool_decide (acr_deleted_at a = None) | None => false end.

Definition Authenticate (raw : string) : GO Key :=
  if negb (HasPrefix raw keyPrefix) then fail ErrNotFound else
  k ← no_rows_as ErrNotFound (query_row (fun _ db =>
        kr_key <$> head (sql_select (usable (hash raw) db) (api_keys (key_db db)))));
  match k_RevokedAt k with
  | Some _ => fail ErrRevoked
  | None =>
      ignore (update (fun now db => db{{ key_db -> api_keys ::=
        alter (fun r => r{{ kr_key -> k_LastUsedAt := Some now }}) (k_ID k) }}));;
      mret k
  end.

Definition List_ (accountID : uuid) : GO (list Key) :=
  query (fun _ db => order_by (fun x y => k_CreatedAt y <=? k_CreatedAt x)
    (kr_key <$> sql_select (fun r => bool_decide (k_AccountID (kr_key r) = accountID)) (api_keys (key_db db)))).

Definition Revoke (accountID keyID : uuid) : GO unit :=
  n ← update_n (fun now db =>
    let p r := bool_decide (k_ID (kr_key r) = keyID) && bool_decide (k_AccountID (kr_key r) = accountID)
               && bool_decide (k_RevokedAt (kr_key r) = None) in
    (db{{ key_db -> api_keys ::= sql_update p (fun r => r{{ kr_key -> k_RevokedAt := Some now }}) }},
     sql_count p (api_keys (key_db db))));
  if (n =? 0)%nat then fail ErrNotFound else mret tt.
End store.

(** ** The handlers (internal/web/handlers/apikeys.go) *)

Section handlers.
Context `{env : Env} `{uuids : UuidLib} `{rand : Rand}.
Context (who : Who).

Definition apiKeysList : GO response :=
  ignore (List_ (a_ID (acct who)));; mret (Render StatusOK "APIKeysPage").

(** [form]: the posted name and checked scopes. *)
Definition apiKeyCreate (form : option (string * list string)) : GO response :=
  existing ← try (List_ (a_ID (acct who)));
  let active := match existing with inr l => filter (fun k => k_RevokedAt k = None) l | inl _ => [] end in
  match enforceLimit (Z.of_nat (length active)) (APIKeys (EffectiveLimits (acct who))) with
  | Some r => mret r
  | None =>
      match form with
      | None => mret (HTTPError StatusBadRequest)
      | Some (name, scopes) =>
          let name := TrimSpace name in
          let name := if bool_decide (name = "") then "API key" else name in
          or_else (Create (a_ID (acct who)) (au_ID (user who)) name scopes) err_500 (fun '(key, _) =>
            audit_ who "apikey.created" "api_key" (uuid_String (k_ID key))
              [("name", AString name); ("scopes", AList (AString <$> k_Scopes key))];;
            ignore (List_ (a_ID (acct who)));;
            mret (Render StatusOK "APIKeysPage"))
      end
  end.

Definition apiKeyRevoke (idParam : string) : GO response :=
  parse_id idParam (HTTPError StatusBadRequest) (fun keyID =>
    or_else (Revoke (a_ID (acct who)) keyID) (not_found_or_500 ErrNotFound) (fun _ =>
      audit_ who "apikey.revoked" "api_key" (uuid_String keyID) [];;
      mret (Redirect "/account/api-keys"))).
End handlers.
