(* ===== verification/MobileAuth.v ===== *)
(** internal/mobileauth: the bearer tokens of the mobile app, bound to a user
    and an account, and the challenges between the password and the code. *)
From S2P Require Import Prelude Crypto Effects Schema Encoding Plans Http AuthStore.

Definition tokenPrefix : string := "so_m_".
Definition DefaultTTL : Z := 30 * 24 * 3600 * second.
Definition ChallengeTTL : Z := 10 * 60 * second.

Definition ErrNotFound : error := ErrNew "mobileauth: not found".
Definition ErrRevoked : error := ErrNew "mobileauth: revoked".
Definition ErrExpired : error := ErrNew "mobileauth: expired".

Definition hash (raw : string) : string := hex_EncodeToString (sha256 raw).
Definition displayPrefix (raw : string) : string :=
  if (String.length raw <? 13)%nat then raw else String.substring 0 13 raw.

Section store.
Context `{env : Env} `{rand : Rand}.

Definition generate : GO string := b ← rand_Read 30; mret (tokenPrefix +:+ RawURLEncoding_Encode b).

Definition insert_mobile_token (t : MobileToken) (h : string) : GO MobileToken :=
  exec (fun now id db =>
    match mobile_auth_tokens (key_db db) !! id, users (account_db db) !! mt_UserID t,
          accounts (account_db db) !! mt_AccountID t with
    | Some _, _, _ => inl ErrUnique
    | None, None, _ => inl (ErrConstraint "mobile_auth_tokens_user_id_fkey")
    | None, _, None => inl (ErrConstraint "mobile_auth_tokens_account_id_fkey")
    | None, Some _, Some _ =>
        if sql_exists (fun r => bool_decide (mtr_token_hash r = h)) (mobile_auth_tokens (key_db db)) then inl ErrUnique else
        let t := t{{ mt_ID := id; mt_CreatedAt := now }} in
        inr (db{{ key_db -> mobile_auth_tokens ::= <[ id := mkMobileTokenRow t h ]> }}, t)
    end).

Definition Create (userID accountID : uuid) (deviceName : string) (ttl : Z) : GO (MobileToken * string) :=
  raw ← generate;
  let ttl := if ttl <=? 0 then DefaultTTL else ttl in
  now ← time_Now;
  t ← insert_mobile_token
        (mkMobileToken uuid_Nil userID accountID (displayPrefix raw) deviceName 0 None (now + ttl) None) (hash raw);
  mret (t, raw).

Definition usable (h : string) (db : DB) (r : MobileTokenRow) : bool :=
  bool_decide (mtr_token_hash r = h) &&
  match accounts (account_db db) !! mt_AccountID (mtr_token r) with
  | Some a => bool_decide (acr_deleted_at a = None) | None => false end.

Definition Authenticate (raw : string) : GO MobileToken :=
  if negb (HasPrefix raw tokenPrefix) then fail ErrNotFound else
  t ← no_rows_as ErrNotFound (query_row (fun _ db =>
        mtr_token <$> head (sql_select (usable (hash raw) db) (mobile_auth_tokens (key_db db)))));
  match mt_RevokedAt t with
  | Some _ => fail ErrRevoked
  | None =>
      now ← time_Now;
      if mt_ExpiresAt t <? now then fail ErrExpired else
      ignore (update (fun now db => db{{ key_db -> mobile_auth_tokens ::=
        alter (fun r => r{{ mtr_token -> mt_LastUsedAt := Some now }}) (mt_ID t) }}));;
      mret t
  end.

Definition List_ (userID : uuid) : GO (list MobileToken) :=
  query (fun _ db => order_by (fun x y => mt_CreatedAt y <=? mt_CreatedAt x)
    (mtr_token <$> sql_select (fun r => bool_decide (mt_UserID (mtr_token r) = userID)) (mobile_auth_tokens (key_db db)))).

Definition Revoke (userID tokenID : uuid) : GO unit :=
  n ← update_n (fun now db =>
    let p r := bool_decide (mt_ID (mtr_token r) = tokenID) && bool_decide (mt_UserID (mtr_token r) = userID)
               && bool_decide (mt_RevokedAt (mtr_token r) = None) in
    (db{{ key_db -> mobile_auth_tokens ::= sql_update p (fun r => r{{ mtr_token -> mt_RevokedAt := Some now }}) }},
     sql_count p (mobile_auth_tokens (key_db db))));
  if (n =? 0)%nat then fail ErrNotFound else mret tt.

Definition CreateChallenge (userID accountID : uuid) (deviceName : string) : GO uuid :=
  now ← time_Now;
  exec (fun _ id db =>
    match mobile_mfa_challenges (key_db db) !! id, users (account_db db) !! userID,
          accounts (account_db db) !! accountID with
    | Some _, _, _ => inl ErrUnique
    | None, None, _ => inl (ErrConstraint "mobile_mfa_challenges_user_id_fkey")
    | None, _, None => inl (ErrConstraint "mobile_mfa_challenges_account_id_fkey")
    | None, Some _, Some _ =>
        inr (db{{ key_db -> mobile_mfa_challenges ::=
               <[ id := mkChallenge userID accountID deviceName (now + ChallengeTTL) ]> }}, id)
    end).

(** DELETE ... RETURNING: the row goes whether or not it is still good. *)
Definition ConsumeChallenge (id : uuid) : GO Challenge :=
  c ← no_rows_as ErrNotFound (exec (fun _ _ db =>
        match mobile_mfa_challenges (key_db db) !! id with
        | None => inl ErrNoRows
        | Some c => inr (db{{ key_db -> mobile_mfa_challenges ::= delete id }}, c)
        end));
  now ← time_Now;
  if ch_expires_at c <? now then fail ErrExpired else mret c.
End store.
