(* ===== verification/ShareLink.v ===== *)
(** internal/sharelink: tokenized read-only links to one drill. *)
From S2P Require Import Prelude Crypto Effects Schema Encoding AuthStore.

Definition tokenPrefix : string := "sh_".
Definition DefaultTTL : Z := 30 * 24 * 3600 * second.
Definition ErrNotFound : error := ErrNew "sharelink: link not found or no longer valid".

Definition Active (l : Link) (now : time) : bool :=
  match l_RevokedAt l with Some _ => false | None => now <? l_ExpiresAt l end.

Section store.
Context `{env : Env} `{rand : Rand}.

Definition newToken : GO string := b ← rand_Read 32; mret (tokenPrefix +:+ RawURLEncoding_Encode b).

Definition insert_link (l : Link) (h : string) : GO Link :=
  exec (fun now id db =>
    match drill_share_links (key_db db) !! id, drills (drill_db db) !! l_DrillID l,
          accounts (account_db db) !! l_AccountID l, users (account_db db) !! l_CreatedByID l with
    | Some _, _, _, _ => inl ErrUnique
    | None, None, _, _ => inl (ErrConstraint "drill_share_links_drill_id_fkey")
    | None, _, None, _ => inl (ErrConstraint "drill_share_links_account_id_fkey")
    | None, _, _, None => inl (ErrConstraint "drill_share_links_created_by_fkey")
    | None, Some _, Some _, Some _ =>
        if sql_exists (fun r => bool_decide (lr_token_hash r = h)) (drill_share_links (key_db db)) then inl ErrUnique else
        let l := l{{ l_ID := id; l_CreatedAt := now }} in
        inr (db{{ key_db -> drill_share_links ::= <[ id := mkLinkRow l h ]> }}, l)
    end).

Definition Create (drillID accountID createdBy : uuid) (label : string) (ttl : Z) : GO (Link * string) :=
  let ttl := if ttl <=? 0 then DefaultTTL else ttl in
  tok ← newToken;
  now ← time_Now;
  l ← insert_link (mkLink uuid_Nil drillID accountID createdBy (String.substring 0 (String.length tokenPrefix + 6) tok)
                     label (now + ttl) None None 0 0) (sha256 tok);
  mret (l, tok).

Definition Resolve (token : string) : GO Link :=
  if negb (HasPrefix token tokenPrefix) then fail ErrNotFound else
  l ← no_rows_as ErrNotFound (query_row (fun _ db =>
        lr_link <$> head (sql_select (fun r => bool_decide (lr_token_hash r = sha256 token))
                            (drill_share_links (key_db db)))));
  now ← time_Now;
  if negb (Active l now) then fail ErrNotFound else
  ignore (update (fun now db => db{{ key_db -> drill_share_links ::=
    alter (fun r => r{{ lr_link ::= fun l =>
      l{{ l_LastViewedAt := Some now; l_ViewCount ::= fun n => n + 1 }} }}) (l_ID l) }}));;
  mret l.

Definition ListForDrill (drillID : uuid) : GO (list Link) :=
  query (fun _ db => order_by (fun x y => l_CreatedAt y <=? l_CreatedAt x)
    (lr_link <$> sql_select (fun r => bool_decide (l_DrillID (lr_link r) = drillID)) (drill_share_links (key_db db)))).

(** By id alone. *)
Definition Revoke (id : uuid) : GO unit :=
  update (fun now db => db{{ key_db -> drill_share_links ::=
    sql_update (fun r => bool_decide (l_ID (lr_link r) = id) && bool_decide (l_RevokedAt (lr_link r) = None))
      (fun r => r{{ lr_link -> l_RevokedAt := Some now }}) }}).
End store.
