(* ===== verification/DrillStoreFacts.v ===== *)
(** What the drill store's statements guarantee: idempotent creation, the
    step state machine, evidence snippets, tenant and team visibility. *)
From S2P Require Import Prelude Crypto Effects Schema AuditLog DrillStore Assertions Runner Steps Demo.
From Stdlib Require Import Ascii.

Section creation.
Context `{env : Env} `{uuids : UuidLib}.
Context (acct by_ target : uuid) (key : string).

Definition idem_key : uuid * string * string := (acct, key, drill_create_scope).

(** The rows one creation writes. *)
Definition created (id : uuid) (now now' : time) (db : DB) : DB :=
  db{{ drill_db -> drills ::= <[ id := mkDrill id target acct by_ StatusPending
         None None None None None None now ]>;
       drill_db -> idempotency_keys ::= <[ idem_key := mkIdemRow by_ (uuid_String id) now' ]> }}.

(** Every way a call can end: nothing is written, and a nil error means the
    key was claimed already; or the drill and its claim are written together. *)
Lemma create_cases w o w' :
  CreateDrillIdempotent acct by_ target key w = (o, w') ->
  (w_db w' = w_db w /\
   forall id r, o = Ret (id, r) -> r = true /\ exists row,
     idempotency_keys (drill_db (w_db w)) !! idem_key = Some row /\
     uuid_Parse (ik_TargetID row) = inr id) \/
  (exists id now now', idempotency_keys (drill_db (w_db w)) !! idem_key = None /\
     drills (drill_db (w_db w)) !! id = None /\ w_db w' = created id now now' (w_db w) /\
     forall id' r, o = Ret (id', r) -> id' = id /\ r = false).
Proof.
  intros H. pose (Q := fun (o : outcome (uuid * bool)) w' =>
    (w_db w' = w_db w /\
     forall id r, o = Ret (id, r) -> r = true /\ exists row,
       idempotency_keys (drill_db (w_db w)) !! idem_key = Some row /\
       uuid_Parse (ik_TargetID row) = inr id) \/
    (exists id now now', idempotency_keys (drill_db (w_db w)) !! idem_key = None /\
       drills (drill_db (w_db w)) !! id = None /\ w_db w' = created id now now' (w_db w) /\
       forall id' r, o = Ret (id', r) -> id' = id /\ r = false)).
  assert (wp (CreateDrillIdempotent acct by_ target key) Q w) as HQ;
    [|unfold wp in HQ; by rewrite H in HQ].
  unfold CreateDrillIdempotent. case_bool_decide; [left; split; [done|by intros]|].
  apply wp_tx; [intros ?? Hdb Ho; left; split; [done|]; intros id r ->; by destruct (Ho (id, r))|].
  apply wp_bind, wp_try, wp_exec. intros o1 w1 (_ & _ & _ & Hr).
  destruct o1 as [existing|e|]; [| |done].
  - simpl in Hr. destruct (idempotency_keys _ !! _) as [row|] eqn:E; [|done].
    injection Hr as Hdb <-. apply wp_bind, wp_lift; [done|]. intros id Hid.
    apply wp_ret. intros w'' Hw''. left. split; [done|]. intros id' r [= <- <-].
    split; [done|]. exists row. by split.
  - destruct (errors_Is e ErrNoRows) eqn:He; [|by apply wp_fail].
    assert (w_db w1 = w_db w /\ idempotency_keys (drill_db (w_db w)) !! idem_key = None) as [Hdb Hnone].
    { simpl in Hr. destruct (idempotency_keys _ !! _) as [row|] eqn:E; [|naive_solver].
      destruct Hr as [[_ [->|Hr]]|[-> _]]; done. }
    apply wp_bind, wp_exec. intros o2 w2 (_ & _ & _ & Hr2).
    destruct o2 as [did|e2|]; [|done|done]. rewrite Hdb in Hr2.
    destruct (targets _ !! _) eqn:E1; [|done]. destruct (drills _ !! _) eqn:E2; [done|].
    injection Hr2 as Hdb2 <-.
    apply wp_bind, wp_exec. intros o3 w3 (_ & Htx3 & _ & Hr3). rewrite <- Hdb2 in Hr3.
    destruct o3 as [u|e3|]; [|done|done].
    destruct (w_db w) as [[ts tas ds ss ars iks js sq] adb l]; simpl in *. fold idem_key in Hr3.
    rewrite Hnone in Hr3. injection Hr3 as Hdb3.
    apply wp_ret. intros w'' Hw'' o' Ho'. right. eexists _, _, _.
    split; [exact Hnone|]. split; [exact E2|]. split; [by rewrite Hw'', <- Hdb3|].
    intros id' r ->. by destruct Ho' as [[= <- <-]|[|]].
Qed.

Definition creations (db : DB) : nat := size (drills (drill_db db)).

Lemma create_size w :
  (creations (w_db (CreateDrillIdempotent acct by_ target key w).2) <= creations (w_db w) + 1)%nat.
Proof.
  destruct (CreateDrillIdempotent acct by_ target key w) as [o w'] eqn:E. simpl.
  destruct (create_cases _ _ _ E) as [[-> _]|(id & n1 & n2 & _ & Hid & -> & _)]; [lia|].
  unfold creations, created. destruct (w_db w) as [[] ? ? ? ? ? ?]; simpl in *.
  rewrite map_size_insert_None by done. lia.
Qed.

(** C17: submitting the same (account, key) twice creates at most one drill,
    whatever fails in either submission; when the first submission
    succeeded, a second that succeeds reports the same drill as reused and
    leaves the database as it is. *)
Theorem create_drill_idempotent (Hu : UuidOk) w :
  let w1 := (CreateDrillIdempotent acct by_ target key w).2 in
  let w2 := (CreateDrillIdempotent acct by_ target key w1).2 in
  (creations (w_db w2) <= creations (w_db w) + 1)%nat /\
  forall id r, (CreateDrillIdempotent acct by_ target key w).1 = Ret (id, r) ->
    w_db w2 = w_db w1 /\
    forall id' r', (CreateDrillIdempotent acct by_ target key w1).1 = Ret (id', r') -> id' = id /\ r' = true.
Proof.
  cbv zeta. destruct (CreateDrillIdempotent acct by_ target key w) as [o1 v1] eqn:E1. simpl.
  destruct (CreateDrillIdempotent acct by_ target key v1) as [o2 v2] eqn:E2. simpl.
  pose proof (create_size v1) as Hsize. rewrite E2 in Hsize. simpl in Hsize.
  destruct (create_cases _ _ _ E1) as [[Hd1 Ho1]|(id1 & n1 & n1' & Hk1 & Hf1 & Hd1 & Ho1)].
  - rewrite <- Hd1. split; [done|]. intros id r ->. destruct (Ho1 id r eq_refl) as (_ & row & Hrow & Hp).
    rewrite <- Hd1 in Hrow.
    destruct (create_cases _ _ _ E2) as [[Hd2 Ho2]|(id2 & n2 & n2' & Hk2 & _)]; [|congruence].
    split; [done|]. intros id' r' ->. destruct (Ho2 id' r' eq_refl) as (-> & row' & Hrow' & Hp').
    rewrite Hrow in Hrow'. simplify_eq. by rewrite Hp in Hp'; simplify_eq.
  - assert (idempotency_keys (drill_db (w_db v1)) !! idem_key = Some (mkIdemRow by_ (uuid_String id1) n1')) as Hk.
    { rewrite Hd1. destruct (w_db w) as [[] ? ? ? ? ? ?]; simpl. by rewrite lookup_insert_eq. }
    destruct (create_cases _ _ _ E2) as [[Hd2 Ho2]|(id2 & n2 & n2' & Hk2 & _)]; [|congruence].
    split.
    + rewrite Hd2. pose proof (create_size w) as Hs. by rewrite E1 in Hs.
    + intros id r ->. destruct (Ho1 id r eq_refl) as [-> ->]. split; [done|].
      intros id' r' ->. destruct (Ho2 id' r' eq_refl) as (-> & row' & Hrow' & Hp').
      rewrite Hk in Hrow'. simplify_eq/=. rewrite uuid_Parse_String in Hp'. by simplify_eq.
Qed.
End creation.

Lemma create_drill_idempotent_witness :
  let create w := CreateDrillIdempotent (env:=demo_env) 1 2 10 "k" w in
  (create (create (world demo_db)).2).1 = Ret (1002%N, true).
Proof.
  cbv zeta.
  destruct (create_drill_idempotent (env:=demo_env) 1 2 10 "k" demo_uuid_ok (world demo_db)) as [_ H].
  destruct (H 1002%N false) as [_ H']; [vm_compute; reflexivity|].
  destruct ((CreateDrillIdempotent (env:=demo_env) 1 2 10 "k"
    (CreateDrillIdempotent (env:=demo_env) 1 2 10 "k" (world demo_db)).2).1) as [[id r]|e|] eqn:E;
    [|vm_compute in E; discriminate E..].
  destruct (H' id r eq_refl) as [-> ->]. reflexivity.
Defined.

(** ** Step output *)

Lemma prefix_substring n s : String.prefix (String.substring 0 n s) s = true.
Proof.
  revert n. induction s as [|c s IH]; intros [|n]; simpl; try done.
  destruct (ascii_dec c c); [apply IH|done].
Qed.
Lemma length_substring n s : (n <= String.length s)%nat -> String.length (String.substring 0 n s) = n.
Proof.
  revert n. induction s as [|c s IH]; intros [|n] Hn; simpl in *; try lia. rewrite IH; lia.
Qed.

Lemma prefix_refl s : String.prefix s s = true.
Proof. induction s as [|a s IH]; simpl; [done|]. by destruct (ascii_dec a a). Qed.

Opaque stepOutputCap.
Lemma output_snippet_spec output :
  String.prefix (output_snippet output).1 output = true /\
  (String.length (output_snippet output).1 <= stepOutputCap)%nat /\
  (output_snippet output).2 = bool_decide ((output_snippet output).1 <> output).
Proof.
  unfold output_snippet. destruct (stepOutputCap <? String.length output)%nat eqn:E.
  - apply Nat.ltb_lt in E. simpl fst; simpl snd. split; [apply prefix_substring|].
    assert (String.length (String.substring 0 stepOutputCap output) = stepOutputCap) as Hl
      by (apply length_substring; lia).
    split; [lia|]. symmetry. apply bool_decide_eq_true. intros Heq. rewrite Heq in Hl. lia.
  - apply Nat.ltb_ge in E. simpl fst; simpl snd. split; [apply prefix_refl|].
    split; [done|]. symmetry. apply bool_decide_eq_false_2. tauto.
Qed.

Section output.
Context `{env : Env}.

(** when SetStepOutput succeeds on non-empty output, the step row holds
    a prefix of it no longer than 16 KiB, the SHA-256 of all of it, and a
    truncation flag that is set exactly when the prefix is proper; no other
    step row changes. *)
Theorem SetStepOutput_snippet drillID name output w w' st :
  output <> "" -> drill_steps (drill_db (w_db w)) !! (drillID, name) = Some st ->
  SetStepOutput drillID name output w = (Ret tt, w') ->
  exists st' snippet, drill_steps (drill_db (w_db w')) !! (drillID, name) = Some st' /\
    s_OutputSnippet st' = Some snippet /\ String.prefix snippet output = true /\
    (String.length snippet <= stepOutputCap)%nat /\
    s_OutputSHA256 st' = Some (hex_EncodeToString (sha256 output)) /\
    s_OutputTruncated st' = Some (bool_decide (snippet <> output)) /\
    forall k, k <> (drillID, name) ->
      drill_steps (drill_db (w_db w')) !! k = drill_steps (drill_db (w_db w)) !! k.
Proof.
  intros Hne Hst H. unfold SetStepOutput in H.
  assert (output_snippet output = (fst (output_snippet output), snd (output_snippet output))) as Hp
    by apply surjective_pairing.
  destruct output as [|c out]; [done|]. rewrite Hp in H. apply update_ret in H.
  set (output := String c out) in *. exists (st{{ s_OutputSnippet := Some (output_snippet output).1;
    s_OutputSHA256 := Some (hex_EncodeToString (sha256 output));
    s_OutputTruncated := Some (output_snippet output).2 }}), (output_snippet output).1.
  rewrite H. destruct (w_db w) as [[ts tas ds ss ars iks js sq] adb l].
  cbn -[output_snippet sha256 hex_EncodeToString stepOutputCap] in *.
  rewrite lookup_alter_eq, Hst. split; [by destruct st|]. split; [by destruct st|].
  destruct (output_snippet_spec output) as (H1 & H2 & H3).
  rewrite <- H3. repeat split; try done; try (by destruct st).
  intros k Hk. by rewrite lookup_alter_ne.
Qed.
End output.

Lemma SetStepOutput_snippet_witness :
  let st := mkStep 1 7 StepRestore StatusRunning None None None "k" 2 None None None in
  let db := empty_db{{ drill_db -> drill_steps := {[ (7%N, StepRestore) := st ]} }} in
  exists st', drill_steps (drill_db (w_db (SetStepOutput (env:=demo_env) 7 StepRestore "ok" (world db)).2))
                !! (7%N, StepRestore) = Some st' /\ exists sn, s_OutputSnippet st' = Some sn /\ String.prefix sn "ok" = true.
Proof.
  cbv zeta.
  edestruct (SetStepOutput_snippet (env:=demo_env) 7 StepRestore "ok"
    (world (empty_db{{ drill_db -> drill_steps := {[ (7%N, StepRestore) :=
       mkStep 1 7 StepRestore StatusRunning None None None "k" 2 None None None ]} }})))
    as (st' & sn & H1 & H2 & H3 & _); [discriminate|reflexivity|vm_compute; reflexivity|].
  exists st'. split; [exact H1|]. exists sn. split; [exact H2|exact H3].
Defined.

(** ** Visibility *)

Section visibility.
Context `{env : Env}.

(** a successful listing returns exactly the account's live databases
    the scope admits: all of them for an unrestricted scope, otherwise the
    unassigned ones and those of the viewer's teams; nothing is written. *)
Theorem ListTargets_visible acct sc w l w' :
  ListTargets acct sc w = (Ret l, w') ->
  w_db w' = w_db w /\
  forall t, t ∈ l <-> exists k, targets (drill_db (w_db w)) !! k = Some (mkTargetRow t None) /\
    t_AccountID t = acct /\
    (All sc = true \/ t_TeamID t = None \/ exists tm, t_TeamID t = Some tm /\ tm ∈ TeamIDs sc).
Proof.
  intros [-> ->]%query_ret. split; [done|]. intros t.
  rewrite elem_of_order_by, list_elem_of_fmap. setoid_rewrite elem_of_sql_select.
  assert (forall x, in_scope sc x = true <-> (All sc = true \/ t_TeamID x = None \/
            exists tm, t_TeamID x = Some tm /\ tm ∈ TeamIDs sc)) as Hsc.
  { intros x. unfold in_scope. rewrite orb_true_iff.
    destruct (t_TeamID x) as [tm|]; [rewrite bool_decide_eq_true|]; naive_solver. }
  unfold live. split.
  - intros ([t' del] & -> & Hp & k & Hk). simpl in *.
    rewrite !andb_true_iff, !bool_decide_eq_true in Hp. destruct Hp as [[Ha ->] Hs].
    exists k. split; [done|]. split; [done|]. by apply Hsc.
  - intros (k & Hk & Ha & Hs). exists (mkTargetRow t None). split; [done|]. split; [|eauto].
    simpl. rewrite !andb_true_iff, !bool_decide_eq_true. split; [done|]. by apply Hsc.
Qed.

(** assigning a database to a team succeeds only for a live database of
    the caller's account and a live team of the same account; it then sets
    that one column. *)
Theorem SetTargetTeam_tenant acct target team w w' :
  SetTargetTeam acct target team w = (Ret tt, w') ->
  (exists k r, targets (drill_db (w_db w)) !! k = Some r /\ t_ID (tr_target r) = target /\
     t_AccountID (tr_target r) = acct /\ tr_deleted_at r = None) /\
  (forall tm, team = Some tm -> exists tr, teams (account_db (w_db w)) !! tm = Some tr /\
     tm_AccountID (tmr_team tr) = acct /\ tmr_deleted_at tr = None) /\
  (forall k r', targets (drill_db (w_db w')) !! k = Some r' ->
     t_AccountID (tr_target r') <> acct -> targets (drill_db (w_db w)) !! k = Some r').
Proof.
  intros (n & w1 & [Hex _]%exec_ret & Hb)%bind_ret. injection Hex as Hdb Hn.
  destruct n as [|n]; [done|]. injection Hb as <-.
  assert (sql_exists (fun r => bool_decide (t_ID (tr_target r) = target)
    && bool_decide (t_AccountID (tr_target r) = acct) && live r &&
    match team with None => true | Some tid => match teams (account_db (w_db w)) !! tid with
      | Some r => bool_decide (tm_AccountID (tmr_team r) = acct) && bool_decide (tmr_deleted_at r = None)
      | None => false end end) (targets (drill_db (w_db w))) = true) as Hx.
  { unfold sql_exists. rewrite Hn. by apply bool_decide_eq_true. }
  apply sql_exists_true in Hx as (k & r & Hk & Hp). unfold live in Hp.
  rewrite !andb_true_iff, !bool_decide_eq_true in Hp. destruct Hp as [[[Hid Ha] Hl] Ht].
  split; [by exists k, r|]. split.
  - intros tm ->. destruct (teams _ !! tm) as [tr|] eqn:E; [|done]. exists tr.
    by rewrite andb_true_iff, !bool_decide_eq_true in Ht.
  - intros k' r' Hk' Hne. rewrite <- Hdb in Hk'. destruct (w_db w) as [[] ? ? ? ? ? ?]; simpl in *.
    apply lookup_sql_update_Some in Hk' as (r0 & Hr0 & ->). rewrite Hr0.
    case_match eqn:E; [|done]. rewrite !andb_true_iff, !bool_decide_eq_true in E.
    destruct E as [[[_ E] _] _]. destruct r0 as [[] ?]; simpl in *. done.
Qed.
End visibility.

Definition team_db : DB := demo_db{{ account_db -> teams := {[ 5%N := mkTeamRow (mkTeam 5 1 "ops") None ]} }}.

Lemma ListTargets_visible_witness :
  demo_target ∈ [demo_target] /\ t_AccountID demo_target = 1%N.
Proof.
  assert (demo_target ∈ [demo_target]) as Ht by (left; reflexivity). split; [exact Ht|].
  destruct (ListTargets_visible (env:=demo_env) 1 (mkScope false [5%N]) (world team_db) [demo_target]
    (tick (world team_db)) eq_refl) as [_ H].
  apply H in Ht as (k & _ & Ha & _). exact Ha.
Defined.

Lemma SetTargetTeam_tenant_witness :
  exists tr, teams (account_db (w_db (world team_db))) !! 5%N = Some tr.
Proof.
  destruct (SetTargetTeam_tenant (env:=demo_env) 1 10 (Some 5%N) (world team_db)
    (SetTargetTeam (env:=demo_env) 1 10 (Some 5%N) (world team_db)).2) as (_ & H & _).
  { vm_compute. reflexivity. }
  destruct (H 5%N eq_refl) as (tr & Htr & _). exists tr. exact Htr.
Defined.
