(* ===== verification/Scheduler.v ===== *)
(** internal/drill/scheduler.go: the periodic worker that drills due targets. *)
From S2P Require Import Prelude Crypto Effects Schema AuditLog DrillStore Assertions Runner Steps Plans Demo DrillStoreFacts.
From stdpp Require pretty.

Definition CadenceInterval (cadence : string) : Z :=
  if bool_decide (cadence = "hourly") then hour
  else if bool_decide (cadence = "daily") then 24 * hour
  else if bool_decide (cadence = "weekly") then 7 * 24 * hour
  else if bool_decide (cadence = "monthly") then 30 * 24 * hour
  else 0.

Definition priorityForPlan (plan : Plan) : Z :=
  if bool_decide (plan = PlanScale) then 1
  else if bool_decide (plan = PlanPro) then 2
  else if bool_decide (plan = PlanStarter) then 3
  else if bool_decide (plan = PlanTrial) then 4
  else 3.

(** [for !next.After(now) { next = next.Add(interval) }], with fuel. *)
Fixpoint next_boundary (fuel : nat) (now next interval : Z) : option Z :=
  if now <? next then Some next
  else match fuel with
       | O => None
       | S f => next_boundary f now (next + interval) interval
       end.

(** Enough fuel: one turn per interval elapsed. *)
Definition boundary_fuel (now next interval : Z) : nat := S (Z.to_nat ((now - next) / interval)).

(** Unix seconds of a timestamp, rounded down. *)
Definition Unix (t : time) : Z := t / 1000000000.

(** A decimal [%d]. *)
Definition show_Z (z : Z) : string := pretty.pretty z.

Section scheduler.
Context `{env : Env} `{uuids : UuidLib}.

Definition logErr (msg : string) : GO unit := ext (ExtCall "log.error" [msg]) (fun _ => inr tt).

(** [if err := m; err != nil { w.logErr(msg, ...) }] *)
Definition or_log {A} (msg : string) (m : GO A) : GO (option A) :=
  r ← try m;
  match r with
  | inl _ => logErr ("drill scheduler: " +:+ msg);; mret None
  | inr a => mret (Some a)
  end.

Definition schedule_key (t : Target) (at_ : time) : string :=
  "schedule:" +:+ uuid_String (t_ID t) +:+ ":" +:+ show_Z (Unix at_).

(** The account's plan no longer allows the stored cadence. *)
Definition downshift (ds : DueSchedule) : GO unit :=
  let t := ds_Target ds in
  let fallback := TopCadence (ds_Plan ds) in
  let nextInterval := CadenceInterval fallback in
  if nextInterval =? 0 then
    _ ← or_log "downshift schedule off" (SetTargetSchedule (t_AccountID t) (t_ID t) "off" None); mret tt
  else
    now ← time_Now;
    _ ← or_log "downshift schedule"
          (SetTargetSchedule (t_AccountID t) (t_ID t) fallback (Some (now + nextInterval)));
    mret tt.

(** The drill of this slot, and the next slot. *)
Definition fire (ds : DueSchedule) (nextDrillAt interval : Z) : GO unit :=
  let t := ds_Target ds in
  r ← or_log "create scheduled drill"
        (CreateDrillIdempotent (t_AccountID t) (t_CreatedByUserID t) (t_ID t) (schedule_key t nextDrillAt));
  match r with
  | None => mret tt
  | Some (drillID, reused) =>
      ok ← (if (reused : bool) then mret true
            else let opts := if ds_Unlimited ds then 1 else priorityForPlan (ds_Plan ds) in
                 r ← or_log "enqueue scheduled drill" (EnqueueDrill drillID opts);
                 mret (match r with Some _ => true | None => false end));
      if negb (ok : bool) then mret tt else
      now ← time_Now;
      match next_boundary (boundary_fuel now (nextDrillAt + interval) interval) now (nextDrillAt + interval) interval with
      | None => mret tt
      | Some next => _ ← or_log "advance schedule" (AdvanceTargetSchedule (t_ID t) next); mret tt
      end
  end.

Definition schedule_one (ds : DueSchedule) : GO unit :=
  let t := ds_Target ds in
  let interval := CadenceInterval (t_DrillCadence t) in
  match t_NextDrillAt t with
  | None => mret tt
  | Some nextDrillAt =>
      if interval =? 0 then mret tt
      else if negb (ds_Unlimited ds) && negb (CadenceAllowed (ds_Plan ds) (t_DrillCadence t))
      then downshift ds
      else fire ds nextDrillAt interval
  end.

Definition SchedulerWork : GO unit :=
  due ← DueTargets;
  for_each due schedule_one.
End scheduler.

(** ** Theorems *)

(** C37: the loop that looks for the next slot terminates within the fuel the
    model gives it and finds the least boundary after now: strictly in the
    future, at most one interval ahead unless the first boundary already is,
    and a whole number of intervals after the slot that fired, so a late tick
    does not drift the schedule. *)
Theorem next_boundary_least now next interval :
  0 < interval ->
  exists n, next_boundary (boundary_fuel now next interval) now next interval = Some n /\
    now < n /\ (n - next) mod interval = 0 /\ next <= n /\ (next <= now -> n <= now + interval).
Proof.
  intros Hi.
  assert (forall fuel next, now - next < interval * Z.of_nat fuel ->
    exists n, next_boundary fuel now next interval = Some n /\
      now < n /\ (n - next) mod interval = 0 /\ next <= n /\ (n = next \/ n <= now + interval)) as H.
  { induction fuel as [|f IH]; intros nx Hf; simpl; destruct (Z.ltb_spec now nx); try lia.
    1,2: exists nx; rewrite Z.sub_diag, Z.mod_0_l by lia; split; [done|lia].
    destruct (IH (nx + interval)) as (n & -> & Hn & Hm & Hle & Hb); [lia|].
    exists n. split; [done|]. split; [done|].
    replace (n - nx) with (n - (nx + interval) + 1 * interval) by lia.
    rewrite Z.mod_add by lia. lia. }
  destruct (H (boundary_fuel now next interval) next) as (n & -> & Hn & Hm & Hle & Hb).
  { unfold boundary_fuel.
    pose proof (Z.mod_pos_bound (now - next) interval Hi). pose proof (Z.div_mod (now - next) interval).
    destruct (Z.le_gt_cases 0 ((now - next) / interval)); [nia|].
    rewrite Z2Nat.nonpos by lia. nia. }
  exists n. repeat split; try done. lia.
Qed.

Lemma next_boundary_least_witness :
  next_boundary (boundary_fuel (10 * hour + 7) hour hour) (10 * hour + 7) hour hour = Some (11 * hour).
Proof.
  destruct (next_boundary_least (10 * hour + 7) hour hour eq_refl) as (n & Heq & _).
  rewrite Heq. vm_compute in Heq. rewrite <- Heq. reflexivity.
Defined.

(** *** A slot is drilled once *)

Section slots.
Context `{env : Env} `{uuids : UuidLib}.

(** Neither drills nor claims change. *)
Definition Quiet (db db' : DB) : Prop :=
  drills (drill_db db') = drills (drill_db db) /\
  idempotency_keys (drill_db db') = idempotency_keys (drill_db db).
#[local] Instance Quiet_PreOrder : PreOrder Quiet.
Proof. split; [done|]. intros a b c [H1 H2] [H3 H4]. split; congruence. Qed.

Abbreviation quiet := (guards (fun _ => True) Quiet).

Lemma quiet_exec {A} (f : stmt DB A) :
  (forall t u db db' a, f t u db = inr (db', a) -> Quiet db db') -> quiet (exec f).
Proof. intros Hf. apply guards_exec; [typeclasses eauto|]. eauto. Qed.

Lemma quiet_EnqueueDrill id prio : quiet (EnqueueDrill id prio).
Proof.
  unfold EnqueueDrill, GetDrillByID. apply guards_bind; try typeclasses eauto.
  - generalize 0. induction AllSteps as [|n l IH]; intros i; simpl; guard_steps.
    apply quiet_exec. intros t u db db' x Heq.
    repeat case_match; simplify_eq; try done. injection Heq as <- _. by destruct db as [[] ? ? ? ? ? ?].
  - intros ?. guard_steps; apply quiet_exec; intros t u db db' x Heq; repeat case_match; try discriminate Heq;
      injection Heq as <- _; by destruct db as [[] ? ? ? ? ? ?].
Qed.

Lemma quiet_after ds at_ interval r :
  quiet (match r with
   | None => mret tt
   | Some (drillID, reused) =>
      ok ← (if (reused : bool) then mret true
            else let opts := if ds_Unlimited ds then 1 else priorityForPlan (ds_Plan ds) in
                 r ← or_log "enqueue scheduled drill" (EnqueueDrill drillID opts);
                 mret (match r with Some _ => true | None => false end));
      if negb (ok : bool) then mret tt else
      now ← time_Now;
      match next_boundary (boundary_fuel now (at_ + interval) interval) now (at_ + interval) interval with
      | None => mret tt
      | Some next => _ ← or_log "advance schedule" (AdvanceTargetSchedule (t_ID (ds_Target ds)) next); mret tt
      end
   end).
Proof.
  unfold or_log, logErr. guard_steps; first [apply quiet_EnqueueDrill | apply quiet_exec].
  intros t u db db' x [= <- _]. by destruct db as [[] ? ? ? ? ? ?].
Qed.

Lemma quiet_or_log_bind {A B} msg (m : GO A) (k : option A -> GO B) w :
  (forall r, quiet (k r)) -> Quiet (w_db (m w).2) (w_db ((or_log msg m ≫= k) w).2).
Proof.
  intros Hk. unfold or_log, try, mbind, M_bind. destruct (m w) as [[a|e|] w1]; simpl.
  - by apply Hk.
  - pose proof (guards_ext (fun _ => True) Quiet (ExtCall "log.error" ["drill scheduler: " +:+ msg])
      (fun _ => inr tt) w1 I) as He. unfold logErr.
    destruct (ext _ _ w1) as [[u|e'|] w2]; simpl in *; [|done|done].
    etransitivity; [exact He|]. by apply Hk.
  - reflexivity.
Qed.

(** What one firing does to drills and claims is what its creation does. *)
Lemma fire_creation ds at_ interval w :
  let t := ds_Target ds in
  Quiet (w_db (CreateDrillIdempotent (t_AccountID t) (t_CreatedByUserID t) (t_ID t) (schedule_key t at_) w).2)
        (w_db (fire ds at_ interval w).2).
Proof. apply quiet_or_log_bind. intros r. apply quiet_after. Qed.

(** firing the same slot twice, whatever fails either time, creates at
    most one drill. *)
Theorem fire_slot_once ds at_ interval w :
  let w1 := (fire ds at_ interval w).2 in
  let w2 := (fire ds at_ interval w1).2 in
  (size (drills (drill_db (w_db w2))) <= size (drills (drill_db (w_db w))) + 1)%nat.
Proof.
  cbv zeta. set (w1 := (fire ds at_ interval w).2).
  pose proof (fire_creation ds at_ interval w) as [D1 K1].
  pose proof (fire_creation ds at_ interval w1) as [D2 K2]. fold w1 in D1, K1. rewrite D2. clear D2 K2.
  set (t := ds_Target ds) in *.
  pose proof (create_size (t_AccountID t) (t_CreatedByUserID t) (t_ID t) (schedule_key t at_) w1) as Hsize.
  unfold creations in Hsize. rewrite D1 in Hsize.
  destruct (CreateDrillIdempotent _ _ _ _ w) as [o v] eqn:E. simpl in D1, K1, Hsize.
  destruct (create_cases _ _ _ _ _ _ _ E) as [[Hv _]|(id & n & n' & _ & Hid & Hv & _)].
  - by rewrite Hv in Hsize.
  - destruct (CreateDrillIdempotent _ _ _ _ w1) as [o1 v1] eqn:E1. simpl.
    destruct (create_cases _ _ _ _ _ _ _ E1) as [[Hv1 _]|(id1 & n1 & n1' & Hk & _)].
    + rewrite Hv1, D1, Hv. destruct (w_db w) as [[] ? ? ? ? ? ?]; simpl in *.
      rewrite map_size_insert_None by done. lia.
    + rewrite K1, Hv in Hk. destruct (w_db w) as [[] ? ? ? ? ? ?]; simpl in *. by rewrite lookup_insert_eq in Hk.
Qed.
End slots.
