(* ===== verification/Targets.v ===== *)
(** internal/web/handlers: the pages of databases, drills and the sample
    dataset (drills.go, onboarding.go), the drill quota and dump-size caps
    (drill_quota.go) and a member's database scope (teams.go). *)
From S2P Require Import Prelude Crypto Effects Schema Encoding Path AuditLog Plans Rbac AccountStore DrillStore Assertions Steps Http AuthStore Web.
From S2P Require Import Cipher Signer EvidenceStore Evidence ShareLink Scheduler.
From Stdlib Require Import Ascii.

(** ** The file system of the host (os, path/filepath) *)

Record FileInfo : Type := mkFileInfo { Size : Z; IsDir : bool }.
(** What the host answers at the n-th effect. *)
Class Host : Type := {
  host_Getwd   : nat -> error + string;
  host_Stat    : nat -> string -> error + FileInfo;
  host_ReadDir : nat -> string -> list (error + FileInfo);   (* each entry's Info() *)
  host_write   : nat -> list string -> error + string        (* a call that changes the disk *)
}.

Section host.
Context `{env : Env} `{host : Host}.
Definition Abs_ (path : string) : GO string := fun w => lift (Abs (host_Getwd (w_tick w)) path) (tick w).
Definition os_Stat (path : string) : GO FileInfo := fun w => lift (host_Stat (w_tick w) path) (tick w).
Definition os_ReadDir (path : string) : GO (list (error + FileInfo)) :=
  fun w => (Ret (host_ReadDir (w_tick w) path), tick w).
(** os.MkdirAll, os.CreateTemp, File.Write and File.Close, os.Rename, os.Remove. *)
Definition os_call (name : string) (args : list string) : GO string :=
  ext (ExtCall name args) (fun n => host_write n (name :: args)).
End host.

(** ** Plan gates *)

Section gates.
Context `{env : Env} `{host : Host}.

Definition canDrillReal (a : Account) : GO bool :=
  if a_Unlimited a then mret true else
  if IsPaid (a_Plan a) then mret true else
  now ← time_Now; mret (TrialActive now a).

Definition blockFreeRealWeb (a : Account) : GO (option response) :=
  ok ← canDrillReal a; mret (if ok : bool then None else Some (Render StatusPaymentRequired "PaidRequired")).

(** drillQuotaError; its Window is always 24 hours. *)
Record drillQuotaError : Type := mkDrillQuotaError { qe_Plan : string; qe_Limit : Z }.
Definition drillQuotaError_Error (e : drillQuotaError) : string :=
  "the " +:+ qe_Plan e +:+ " plan is limited to " +:+ show_Z (qe_Limit e) +:+ " drills per day".

(** [Some]: the typed error; a failing count is an error of its own. *)
Definition enforceDrillQuota (a : Account) : GO (option drillQuotaError) :=
  if a_Unlimited a then mret None else
  let limits := LimitsFor (a_Plan a) in
  if DrillsPerDay limits =? Unlimited then mret None else
  now ← time_Now;
  n ← CountDrillsSince (a_ID a) (now - 24 * hour);
  mret (if DrillsPerDay limits <=? n then Some (mkDrillQuotaError (a_Plan a) (DrillsPerDay limits)) else None).

Record dumpTooLargeError : Type := mkDumpTooLargeError { de_Plan : string; ActualBytes : Z; AllowedBytes : Z }.

(** The quotient rounded to nearest, ties to even; float64(n) of an int64. *)
Definition round_div (n d : Z) : Z :=
  let q := n / d in
  match 2 * (n mod d) ?= d with Lt => q | Gt => q + 1 | Eq => if Z.even q then q else q + 1 end.
Definition to_float64 (n : Z) : Z :=
  if n <? 2 ^ 53 then n else let e := Z.log2 n - 52 in round_div n (2 ^ e) * 2 ^ e.
(** fmt's %.1f of n/unit, [unit] a power of two. *)
Definition one_decimal (n unit_ : Z) : string :=
  let t := round_div (to_float64 n * 10) unit_ in show_Z (t / 10) +:+ "." +:+ show_Z (t mod 10).
Definition humanBytes (n : Z) : string :=
  if 2 ^ 40 <=? n then one_decimal n (2 ^ 40) +:+ " TB"
  else if 2 ^ 30 <=? n then one_decimal n (2 ^ 30) +:+ " GB"
  else if 2 ^ 20 <=? n then one_decimal n (2 ^ 20) +:+ " MB"
  else if 2 ^ 10 <=? n then one_decimal n (2 ^ 10) +:+ " KB"
  else show_Z n +:+ " B".
Definition dumpTooLargeError_Error (e : dumpTooLargeError) : string :=
  "that dump is " +:+ humanBytes (ActualBytes e) +:+ " — the " +:+ de_Plan e +:+ " plan accepts up to "
  +:+ humanBytes (AllowedBytes e) +:+ " per drill".

(** The int64 sum of the regular files of a directory archive. *)
Definition int64 (z : Z) : Z := (z + 2 ^ 63) mod 2 ^ 64 - 2 ^ 63.
Definition add_entry (total : Z) (e : error + FileInfo) : Z :=
  match e with inr fi => if IsDir fi then total else int64 (total + Size fi) | inl _ => total end.

Definition enforceDumpSize (sourceKind sourceURI : string) (a : Account) : GO (option dumpTooLargeError) :=
  if negb (bool_decide (sourceKind = "postgres_dump_local")) || bool_decide (sourceURI = "") then mret None else
  if a_Unlimited a then mret None else
  let limits := LimitsFor (a_Plan a) in
  if MaxDumpBytes limits <=? 0 then mret None else
  r ← try (os_Stat sourceURI);
  match r with
  | inl _ => mret None
  | inr fi =>
      total ← (if IsDir fi then es ← os_ReadDir sourceURI; mret (foldl add_entry 0 es) else mret (Size fi));
      mret (if MaxDumpBytes limits <? total
            then Some (mkDumpTooLargeError (a_Plan a) total (MaxDumpBytes limits)) else None)
  end.

Definition drillInsertOpts (a : Account) : Z :=
  if a_Unlimited a then 1
  else if bool_decide (a_Plan a = PlanScale) then 1
  else if bool_decide (a_Plan a = PlanPro) then 2
  else if bool_decide (a_Plan a = PlanStarter) then 3
  else if bool_decide (a_Plan a = PlanTrial) then 4
  else 3.

(** The caps every create path applies to a target; the first refusal wins.
    A check that cannot be made lets the drill pass. *)
Definition quota_gate {R} (a : Account) (refuse : drillQuotaError -> R) (k : GO R) : GO R :=
  r ← try (enforceDrillQuota a);
  match r with inr (Some qe) => mret (refuse qe) | _ => k end.
Definition size_gate {R} (t : Target) (a : Account) (refuse : dumpTooLargeError -> R) (k : GO R) : GO R :=
  if t_IsSample t then k else
  r ← try (enforceDumpSize (t_SourceKind t) (t_SourceURI t) a);
  match r with inr (Some de) => mret (refuse de) | _ => k end.
End gates.

Section targets.
Context `{env : Env} `{uuids : UuidLib} `{rand : Rand} `{json : JsonLib} `{host : Host}.
Context (sourceDir : string).

(** ** Source paths *)

Definition err_outside : error := ErrNew "source files must live inside the server's backups directory".

Definition resolveSourcePath (p : string) : GO string :=
  let p := TrimSpace p in
  if bool_decide (p = "") then fail (ErrNew "a source file path is required") else
  r ← try (Abs_ sourceDir);
  match r with
  | inl _ => fail (ErrNew "the server's backups directory is misconfigured")
  | inr root =>
      r ← try (Abs_ p);
      match r with
      | inl _ => fail (ErrNew "that source path is not valid")
      | inr abs =>
          let abs := Clean abs in
          match Rel root abs with
          | None => fail err_outside
          | Some rel =>
              if bool_decide (rel = "..") || HasPrefix rel "../" then fail err_outside else
              r ← try (os_Stat abs);
              match r with
              | inl _ => fail (ErrNew "no readable file was found at that path")
              | inr info =>
                  if IsDir info then
                    r ← try (os_Stat (Join [abs; "toc.dat"]));
                    match r with
                    | inl _ => fail (ErrNew "the source directory is not a pg_dump -Fd archive")
                    | inr _ => mret abs
                    end
                  else mret abs
              end
          end
      end
  end.

(** ** The sample dataset (onboarding.go) *)

Context (sampleDump : string).   (* the embedded file *)
Definition Slug : string := "dokaz".

Definition MaterializeSample : GO string :=
  dir ← Abs_ (Join [sourceDir; "_" +:+ Slug +:+ "_sample"]);
  os_call "os.MkdirAll" [dir];;
  let path := Join [dir; "sample.dump"] in
  r ← try (os_Stat path);
  if match r with inr fi => Size fi =? Z.of_nat (String.length sampleDump) | inl _ => false end then mret path else
  tmpName ← os_call "os.CreateTemp" [dir; "sample-*.dump.tmp"];
  r ← try (
    r ← try (os_call "File.Write" [tmpName; sampleDump]);
    match r with inl e => ignore (os_call "File.Close" [tmpName]);; fail e | inr _ => mret tt end;;
    os_call "File.Close" [tmpName];;
    os_call "os.Rename" [tmpName; path]);
  ignore (os_call "os.Remove" [tmpName]);;
  match r with inl e => fail e | inr _ => mret path end.

Definition ensureSampleTarget (accountID userID : uuid) : GO Target :=
  path ← MaterializeSample;
  r ← try (GetSampleTarget accountID);
  match r with
  | inr t => mret t
  | inl e =>
      if negb (errors_Is e DrillStore.ErrNotFound) then fail e else
      r ← try (CreateTarget (mkTarget uuid_Nil accountID userID "Sample dataset (demo)" "postgres_dump_local" path
                               None 0 "" None true));
      match r with
      | inl e =>
          r ← try (GetSampleTarget accountID);
          match r with inr t2 => mret t2 | inl _ => fail e end
      | inr t =>
          let cfg := match json_Marshal [("table", AString "events")] with inr c => c | inl _ => "" end in
          ignore (CreateAssertion (t_ID t) KindTableExists cfg);;
          mret t
      end
  end.

Context (who : Who).

Definition databaseScope : GO Scope :=
  match membership who with
  | None => mret (mkScope false [])
  | Some m =>
      if Allowed (m_Role m) ActionTeamWrite then mret ScopeAll else
      r ← try (TeamIDsForUser (a_ID (acct who)) (au_ID (user who)));
      mret (match r with inr ids => mkScope false ids | inl _ => mkScope false [] end)
  end.

(** [h.drills.GetTarget(..., h.databaseScope(...))] *)
Definition scoped_target {R} (id : uuid) (bad : error -> R) (k : Target -> GO R) : GO R :=
  scope ← databaseScope; or_else (GetTarget (a_ID (acct who)) id scope) bad k.
Definition scoped_drill {R} (id : uuid) (bad : error -> R) (k : Drill -> GO R) : GO R :=
  scope ← databaseScope; or_else (GetDrill (a_ID (acct who)) id scope) bad k.

Definition too_many (e : drillQuotaError) : response := HTTPError StatusTooManyRequests.
Definition too_large (e : dumpTooLargeError) : response := HTTPError StatusRequestEntityTooLarge.

(** CreateDrillIdempotent, then EnqueueDrill unless the key was seen before. *)
Definition create_and_enqueue (targetID : uuid) (idem : string) (k : uuid -> GO response) : GO response :=
  or_else (CreateDrillIdempotent (a_ID (acct who)) (au_ID (user who)) targetID idem) err_500 (fun '(drillID, reused) =>
    if reused : bool then k drillID
    else or_else (EnqueueDrill drillID (drillInsertOpts (acct who))) err_500 (fun _ => k drillID)).

Definition runSampleDrill : GO response :=
  quota_gate (acct who) too_many (
    or_else (ensureSampleTarget (a_ID (acct who)) (au_ID (user who))) err_500 (fun t =>
      u ← uuid_New;
      create_and_enqueue (t_ID t) (uuid_String u) (fun drillID =>
        audit_ who "drill.sample_run" "drill" (uuid_String drillID) [];;
        mret (Redirect ("/drills/" +:+ uuid_String drillID))))).

(** ** Databases (drills.go) *)

Definition targetCreate (form : option (string * string)) : GO response :=
  blocked ← blockFreeRealWeb (acct who);
  match blocked with
  | Some r => mret r
  | None =>
  existing ← try (ListTargets (a_ID (acct who)) ScopeAll);
  let real := match existing with inr l => filter (fun t => t_IsSample t = false) l | inl _ => [] end in
  match enforceLimit (Z.of_nat (length real)) (Databases (EffectiveLimits (acct who))) with
  | Some r => mret r
  | None =>
  match form with
  | None => mret (HTTPError StatusBadRequest)
  | Some (name, uri) =>
      let name := TrimSpace name in let uri := TrimSpace uri in
      if bool_decide (name = "") || bool_decide (uri = "") then mret (Render StatusBadRequest "TargetNewForm") else
      or_else (resolveSourcePath uri) (fun _ => Render StatusBadRequest "TargetNewForm") (fun cleanPath =>
      or_else (CreateTarget (mkTarget uuid_Nil (a_ID (acct who)) (au_ID (user who)) name "postgres_dump_local" cleanPath
                               None 0 "" None false)) err_500 (fun t =>
        audit_ who "target.created" "database_target" (uuid_String (t_ID t)) [];;
        mret (Redirect ("/databases/" +:+ uuid_String (t_ID t)))))
  end end end.

Definition targetDetail (idParam : string) : GO response :=
  parse_id idParam (HTTPError StatusNotFound) (fun id =>
    scoped_target id err_404 (fun t =>
      ignore (ListTargetAssertions (t_ID t));; mret (Render StatusOK "TargetDetail"))).

Definition targetScheduleUpdate (idParam : string) (form : option string) : GO response :=
  parse_id idParam (HTTPError StatusNotFound) (fun id =>
    scoped_target id err_404 (fun t =>
      match form with
      | None => mret (HTTPError StatusBadRequest)
      | Some cadence =>
          let cadence := TrimSpace cadence in
          if negb (CadenceAllowedForAccount (acct who) cadence) then
            ignore (ListTargetAssertions (t_ID t));; mret (Render StatusForbidden "TargetDetail")
          else
            nextAt ← (if bool_decide (cadence = "off") then mret None
                      else n ← time_Now; mret (Some (n + CadenceInterval cadence)));
            or_else (SetTargetSchedule (a_ID (acct who)) id cadence nextAt) err_500 (fun _ =>
              ignore (Record_ (mkEvent (Some (a_ID (acct who))) (Some (au_ID (user who))) "target.schedule_updated"
                                 "database_target" (uuid_String id) [("cadence", AString cadence)]));;
              mret (Redirect ("/databases/" +:+ uuid_String id)))
      end)).

(** The config of an assertion, or the message on the form. *)
Definition buildAssertionConfig (kind table column minRowsInput : string) : string + list (string * any) :=
  if negb (ValidKind kind) then inl "Pick an assertion kind." else
  let table := ("table", AString table) in
  let extra :=
    if bool_decide (kind = KindRowCount) then
      if bool_decide (minRowsInput = "") then inr [("min_rows", AInt 1)]
      else match atoiInRange minRowsInput 0 1000000000 with
           | None => inl "Minimum rows must be a non-negative integer."
           | Some n => inr [("min_rows", AInt n)]
           end
    else if bool_decide (kind = KindColumnExists) || bool_decide (kind = KindNoNulls) then inr [("column", AString column)]
    else inr [] in
  match extra with
  | inl msg => inl msg
  | inr extra =>
      let cfg := table :: extra in
      match ValidateConfig kind (list_to_map cfg) with
      | Some _ => inl "Table and column must be valid SQL identifiers."
      | None => inr cfg
      end
  end.

(** The posted kind, table, column and minimum. *)
Record AssertionForm : Type := mkAssertionForm { af_kind : string; af_table : string; af_column : string; af_min_rows : string }.

Definition assertionCreate (idParam : string) (form : option AssertionForm) : GO response :=
  parse_id idParam (HTTPError StatusNotFound) (fun id =>
    scoped_target id err_404 (fun t =>
      match form with
      | None => mret (HTTPError StatusBadRequest)
      | Some f =>
          let kind := TrimSpace (af_kind f) in
          match buildAssertionConfig kind (TrimSpace (af_table f)) (TrimSpace (af_column f)) (TrimSpace (af_min_rows f)) with
          | inl _ => ignore (ListTargetAssertions (t_ID t));; mret (Render StatusBadRequest "TargetDetail")
          | inr cfg =>
              match json_Marshal cfg with
              | inl _ => mret (HTTPError StatusInternalServerError)
              | inr raw =>
                  or_else (CreateAssertion (t_ID t) kind raw) err_500 (fun _ =>
                    audit_ who "assertion.created" "database_target" (uuid_String (t_ID t)) [];;
                    mret (Redirect ("/databases/" +:+ uuid_String (t_ID t))))
              end
          end
      end)).

(** The target is looked up only when its id parses. *)
Definition assertionDelete (targetID assertionParam : string) : GO response :=
  parse_id assertionParam (HTTPError StatusNotFound) (fun assertionID =>
    let go :=
      r ← try (DeleteAssertion (a_ID (acct who)) assertionID);
      if match r with inl e => negb (errors_Is e DrillStore.ErrNotFound) | inr _ => false end
      then mret (HTTPError StatusInternalServerError)
      else audit_ who "assertion.deleted" "database_target" targetID [];;
           mret (Redirect ("/databases/" +:+ targetID)) in
    match uuid_Parse targetID with
    | inr tid => scoped_target tid err_404 (fun _ => go)
    | inl _ => go
    end).

(** ** Drills (drills.go) *)

Definition drillsList : GO response :=
  scope ← databaseScope;
  or_else (ListDrills (a_ID (acct who)) scope 100) (fun _ => Render StatusOK "DrillsErrorPage") (fun _ =>
    ignore (ListTargets (a_ID (acct who)) scope);;
    _ ← uuid_New;
    mret (Render StatusOK "DrillsPage")).

(** [form]: the idempotency key and the target id. *)
Definition drillCreate (form : option (string * string)) : GO response :=
  match form with
  | None => mret (HTTPError StatusBadRequest)
  | Some (idem, targetIDStr) =>
      let idem := TrimSpace idem in
      if bool_decide (idem = "") then mret (HTTPError StatusBadRequest) else
      parse_id (TrimSpace targetIDStr) (HTTPError StatusBadRequest) (fun targetID =>
        scoped_target targetID err_404 (fun target =>
          blocked ← (if t_IsSample target then mret None else blockFreeRealWeb (acct who));
          match blocked with
          | Some r => mret r
          | None =>
              quota_gate (acct who) too_many (size_gate target (acct who) too_large (
                create_and_enqueue (t_ID target) idem (fun drillID =>
                  mret (Redirect ("/drills/" +:+ uuid_String drillID)))))
          end))
  end.

Context `{ed : Ed25519} `{store : EvidenceStore} (signer : Signer) (cipher : Cipher).

(** What the detail page shows beside the drill: the live tamper check. *)
Definition has_evidence (d : Drill) : option string :=
  match d_EvidencePath d with Some p => if bool_decide (p = "") then None else Some p | None => None end.
Definition drillDetail (idParam : string) : GO response :=
  parse_id idParam (HTTPError StatusNotFound) (fun drillID =>
    scoped_drill drillID (not_found_or_500 DrillStore.ErrNotFound) (fun dr =>
      ignore (GetTargetByID (d_TargetID dr));;
      ignore (ListSteps (d_ID dr));;
      ignore (ListAssertions (d_ID dr));;
      match has_evidence dr with
      | Some path => ignore (ServiceVerify signer cipher (d_ID dr) (d_AccountID dr) path)
      | None => mret tt
      end;;
      ignore (ListForDrill (d_ID dr));;
      mret (Render StatusOK "DrillDetail"))).

Definition drillStepsPartial (idParam : string) : GO response :=
  parse_id idParam (HTTPError StatusNotFound) (fun drillID =>
    scoped_drill drillID err_404 (fun dr =>
      ignore (ListSteps (d_ID dr));;
      ignore (ListAssertions (d_ID dr));;
      mret (Render StatusOK "DrillStepsPartial"))).

Definition read_evidence (path : string) (k : string -> GO response) : GO response :=
  r ← try (Read cipher (a_ID (acct who)) path);
  match r with
  | inl e => mret (HTTPError (if errors_Is e ErrShredded then StatusGone else StatusInternalServerError))
  | inr body => k body
  end.

Definition drillEvidence (idParam : string) : GO response :=
  parse_id idParam (HTTPError StatusNotFound) (fun drillID =>
    scoped_drill drillID err_404 (fun dr =>
      match has_evidence dr with
      | None => mret (HTTPError StatusNotFound)
      | Some path =>
          read_evidence path (fun body =>
            audit_ who "evidence.downloaded" "drill" (uuid_String (d_ID dr)) [];;
            mret (Text StatusOK body))
      end)).
End targets.
