(* ===== verification/TargetFacts.v ===== *)
(** What the database and drill pages guarantee: a source path stays inside
    the backups directory, a member's writes stay inside the team scope (and
    the one page where they do not), the daily drill quota. *)
From S2P Require Import Prelude Crypto Effects Schema Encoding Path AuditLog Plans Rbac AccountStore DrillStore Assertions Steps Http AuthStore Web.
From S2P Require Import Scheduler Targets Demo DrillStoreFacts.
From Stdlib Require Import Ascii.

(** ** Source paths *)

Lemma rooted_Clean p : rooted (chars p) = true -> rooted (chars (Clean p)) = true.
Proof. unfold Clean. intros H. rewrite chars_unchars. unfold clean. by rewrite H. Qed.

Lemma split_cons_slash l : split (slash :: l) = [] :: split l.
Proof. done. Qed.
Lemma elements_cons_slash l : elements true (slash :: l) = elements true l.
Proof. unfold elements. by rewrite split_cons_slash. Qed.

Lemma foldl_clean_plain r st es :
  Forall plain es -> Forall (fun e => e <> dotdot) es -> foldl (clean_step r) st es = rev es ++ st.
Proof.
  revert st. induction es as [|e es IH]; intros st Hp Hd; [done|].
  apply Forall_cons in Hp as [(H1 & H2 & H3) Hp]. apply Forall_cons in Hd as [Hdd Hd]. simpl.
  unfold clean_step at 2. rewrite !bool_decide_eq_false_2 by done. simpl. rewrite IH by done. by rewrite <- app_assoc.
Qed.

Lemma elements_of_clean l : rooted l = true -> elements true (clean l) = elements true l.
Proof.
  intros Hr. unfold clean. rewrite Hr, elements_cons_slash.
  pose proof (elements_plain true l) as Hp. pose proof (elements_rooted l) as Hd.
  destruct (decide (elements true l = [])) as [->|Hne]; [done|].
  unfold elements at 1. rewrite split_join; [|done|eapply Forall_impl; [exact Hp|by intros ? (_ & _ & ?)]].
  rewrite foldl_clean_plain by done. rewrite app_nil_r. apply rev_involutive.
Qed.
Lemma elements_Clean p : rooted (chars p) = true -> elements true (chars (Clean p)) = elements true (chars p).
Proof. intros H. unfold Clean. rewrite chars_unchars. by apply elements_of_clean. Qed.

Lemma Clean_idem p : rooted (chars p) = true -> Clean (Clean p) = Clean p.
Proof.
  intros H. pose proof (rooted_Clean p H) as H'. unfold Clean at 1. apply chars_inj. rewrite chars_unchars.
  unfold clean. rewrite H', elements_Clean by done. unfold Clean. rewrite chars_unchars. unfold clean. by rewrite H.
Qed.

(** os.Getwd returns an absolute path. *)
Class HostOk `{Host} : Prop := { Getwd_abs : forall n d, host_Getwd n = inr d -> IsAbs d = true }.

Lemma Abs_rooted wd p a : (forall d, wd = inr d -> IsAbs d = true) -> Abs wd p = inr a -> rooted (chars a) = true.
Proof.
  intros Hwd. unfold Abs, IsAbs. destruct (rooted (chars p)) eqn:Hp; [intros [= <-]; by apply rooted_Clean|].
  destruct wd as [e|d]; [done|]. intros [= <-]. specialize (Hwd d eq_refl). unfold IsAbs in Hwd.
  unfold Join. rewrite filter_cons_True by (by intros ->).
  destruct (filter _ [p]) as [|x l]; simpl; [by apply rooted_Clean; rewrite chars_unchars|].
  apply rooted_Clean. rewrite chars_unchars. by destruct (chars d).
Qed.

Section paths.
Context `{env : Env} `{host : Host} `{!HostOk} (sourceDir : string).

(** C22: a source path that resolveSourcePath accepts is absolute and clean,
    and its elements extend those of the backups directory; with the path it
    returns the runner cannot leave that directory.  Nothing is written. *)
Theorem source_path_confined p w abs w' :
  resolveSourcePath sourceDir p w = (Ret abs, w') ->
  w_db w' = w_db w /\ IsAbs abs = true /\ Clean abs = abs /\
  exists root below, Abs (host_Getwd (w_tick w)) sourceDir = inr root /\
    elements true (chars abs) = elements true (chars root) ++ below /\
    exists info, host_Stat (S (S (w_tick w))) abs = inr info.
Proof.
  unfold resolveSourcePath. case_bool_decide; [done|].
  intros (r & w1 & Hr & H1)%bind_ret. destruct r as [e|root]; [done|]. apply try_ret in Hr.
  unfold Abs_ in Hr. destruct (Abs _ sourceDir) as [e|root'] eqn:Eroot; [done|]. injection Hr as <- <-.
  apply bind_ret in H1 as (r & w2 & Hr & H1). destruct r as [e|a]; [done|]. apply try_ret in Hr.
  unfold Abs_ in Hr. destruct (Abs _ (TrimSpace p)) as [e|a'] eqn:Ea; [done|]. injection Hr as <- <-.
  pose proof (Abs_rooted _ _ _ (Getwd_abs _) Eroot) as Hroot. pose proof (Abs_rooted _ _ _ (Getwd_abs _) Ea) as Ha.
  cbv zeta in H1. destruct (Rel root' (Clean a')) as [rel|] eqn:Erel; [|done].
  destruct (bool_decide (rel = "..") || HasPrefix rel "../") eqn:Eout; [done|].
  apply orb_false_iff in Eout as [Hdd Hpre]. apply bool_decide_eq_false in Hdd.
  apply bind_ret in H1 as (r & w3 & Hr & H1). destruct r as [e|info]; [done|]. apply try_ret in Hr.
  unfold os_Stat in Hr. destruct (host_Stat _ _) as [e|info'] eqn:Estat; [done|]. injection Hr as <- <-.
  assert (abs = Clean a' /\ w_db w' = w_db w) as [-> Hdb].
  { destruct (IsDir info'); [|by injection H1 as <- <-].
    apply bind_ret in H1 as (r & w4 & Hr & H1). destruct r as [e|i2]; [done|]. apply try_ret in Hr.
    unfold os_Stat in Hr. destruct (host_Stat _ (Join _)); [done|]. injection Hr as <- <-. by injection H1 as <- <-. }
  split; [done|]. split; [by apply rooted_Clean|]. split; [by apply Clean_idem|].
  pose proof (Rel_inside _ _ _ Hroot (rooted_Clean _ Ha) Erel Hdd Hpre) as (below & Hb).
  exists root', below. split; [done|]. split; [done|]. by exists info'.
Qed.
End paths.

(** A host with one dump. *)
Definition demo_host : Host := {|
  host_Getwd _ := inr "/srv";
  host_Stat _ p := if bool_decide (p = "/srv/backups/a.dump") then inr (mkFileInfo 7 false) else inl (ErrNew "ENOENT");
  host_ReadDir _ _ := [];
  host_write _ _ := inr ""
|}.
#[global] Instance demo_host_ok : HostOk (H := demo_host).
Proof. constructor. by intros n d [= <-]. Qed.

Lemma source_path_confined_witness :
  exists root below, Abs (host_Getwd (Host := demo_host) 0) "backups" = inr root /\
    elements true (chars "/srv/backups/a.dump") = elements true (chars root) ++ below.
Proof.
  destruct (source_path_confined (host := demo_host) "backups" " backups/x/../a.dump " (world demo_db)
    "/srv/backups/a.dump" (mkWorld demo_db 3 None [])) as (_ & _ & _ & root & below & H1 & H2 & _).
  { vm_compute. reflexivity. }
  exists root, below. split; [exact H1|exact H2].
Defined.

(** ** Team scope *)

Section scope.
Context `{env : Env} `{uuids : UuidLib} `{json : JsonLib} `{host : Host} (who : Who) (tid : uuid).

(** The target [tid] is not one the caller may see: not a live database of
    the account, or of a team the caller is not on. *)
Definition hidden (r : option TargetRow) (db : AccountDB) : Prop :=
  match r with
  | None => True
  | Some r =>
      t_AccountID (tr_target r) <> a_ID (acct who) \/ tr_deleted_at r <> None \/
      exists tm, t_TeamID (tr_target r) = Some tm /\
        match membership who with Some m => Allowed (m_Role m) ActionTeamWrite = false | None => True end /\
        ~ ((tm, au_ID (user who)) ∈ team_memberships db /\
           exists r, teams db !! tm = Some r /\ tm_AccountID (tmr_team r) = a_ID (acct who) /\ tmr_deleted_at r = None)
  end.

(** Everything the drill tables say about [tid]. *)
Definition about (s : DrillDB) : option TargetRow * gmap uuid Assertion * gmap uuid Drill :=
  (targets s !! tid, filter (fun kv => as_TargetID kv.2 = tid) (target_assertions s),
   filter (fun kv => d_TargetID kv.2 = tid) (drills s)).

Definition keyed (s : DrillDB) : Prop := forall k r, targets s !! k = Some r -> t_ID (tr_target r) = k.

Context (x : option TargetRow * gmap uuid Assertion * gmap uuid Drill) (adb : AccountDB).
Definition Aside (db : DB) : Prop := keyed (drill_db db) /\ about (drill_db db) = x /\ account_db db = adb.

Lemma Aside_frame {A} (m : GO A) :
  frame (fun db => (targets (drill_db db), target_assertions (drill_db db), drills (drill_db db), account_db db)) m ->
  preserves Aside m.
Proof.
  intros Hf w (H1 & H2 & H3). specialize (Hf w). injection Hf as E1 E2 E3 E4.
  unfold Aside, keyed, about in *. by rewrite E1, E2, E3, E4.
Qed.

Lemma Aside_Record e : preserves Aside (Record_ e).
Proof. apply Aside_frame, frame_Record. by intros f []. Qed.

Lemma Aside_EnqueueDrill id prio : preserves Aside (EnqueueDrill id prio).
Proof.
  apply Aside_frame. unfold EnqueueDrill, GetDrillByID, Insert. apply frame_bind.
  - generalize 0. induction AllSteps as [|n l IH]; intros i; simpl; [apply frame_ret|].
    apply frame_bind; [|intros []; [apply frame_fail|apply IH]]. apply frame_try, frame_exec.
    intros t u db db' a Heq. repeat case_match; try discriminate Heq; injection Heq as <- _; try done.
  - intros _. frame_steps.
    + apply frame_Record. by intros f [].
    + apply frame_exec. intros t u db db' b [= <- _]. by destruct db as [[] ? ? ? ? ? ? ?].
Qed.

Lemma Aside_create key target : target <> tid ->
  preserves Aside (CreateDrillIdempotent (a_ID (acct who)) (au_ID (user who)) target key).
Proof.
  intros Hne w HA. destruct (CreateDrillIdempotent _ _ _ _ w) as [o w'] eqn:E. simpl.
  destruct (create_cases _ _ _ _ _ _ _ E) as [[-> _]|(id & n & n' & _ & Hid & -> & _)]; [done|].
  destruct HA as (H1 & H2 & H3). destruct (w_db w) as [[] ? ? ? ? ? ? ?]. unfold Aside, created, about, keyed in *. simpl in *.
  split; [done|]. split; [|done]. rewrite <- H2. f_equal.
  rewrite map_filter_insert_False by done. by rewrite delete_id.
Qed.

Lemma Aside_CreateAssertion target kind cfg : target <> tid -> preserves Aside (CreateAssertion target kind cfg).
Proof.
  intros Hne. apply preserves_exec. intros t u db db' a HA Heq. repeat case_match; try discriminate Heq. injection Heq as <- _.
  destruct HA as (K1 & K2 & K3). destruct db as [[] ? ? ? ? ? ? ?]. unfold Aside, about, keyed in *. simpl in *.
  split; [done|]. split; [|done]. rewrite <- K2. do 2 f_equal.
  rewrite map_filter_insert_False by done. by rewrite delete_id.
Qed.

Lemma Aside_SetTargetSchedule target cadence at_ : target <> tid ->
  preserves Aside (SetTargetSchedule (a_ID (acct who)) target cadence at_).
Proof.
  intros Hne. unfold SetTargetSchedule. apply preserves_bind; [|intros []; preserve].
  apply preserves_exec. intros t u db db' a HA Heq. case_match; [done|]. injection Heq as <- _.
  destruct HA as (K1 & K2 & K3). destruct db as [[] ? ? ? ? ? ? ?]. unfold Aside, about, keyed in *. simpl in *.
  split; [|split; [|done]].
  - intros k r (r0 & Hr0 & ->)%lookup_sql_update_Some. case_match; [|by apply K1]. specialize (K1 k r0 Hr0). by destruct r0 as [[] ?].
  - rewrite <- K2. do 2 f_equal. rewrite lookup_sql_update. destruct (targets !! tid) as [r|] eqn:E; simpl; [|done].
    by rewrite (K1 tid r E), bool_decide_eq_false_2.
Qed.

(** What the caller may see never includes the hidden target. *)
Definition blind (sc : Scope) : Prop :=
  forall r, x.1.1 = Some r -> t_AccountID (tr_target r) = a_ID (acct who) -> live r = true -> in_scope sc (tr_target r) = false.

Lemma blind_empty : hidden x.1.1 adb -> blind (mkScope false []).
Proof.
  intros Hh r Hr Ha Hl. rewrite Hr in Hh. unfold live in Hl. apply bool_decide_eq_true in Hl. unfold in_scope.
  destruct Hh as [|[|(tm & -> & _)]]; [done..|]. by apply bool_decide_eq_false_2, not_elem_of_nil.
Qed.

Lemma databaseScope_blind w : hidden x.1.1 adb -> Aside (w_db w) ->
  wp (databaseScope who) (fun o w' => Aside (w_db w') /\ forall sc, o = Ret sc -> blind sc) w.
Proof.
  intros Hh HA. unfold databaseScope. destruct (membership who) as [m|] eqn:Em.
  2: { apply wp_ret. split; [done|]. intros sc [= <-]. by apply blind_empty. }
  destruct (Allowed (m_Role m) ActionTeamWrite) eqn:Er.
  { apply wp_ret. split; [done|]. intros sc [= <-] r Hr Ha Hl. rewrite Hr in Hh. unfold live in Hl. apply bool_decide_eq_true in Hl.
    destruct Hh as [|[|(tm & _ & Hrole & _)]]; [done..|]. rewrite Em in Hrole. congruence. }
  apply wp_bind, wp_try, wp_exec. intros o w' (_ & _ & _ & Hr). destruct o as [ids|e|]; cbv beta iota in Hr.
  - injection Hr as Hdb Hids. apply wp_ret. rewrite <- Hdb. split; [done|]. intros sc [= <-] r Hrow Ha Hl.
    rewrite Hrow in Hh. unfold live in Hl. apply bool_decide_eq_true in Hl.
    destruct Hh as [|[|(tm & Ht & _ & Hno)]]; [done..|]. unfold in_scope. rewrite Ht. simpl.
    apply bool_decide_eq_false_2. intros Hin. apply Hno. subst ids.
    apply list_elem_of_fmap in Hin as ([tm' u'] & -> & Hin). apply list_elem_of_filter in Hin as [Hp Hin].
    apply andb_true_iff in Hp as [Hteam Hu]. apply bool_decide_eq_true in Hu. simpl in *. subst u'.
    destruct HA as (_ & _ & Hadb). rewrite Hadb in Hin. split; [by apply elem_of_elements|].
    unfold team_in in Hteam. rewrite Hadb in Hteam. destruct (teams adb !! tm') as [tr|]; [|done]. exists tr. split; [done|].
    unfold live_team in Hteam. rewrite andb_true_iff in Hteam. simpl in Hteam. rewrite !bool_decide_eq_true in Hteam. done.
  - assert (w_db w' = w_db w) as Hdb by (destruct Hr as [[? _]|[_ [a [= ? _]]]]; done).
    apply wp_ret. rewrite Hdb. split; [done|]. intros sc [= <-]. by apply blind_empty.
  - split; [|done]. by destruct Hr as [->|[a [= <- _]]].
Qed.

(** A scoped lookup never returns it. *)
Lemma scoped_target_other {R} id bad (k : Target -> GO R) :
  hidden x.1.1 adb -> (forall t, t_ID t <> tid -> t_ID t = id -> preserves Aside (k t)) -> preserves Aside (scoped_target who id bad k).
Proof.
  intros Hh Hk. apply preserves_wp. intros w HA. unfold scoped_target. apply wp_bind.
  eapply wp_mono; [by apply databaseScope_blind|]. intros [sc|e|] w1 [HA1 Hsc]; [|done..]. specialize (Hsc sc eq_refl).
  unfold or_else, GetTarget, no_rows_as. apply wp_bind, wp_try, wp_bind, wp_try, wp_exec. intros o w2 (_ & _ & _ & Hr).
  destruct o as [t|e|]; cbv beta iota in Hr.
  - apply wp_ret. destruct (targets (drill_db (w_db w1)) !! id) as [r|] eqn:Er; [|done].
    destruct (bool_decide _ && live r && in_scope sc (tr_target r)) eqn:Ec; [|done]. injection Hr as Hdb <-.
    rewrite !andb_true_iff, bool_decide_eq_true in Ec. destruct Ec as [[Ha Hl] Hin].
    apply (Hk (tr_target r)); [|by apply HA1|by rewrite <- Hdb]. destruct HA1 as (Hkey & Hx & Hadb).
    intros Ht. rewrite (Hkey _ _ Er) in Ht. subst id.
    assert (x.1.1 = Some r) as Hrow by (by rewrite <- Hx). by rewrite (Hsc r Hrow Ha Hl) in Hin.
  - assert (w_db w2 = w_db w1) as Hdb.
    { destruct Hr as [[-> _]|[_ [a Ha]]]; [done|]. repeat case_match; congruence. }
    apply wp_ret. unfold wp. simpl. by rewrite Hdb.
  - assert (w_db w2 = w_db w1) as ->; [|done]. destruct Hr as [->|[a Ha]]; [done|]. repeat case_match; congruence.
Qed.

Lemma Aside_step {A} (m : GO A) : frame (fun db => db) m -> preserves Aside m.
Proof. intros Hf w HA. by rewrite (Hf w). Qed.
End scope.

(** ** The handlers that write about a target *)

Section pages.
Context `{env : Env} `{uuids : UuidLib} `{json : JsonLib} `{host : Host} (who : Who).

Inductive target_page : GO response -> Prop :=
| page_schedule id form : target_page (targetScheduleUpdate who id form)
| page_assertion id form : target_page (assertionCreate who id form)
| page_drill form : target_page (drillCreate who form).

Lemma parse_id_preserves {R} I id (bad : R) k : (forall i, preserves I (k i)) -> preserves I (parse_id id bad k).
Proof. intros Hk w. unfold parse_id. destruct (uuid_Parse id); [done|apply Hk]. Qed.
Lemma or_else_preserves {A R} I (m : GO A) (bad : error -> R) k :
  preserves I m -> (forall a, preserves I (k a)) -> preserves I (or_else m bad k).
Proof. intros Hm Hk. apply preserves_bind; [by apply preserves_try|]. intros []; [by intros w|done]. Qed.

Lemma preserves_canDrillReal I a : preserves I (canDrillReal a).
Proof. unfold canDrillReal. preserve. Qed.
Lemma preserves_block I a : preserves I (blockFreeRealWeb a).
Proof. unfold blockFreeRealWeb. apply preserves_bind; [apply preserves_canDrillReal|]. by intros b w. Qed.
Lemma preserves_os_Stat I p : preserves I (os_Stat p).
Proof. intros w. unfold os_Stat. by destruct (host_Stat _ _). Qed.
Lemma preserves_quota_gate {R} I a (refuse : drillQuotaError -> R) k : preserves I k -> preserves I (quota_gate a refuse k).
Proof.
  intros Hk. unfold quota_gate. apply preserves_bind; [|intros [?|[]]; auto with dokas].
  unfold enforceDrillQuota, CountDrillsSince. preserve.
Qed.
Lemma preserves_size_gate {R} I t a (refuse : dumpTooLargeError -> R) k : preserves I k -> preserves I (size_gate t a refuse k).
Proof.
  intros Hk. unfold size_gate. destruct (t_IsSample t); [done|].
  apply preserves_bind; [|intros [?|[]]; auto with dokas]. unfold enforceDumpSize.
  preserve; first [apply preserves_os_Stat|by intros w].
Qed.
Lemma preserves_create_and_enqueue I target idem k :
  preserves I (CreateDrillIdempotent (a_ID (acct who)) (au_ID (user who)) target idem) ->
  (forall id p, preserves I (EnqueueDrill id p)) -> (forall id, preserves I (k id)) ->
  preserves I (create_and_enqueue who target idem k).
Proof.
  intros Hc He Hk. apply or_else_preserves; [done|]. intros [id []]; [done|]. apply or_else_preserves; auto.
Qed.

Lemma Aside_audit tid x adb action kind id md : preserves (Aside tid x adb) (audit_ who action kind id md).
Proof. apply preserves_ignore, Aside_Record. Qed.

Local Ltac aside := repeat first
  [ progress (auto with dokas) | apply preserves_query | apply Aside_audit | apply Aside_Record | apply preserves_ignore | preserve_step ].

End pages.

(** A member of the demo account on no team, and a target of the team "ops"
    with one assertion. *)
Definition demo_member : Who :=
  mkWho demo_account (mkAuthUser 3 "bob@example.com" true false false 0) (Some (mkMembership 1 3 RoleMember 0)) "10.0.0.9" "curl".
Definition ops_db : DB :=
  demo_db{{ account_db -> teams := {[ 5%N := mkTeamRow (mkTeam 5 1 "ops") None ]};
            drill_db -> targets ::= alter (fun r => r{{ tr_target -> t_TeamID := Some 5%N }}) 10%N }}.


(** the page that deletes an assertion checks the database named in
    the path only when that name parses, and never that the assertion is one
    of its; a member on no team removes the assertion of another team's
    database. *)
Theorem assertion_delete_escapes :
  let who := demo_member in
  hidden who (targets (drill_db ops_db) !! 10%N) (account_db ops_db) /\
  target_assertions (drill_db ops_db) !! 30%N <> None /\
  let r := assertionDelete (env := demo_env) who "x" (uuid_String 30) (world ops_db) in
  r.1 = Ret (Redirect "/databases/x") /\ target_assertions (drill_db (w_db r.2)) !! 30%N = None.
Proof.
  cbv zeta. split; [|split; [|split]]; [|discriminate|vm_compute; reflexivity..].
  right; right. exists 5%N. split; [reflexivity|]. split; [reflexivity|]. intros [Hin _]. by apply not_elem_of_empty in Hin.
Qed.
