(* ===== verification/Sandbox.v ===== *)
(** internal/runner/mock.go, internal/runner/fly_machine.go and
    internal/fly/fly.go: the two runners behind the Runner interface, the
    local one (a temporary database on the application's PostgreSQL) and the
    one on Fly machines, with the dump handling they share. *)
From S2P Require Import Prelude Crypto Effects Schema Encoding Path Scheduler Assertions Http Targets Runner.

(** What the machine of the worker, the database server and the Fly API answer
    at the n-th effect: opening a file and reading it to its end, the entries
    of a directory and whether each is a regular file, exec.LookPath, a
    command's combined output and its error, a connection and a statement on
    it, and one HTTP exchange (the status and the body). *)
Class Machines : Type := {
  host_Open     : nat -> string -> error + unit;
  host_ReadAll  : nat -> string -> error + string;
  host_Entries  : nat -> string -> error + list (string * bool);
  host_LookPath : nat -> string -> error + string;
  host_Command  : nat -> list string -> string * option error;
  pg_Connect    : nat -> string -> error + unit;
  pg_Exec       : nat -> string -> string -> error + unit;
  url_WithPath  : string -> string -> error + string;      (* url.Parse, u.Path = p, u.String() *)
  fly_http      : nat -> string -> string -> string -> error + (Z * string);
  fly_Done      : nat -> option error                      (* the context ended during a backoff *)
}.

Section runner.
Context `{env : Env} `{uuids : UuidLib} `{host : Host} `{machines : Machines}.

Definition os_Open (path : string) : GO unit := fun w => lift (host_Open (w_tick w) path) (tick w).
Definition io_Copy (path : string) : GO string := fun w => lift (host_ReadAll (w_tick w) path) (tick w).
Definition os_Entries (path : string) : GO (list (string * bool)) := fun w => lift (host_Entries (w_tick w) path) (tick w).

(** ** Dumps *)

(** sort.Strings: bytewise. *)
Definition sort_Strings (l : list string) : list string := order_by String.leb l.

Definition read_file (path : string) : GO string := os_Open path;; io_Copy path.
(** The loop that feeds the files to the hash. *)
Fixpoint read_files (absPath : string) (names : list string) : GO string :=
  match names with
  | [] => mret ""
  | name :: names' => b ← read_file (Join [absPath; name]); rest ← read_files absPath names'; mret (b +:+ rest)
  end.
Definition regular_names (entries : list (string * bool)) : list string :=
  (filter (fun e => e.2 = true) entries).*1.
Definition hashDump (absPath : string) : GO string :=
  st ← os_Stat absPath;
  if negb (IsDir st) then
    b ← read_file absPath; mret (hex_EncodeToString (sha256 b))
  else
    entries ← os_Entries absPath;
    b ← read_files absPath (sort_Strings (regular_names entries));
    mret (hex_EncodeToString (sha256 b)).

Definition fetchDump (sourceURI : string) : GO (string * string) :=
  abs ← wrap_err "resolve source path" (Abs_ sourceURI);
  st ← wrap_err "stat dump" (os_Stat abs);
  (if IsDir st then
     r ← try (os_Stat (Join [abs; "toc.dat"]));
     match r with
     | inl _ => fail (ErrNew ("source directory is not a pg_dump -Fd archive (no toc.dat): " +:+ abs))
     | inr _ => mret tt
     end
   else mret tt);;
  hash ← wrap_err "hash dump" (hashDump abs);
  mret (abs, hash).

Inductive dumpFormat : Type := dumpPlainSQL | dumpArchive | dumpDirectory.

(** io.ReadFull into 512 bytes: a shorter file is no error. *)
Definition head_format (content : string) : dumpFormat :=
  let head := String.substring 0 512 content in
  if bool_decide (String.substring 0 5 head = "PGDMP") then dumpArchive
  else if bool_decide (String.substring 257 5 head = "ustar") then dumpArchive
  else dumpPlainSQL.
Definition detectDumpFormat (path : string) : GO dumpFormat :=
  info ← wrap_err "stat dump" (os_Stat path);
  if IsDir info then mret dumpDirectory else
  wrap_err "open dump" (os_Open path);;
  content ← wrap_err "read dump header" (io_Copy path);
  mret (head_format content).

Definition LookPath (tool : string) : GO string := fun w => lift (host_LookPath (w_tick w) tool) (tick w).
(** exec.CommandContext and CombinedOutput. *)
Definition CombinedOutput (args : list string) : GO (string * option error) :=
  ext (ExtCall "exec" args) (fun n => inr (host_Command n args)).
Definition runDumpCmd (args : list string) (name : string) : GO (string * option error) :=
  '(out, err) ← CombinedOutput args;
  match err with
  | None => mret (out, None)
  | Some e =>
      let s := if (1024 <? String.length out)%nat then String.substring 0 1024 out +:+ "...(truncated)" else out in
      mret (out, Some (ErrNew (name +:+ " failed: " +:+ Error e +:+ ": " +:+ s)))
  end.
Definition tool_missing (tool : string) : error := ErrNew (tool +:+
  " is required to restore this dump but was not found on PATH — install the PostgreSQL client tools (which provide psql and pg_restore) and ensure their bin directory is on PATH").
Definition restore_command (format : dumpFormat) (dsn localPath : string) : list string :=
  match format with
  | dumpPlainSQL => ["psql"; "--quiet"; "--no-psqlrc"; "--set=ON_ERROR_STOP=1"; "-d"; dsn; "-f"; localPath]
  | _ => ["pg_restore"; "--no-owner"; "--no-privileges"; "--exit-on-error"; "-d"; dsn; localPath]
  end.
Definition restoreDump (dsn localPath : string) : GO (string * option error) :=
  r ← try (detectDumpFormat localPath);
  match r with
  | inl e => mret ("", Some e)
  | inr format =>
      let tool := match format with dumpPlainSQL => "psql" | _ => "pg_restore" end in
      r ← try (LookPath tool);
      match r with
      | inl _ => mret ("", Some (tool_missing tool))
      | inr _ => runDumpCmd (restore_command format dsn localPath) tool
      end
  end.

(** ** The local runner *)

Section local.
Context (adminDSN : string).

Definition swapDatabase (dsn dbName : string) : error + string :=
  if bool_decide (dsn = "") then inl (ErrNew "empty admin DSN") else
  match url_WithPath dsn ("/" +:+ dbName) with
  | inl e => inl (ErrWrap "parse admin DSN" e)
  | inr s => inr s
  end.
Definition execAdmin (sql : string) : GO unit :=
  wrap_err "connect admin" (ext (ExtCall "pgx.connect" [adminDSN]) (fun n => pg_Connect n adminDSN));;
  ext (ExtCall "pgx.exec" [adminDSN; sql]) (fun n => pg_Exec n adminDSN sql).

(** strings.ReplaceAll(id.String(), "-", "")[:16] *)
Definition sandbox_name (drillID : uuid) : string :=
  "drill_" +:+ String.substring 0 16 (unchars (filter (fun c => c <> Ascii.ascii_of_nat 45) (chars (uuid_String drillID)))).
Definition drop_force (dbName : string) : string := "DROP DATABASE IF EXISTS " +:+ quote dbName +:+ " WITH (FORCE)".
Definition drop_plain (dbName : string) : string := "DROP DATABASE " +:+ quote dbName.
Definition create_database (dbName : string) : string := "CREATE DATABASE " +:+ quote dbName.

Definition local_Provision (drillID : uuid) : GO Sandbox :=
  let dbName := sandbox_name drillID in
  wrap_err "drop stale sandbox db" (execAdmin (drop_force dbName));;
  wrap_err "create sandbox db" (execAdmin (create_database dbName));;
  match swapDatabase adminDSN dbName with
  | inl e => ignore (execAdmin (drop_plain dbName));; fail e
  | inr dsn => mret (mkSandbox drillID dsn dbName)
  end.
Definition local_Rehydrate (drillID : uuid) (dbName : string) : error + Sandbox :=
  match swapDatabase adminDSN dbName with inl e => inl e | inr dsn => inr (mkSandbox drillID dsn dbName) end.
Definition local_Teardown (sb : option Sandbox) : GO unit :=
  match sb with
  | None => mret tt
  | Some sb => if bool_decide (sb_Name sb = "") then mret tt else execAdmin (drop_force (sb_Name sb))
  end.
Definition LocalRunner : Runner := {|
  Provision := local_Provision;
  Fetch _ sourceURI := fetchDump sourceURI;
  Restore sb localPath := restoreDump (sb_DSN sb) localPath;
  Rehydrate := local_Rehydrate;
  Teardown := local_Teardown
|}.
End local.

(** ** The Fly API *)

Record FlyMachine : Type := mkFlyMachine { fm_ID : string; fm_State : string; fm_PrivateIP : string }.
Record CreateInput : Type := mkCreateInput {
  ci_Image : string; ci_Env : list (string * string); ci_Region : string; ci_MemoryMB : Z; ci_CPUs : Z
}.
(** The JSON of the API: the body of a create request, and a machine. *)
Context (fly_Marshal : CreateInput -> error + string) (fly_Unmarshal : string -> error + FlyMachine).

Section fly.
Context (app token : string).
Definition fly_base : string := "https://api.machines.dev/v1".

(** What one attempt came to: a transient error is worth another. *)
Inductive attempt : Type := Done (m : FlyMachine) | Transient (e : error) | Permanent (e : error).
Definition no_machine : FlyMachine := mkFlyMachine "" "" "".

Definition snippet (s : string) : string := String.substring 0 300 s.
(** [wants]: the response is decoded. *)
Definition settle (method path : string) (wants : bool) (resp : error + (Z * string)) : attempt :=
  match resp with
  | inl e => Transient (ErrWrap ("fly: " +:+ method +:+ " " +:+ path) e)
  | inr (code, body) =>
      let payload := String.substring 0 (Z.to_nat (Z.shiftl 1 20)) body in
      let err := ErrNew ("fly: " +:+ method +:+ " " +:+ path +:+ ": " +:+ show_Z code +:+ ": " +:+ snippet payload) in
      if (code =? 404) && bool_decide (method = "DELETE") then Done no_machine
      else if (500 <=? code) || (code =? 429) then Transient err
      else if 400 <=? code then Permanent err
      else if wants && negb (bool_decide (payload = "")) then
        match fly_Unmarshal payload with
        | inl e => Permanent (ErrWrap ("fly: decode " +:+ path +:+ " response") e)
        | inr m => Done m
        end
      else Done no_machine
  end.
Definition doOnce (method path body : string) (wants : bool) : GO attempt :=
  r ← try (ext (ExtCall "fly" [method; fly_base +:+ path; token; body]) (fun n => fly_http n method (fly_base +:+ path) body));
  mret (settle method path wants r).

(** select on ctx.Done() and time.After(backoff). *)
Definition backoff : GO unit := fun w =>
  match fly_Done (w_tick w) with Some e => (Fail e, tick w) | None => (Ret tt, tick w) end.

(** The attempts that are left after one that failed with [lastErr]. *)
Fixpoint fly_retry (attempts : nat) (lastErr : error) (method path body : string) (wants : bool) : GO FlyMachine :=
  match attempts with
  | O => fail lastErr
  | S attempts' =>
      backoff;;
      a ← doOnce method path body wants;
      match a with
      | Done m => mret m
      | Transient e => fly_retry attempts' e method path body wants
      | Permanent e => fail e
      end
  end.
Definition fly_do (method path body : string) (wants : bool) : GO FlyMachine :=
  a ← doOnce method path body wants;
  match a with
  | Done m => mret m
  | Transient e => fly_retry 3 e method path body wants
  | Permanent e => fail e
  end.

Definition machines_path : string := "/apps/" +:+ app +:+ "/machines".
Definition CreateMachine (input : CreateInput) : GO FlyMachine :=
  match fly_Marshal input with
  | inl e => fail e
  | inr body => fly_do "POST" machines_path body true
  end.
Definition WaitStarted (machineID : string) : GO unit :=
  fly_do "GET" (machines_path +:+ "/" +:+ machineID +:+ "/wait?state=started&timeout=60") "" false;; mret tt.
Definition Destroy (machineID : string) : GO unit :=
  fly_do "DELETE" (machines_path +:+ "/" +:+ machineID +:+ "?force=true") "" false;; mret tt.

(** ** The runner on Fly machines *)

Context (image region dbPass : string).
Definition fly_image : string := if bool_decide (image = "") then "postgres:16-alpine" else image.
Definition fly_memoryMB : Z := 1024.
Definition fly_dsn (machineID : string) : string :=
  "postgres://postgres:" +:+ dbPass +:+ "@" +:+ machineID +:+ ".vm." +:+ app +:+ ".internal:5432/postgres?sslmode=disable".

Definition fly_Provision (drillID : uuid) : GO Sandbox :=
  m ← wrap_err "fly: provision machine"
        (CreateMachine (mkCreateInput fly_image [("POSTGRES_PASSWORD", dbPass); ("POSTGRES_DB", "postgres")] region fly_memoryMB 1));
  r ← try (WaitStarted (fm_ID m));
  match r with
  | inl e =>
      ignore (Destroy (fm_ID m));;
      fail (ErrWrap ("fly: machine " +:+ fm_ID m +:+ " never started") e)
  | inr _ => mret (mkSandbox drillID (fly_dsn (fm_ID m)) (fm_ID m))
  end.
Definition fly_Rehydrate (drillID : uuid) (machineID : string) : error + Sandbox :=
  inr (mkSandbox drillID (fly_dsn machineID) machineID).
Definition fly_Teardown (sb : option Sandbox) : GO unit :=
  match sb with
  | None => mret tt
  | Some sb => if bool_decide (sb_Name sb = "") then mret tt else Destroy (sb_Name sb)
  end.
Definition FlyMachineRunner : Runner := {|
  Provision := fly_Provision;
  Fetch _ sourceURI := fetchDump sourceURI;
  Restore sb localPath := restoreDump (sb_DSN sb) localPath;
  Rehydrate := fly_Rehydrate;
  Teardown := fly_Teardown
|}.
End fly.
End runner.
