(* ===== verification/SandboxFacts.v ===== *)
(** What the runners keep: the fingerprint of a dump does not depend on the
    order its files are listed in, a request to the Fly API is sent at most
    four times, the local runner only touches sandbox databases, and both
    runners meet the Runner contract. *)
From S2P Require Import Prelude Crypto Effects Schema Encoding Path Scheduler Assertions Http Targets Runner Sandbox Demo AccountFacts TargetFacts.
From Stdlib Require Import Ascii.

(** ** The bytewise order of strings *)

Lemma ascii_compare_N a b : Ascii.compare a b = (N_of_ascii a ?= N_of_ascii b)%N.
Proof. done. Qed.
Lemma String_leb_cons a s b t :
  String.leb (String a s) (String b t) = true <->
  (N_of_ascii a < N_of_ascii b)%N \/ a = b /\ String.leb s t = true.
Proof.
  unfold String.leb. simpl. rewrite ascii_compare_N. destruct (N.compare_spec (N_of_ascii a) (N_of_ascii b)) as [He|Hl|Hg].
  - assert (a = b) as -> by (rewrite <- (ascii_N_embedding a), <- (ascii_N_embedding b); by rewrite He).
    split; [by right|]. intros [H|[_ H]]; [lia|done].
  - split; [by left|done].
  - split; [done|]. intros [H|[-> _]]; lia.
Qed.
#[global] Instance String_leb_trans : Transitive (le_rel String.leb).
Proof.
  intros x. induction x as [|a x IH]; intros y z Hxy Hyz; unfold le_rel in *; [by destruct z|].
  destruct y as [|b y]; [done|]. destruct z as [|c z]; [done|]. rewrite String_leb_cons in *.
  destruct Hxy as [H1|[-> H1]], Hyz as [H2|[-> H2]]; [left; lia|by left..|right]. eauto.
Qed.
#[global] Instance String_leb_antisym : AntiSymm (=) (le_rel String.leb).
Proof.
  intros x. induction x as [|a x IH]; intros [|b y] Hxy Hyx; unfold le_rel in *; try done.
  rewrite String_leb_cons in *. destruct Hxy as [H1|[-> H1]], Hyx as [H2|[E H2]]; simplify_eq; try lia. f_equal. by apply IH.
Qed.
#[global] Instance String_leb_total : Total (le_rel String.leb).
Proof. intros x y. unfold le_rel. destruct (String.leb_total x y); auto. Qed.

(** There is one way to list names in order. *)
Lemma sort_Strings_unique l l' : l ≡ₚ l' -> Sorted (le_rel String.leb) l' -> sort_Strings l = l'.
Proof.
  intros Hp Hs. apply (StronglySorted_unique (le_rel String.leb)).
  - apply Sorted_StronglySorted; [apply _|]. apply Sorted_merge_sort, _.
  - by apply Sorted_StronglySorted; [apply _|].
  - unfold sort_Strings, order_by. by rewrite merge_sort_Permutation.
Qed.

(** ** The fingerprint of a dump *)

Section fingerprint.
Context `{env : Env} `{uuids : UuidLib} `{host : Host} `{machines : Machines}.

(** From any moment on, [dir] is a directory that lists [entries], and its
    regular files hold [content]. *)
Definition shows_dir (dir : string) (entries : list (string * bool)) (content : string -> string) : Prop :=
  forall n, (exists size, host_Stat n dir = inr (mkFileInfo size true)) /\ host_Entries n dir = inr entries /\
    forall name, name ∈ regular_names entries ->
      host_Open n (Join [dir; name]) = inr tt /\ host_ReadAll n (Join [dir; name]) = inr (content name).

(** The bytes of the files one after the other. *)
Definition together (content : string -> string) (names : list string) : string := foldr String.append "" (content <$> names).

Lemma read_files_ret dir entries content names w :
  shows_dir dir entries content -> (forall name, name ∈ names -> name ∈ regular_names entries) ->
  exists w', read_files dir names w = (Ret (together content names), w').
Proof.
  intros Hd. revert w. induction names as [|name names IH]; intros w Hin; [by eexists|].
  destruct (Hd (w_tick w)) as (_ & _ & Hf). destruct (Hf name) as [Ho _]; [apply Hin; left|].
  destruct (Hd (w_tick (tick w))) as (_ & _ & Hf'). destruct (Hf' name) as [_ Hr]; [apply Hin; left|].
  destruct (IH (tick (tick w))) as [w' Hw]; [intros; apply Hin; by right|].
  exists w'. simpl read_files. unfold read_file, os_Open, io_Copy, mbind, M_bind, lift, mret, M_ret in *.
  rewrite Ho, Hr, Hw. done.
Qed.

(** the fingerprint that anchors a dump's evidence.  Whatever order the
    host lists a directory dump in, fetching it gives its absolute path and
    the SHA-256 of its regular files' bytes in the bytewise order of their
    names: two copies of a dump have one fingerprint. *)
Theorem dump_fingerprint sourceURI dir entries content names w path hash w' :
  names ≡ₚ regular_names entries -> Sorted (le_rel String.leb) names ->
  (forall n, Abs (host_Getwd n) sourceURI = inr dir) -> shows_dir dir entries content ->
  fetchDump sourceURI w = (Ret (path, hash), w') ->
  path = dir /\ hash = hex_EncodeToString (sha256 (together content names)).
Proof.
  intros Hp Hs Habs Hd H. unfold fetchDump in H. apply bind_ret in H as (abs & w1 & H1 & H). cbv beta in H.
  assert (abs = dir) as ->.
  { apply wrap_err_ret in H1. unfold Abs_ in H1. rewrite Habs in H1. by injection H1 as <- _. }
  apply bind_ret in H as (st & w2 & H2 & (u & w3 & H3 & (h & w4 & H4 & H)%bind_ret)%bind_ret). cbv beta in *.
  injection H as <- <- _. split; [done|]. apply wrap_err_ret in H4. unfold hashDump in H4.
  apply bind_ret in H4 as (st' & w5 & H5 & H4). cbv beta in H4. unfold os_Stat in H5.
  destruct (Hd (w_tick w3)) as ((size & Hst) & _ & _). rewrite Hst in H5. injection H5 as <- <-. simpl negb in H4. cbv iota in H4.
  apply bind_ret in H4 as (es & w6 & H6 & (b & w7 & H7 & H4)%bind_ret). cbv beta in *.
  unfold os_Entries in H6. destruct (Hd (w_tick (tick w3))) as (_ & He & _). rewrite He in H6. injection H6 as <- <-.
  rewrite (sort_Strings_unique _ names) in H7 by done.
  destruct (read_files_ret dir entries content names (tick (tick w3)) Hd) as [w8 Hr]; [by intros name; rewrite Hp|].
  rewrite Hr in H7. injection H7 as <- _. by injection H4 as <- _.
Qed.
End fingerprint.

(** ** The Fly client *)

Section fly_client.
Context `{env : Env} `{machines : Machines} (fly_Unmarshal : string -> error + FlyMachine) (token : string).

(** The request, as the trace shows it. *)
Definition fly_call (method path body : string) : extcall := ExtCall "fly" [method; fly_base +:+ path; token; body].
(** The API's answer to the [i]-th request of a call that began at [w]: a
    request and the pause before the next take one effect each. *)
Definition answer (w : World DB) (method path body : string) (i : nat) : error + (Z * string) :=
  fly_http (w_tick w + 2 * i) method (fly_base +:+ path) body.

(** The exchange failed, or the API said 5xx or 429. *)
Definition worth_repeating (a : error + (Z * string)) : Prop :=
  match a with inl _ => True | inr (code, _) => 500 <= code \/ code = 429 end.
(** The answer is a success that carries [m]: no machine when none was asked
    for, or the body is empty, or what was to be deleted is gone. *)
Definition carries (method : string) (wants : bool) (a : error + (Z * string)) (m : FlyMachine) : Prop :=
  exists code body, a = inr (code, body) /\
    (code = 404 /\ method = "DELETE" /\ m = no_machine \/
     code < 400 /\ let payload := String.substring 0 (Z.to_nat (Z.shiftl 1 20)) body in
       if wants && negb (bool_decide (payload = "")) then fly_Unmarshal payload = inr m else m = no_machine).
(** The answer is a refusal, or a success whose body does not decode. *)
Definition refuses (wants : bool) (a : error + (Z * string)) : Prop :=
  exists code body, a = inr (code, body) /\
    (400 <= code < 500 /\ code <> 429 \/
     code < 400 /\ wants = true /\ exists e, fly_Unmarshal (String.substring 0 (Z.to_nat (Z.shiftl 1 20)) body) = inl e).

Lemma settle_says method path wants a :
  match settle fly_Unmarshal method path wants a with
  | Done m => carries method wants a m
  | Transient _ => worth_repeating a
  | Permanent _ => refuses wants a
  end.
Proof.
  destruct a as [e|[code body]]; [done|]. unfold settle. cbv zeta. set (payload := String.substring _ _ body).
  destruct (Z.eqb_spec code 404) as [->|H404]; cbn [andb].
  { case_bool_decide; [exists 404, body; split; [done|]; by left|]. exists 404, body. split; [done|]. left. lia. }
  destruct (Z.leb_spec 500 code); cbn [orb]; [left; lia|]. destruct (Z.eqb_spec code 429); [by right|].
  destruct (Z.leb_spec 400 code); [exists code, body; split; [done|]; left; lia|].
  destruct wants; cbn [andb]; [|exists code, body; split; [done|]; right; split; [lia|done]].
  destruct (negb (bool_decide (payload = ""))) eqn:Ep; [|exists code, body; split; [done|]; right; split; [lia|]; cbv zeta; fold payload; by rewrite Ep].
  destruct (fly_Unmarshal payload) as [e|m] eqn:Eu; exists code, body; (split; [done|]); right; (split; [lia|]); [split; [done|by exists e]|].
  cbv zeta. fold payload. by rewrite Ep.
Qed.

Lemma repeat_after {A} (x : A) k l : repeat x k ++ repeat x 1 ++ l = repeat x (S k) ++ l.
Proof. rewrite app_assoc, <- repeat_app. do 2 f_equal. lia. Qed.

Lemma doOnce_run method path body wants w o w' :
  doOnce fly_Unmarshal token method path body wants w = (o, w') ->
  exists k, (k <= 1)%nat /\ w_trace w' = repeat (fly_call method path body) k ++ w_trace w /\
    match o with
    | Ret a => k = 1%nat /\ w_tick w' = S (w_tick w) /\ a = settle fly_Unmarshal method path wants (answer w method path body 0)
    | Fail _ => False | Crash => True
    end.
Proof.
  unfold doOnce, try, ext, mbind, M_bind, mret, M_ret, lift, answer. rewrite Nat.add_0_r. intros H.
  destruct (env_fault (w_tick w)) as [| |[]];
    try (destruct (fly_http (w_tick w) method (fly_base +:+ path) body) eqn:E); injection H as <- <-.
  all: first [by exists 0%nat; repeat split; simpl; lia|exists 1%nat; by repeat split; try lia].
Qed.

(** How a call that made [k] requests ends: with what the last answer
    carries; with the error of a refusal; or with an answer worth repeating,
    after the fourth request or because the context ended in the pause. *)
Definition fly_outcome (w : World DB) (method path body : string) (wants : bool) (k : nat) (o : outcome FlyMachine) : Prop :=
  let last := answer w method path body (k - 1) in
  match o with
  | Ret m => (1 <= k)%nat /\ carries method wants last m
  | Fail e => (1 <= k)%nat /\
      (refuses wants last \/ worth_repeating last /\ (k = 4%nat \/ fly_Done (w_tick w + 2 * k - 1) = Some e))
  | Crash => True
  end.

Lemma fly_retry_run w0 left_ j lastErr method path body wants w o w' :
  (left_ + j = 4)%nat -> (1 <= j)%nat -> w_tick w = (w_tick w0 + 2 * j - 1)%nat ->
  worth_repeating (answer w0 method path body (j - 1)) ->
  fly_retry fly_Unmarshal token left_ lastErr method path body wants w = (o, w') ->
  exists k, (k <= left_)%nat /\ w_trace w' = repeat (fly_call method path body) k ++ w_trace w /\
    (forall i, (j <= i)%nat -> (i + 1 < k + j)%nat -> worth_repeating (answer w0 method path body i)) /\
    fly_outcome w0 method path body wants (k + j) o.
Proof.
  revert j lastErr w. induction left_ as [|n IH]; intros j lastErr w Hn Hj Ht Hlast H.
  { injection H as <- <-. exists 0%nat. repeat split; [lia|lia|lia|]. right. split; [done|]. left. lia. }
  simpl in H. unfold mbind, M_bind, backoff in H.
  destruct (fly_Done (w_tick w)) as [e|] eqn:Ed.
  { injection H as <- <-. exists 0%nat. repeat split; [lia|lia|lia|]. right. split; [done|]. right. cbn [Nat.add]. by rewrite <- Ht. }
  destruct (doOnce _ _ _ _ _ _ _) as [oa w1] eqn:Ea. apply doOnce_run in Ea as (k & Hk & Htr & Ha). simpl in Htr.
  destruct oa as [a|e|]; [|done|].
  - destruct Ha as (-> & Ht1 & Ha). assert (answer (tick w) method path body 0 = answer w0 method path body j) as Hans.
    { unfold answer. simpl. f_equal. lia. }
    rewrite Hans in Ha. pose proof (settle_says method path wants (answer w0 method path body j)) as Hsays. rewrite <- Ha in Hsays.
    destruct a as [m|e|e].
    + injection H as <- <-. exists 1%nat. repeat split; [lia|done|lia|lia|]. by replace (1 + j - 1)%nat with j by lia.
    + apply (IH (S j) e w1) in H as (k & Hk' & Htr' & Hw & Ho); [|lia|lia|simpl in *; lia|by replace (S j - 1)%nat with j by lia].
      exists (S k). split; [lia|]. split; [rewrite Htr', Htr; apply repeat_after|]. split.
      * intros i Hi Hik. destruct (decide (i = j)) as [->|]; [done|]. apply Hw; lia.
      * by replace (S k + j)%nat with (k + S j)%nat by lia.
    + injection H as <- <-. exists 1%nat. repeat split; [lia|done|lia|lia|]. left. by replace (1 + j - 1)%nat with j by lia.
  - injection H as <- <-. exists k. repeat split; [lia|done|lia].
Qed.

(** C34: requests to the Fly API.  Whatever fails, a call of the client sends
    one request, and sends that same request again only after the exchange
    failed or the API answered 5xx or 429 - never after another answer - four
    times in all at the most.  It returns a machine only when the last answer
    was a success that carries it; it reports an error when the last answer
    was a refusal or did not decode, when the fourth answer was still worth
    repeating, or when the job's context ended in a pause. *)
Theorem fly_attempts method path body wants w o w' :
  fly_do fly_Unmarshal token method path body wants w = (o, w') ->
  exists k, (k <= 4)%nat /\ w_trace w' = repeat (fly_call method path body) k ++ w_trace w /\
    (forall i, (i + 1 < k)%nat -> worth_repeating (answer w method path body i)) /\
    fly_outcome w method path body wants k o.
Proof.
  intros H. unfold fly_do, mbind, M_bind in H.
  destruct (doOnce _ _ _ _ _ _ _) as [oa w1] eqn:Ea. apply doOnce_run in Ea as (k & Hk & Htr & Ha).
  destruct oa as [a|e|]; [|done|].
  - destruct Ha as (-> & Ht1 & Ha). pose proof (settle_says method path wants (answer w method path body 0)) as Hsays.
    rewrite <- Ha in Hsays. destruct a as [m|e|e].
    + injection H as <- <-. exists 1%nat. repeat split; [lia|done|lia|lia|done].
    + apply (fly_retry_run w 3 1) in H as (k & Hk' & Htr' & Hw & Ho); [|lia|lia|lia|done].
      exists (S k). split; [lia|]. split; [rewrite Htr', Htr; apply repeat_after|]. split.
      * intros i Hi. destruct i as [|i]; [done|]. apply Hw; lia.
      * by replace (S k) with (k + 1)%nat by lia.
    + injection H as <- <-. exists 1%nat. repeat split; [lia|done|lia|lia|by left].
  - injection H as <- <-. exists k. repeat split; [lia|done|lia].
Qed.
End fly_client.

(** ** The Runner contract *)

Section contract.
Context `{env : Env} `{uuids : UuidLib} `{host : Host} `{machines : Machines}.
Context (fly_Marshal : CreateInput -> error + string) (fly_Unmarshal : string -> error + FlyMachine).

(** The drill tables are out of reach of everything the runners share. *)
Lemma frame_read_files {B} (proj : DB -> B) dir names : frame proj (read_files dir names).
Proof.
  induction names as [|n names IH]; simpl; [apply frame_ret|].
  apply frame_bind; [|intros b; apply frame_bind; [done|intros; apply frame_ret]].
  unfold read_file. apply frame_bind; [|intros _]; intros w; unfold os_Open, io_Copy, lift; by case_match.
Qed.
Ltac frame_os := let w := fresh in intros w; unfold lift; by case_match.
Lemma frame_fetchDump {B} (proj : DB -> B) uri : frame proj (fetchDump uri).
Proof.
  unfold fetchDump, hashDump, read_file, Abs_, os_Stat, os_Entries, os_Open, io_Copy.
  repeat first [apply frame_bind; [|intros ?] | apply frame_wrap | apply frame_try | apply frame_read_files
    | apply frame_ret | apply frame_fail | case_match | frame_os].
Qed.
Lemma frame_restoreDump {B} (proj : DB -> B) dsn p : frame proj (restoreDump dsn p).
Proof.
  unfold restoreDump, detectDumpFormat, os_Stat, os_Open, io_Copy, LookPath, runDumpCmd, CombinedOutput.
  repeat first [apply frame_bind; [|intros ?] | apply frame_wrap | apply frame_try | apply frame_ext
    | apply frame_ret | apply frame_fail | case_match | frame_os].
Qed.
Lemma frame_execAdmin {B} (proj : DB -> B) dsn sql : frame proj (execAdmin dsn sql).
Proof. apply frame_bind; [apply frame_wrap, frame_ext|intros _; apply frame_ext]. Qed.
Lemma frame_fly_do {B} (proj : DB -> B) token method path body wants : frame proj (fly_do fly_Unmarshal token method path body wants).
Proof.
  assert (forall m p b r, frame proj (doOnce fly_Unmarshal token m p b r)) as Ho.
  { intros. unfold doOnce. apply frame_bind; [apply frame_try, frame_ext|intros; apply frame_ret]. }
  assert (forall n e, frame proj (fly_retry fly_Unmarshal token n e method path body wants)) as Hr.
  { induction n as [|n IH]; intros e; simpl; [apply frame_fail|]. apply frame_bind; [|intros _; apply frame_bind; [apply Ho|]].
    - intros w. unfold backoff. by case_match.
    - intros []; [apply frame_ret|apply IH|apply frame_fail]. }
  unfold fly_do. apply frame_bind; [apply Ho|]. intros []; [apply frame_ret|apply Hr|apply frame_fail].
Qed.

Lemma LocalRunner_ok adminDSN : RunnerOk (LocalRunner adminDSN).
Proof.
  split; intros; simpl.
  - unfold local_Provision. apply frame_bind; [apply frame_wrap, frame_execAdmin|intros _].
    apply frame_bind; [apply frame_wrap, frame_execAdmin|intros _]. case_match; [|apply frame_ret].
    apply frame_bind; [apply frame_ignore, frame_execAdmin|intros; apply frame_fail].
  - apply frame_fetchDump.
  - apply frame_restoreDump.
  - unfold local_Teardown. repeat case_match; [apply frame_ret|apply frame_execAdmin|apply frame_ret].
Qed.
Lemma FlyMachineRunner_ok app token image region dbPass :
  RunnerOk (FlyMachineRunner fly_Marshal fly_Unmarshal app token image region dbPass).
Proof.
  split; intros; simpl.
  - unfold fly_Provision, CreateMachine, WaitStarted, Destroy. apply frame_bind.
    + apply frame_wrap. case_match; [apply frame_fail|apply frame_fly_do].
    + intros m. apply frame_bind; [apply frame_try, frame_bind; [apply frame_fly_do|intros; apply frame_ret]|].
      intros [e|_]; [|apply frame_ret]. apply frame_bind; [|intros; apply frame_fail].
      apply frame_ignore, frame_bind; [apply frame_fly_do|intros; apply frame_ret].
  - apply frame_fetchDump.
  - apply frame_restoreDump.
  - unfold fly_Teardown, Destroy. repeat case_match; try apply frame_ret.
    apply frame_bind; [apply frame_fly_do|intros; apply frame_ret].
Qed.

(** ** What the local runner sends to the cluster *)

(** Calls that look at the host, or administer the database [name] only. *)
Definition about (adminDSN name : string) (c : extcall) : Prop :=
  c = ExtCall "pgx.connect" [adminDSN] \/
  exists sql, c = ExtCall "pgx.exec" [adminDSN; sql] /\ sql ∈ [drop_force name; drop_plain name; create_database name].

Lemma calls_execAdmin adminDSN name sql P :
  (forall c, about adminDSN name c -> P c) -> sql ∈ [drop_force name; drop_plain name; create_database name] ->
  calls (S:=DB) P (execAdmin adminDSN sql).
Proof.
  intros HP Hs. apply calls_bind; [apply calls_wrap_err, calls_ext, HP; by left|].
  intros _. apply calls_ext, HP. right. by exists sql.
Qed.

Lemma local_calls adminDSN drillID :
  calls (about adminDSN (sandbox_name drillID)) (local_Provision adminDSN drillID) /\
  forall dsn, calls (about adminDSN (sandbox_name drillID))
    (local_Teardown adminDSN (Some (mkSandbox drillID dsn (sandbox_name drillID)))).
Proof.
  split.
  - unfold local_Provision. apply calls_bind; [apply calls_wrap_err, calls_execAdmin with (sandbox_name drillID); [done|left]|intros _].
    apply calls_bind; [apply calls_wrap_err, calls_execAdmin with (sandbox_name drillID); [done|do 2 right; left]|intros _].
    case_match; [|apply calls_ret]. apply calls_bind; [|intros; apply calls_fail].
    apply calls_bind; [apply calls_try, calls_execAdmin with (sandbox_name drillID); [done|right; left]|intros; apply calls_ret].
  - intros dsn. unfold local_Teardown. case_match; [apply calls_ret|]. apply calls_execAdmin with (sandbox_name drillID); [done|left].
Qed.
End contract.

(** ** Concrete machines *)

(** A host whose directory /d holds the two files of [files]; the Fly API
    answers the n-th exchange as [answers] says. *)
Definition dump_host : Host := {|
  host_Getwd _ := inr "/"; host_Stat _ p := inr (mkFileInfo 0 (bool_decide (p = "/d"))); host_ReadDir _ _ := []; host_write _ _ := inr ""
|}.
Definition demo_machines (entries : list (string * bool)) (files : string -> string) (answers : nat -> error + (Z * string)) : Machines := {|
  host_Open _ _ := inr tt; host_ReadAll _ p := inr (files p); host_Entries _ _ := inr entries;
  host_LookPath _ t := inr ("/usr/bin/" +:+ t); host_Command _ _ := ("", None); pg_Connect _ _ := inr tt; pg_Exec _ _ _ := inr tt;
  url_WithPath dsn p := inr (dsn +:+ p); fly_http n _ _ _ := answers n; fly_Done _ := None
|}.
Definition toc_split (a b : string) (p : string) : string :=
  if bool_decide (p = "/d/1.dat") then a else if bool_decide (p = "/d/toc.dat") then b else "".
Definition listing : list (string * bool) := [("toc.dat", true); ("sub", false); ("1.dat", true)].
Definition no_answers (n : nat) : error + (Z * string) := inl ErrConn.

Lemma dump_fingerprint_witness :
  exists w', fetchDump (host:=dump_host) (machines:=demo_machines listing (toc_split "PG" "DMP") no_answers) "/d" (world demo_db)
               = (Ret ("/d", hex_EncodeToString (sha256 "PGDMP")), w').
Proof.
  set (m := demo_machines listing (toc_split "PG" "DMP") no_answers).
  destruct (fetchDump (host:=dump_host) (machines:=m) "/d" (world demo_db)) as [o w'] eqn:E.
  destruct o as [[path hash]|e|]; [|vm_compute in E; discriminate E..].
  exists w'.
  assert (shows_dir (host:=dump_host) (machines:=m) "/d" listing (fun n => toc_split "PG" "DMP" (Join ["/d"; n]))) as Hd.
  { intros n. split; [by exists 0|]. split; [done|]. intros name _. split; exact eq_refl. }
  assert (["1.dat"; "toc.dat"] ≡ₚ regular_names listing) as Hp by (change (["1.dat"; "toc.dat"] ≡ₚ ["toc.dat"; "1.dat"]); constructor).
  assert (Sorted (le_rel String.leb) ["1.dat"; "toc.dat"]) as Hs by repeat constructor.
  destruct (dump_fingerprint (host:=dump_host) (machines:=m) "/d" "/d" listing (fun n => toc_split "PG" "DMP" (Join ["/d"; n]))
    ["1.dat"; "toc.dat"] (world demo_db) path hash w' Hp Hs (fun _ => eq_refl) Hd E) as [-> ->].
  exact eq_refl.
Defined.

(** Two dumps with different files can have one fingerprint: the boundaries
    between the files and their names are not hashed. *)
Lemma directory_fingerprints_collide :
  exists h1 h2 w, fetchDump (host:=dump_host) (machines:=demo_machines listing (toc_split "PG" "DMP") no_answers) "/d" w = (Ret ("/d", h1), h2) /\
    (fetchDump (host:=dump_host) (machines:=demo_machines listing (toc_split "PGD" "MP") no_answers) "/d" w).1 = Ret ("/d", h1) /\
    toc_split "PG" "DMP" "/d/1.dat" <> toc_split "PGD" "MP" "/d/1.dat".
Proof. do 2 eexists. exists (world demo_db). split; [vm_compute; reflexivity|]. split; [vm_compute; reflexivity|done]. Qed.

(** The API creates a machine, but the answer is lost; the retry creates a
    second one, which is the one the drill uses and tears down. *)
Definition answer_lost (n : nat) : error + (Z * string) :=
  match n with O => inl ErrConn | _ => inr (200, "m2") end.
Definition name_machine (s : string) : error + FlyMachine := inr (mkFlyMachine s "started" "").

Lemma fly_attempts_witness :
  exists k, (k <= 4)%nat /\
    fly_outcome (machines:=demo_machines [] id answer_lost) name_machine (world demo_db) "POST" "/apps/a/machines" "{}" true k (Ret (mkFlyMachine "m2" "started" "")).
Proof.
  destruct (fly_do (env:=demo_env) (machines:=demo_machines [] id answer_lost) name_machine "t" "POST" "/apps/a/machines" "{}" true (world demo_db))
    as [o w'] eqn:E.
  destruct (fly_attempts (env:=demo_env) (machines:=demo_machines [] id answer_lost) name_machine "t" _ _ _ _ _ _ _ E) as (k & Hk & _ & _ & Ho).
  exists k. split; [exact Hk|]. destruct o as [m|e|]; [|vm_compute in E; discriminate E..].
  replace (mkFlyMachine "m2" "started" "") with m; [exact Ho|]. vm_compute in E. injection E as <- _. reflexivity.
Defined.

(** never orphan a machine, says fly_machine.go: yet a drill that provisions
    and tears down without any error of its own sends two create requests and
    deletes one machine. *)
Lemma fly_machine_orphaned :
  let machines := demo_machines [] id answer_lost in
  exists sb w1 w2,
    fly_Provision (env:=demo_env) (machines:=machines) (fun _ => inr "{}") name_machine "a" "t" "" "iad" "pw" 5 (world demo_db) = (Ret sb, w1) /\
    fly_Teardown (env:=demo_env) (machines:=machines) name_machine "a" "t" (Some sb) w1 = (Ret tt, w2) /\
    (fun c => List.nth 0 (ec_args c) "") <$> w_trace w2 = ["DELETE"; "GET"; "POST"; "POST"].
Proof. do 3 eexists. split; [vm_compute; reflexivity|]. split; [vm_compute; reflexivity|reflexivity]. Qed.
