(* ===== verification/Compliance.v ===== *)
(** internal/compliance and web/handlers/compliance.go: the life of an account
    after its deletion, the retention sweep, the data export. *)
From S2P Require Import Prelude Crypto Effects Schema Encoding Time Http AuditLog DrillStore AccountStore AuthStore Web Cipher Signer EvidenceStore Evidence Heartbeat.

(** ** DELETE FROM accounts WHERE id = $1: the foreign keys of migrations/ *)

Section cascade.
Context (a : uuid) (db : DB).

Definition target_gone (id : uuid) : bool :=
  match targets (drill_db db) !! id with Some r => bool_decide (t_AccountID (tr_target r) = a) | None => false end.
Definition drill_gone (id : uuid) : bool :=
  match drills (drill_db db) !! id with
  | Some d => bool_decide (d_AccountID d = a) || target_gone (d_TargetID d) | None => false end.
Definition team_gone (id : uuid) : bool :=
  match teams (account_db db) !! id with Some r => bool_decide (tm_AccountID (tmr_team r) = a) | None => false end.
Definition endpoint_gone (id : uuid) : bool :=
  match webhook_endpoints (hook_db db) !! id with
  | Some r => bool_decide (e_Account (er_endpoint r) = a) | None => false end.
Definition unless (gone : uuid -> bool) (o : option uuid) : option uuid :=
  match o with Some id => if gone id then None else Some id | None => None end.

(** ON DELETE CASCADE and ON DELETE SET NULL. *)
Definition erase_drills (s : DrillDB) : DrillDB :=
  s{{ targets ::= fun m => (fun r => r{{ tr_target -> t_TeamID ::= unless team_gone }})
                           <$> sql_delete (fun r => bool_decide (t_AccountID (tr_target r) = a)) m;
      target_assertions ::= sql_delete (fun r => target_gone (as_TargetID r));
      drills ::= sql_delete (fun d => bool_decide (d_AccountID d = a) || target_gone (d_TargetID d));
      drill_steps ::= sql_delete (fun s => drill_gone (s_DrillID s));
      assertion_results ::= sql_delete (fun r => drill_gone (ar_DrillID r));
      idempotency_keys ::= filter (fun kr => kr.1.1.1 <> a) }}.
Definition erase_accounts (s : AccountDB) : AccountDB :=
  s{{ accounts ::= delete a;
      memberships ::= sql_delete (fun m => bool_decide (m_AccountID m = a));
      invitations ::= sql_delete (fun i => bool_decide (i_AccountID i = a));
      teams ::= sql_delete (fun r => bool_decide (tm_AccountID (tmr_team r) = a));
      team_memberships ::= filter (fun tu => team_gone tu.1 = false) }}.
Definition erase_hooks (s : HookDB) : HookDB :=
  s{{ webhook_endpoints ::= sql_delete (fun r => bool_decide (e_Account (er_endpoint r) = a));
      webhook_deliveries ::= sql_delete (fun r => bool_decide (dl_AccountID (dr_delivery r) = a)
                                                  || endpoint_gone (dl_EndpointID (dr_delivery r)));
      account_alert_channels ::= delete a;
      user_fcm_tokens ::= sql_delete (fun d => bool_decide (dv_AccountID d = a)) }}.
Definition erase_keys (s : KeyDB) : KeyDB :=
  s{{ api_keys ::= sql_delete (fun r => bool_decide (k_AccountID (kr_key r) = a));
      mobile_auth_tokens ::= sql_delete (fun r => bool_decide (mt_AccountID (mtr_token r) = a));
      mobile_mfa_challenges ::= sql_delete (fun r => bool_decide (ch_AccountID r = a));
      drill_share_links ::= sql_delete (fun r => bool_decide (l_AccountID (lr_link r) = a) || drill_gone (l_DrillID (lr_link r)));
      api_idempotency ::= filter (fun kr => kr.1.1 <> a) }}.
Definition erase_evidence (s : EvidenceDB) : EvidenceDB :=
  s{{ account_evidence_keys ::= delete a; evidence_signatures ::= filter (fun kr => drill_gone kr.1 = false) }}.
Definition cascade : DB :=
  db{{ drill_db ::= erase_drills; account_db ::= erase_accounts; hook_db ::= erase_hooks; key_db ::= erase_keys;
       evidence_db ::= erase_evidence;
       audit_events ::= map (fun e => e{{ ev_AccountID ::= unless (fun id => bool_decide (id = a)) }});
       auth_db -> sessions ::= fmap (fun s => s{{ ser_current_account_id ::= unless (fun id => bool_decide (id = a)) }}) }}.

(** heartbeats.account_id has no ON DELETE clause: a row refuses the delete,
    soft-deleted or not. *)
Definition heartbeats_left : bool :=
  sql_exists (fun r => bool_decide (h_AccountID (hr_heartbeat r) = a)) (heartbeats (monitor_db db)).
End cascade.

Section compliance.
Context `{env : Env} `{uuids : UuidLib} `{store : EvidenceStore}.

Definition delete_account (a : uuid) : GO unit :=
  exec (fun _ _ db =>
    match accounts (account_db db) !! a with
    | None => inr (db, tt)
    | Some _ => if heartbeats_left a db then inl (ErrConstraint "heartbeats_account_id_fkey") else inr (cascade a db, tt)
    end).

(** ** The purger (purge.go) *)

Definition ErrNotEligible : error := ErrNew "compliance: account not eligible for hard delete".
Definition DefaultGracePeriod : Z := 30 * 24 * 3600 * ns.
Definition NewPurger (grace : Z) : Z := if grace <? 0 then 0 else grace.

Definition SoftDelete (grace : Z) (accountID actorID : uuid) : GO time :=
  now ← time_Now;
  let purgeAfter := now + grace in
  n ← update_n (fun _ db =>
    let p r := bool_decide (a_ID (acr_account r) = accountID) && bool_decide (acr_deleted_at r = None) in
    (db{{ account_db -> accounts ::= sql_update p (fun r => r{{ acr_deleted_at := Some now; acr_purge_after := Some purgeAfter }}) }},
     sql_count p (accounts (account_db db))));
  if (n =? 0)%nat then fail (ErrNew "compliance: account not found or already deleted") else
  ignore (Record_ (mkEvent (Some accountID) (Some actorID) "account.soft_deleted" "account" (uuid_String accountID)
            [("purge_after", AString (FormatRFC3339 purgeAfter))]));;
  mret purgeAfter.

Definition load_deletion (accountID : uuid) : GO (option time * option time) :=
  query_row (fun _ db => r ← accounts (account_db db) !! accountID; Some (acr_deleted_at r, acr_purge_after r)).
Definition evidence_paths (accountID : uuid) (db : DB) : list string :=
  omap d_EvidencePath (sql_select (fun d => bool_decide (d_AccountID d = accountID)) (drills (drill_db db))).

(** The grace window: time.Now is read only when purge_after is set. *)
Definition in_grace (purgeAfter : option time) : GO bool :=
  match purgeAfter with None => mret false | Some t => now ← time_Now; mret (now <? t) end.

Definition HardDelete (accountID : uuid) : GO unit :=
  '(deletedAt, purgeAfter) ← wrap_err "load account" (load_deletion accountID);
  if bool_decide (deletedAt = None) then fail ErrNotEligible else
  early ← in_grace purgeAfter;
  if (early : bool) then fail ErrNotEligible else
  paths ← query (fun _ => evidence_paths accountID);
  wrap_err "crypto-shred evidence keys" (ShredAccountEvidence accountID);;
  for_each paths (fun path => wrap_err ("shred evidence " +:+ path) (DeleteKey path));;
  wrap_err "delete account" (delete_account accountID);;
  ignore (Record_ (mkEvent None None "account.hard_deleted" "account" (uuid_String accountID)
            [("evidence_files_shredded", AInt (Z.of_nat (length paths)))])).

Definition PurgeWork (accountID : uuid) : GO unit :=
  r ← try (HardDelete accountID);
  match r with
  | inl e => if errors_Is e ErrNotEligible then mret tt else fail e
  | inr _ => mret tt
  end.

(** ** The retention sweep (retention.go) *)

Definition AuditRetention : Z := 7 * 365 * 24 * 3600 * ns.
Definition LoginAttemptsRetention : Z := 30 * 24 * 3600 * ns.
Definition APIIdempotencyRetention : Z := 24 * 3600 * ns.
Definition HeartbeatPingsRetention : Z := 30 * 24 * 3600 * ns.

Record SweepResult : Type := mkSweepResult {
  EvidencePurged : Z; AuditPruned : Z; LoginsPruned : Z; IdempotencyPruned : Z; VerifyTokensPruned : Z;
  MagicLinksPruned : Z; HeartbeatPings : Z
}.

Definition prune_audit (now : time) : GO nat :=
  let old e := ev_At e <? now - AuditRetention in
  update_n (fun _ db => (db{{ audit_events ::= filter (fun e => old e = false) }},
                         length (filter (fun e => old e = true) (audit_events db)))).
Definition prune_idempotency (now : time) : GO nat :=
  let old r := sr_created_at r <? now - APIIdempotencyRetention in
  update_n (fun _ db => (db{{ key_db -> api_idempotency ::= sql_delete old }}, sql_count old (api_idempotency (key_db db)))).
Definition prune_verifications : GO nat :=
  update_n (fun now db =>
    let old r := tk_expires_at r <? now in
    (db{{ auth_db -> email_verification_tokens ::= sql_delete old }}, sql_count old (email_verification_tokens (auth_db db)))).
Definition prune_magic_links : GO nat :=
  update_n (fun now db =>
    let old r := tk_expires_at r <? now in
    (db{{ auth_db -> magic_link_tokens ::= sql_delete old }}, sql_count old (magic_link_tokens (auth_db db)))).

(** One step: its error is collected under a prefix, its count kept. *)
Definition step_ (prefix : string) (m : GO nat) (errs : list error) : GO (Z * list error) :=
  r ← try m;
  mret match r with inl e => (0, errs ++ [ErrWrap prefix e]) | inr n => (Z.of_nat n, errs) end.

(** Every step runs whatever the others did; errors.Join of what they
    returned.  A failed evidence purge counts as 0 here: the worker reads the
    result only of a sweep without errors. *)
Definition Sweep : GO (SweepResult * list error) :=
  '(ev, errs) ← step_ "purge evidence" PurgeExpired [];
  now ← time_Now;
  '(au, errs) ← step_ "prune audit_events" (prune_audit now) errs;
  '(lo, errs) ← (r ← try (Prune LoginAttemptsRetention);
                 mret match r with inl e => (0, errs ++ [ErrWrap "prune login_attempts" e]) | inr _ => (-1, errs) end);
  now ← time_Now;
  '(id, errs) ← step_ "prune api_idempotency" (prune_idempotency now) errs;
  '(ve, errs) ← step_ "prune email_verification_tokens" prune_verifications errs;
  '(ml, errs) ← step_ "prune magic_link_tokens" prune_magic_links errs;
  '(hp, errs) ← step_ "prune heartbeat_pings" (PrunePings HeartbeatPingsRetention) errs;
  mret (mkSweepResult ev au lo id ve ml hp, errs).

Definition RetentionWork : GO unit :=
  '(_, errs) ← Sweep; match errs with [] => mret tt | e :: _ => fail e end.

(** ** The export (export.go) *)

Context (jsonb : string -> any).          (* what pgx decodes a JSONB column to *)
Context (EncodeIndent : any -> string).   (* json.Encoder with SetIndent *)

Definition AUuid (u : uuid) : any := AString (uuid_String u).
Definition ATime (t : time) : any := AString (FormatRFC3339Nano t).
Definition ANull {A} (f : A -> any) (o : option A) : any := match o with Some x => f x | None => ANil end.
Definition Status_text (s : Status) : string :=
  match s with StatusPending => "pending" | StatusRunning => "running" | StatusSucceeded => "succeeded"
             | StatusFailed => "failed" | StatusSkipped => "skipped" end.
Definition by_time {R} (at_ : R -> time) (x y : R) : bool := at_ x <=? at_ y.
Definition by_id_then {R} (id : R -> uuid) (n : R -> Z) (x y : R) : bool :=
  (id x <? id y)%N || (bool_decide (id x = id y) && (n x <=? n y)).

Section sections.
Context (a : uuid) (db : DB).
Definition own_drill (id : uuid) : bool :=
  match drills (drill_db db) !! id with Some d => bool_decide (d_AccountID d = a) | None => false end.

Definition sec_account : any :=
  match accounts (account_db db) !! a with
  | None => ANil
  | Some r =>
      let c := acr_account r in
      AMap [("id", AUuid (a_ID c)); ("name", AString (a_Name c)); ("slug", AString (a_Slug c)); ("plan", AString (a_Plan c));
            ("stripe_customer_id", ANull AString (a_StripeCustomerID c)); ("created_at", ATime (a_CreatedAt c));
            ("deleted_at", ANull ATime (acr_deleted_at r))]
  end.
Definition sec_members : list any :=
  omap (fun m => u ← users (account_db db) !! m_UserID m;
    Some (AMap [("user_id", AUuid (m_UserID m)); ("email", AString (u_Email u)); ("role", AString (m_Role m));
                ("created_at", ATime (m_CreatedAt m))]))
    (order_by (by_time m_CreatedAt) (sql_select (fun m => bool_decide (m_AccountID m = a)) (memberships (account_db db)))).
Definition sec_targets : list any :=
  (fun r => let t := tr_target r in
    AMap [("id", AUuid (t_ID t)); ("name", AString (t_Name t)); ("source_kind", AString (t_SourceKind t));
          ("source_uri", AString (t_SourceURI t)); ("created_by_user_id", AUuid (t_CreatedByUserID t));
          ("created_at", ATime (t_CreatedAt t)); ("deleted_at", ANull ATime (tr_deleted_at r))])
  <$> order_by (by_time (fun r => t_CreatedAt (tr_target r)))
        (sql_select (fun r => bool_decide (t_AccountID (tr_target r) = a)) (targets (drill_db db))).
Definition sec_assertions : list any :=
  (fun x => AMap [("id", AUuid (as_ID x)); ("target_id", AUuid (as_TargetID x)); ("kind", AString (as_Kind x));
                  ("config", jsonb (as_Config x)); ("created_at", ATime (as_CreatedAt x))])
  <$> order_by (by_id_then as_TargetID as_CreatedAt)
        (sql_select (fun x => target_gone a db (as_TargetID x)) (target_assertions (drill_db db))).
Definition sec_drills : list any :=
  (fun d => AMap [("id", AUuid (d_ID d)); ("target_id", AUuid (d_TargetID d)); ("status", AString (Status_text (d_Status d)));
                  ("created_by_user_id", AUuid (d_CreatedByUserID d)); ("started_at", ANull ATime (d_StartedAt d));
                  ("completed_at", ANull ATime (d_CompletedAt d)); ("error", ANull AString (d_Error d));
                  ("evidence_path", ANull AString (d_EvidencePath d)); ("created_at", ATime (d_CreatedAt d))])
  <$> order_by (by_time d_CreatedAt) (sql_select (fun d => bool_decide (d_AccountID d = a)) (drills (drill_db db))).
Definition sec_steps : list any :=
  (fun s => AMap [("id", AUuid (s_ID s)); ("drill_id", AUuid (s_DrillID s)); ("name", AString (StepName_String (s_Name s)));
                  ("status", AString (Status_text (s_Status s))); ("started_at", ANull ATime (s_StartedAt s));
                  ("completed_at", ANull ATime (s_CompletedAt s)); ("error", ANull AString (s_Error s))])
  <$> order_by (by_id_then s_DrillID s_Ordinal) (sql_select (fun s => own_drill (s_DrillID s)) (drill_steps (drill_db db))).
Definition sec_results : list any :=
  (fun x => AMap [("id", AUuid (ar_ID x)); ("drill_id", AUuid (ar_DrillID x)); ("kind", AString (ar_Kind x));
                  ("expected", jsonb (ar_Expected x)); ("actual", jsonb (ar_Actual x)); ("passed", ABool (ar_Passed x));
                  ("at", ATime (ar_At x))])
  <$> order_by (by_time ar_At) (sql_select (fun x => own_drill (ar_DrillID x)) (assertion_results (drill_db db))).
Definition sec_signatures : list any :=
  (fun '(id, g) => let s := sg_Signature g in
    AMap [("drill_id", AUuid id); ("algorithm", AString (Algorithm s)); ("public_key_id", AString (PublicKeyID s));
          ("pdf_sha256", AString (PDFSHA256 s)); ("signed_at", ATime (SignedAt s)); ("retain_until", ATime (RetainUntil g))])
  <$> order_by (by_time (fun kg : uuid * SignatureRecord => SignedAt (sg_Signature kg.2)))
        (filter (fun kg => own_drill kg.1 = true) (map_to_list (evidence_signatures (evidence_db db)))).
Definition sec_endpoints : list any :=
  (fun r => let e := er_endpoint r in
    AMap [("id", AUuid (e_ID e)); ("url", AString (e_URL e)); ("enabled", ABool (e_Enabled e));
          ("created_at", ATime (e_CreatedAt e)); ("deleted_at", ANull ATime (er_deleted_at r))])
  <$> order_by (by_time (fun r => e_CreatedAt (er_endpoint r)))
        (sql_select (fun r => bool_decide (e_Account (er_endpoint r) = a)) (webhook_endpoints (hook_db db))).
Definition sec_deliveries : list any :=
  (fun r => let d := dr_delivery r in
    AMap [("id", AUuid (dl_ID d)); ("endpoint_id", AUuid (dl_EndpointID d)); ("event", AString (dl_Event d));
          ("status", AString (dl_Status d)); ("attempt_count", AInt (dl_AttemptCount d));
          ("last_status_code", ANull AInt (dl_LastStatusCode d)); ("created_at", ATime (dl_CreatedAt d));
          ("delivered_at", ANull ATime (dl_DeliveredAt d))])
  <$> order_by (by_time (fun r => dl_CreatedAt (dr_delivery r)))
        (sql_select (fun r => bool_decide (dl_AccountID (dr_delivery r) = a)) (webhook_deliveries (hook_db db))).
Definition sec_audit : list any :=
  (fun e => AMap [("id", AInt (ev_ID e)); ("at", ATime (ev_At e)); ("actor_id", ANull AUuid (ev_ActorID e));
                  ("action", AString (ev_Action e)); ("target_kind", ANull AString (ev_TargetKind e));
                  ("target_id", ANull AString (ev_TargetID e)); ("metadata", AMap (ev_Metadata e))])
  <$> order_by (by_time ev_At) (filter (fun e => ev_AccountID e = Some a) (audit_events db)).
End sections.

(** A nil slice encodes as null. *)
Definition rows_json (l : list any) : any := match l with [] => ANil | _ => AList l end.

Definition export_sections : list (string * (uuid -> DB -> list any)) :=
  [("members", sec_members); ("database_targets", sec_targets); ("assertions", sec_assertions); ("drills", sec_drills);
   ("drill_steps", sec_steps); ("assertion_results", sec_results); ("evidence_signatures", sec_signatures);
   ("webhook_endpoints", sec_endpoints); ("webhook_deliveries", sec_deliveries); ("audit_events", sec_audit)].

Fixpoint read_sections (secs : list (string * (uuid -> DB -> list any))) (a : uuid) : GO (list (string * any)) :=
  match secs with
  | [] => mret []
  | (name, sec) :: secs' => rows ← query (fun _ db => sec a db); l ← read_sections secs' a; mret ((name, rows_json rows) :: l)
  end.
Definition Export (a : uuid) : GO string :=
  now ← time_Now;
  account ← query (fun _ db => sec_account a db);
  l ← read_sections export_sections a;
  mret (EncodeIndent (AMap (("export_generated_at", AString (FormatRFC3339 now)) :: ("account_id", AUuid a)
                             :: ("account", account) :: l))).

(** ** The handlers (web/handlers/compliance.go) *)

Context (who : Who).

Definition accountExport : GO response :=
  or_else (Export (a_ID (acct who))) err_500 (fun doc =>
    audit_ who "account.exported" "account" (uuid_String (a_ID (acct who))) [];;
    mret (Text StatusOK doc)).

(** River's Insert with ScheduledAt. *)
Definition InsertPurge (accountID : uuid) (at_ : time) : GO unit :=
  exec (fun _ id db => match purge_jobs (evidence_db db) !! id with
                       | Some _ => inl ErrUnique
                       | None => inr (db{{ evidence_db -> purge_jobs ::= <[ id := (accountID, at_) ]> }}, tt)
                       end).

Definition accountDelete (grace : Z) : GO response :=
  if negb (bool_decide (m_Role <$> membership who = Some "owner")) then mret (HTTPError StatusForbidden) else
  or_else (SoftDelete grace (a_ID (acct who)) (au_ID (user who))) err_500 (fun purgeAfter =>
    ignore (InsertPurge (a_ID (acct who)) purgeAfter);;
    mret (Render StatusOK "AccountDeleted")).
End compliance.
