(* ===== verification/Pdf.v ===== *)
(** internal/report/pdf.go: the evidence PDF of a drill, as the calls it makes
    to the fpdf library. *)
From S2P Require Import Prelude Crypto Effects Schema Encoding Path Time DrillStore Assertions Runner Steps Http Billing AuthStore RateLimit.
From S2P Require Import Cipher Signer EvidenceStore Evidence Scheduler Targets Compliance.
From Stdlib Require Import Ascii SpecFloat.

(** ** Runes: Go's decoding of a string *)

Definition RuneError : Z := 65533.
Definition in_range (lo hi : Z) (c : ascii) : bool := (lo <=? byte_of c) && (byte_of c <=? hi).
(** The first rune and its width; a malformed sequence is one RuneError. *)
Definition DecodeRune (l : list ascii) : Z * nat :=
  match l with
  | [] => (RuneError, 0%nat)
  | a :: l =>
      let x := byte_of a in
      if x <? 128 then (x, 1%nat) else
      match l with
      | b :: l =>
          if in_range 194 223 a && in_range 128 191 b then ((x - 192) * 64 + (byte_of b - 128), 2%nat) else
          match l with
          | c :: l =>
              if in_range 224 239 a && in_range (if x =? 224 then 160 else 128) (if x =? 237 then 159 else 191) b
                 && in_range 128 191 c
              then ((x - 224) * 4096 + (byte_of b - 128) * 64 + (byte_of c - 128), 3%nat) else
              match l with
              | d :: _ =>
                  if in_range 240 244 a && in_range (if x =? 240 then 144 else 128) (if x =? 244 then 143 else 191) b
                     && in_range 128 191 c && in_range 128 191 d
                  then ((x - 240) * 262144 + (byte_of b - 128) * 4096 + (byte_of c - 128) * 64 + (byte_of d - 128), 4%nat)
                  else (RuneError, 1%nat)
              | [] => (RuneError, 1%nat)
              end
          | [] => (RuneError, 1%nat)
          end
      | [] => (RuneError, 1%nat)
      end
  end.
Fixpoint runes_from (skip : nat) (l : list ascii) : list Z :=
  match l with
  | [] => []
  | _ :: l' =>
      match skip with
      | S k => runes_from k l'
      | O => let '(r, width) := DecodeRune l in r :: runes_from (width - 1) l'
      end
  end.
Definition runes (s : string) : list Z := runes_from 0 (chars s).

(** string([]rune) for runes below U+0800. *)
Definition EncodeRune (r : Z) : list ascii :=
  if r <? 128 then [of_byte r] else [of_byte (192 + r / 64); of_byte (128 + r mod 64)].

(** latin1: a rune above U+00FF becomes a question mark. *)
Definition latin1 (s : string) : string :=
  if existsb (fun r => 255 <? r) (runes s)
  then unchars (concat (EncodeRune ∘ (fun r => if 255 <? r then 63 else r) <$> runes s))
  else s.

(** ** time.Duration: Round and String *)

Definition duration_Round (d m : Z) : Z :=
  if m <=? 0 then d else
  let r := Z.rem d m in
  if d <? 0 then
    if - r + - r <? m then d - r
    else let d1 := d - m - r in if - 2 ^ 63 <=? d1 then d1 else - 2 ^ 63
  else if r + r <? m then d - r
  else let d1 := d + m - r in if d1 <? 2 ^ 63 then d1 else 2 ^ 63 - 1.

(** fmtFrac: v / 10^prec, its fraction without trailing zeros. *)
Definition fmtFrac (v : Z) (prec : nat) : string :=
  match drop_zeros (chars (padded prec (v mod 10 ^ Z.of_nat prec))) with [] => "" | l => "." +:+ unchars l end.
Definition micro_s : string := String (of_byte 194) (String (of_byte 181) "s").
Definition Duration_String (d : Z) : string :=
  let u := Z.abs d in
  (if d <? 0 then "-" else "") +:+
  if u =? 0 then "0s"
  else if u <? 1000 then show_Z u +:+ "ns"
  else if u <? 1000000 then show_Z (u / 1000) +:+ fmtFrac u 3 +:+ micro_s
  else if u <? second then show_Z (u / 1000000) +:+ fmtFrac u 6 +:+ "ms"
  else
    let s := u / second in
    (if 60 <=? s then (if 3600 <=? s then show_Z (s / 3600) +:+ "h" else "") +:+ show_Z (s / 60 mod 60) +:+ "m" else "")
    +:+ show_Z (s mod 60) +:+ fmtFrac u 9 +:+ "s".

Example duration_strings : Duration_String (3600 * second + 5250000000) = "1h0m5.25s" /\ Duration_String 1500000 = "1.5ms" /\
  Duration_String (- 61 * second) = "-1m1s" /\ duration_Round 1499999 1000000 = 1000000 /\ duration_Round (- 1500000) 1000000 = - 2000000.
Proof. vm_compute. done. Qed.

(** ** The library *)

Abbreviation mm := spec_float.
Definition n_ (z : Z) : mm := F64.of_int z.

(** One call on the document, in the order of the API's arguments. *)
Inductive PdfOp : Type :=
| SetMargins (left top right : mm)
| AddPage
| SetFont (family style : string) (size : mm)
| SetTextColor (r g b : Z)
| SetFillColor (r g b : Z)
| Cell (w h : mm) (txt : string)
| CellFormat (w h : mm) (txt border : string) (ln : Z) (align : string) (fill : bool)
| MultiCell (w h : mm) (txt border align : string) (fill : bool)
| Ln (h : mm)
| Rect (x y w h : mm) (style : string)
| SetXY (x y : mm).

(** What the document answers after the calls made on it so far; SplitText
    may panic. *)
Class Fpdf : Type := {
  fpdf_SplitText : list PdfOp -> string -> mm -> option (list string);
  fpdf_GetMargins : list PdfOp -> mm * mm * mm * mm;
  fpdf_GetPageSize : list PdfOp -> mm * mm;
  fpdf_GetX : list PdfOp -> mm;
  fpdf_GetY : list PdfOp -> mm;
  fpdf_Output : list PdfOp -> error + string
}.
(** SplitText indexes its table of widths by the rune. *)
Class FpdfOk `{Fpdf} : Prop := {
  SplitText_latin1 : forall doc s w, Forall (fun r => r <= 255) (runes s) -> fpdf_SplitText doc s w <> None
}.

(** Drawing: [None] is a panic. *)
Definition Pdf (A : Type) : Type := list PdfOp -> option (A * list PdfOp).
#[global] Instance Pdf_ret : MRet Pdf := fun A a doc => Some (a, doc).
#[global] Instance Pdf_bind : MBind Pdf := fun A B k m doc => match m doc with Some (a, doc') => k a doc' | None => None end.
Definition draw (op : PdfOp) : Pdf unit := fun doc => Some (tt, doc ++ [op]).
Definition ask {A} (f : list PdfOp -> A) : Pdf A := fun doc => Some (f doc, doc).
Definition may_panic {A} (f : list PdfOp -> option A) : Pdf A := fun doc => a ← f doc; Some (a, doc).

Section report.
Context `{uuids : UuidLib} `{fpdf : Fpdf}.
(** json.Unmarshal into an any, json.Marshal of it. *)
Context (Unmarshal : string -> error + any) (Marshal : any -> error + string).

Record Data : Type := mkData {
  da_Drill : Drill; da_Target : Target; da_Steps : list Step; da_Assertions : list AssertionResult;
  da_Operator : string; da_GeneratedAt : time
}.

Definition fmtTime (t : option time) : string := match t with None => "-" | Some t => FormatRFC3339 t end.
Definition sourceHashOrDash (h : option string) : string :=
  match h with
  | Some h => if bool_decide (h = "") then "-  (not recorded; drill predates source_hash)" else h
  | None => "-  (not recorded; drill predates source_hash)"
  end.
Definition duration (start end_ : option time) : string :=
  match start, end_ with
  | Some s, Some e => Duration_String (duration_Round (Sub e s) 1000000)
  | _, _ => "-"
  end.
Definition outputDigest (sha : option string) (truncated : option bool) : string :=
  match sha with
  | None => "-"
  | Some sha =>
      if bool_decide (sha = "") then "-" else
      let short := if (12 <? String.length sha)%nat then String.substring 0 12 sha +:+ "..." else sha in
      match truncated with Some true => short +:+ " (snippet truncated)" | _ => short end
  end.
Definition prettyJSON (b : string) : string :=
  match Unmarshal b with
  | inl _ => b
  | inr v => match Marshal v with inl _ => b | inr out => out end
  end.

(** ** Tables *)

Definition tableLineH : mm := n_ 5.

(** The tallest column of a row. *)
Fixpoint max_lines (widths : list mm) (cells : list string) (maxLines : nat) : Pdf nat :=
  match cells, widths with
  | [], _ => mret maxLines
  | c :: cells, w :: widths =>
      lines ← may_panic (fun doc => fpdf_SplitText doc (latin1 c) (F64.sub w (n_ 2)));
      max_lines widths cells (Nat.max maxLines (length lines))
  | _ :: _, [] => fun _ => None     (* index out of range *)
  end.
Fixpoint draw_cells (widths : list mm) (cells : list string) (x y rowH : mm) (style : string) : Pdf unit :=
  match cells, widths with
  | [], _ => mret tt
  | c :: cells, w :: widths =>
      draw (Rect x y w rowH style);;
      draw (SetXY (F64.add x (n_ 1)) (F64.add y (n_ 1)));;
      draw (MultiCell (F64.sub w (n_ 2)) tableLineH c "" "L" false);;
      draw_cells widths cells (F64.add x w) y rowH style
  | _ :: _, [] => fun _ => None
  end.
Definition tableRow (widths : list mm) (cells : list string) (fill : bool) (onNewPage : option (Pdf unit)) : Pdf unit :=
  maxLines ← max_lines widths cells 1;
  let rowH := F64.mul (n_ (Z.of_nat maxLines)) tableLineH in
  '(lMargin, _, _, bMargin) ← ask fpdf_GetMargins;
  '(_, pageH) ← ask fpdf_GetPageSize;
  curY ← ask fpdf_GetY;
  (if SFltb (F64.sub pageH bMargin) (F64.add curY rowH)
   then draw AddPage;; match onNewPage with Some f => f | None => mret tt end
   else mret tt);;
  x ← ask fpdf_GetX;
  y ← ask fpdf_GetY;
  draw_cells widths cells x y rowH (if fill then "FD" else "D");;
  draw (SetXY lMargin (F64.add y rowH)).

Definition drawHeader (widths : list mm) (header : list string) : Pdf unit :=
  draw (SetFont "Helvetica" "B" (n_ 9));;
  draw (SetFillColor 240 240 240);;
  tableRow widths header true None;;
  draw (SetFont "Helvetica" "" (n_ 9)).
Fixpoint draw_rows (widths : list mm) (header : list string) (rows : list (list string)) : Pdf unit :=
  match rows with
  | [] => mret tt
  | row :: rows => tableRow widths row false (Some (drawHeader widths header));; draw_rows widths header rows
  end.
Definition table (widths : list mm) (header : list string) (rows : list (list string)) (emptyMsg : string) : Pdf unit :=
  drawHeader widths header;;
  match rows with
  | [] => draw (CellFormat (foldl F64.add (S754_zero false) widths) (n_ 6) emptyMsg "1" 1 "L" false)
  | _ => draw_rows widths header rows
  end.

Definition step_cells (s : Step) : list string :=
  [StepName_String (s_Name s); Status_text (s_Status s); fmtTime (s_StartedAt s); fmtTime (s_CompletedAt s);
   duration (s_StartedAt s) (s_CompletedAt s); outputDigest (s_OutputSHA256 s) (s_OutputTruncated s)].
Definition stepsTable (steps : list Step) : Pdf unit :=
  table (n_ <$> [32; 22; 38; 38; 22; 28]) ["Name"; "Status"; "Started"; "Completed"; "Duration"; "Output SHA-256"]
    (step_cells <$> steps) "(no steps recorded)".
Definition assertion_cells (ar : AssertionResult) : list string :=
  [ar_Kind ar; prettyJSON (ar_Expected ar); prettyJSON (ar_Actual ar); if ar_Passed ar then "PASS" else "FAIL"].
Definition assertionsTable (ars : list AssertionResult) : Pdf unit :=
  table (n_ <$> [30; 70; 60; 20]) ["Kind"; "Expected"; "Actual"; "Result"] (assertion_cells <$> ars) "(no assertions ran)".

(** ** The report *)

Definition verdict_text (d : Data) : string :=
  match d_Status (da_Drill d) with
  | StatusSucceeded => if bool_decide (da_Assertions d = []) then "RESTORED (no assertions configured)" else "PASSED"
  | StatusSkipped => "SKIPPED"
  | _ => "FAILED"
  end.
Definition DomainSite : string := "dokaz.net".
Definition pairs (d : Data) : list (string * string) :=
  let dr := da_Drill d in
  [("Drill ID", uuid_String (d_ID dr)); ("Target", t_Name (da_Target d));
   ("Source", t_SourceKind (da_Target d) +:+ ": " +:+ t_SourceURI (da_Target d));
   ("Source SHA-256", sourceHashOrDash (d_SourceHash dr)); ("Status", Status_text (d_Status dr));
   ("Started", fmtTime (d_StartedAt dr)); ("Completed", fmtTime (d_CompletedAt dr));
   ("Duration", duration (d_StartedAt dr) (d_CompletedAt dr)); ("Generated", FormatRFC3339 (da_GeneratedAt d))]
  ++ (if bool_decide (da_Operator d = "") then [] else [("Operator", da_Operator d)]).
Fixpoint draw_pairs (l : list (string * string)) : Pdf unit :=
  match l with
  | [] => mret tt
  | (k, v) :: l =>
      draw (SetFont "Helvetica" "B" (n_ 10));;
      draw (CellFormat (n_ 35) (n_ 6) k "" 0 "L" false);;
      draw (SetFont "Helvetica" "" (n_ 10));;
      draw (MultiCell (n_ 0) (n_ 6) v "" "L" false);;
      draw_pairs l
  end.
Definition failure_reason (e : option string) : Pdf unit :=
  match e with
  | Some e =>
      if bool_decide (e = "") then mret tt else
      draw (Ln (n_ 2));;
      draw (SetFont "Helvetica" "B" (n_ 10));;
      draw (CellFormat (n_ 0) (n_ 6) "Failure reason" "" 1 "L" false);;
      draw (SetFont "Helvetica" "" (n_ 9));;
      draw (MultiCell (n_ 0) (n_ 5) e "" "L" false)
  | None => mret tt
  end.
(** A section title above its table. *)
Definition section_title (gap : Z) (title : string) : Pdf unit :=
  draw (Ln (n_ gap));; draw (SetFont "Helvetica" "B" (n_ 12));; draw (CellFormat (n_ 0) (n_ 7) title "" 1 "L" false).

Definition title_block : Pdf unit :=
  draw (SetMargins (n_ 15) (n_ 15) (n_ 15));; draw AddPage;;
  draw (SetFont "Helvetica" "B" (n_ 18));; draw (Cell (n_ 0) (n_ 10) "Proof of Recovery");; draw (Ln (n_ 8));;
  draw (SetFont "Helvetica" "" (n_ 10));; draw (SetTextColor 110 110 110);;
  draw (Cell (n_ 0) (n_ 6) ("Backup restore-test evidence - " +:+ ProductName));; draw (SetTextColor 0 0 0);; draw (Ln (n_ 10));;
  draw (SetFont "Helvetica" "" (n_ 10)).
Definition compliance_note : string :=
  "This Proof-of-Recovery report is evidence that the backup above was "
  +:+ "restored and checked on the date shown. It supports the regularly-"
  +:+ "tested-backup requirements of ISO/IEC 27001:2022 Annex A 8.13 and "
  +:+ "the SOC 2 Availability criterion A1.3, and the restore-within-the-"
  +:+ "last-12-months evidence many cyber-insurance carriers require at " +:+ "renewal.".
Definition seal_note : string :=
  "This report is sealed with a detached cryptographic signature over "
  +:+ "its SHA-256 digest; verify it from the drill detail page or with "
  +:+ "the open-source dokaz-verify tool against the published signing key.".
Definition closing_block : Pdf unit :=
  draw (Ln (n_ 6));; draw (SetFont "Helvetica" "B" (n_ 9));;
  draw (CellFormat (n_ 0) (n_ 5) "Compliance and insurance" "" 1 "L" false);;
  draw (SetFont "Helvetica" "" (n_ 8));; draw (MultiCell (n_ 0) (n_ 4) compliance_note "" "L" false);;
  draw (Ln (n_ 3));; draw (SetFont "Helvetica" "I" (n_ 8));; draw (MultiCell (n_ 0) (n_ 4) seal_note "" "L" false);;
  draw (Ln (n_ 2));; draw (SetFont "Helvetica" "B" (n_ 8));;
  draw (CellFormat (n_ 0) (n_ 4) ("Verified by " +:+ ProductName +:+ " - " +:+ DomainSite) "" 1 "C" false).

Definition layout (d : Data) : Pdf unit :=
  title_block;;
  draw (SetFont "Helvetica" "B" (n_ 12));;
  draw (CellFormat (n_ 0) (n_ 7) ("Verdict: " +:+ verdict_text d) "" 1 "L" false);;
  draw (Ln (n_ 2));;
  draw (SetFont "Helvetica" "" (n_ 10));;
  draw_pairs (pairs d);;
  failure_reason (d_Error (da_Drill d));;
  section_title 4 "Steps";;
  stepsTable (da_Steps d);;
  section_title 4 "Assertions";;
  assertionsTable (da_Assertions d);;
  closing_block.
(** [None]: the renderer panicked. *)
Definition Render_ (d : Data) : option (error + string) := '(_, doc) ← layout d []; Some (fpdf_Output doc).
End report.
