(* ===== verification/PdfFacts.v ===== *)
(** What the evidence PDF says: the renderer never panics, its verdict is the
    one the assertions earned, and every step and result is on it. *)
From S2P Require Import Prelude Crypto Effects Schema Encoding Path Time DrillStore Assertions Runner Steps Demo Http Billing AuthStore RateLimit.
From S2P Require Import Cipher Signer EvidenceStore Evidence Scheduler Targets Compliance Pdf.
From Stdlib Require Import Ascii SpecFloat ZifyBool.

(** ** Runes *)

Lemma DecodeRune_nonneg l : 0 <= (DecodeRune l).1.
Proof.
  unfold DecodeRune, in_range, RuneError.
  repeat match goal with
  | |- context [byte_of ?c] => lazymatch goal with H : is_byte (byte_of c) |- _ => fail | _ => pose proof (byte_of_range c) end
  | |- context [match ?x with _ => _ end] => destruct x eqn:?
  end; unfold is_byte in *; simpl;
  repeat match goal with H : context [if ?x then _ else _] |- _ => destruct x end; lia.
Qed.
Lemma runes_nonneg l : forall k, Forall (fun r => 0 <= r) (runes_from k l).
Proof.
  induction l as [|c l IH]; intros k; [constructor|]. destruct k; cbn [runes_from]; [|apply IH].
  pose proof (DecodeRune_nonneg (c :: l)). destruct (DecodeRune (c :: l)) as [r width]. constructor; [done|apply IH].
Qed.

Lemma decode_encode r l : 0 <= r <= 255 -> DecodeRune (EncodeRune r ++ l) = (r, length (EncodeRune r)).
Proof.
  intros Hr. unfold EncodeRune. destruct (r <? 128) eqn:E; [apply Z.ltb_lt in E|apply Z.ltb_ge in E]; cbn [app DecodeRune].
  - rewrite byte_of_of_byte by (unfold is_byte; lia). by rewrite (proj2 (Z.ltb_lt r 128)).
  - assert (2 <= r / 64 < 4) by (split; [apply Z.div_le_lower_bound|apply Z.div_lt_upper_bound]; lia).
    pose proof (Z.mod_pos_bound r 64 ltac:(lia)). unfold in_range. rewrite !byte_of_of_byte by (unfold is_byte; lia).
    rewrite (proj2 (Z.ltb_ge (192 + r / 64) 128)) by lia.
    rewrite !(proj2 (Z.leb_le _ _)) by lia. cbn [andb length]. f_equal. pose proof (Z.div_mod r 64 ltac:(lia)). lia.
Qed.
Lemma runes_encode l : Forall (fun r => 0 <= r <= 255) l -> runes (unchars (concat (EncodeRune <$> l))) = l.
Proof.
  unfold runes. rewrite chars_unchars. induction 1 as [|r l Hr Hl IH]; [done|]. cbn [fmap list_fmap concat].
  pose proof (decode_encode r (concat (EncodeRune <$> l)) Hr) as E. unfold EncodeRune in *.
  destruct (r <? 128); cbn [app runes_from length] in *; rewrite E; cbn [runes_from Nat.sub]; by rewrite IH.
Qed.
Lemma latin1_ok s : Forall (fun r => r <= 255) (runes (latin1 s)).
Proof.
  unfold latin1. destruct (existsb _ (runes s)) eqn:E.
  - rewrite list_fmap_compose, runes_encode.
    + apply Forall_fmap, Forall_true. intros r. simpl. destruct (255 <? r) eqn:?; lia.
    + apply Forall_fmap. eapply Forall_impl; [apply runes_nonneg|]. intros r Hr. simpl in *. destruct (255 <? r) eqn:?; lia.
  - apply Forall_forall. intros r Hr. destruct (255 <? r) eqn:Er; [|lia].
    exfalso. revert E. apply not_false_iff_true, existsb_exists. exists r. by rewrite <- list_elem_of_In.
Qed.

(** ** The renderer never panics *)

Definition safe {A} (m : Pdf A) : Prop := forall doc, m doc <> None.
Lemma safe_ret {A} (a : A) : safe (mret a). Proof. done. Qed.
Lemma safe_draw op : safe (draw op). Proof. done. Qed.
Lemma safe_ask {A} (f : list PdfOp -> A) : safe (ask f). Proof. done. Qed.
Lemma safe_bind {A B} (m : Pdf A) (k : A -> Pdf B) : safe m -> (forall a, safe (k a)) -> safe (m ≫= k).
Proof. intros Hm Hk doc. unfold mbind, Pdf_bind. destruct (m doc) as [[a doc']|] eqn:E; [apply Hk|by destruct (Hm doc)]. Qed.
#[export] Hint Resolve safe_ret safe_draw safe_ask : dokas.
Ltac safe_steps :=
  repeat first [ progress auto with dokas | apply safe_bind; [|intros []] | apply safe_bind; [|intros ?] | case_match ].

Section facts.
Context `{uuids : UuidLib} `{fpdf : Fpdf}.
Context (Unmarshal : string -> error + any) (Marshal : any -> error + string).

(** *** No panic *)

Lemma safe_max_lines `{!FpdfOk} widths cells n : (length cells <= length widths)%nat -> safe (max_lines widths cells n).
Proof.
  revert widths n. induction cells as [|c cells IH]; intros [|w widths] n Hl; simpl in *; [auto with dokas..|lia|].
  apply safe_bind; [|intros lines; apply IH; lia]. intros doc. unfold may_panic.
  pose proof (SplitText_latin1 doc (latin1 c) (F64.sub w (n_ 2)) (latin1_ok c)).
  by destruct (fpdf_SplitText _ _ _).
Qed.
Lemma safe_draw_cells widths cells x y h st : (length cells <= length widths)%nat -> safe (draw_cells widths cells x y h st).
Proof.
  revert widths x. induction cells as [|c cells IH]; intros [|w widths] x Hl; simpl in *; [auto with dokas..|lia|].
  safe_steps. apply IH. lia.
Qed.
Lemma safe_tableRow `{!FpdfOk} widths cells fill f :
  (length cells <= length widths)%nat -> (forall g, f = Some g -> safe g) -> safe (tableRow widths cells fill f).
Proof.
  intros Hl Hf. unfold tableRow. apply safe_bind; [by apply safe_max_lines|intros lines].
  apply safe_bind; [done|intros [[[lm ?] ?] bm]]. apply safe_bind; [done|intros [? ph]]. apply safe_bind; [done|intros cy].
  apply safe_bind; [case_match; safe_steps; by apply Hf|intros []].
  apply safe_bind; [done|intros x]. apply safe_bind; [done|intros y].
  apply safe_bind; [by apply safe_draw_cells|intros []]. auto with dokas.
Qed.
Lemma safe_table `{!FpdfOk} widths header rows msg : (length header <= length widths)%nat ->
  Forall (fun r => length r <= length widths)%nat rows -> safe (table widths header rows msg).
Proof.
  intros Hh Hr. assert (safe (drawHeader widths header)) as Hd 
    by (unfold drawHeader; do 2 (apply safe_bind; [done|intros []]); apply safe_bind; [by apply safe_tableRow|done]).
  unfold table. apply safe_bind; [done|intros []]. destruct Hr as [|row rows Hr Hrs]; [done|].
  assert (Forall (fun r => length r <= length widths)%nat (row :: rows)) as Hall by by constructor.
  clear Hr Hrs. induction Hall as [|r l Hr Hl IH]; [done|]. cbn [draw_rows].
  apply safe_bind; [apply safe_tableRow; [done|by intros g [= <-]]|intros []]. exact IH.
Qed.
Lemma safe_draw_pairs l : safe (draw_pairs l).
Proof. induction l as [|[k v] l IH]; [done|]. cbn [draw_pairs]. do 4 (apply safe_bind; [done|intros []]). exact IH. Qed.
Lemma safe_failure_reason e : safe (failure_reason e).
Proof. unfold failure_reason. repeat case_match; try done; repeat (apply safe_bind; [done|intros []]); done. Qed.
Lemma safe_section_title gap title : safe (section_title gap title).
Proof. unfold section_title. do 2 (apply safe_bind; [done|intros []]). done. Qed.
Lemma safe_steps_table `{!FpdfOk} steps : safe (stepsTable steps).
Proof. apply safe_table; [simpl; lia|]. apply Forall_fmap, Forall_true. intros s. simpl. lia. Qed.
Lemma safe_assertions_table `{!FpdfOk} ars : safe (assertionsTable Unmarshal Marshal ars).
Proof. apply safe_table; [simpl; lia|]. apply Forall_fmap, Forall_true. intros s. simpl. lia. Qed.
Lemma safe_layout `{!FpdfOk} d : safe (layout Unmarshal Marshal d).
Proof.
  unfold layout.
  repeat (apply safe_bind; [solve [ done | apply safe_draw_pairs | apply safe_failure_reason | apply safe_section_title
    | apply safe_steps_table | apply safe_assertions_table ]|intros []]).
  done.
Qed.

(** *** What is drawn: the headings, and a sublist of the wrapped texts *)

Definition headings (ops : list PdfOp) : list string := omap (fun op => match op with CellFormat _ _ t _ _ _ _ => Some t | _ => None end) ops.
Definition texts (ops : list PdfOp) : list string := omap (fun op => match op with MultiCell _ _ t _ _ _ => Some t | _ => None end) ops.
Definition draws {A} (m : Pdf A) (hs ts : list string) : Prop :=
  forall doc a doc', m doc = Some (a, doc') -> exists ops, doc' = doc ++ ops /\ headings ops = hs /\ ts `sublist_of` texts ops.

Lemma draws_bind {A B} (m : Pdf A) (k : A -> Pdf B) hs ts hs' ts' :
  draws m hs ts -> (forall a, draws (k a) hs' ts') -> draws (m ≫= k) (hs ++ hs') (ts ++ ts').
Proof.
  intros Hm Hk doc b doc2. unfold mbind, Pdf_bind. destruct (m doc) as [[a doc1]|] eqn:E; [|done]. intros E2.
  destruct (Hm _ _ _ E) as (o1 & -> & <- & H1). destruct (Hk _ _ _ _ E2) as (o2 & -> & <- & H2).
  exists (o1 ++ o2). unfold headings, texts in *. rewrite !omap_app, <- app_assoc. split_and!; [done..|]. by apply sublist_app.
Qed.
Lemma draws_weaken {A} (m : Pdf A) hs ts ts' : draws m hs ts -> ts' `sublist_of` ts -> draws m hs ts'.
Proof. intros Hm Hs doc a doc' E. destruct (Hm _ _ _ E) as (o & -> & <- & H). exists o. split_and!; [done..|]. by etransitivity. Qed.
Lemma draws_ret {A} (a : A) : draws (mret a) [] [].
Proof. intros doc b doc' [= <- <-]. exists []. by rewrite app_nil_r. Qed.
Lemma draws_ask {A} (f : list PdfOp -> A) : draws (ask f) [] [].
Proof. intros doc b doc' [= <- <-]. exists []. by rewrite app_nil_r. Qed.
Lemma draws_panic {A} (f : list PdfOp -> option A) : draws (may_panic f) [] [].
Proof. intros doc b doc'. unfold may_panic. destruct (f doc); [|done]. intros [= <- <-]. exists []. by rewrite app_nil_r. Qed.
Lemma draws_op op : draws (draw op) (headings [op]) (texts [op]).
Proof. intros doc b doc' [= <- <-]. by exists [op]. Qed.

Lemma draws_max_lines widths cells n : draws (max_lines widths cells n) [] [].
Proof.
  revert widths n. induction cells as [|c cells IH]; intros [|w widths] n; simpl; [apply draws_ret..|done|].
  apply (draws_bind _ _ [] [] [] []); [apply draws_panic|intros; apply IH].
Qed.
Lemma draws_cells widths cells x y h st : draws (draw_cells widths cells x y h st) [] cells.
Proof.
  revert widths x. induction cells as [|c cells IH]; intros [|w widths] x; simpl; [apply draws_ret..|done|].
  apply (draws_bind _ _ [] [] [] (c :: cells)); [apply draws_op|intros _].
  apply (draws_bind _ _ [] [] [] (c :: cells)); [apply draws_op|intros _].
  apply (draws_bind _ _ [] [c] [] cells); [apply draws_op|intros _]. apply IH.
Qed.
Lemma draws_tableRow widths cells fill f :
  (forall g, f = Some g -> draws g [] []) -> draws (tableRow widths cells fill f) [] cells.
Proof.
  intros Hf. unfold tableRow.
  apply (draws_bind _ _ [] [] [] cells); [apply draws_max_lines|intros lines].
  apply (draws_bind _ _ [] [] [] cells); [apply draws_ask|intros [[[lm ?] ?] bm]].
  apply (draws_bind _ _ [] [] [] cells); [apply draws_ask|intros [? ph]].
  apply (draws_bind _ _ [] [] [] cells); [apply draws_ask|intros cy].
  apply (draws_bind _ _ [] [] [] cells).
  { case_match; [|apply draws_ret]. apply (draws_bind _ _ [] [] [] []); [apply draws_op|intros _]. destruct f; [by apply Hf|apply draws_ret]. }
  intros _. do 2 (apply (draws_bind _ _ [] [] [] cells); [apply draws_ask|intros ?]).
  rewrite <- (app_nil_r cells) at 2. apply (draws_bind _ _ [] cells [] []); [apply draws_cells|intros _]. apply draws_op.
Qed.
Lemma draws_header widths header : draws (drawHeader widths header) [] [].
Proof.
  unfold drawHeader. do 2 (apply (draws_bind _ _ [] [] [] []); [apply draws_op|intros _]).
  apply (draws_bind _ _ [] [] [] []); [|intros _; apply draws_op].
  eapply draws_weaken; [by apply draws_tableRow|apply sublist_nil_l].
Qed.
Lemma draws_rows widths header rows : draws (draw_rows widths header rows) [] (concat rows).
Proof.
  induction rows as [|row rows IH]; cbn [draw_rows concat]; [apply draws_ret|].
  apply (draws_bind _ _ [] row [] _); [|intros _; exact IH]. apply draws_tableRow. intros g [= <-]. apply draws_header.
Qed.
Lemma draws_table widths header rows msg :
  draws (table widths header rows msg) (match rows with [] => [msg] | _ => [] end) (concat rows).
Proof.
  unfold table. apply (draws_bind _ _ [] [] _ _); [apply draws_header|intros _].
  destruct rows; [apply draws_op|apply draws_rows].
Qed.
Lemma draws_pairs l : draws (draw_pairs l) (fst <$> l) (snd <$> l).
Proof.
  induction l as [|[k v] l IH]; [apply draws_ret|]. cbn [draw_pairs fmap list_fmap fst snd].
  apply (draws_bind _ _ [] [] (k :: _) (v :: _)); [apply draws_op|intros _].
  apply (draws_bind _ _ [k] [] _ (v :: _)); [apply draws_op|intros _].
  apply (draws_bind _ _ [] [] _ (v :: _)); [apply draws_op|intros _].
  apply (draws_bind _ _ [] [v] _ _); [apply draws_op|intros _]. exact IH.
Qed.
Lemma draws_failure_reason e : exists hs, draws (failure_reason e) hs [] /\ filter (fun h => HasPrefix h "Verdict: " = true) hs = [].
Proof.
  unfold failure_reason. destruct e as [e|]; [case_match|]; [eexists; split; [apply draws_ret|done]| |eexists; split; [apply draws_ret|done]].
  exists ["Failure reason"]. split; [|done].
  do 2 (apply (draws_bind _ _ [] [] _ []); [apply draws_op|intros _]).
  apply (draws_bind _ _ ["Failure reason"] [] [] []); [apply draws_op|intros _].
  apply (draws_bind _ _ [] [] [] []); [apply draws_op|intros _]. eapply draws_weaken; [apply draws_op|apply sublist_nil_l].
Qed.
Lemma draws_section_title gap title : draws (section_title gap title) [title] [].
Proof. unfold section_title. do 2 (apply (draws_bind _ _ [] [] _ []); [apply draws_op|intros _]). apply draws_op. Qed.
Lemma draws_title_block : draws title_block [] [].
Proof. unfold title_block. do 10 (apply (draws_bind _ _ [] [] [] []); [apply draws_op|intros _]). apply draws_op. Qed.
Lemma draws_closing : draws closing_block ["Compliance and insurance"; "Verified by Dokaz - dokaz.net"] [].
Proof.
  assert (forall hs ts, draws closing_block hs ts -> hs = ["Compliance and insurance"; "Verified by Dokaz - dokaz.net"] ->
    draws closing_block ["Compliance and insurance"; "Verified by Dokaz - dokaz.net"] []) as Hc.
  { intros hs ts H ->. eapply draws_weaken; [exact H|apply sublist_nil_l]. }
  eapply Hc; [unfold closing_block; repeat (eapply draws_bind; [apply draws_op|intros _]); apply draws_op|reflexivity].
Qed.


End facts.

(** ** A concrete document *)

(** One line per text; it panics as fpdf does. *)
#[global] Instance plain_pdf : Fpdf := {|
  fpdf_SplitText _ s _ := if forallb (fun r => r <=? 255) (runes s) then Some [s] else None;
  fpdf_GetMargins _ := (n_ 15, n_ 15, n_ 15, n_ 20); fpdf_GetPageSize _ := (n_ 210, n_ 297);
  fpdf_GetX _ := n_ 15; fpdf_GetY doc := n_ (Z.of_nat (length doc)); fpdf_Output doc := inr (String.concat newline (texts doc))
|}.
#[global] Instance plain_pdf_ok : FpdfOk.
Proof.
  constructor. intros doc s w Hs. simpl. rewrite (proj2 (forallb_forall _ _)); [done|].
  intros r Hr. rewrite Forall_forall in Hs. apply Z.leb_le, Hs. by apply list_elem_of_In.
Qed.
Definition demo_drill : Drill := mkDrill 20 10 1 2 StatusRunning (Some 0) None None None None None 0.
Definition failed_result : AssertionResult := mkAssertionResult 1 20 "row_count" "{}" "{}" false 0.

