(* ===== verification/Share.v ===== *)
(** internal/web/handlers/share.go, verify_evidence.go and the key page of
    growth.go: what someone without an account can see and check. *)
From S2P Require Import Prelude Crypto Effects Schema Encoding Path Time AuditLog Plans AccountStore DrillStore Assertions Steps Http AuthStore Web.
From S2P Require Import Cipher Signer EvidenceStore Evidence Scheduler Targets Compliance ShareLink.
From Stdlib Require Import Ascii.

(** parseTTLDays, in days; [None] for what is not a number. *)
Fixpoint ttl_days (n : Z) (l : list ascii) : option Z :=
  match l with
  | [] => Some (if n <? 1 then 1 else n)
  | c :: l' =>
      if negb (digit c) then None
      else let n := n * 10 + (byte_of c - 48) in ttl_days (if 90 <? n then 90 else n) l'
  end.
Definition parseTTLDays (s : string) : option Z := (fun d => d * 24 * 3600 * second) <$> ttl_days 0 (chars s).

(** What the public page shows of the evidence. *)
Inductive shared : Type :=
| Gone (r : response)
| Shared (d : Drill) (t : Target) (verify : VerifyResult).

Section share.
Context `{env : Env} `{uuids : UuidLib} `{rand : Rand} `{json : JsonLib} `{ed : Ed25519} `{store : EvidenceStore}.
Context (signer : Signer) (cipher : Cipher).

Definition ShareGone : response := Render StatusNotFound "ShareGone".
Definition no_verdict : VerifyResult := mkVerifyResult false false "" "" 0 0.

(** The page verifies the evidence under an empty key. *)
Definition sharePage (token : string) : GO shared :=
  link ← try (Resolve token);
  match link with
  | inl e => mret (Gone (if errors_Is e ShareLink.ErrNotFound then ShareGone else HTTPError StatusInternalServerError))
  | inr link =>
      dr ← try (GetDrill (l_AccountID link) (l_DrillID link) ScopeAll);
      match dr with
      | inl _ => mret (Gone ShareGone)
      | inr dr =>
          target ← try (GetTarget (l_AccountID link) (d_TargetID dr) ScopeAll);
          match target with
          | inl _ => mret (Gone (HTTPError StatusInternalServerError))
          | inr target =>
              ignore (ListSteps (d_ID dr));;
              ignore (ListAssertions (d_ID dr));;
              verify ← try (ServiceVerify signer cipher (d_ID dr) (l_AccountID link) "");
              mret (Shared dr target (match verify with inr v => v | inl _ => no_verdict end))
          end
      end
  end.

Definition shareDownload (token : string) : GO response :=
  or_else (Resolve token) err_404 (fun link =>
  or_else (GetDrill (l_AccountID link) (l_DrillID link) ScopeAll) err_404 (fun dr =>
    match has_evidence dr with
    | None => mret (HTTPError StatusNotFound)
    | Some path => or_else (Read cipher (l_AccountID link) path) err_500 (fun body => mret (Text StatusOK body))
    end)).

(** *** Minting and revoking, inside the account *)

Section inside.
Context (who : Who) (baseURL : string).

Definition err_400 (_ : error) : response := HTTPError StatusBadRequest.

(** The form: label and ttl_days. *)
Definition shareCreate (idParam : string) (form : option (string * string)) : GO (response * string) :=
  let refuse r := mret (r, "") in
  match form with
  | None => refuse (HTTPError StatusBadRequest)
  | Some (label, ttl_days) =>
      match uuid_Parse idParam with
      | inl _ => refuse (HTTPError StatusBadRequest)
      | inr drillID =>
          dr ← try (sc ← databaseScope who; GetDrill (a_ID (acct who)) drillID sc);
          match dr with
          | inl _ => refuse (HTTPError StatusBadRequest)
          | inr dr =>
              if negb (bool_decide (d_Status dr = StatusSucceeded)) then refuse (HTTPError StatusBadRequest) else
              let label := TrimSpace label in
              let v := TrimSpace ttl_days in
              let ttl := if bool_decide (v = "") then ShareLink.DefaultTTL else default ShareLink.DefaultTTL (parseTTLDays v) in
              m ← try (ShareLink.Create (d_ID dr) (a_ID (acct who)) (au_ID (user who)) label ttl);
              match m with
              | inl _ => refuse (HTTPError StatusInternalServerError)
              | inr (link, token) =>
                  audit_ who "drill.share_created" "drill" (uuid_String (d_ID dr))
                    [("expires_at", ATime (l_ExpiresAt link)); ("label", AString label); ("link_id", AString (uuid_String (l_ID link)))];;
                  mret (Render StatusOK "ShareCreated", baseURL +:+ "/s/" +:+ token)
              end
          end
      end
  end.

Definition shareRevoke (idParam linkParam : string) : GO response :=
  parse_id linkParam (HTTPError StatusBadRequest) (fun linkID =>
  parse_id idParam (HTTPError StatusBadRequest) (fun drillID =>
  or_else (sc ← databaseScope who; GetDrill (a_ID (acct who)) drillID sc) err_404 (fun _ =>
  or_else (ShareLink.Revoke linkID) err_500 (fun _ =>
    audit_ who "drill.share_revoked" "drill" (uuid_String drillID) [("link_id", AString (uuid_String linkID))];;
    mret (Redirect ("/drills/" +:+ uuid_String drillID)))))).
End inside.

(** *** The public verifier (verify_evidence.go)

    [upload]: the two files of the form, as far as they are attached;
    [wrapped] and [bare]: how the signature file decodes. *)
Record Upload : Type := mkUpload { up_pdf : option string; up_signature : option string }.
Definition maxVerifyUpload : nat := Z.to_nat (Z.shiftl 16 20).
Context (wrapped : string -> option Signature) (bare : string -> error + Signature).

Definition parseSignatureJSON (raw : string) : error + Signature :=
  match wrapped raw with Some s => inr s | None => bare raw end.

Record Verdict : Type := mkVerdict { OK : bool; vd_KeyID : string; vd_SignedAt : time; vd_SHA256 : string }.
Definition refused : Verdict := mkVerdict false "" 0 "".

Definition verifyEvidence (form : option Upload) : Verdict :=
  match form with
  | None => refused
  | Some f =>
      match up_pdf f, up_signature f with
      | Some pdf, Some sigRaw =>
          match parseSignatureJSON (String.substring 0 maxVerifyUpload sigRaw) with
          | inl _ => refused
          | inr sig =>
              match VerificationKey signer (PublicKeyID sig) with
              | None => refused
              | Some pub =>
                  match Signer.Verify pub (String.substring 0 maxVerifyUpload pdf) sig with
                  | Some _ => refused
                  | None => mkVerdict true (PublicKeyID sig) (SignedAt sig) (PDFSHA256 sig)
                  end
              end
          end
      | _, _ => refused
      end
  end.

(** The published keys (growth.go). *)
Context `{keyfiles : KeyFiles}.
Definition evidenceSigningKeys : response :=
  match AllPublicKeysPEM signer with inl _ => HTTPError StatusInternalServerError | inr pem => Text StatusOK pem end.
End share.
