(* ===== verification/Reports.v ===== *)
(** Reporting: the aggregates of internal/drill (store.go, bundle.go,
    readiness.go), internal/readiness, and the handlers reports.go,
    evidence_bundle.go and targetsList.  PostgreSQL's month is UTC's; its
    rounding of an average is left out: the exact sum and count are kept. *)
From S2P Require Import Prelude Crypto Effects Schema Encoding Path Time AuditLog Plans Rbac AccountStore DrillStore Assertions Steps Http AuthStore Web RateLimit.
From S2P Require Import Cipher Signer EvidenceStore Evidence Scheduler Targets Compliance.
From Stdlib Require Import Ascii SpecFloat.

(** ** Calendar months *)

(** The day number of a civil date, the inverse of [civil]. *)
Definition days_of_civil (y m d : Z) : Z :=
  let y := if m <=? 2 then y - 1 else y in
  let era := y / 400 in
  let yoe := y mod 400 in
  let mp := if 2 <? m then m - 3 else m + 9 in
  let doy := (153 * mp + 2) / 5 + d - 1 in
  era * 146097 + (yoe * 365 + yoe / 4 - yoe / 100 + doy) - 719468.
(** Months since year 0, and the first instant of one. *)
Definition month_of (t : time) : Z := let '(y, m, _) := civil (t / ns / 86400) in y * 12 + (m - 1).
Definition month_start (k : Z) : time := days_of_civil (k / 12) (k mod 12 + 1) 1 * 86400 * ns.

(** time.Date(t.Year(), t.Month()-months, 1, ...) *)
Definition monthsAgoUTC (now : time) (months : Z) : time := month_start (month_of now - months).

(** ** The aggregates *)

Record MonthlyStat : Type := mkMonthlyStat { Month : time; ms_Total : Z; ms_Succeeded : Z; ms_Failed : Z; AvgSeconds : Z * Z }.
Record DatabaseStat : Type := mkDatabaseStat {
  ds_TargetID : uuid; ds_Name : string; ds_Total : Z; ds_Succeeded : Z; ds_Failed : Z; LastDrill : option time
}.
Record ReadinessStat : Type := mkReadinessStat {
  rd_LastSuccessAt : option time; rd_LastStatus : string; rd_Recent : Z; rd_RecentPassed : Z
}.

Definition with_status (s : Status) (l : list Drill) : list Drill := filter (fun d => d_Status d = s) l.
Definition len {A} (l : list A) : Z := Z.of_nat (length l).
Definition duration (d : Drill) : option Z :=
  match d_StartedAt d, d_CompletedAt d with Some a, Some b => Some (b - a) | _, _ => None end.
Definition month_row (l : list Drill) (k : Z) : MonthlyStat :=
  let of_month := filter (fun d => month_of (d_CreatedAt d) = k) l in
  let ds := omap duration of_month in
  mkMonthlyStat (month_start k) (len of_month) (len (with_status StatusSucceeded of_month)) (len (with_status StatusFailed of_month))
    (foldr Z.add 0 ds, len ds).
Definition since_of (accountID : uuid) (since : time) (db : DB) : list Drill :=
  sql_select (fun d => bool_decide (d_AccountID d = accountID) && (since <=? d_CreatedAt d)) (drills (drill_db db)).
Definition maximum (l : list time) : option time := match l with [] => None | x :: l => Some (foldr Z.max x l) end.
Definition database_row (db : DB) (since : time) (t : Target) : DatabaseStat :=
  let l := sql_select (fun d => bool_decide (d_TargetID d = t_ID t) && (since <=? d_CreatedAt d)) (drills (drill_db db)) in
  mkDatabaseStat (t_ID t) (t_Name t) (len l) (len (with_status StatusSucceeded l)) (len (with_status StatusFailed l))
    (maximum (d_CreatedAt <$> l)).

Definition terminal (d : Drill) : bool := bool_decide (d_Status d = StatusSucceeded) || bool_decide (d_Status d = StatusFailed).
(** completed_at DESC NULLS LAST *)
Definition latest_first (x y : Drill) : bool :=
  match d_CompletedAt x, d_CompletedAt y with _, None => true | None, Some _ => false | Some a, Some b => b <=? a end.
Definition readiness_row (now : time) (l : list Drill) : ReadinessStat :=
  let recent := filter (fun d => now - 90 * day < d_CreatedAt d) l in
  mkReadinessStat (maximum (omap d_CompletedAt (with_status StatusSucceeded l)))
    (match head (order_by latest_first (filter (fun d => terminal d = true) l)) with Some d => Status_text (d_Status d) | None => "" end)
    (len (filter (fun d => terminal d = true) recent)) (len (with_status StatusSucceeded recent)).

Section reporting.
Context `{env : Env} `{uuids : UuidLib}.

Definition MonthlyStats (accountID : uuid) (since : time) : GO (list MonthlyStat) :=
  query (fun _ db =>
    let l := since_of accountID since db in
    month_row l <$> order_by Z.leb (remove_dups ((fun d => month_of (d_CreatedAt d)) <$> l))).
Definition DatabaseStats (accountID : uuid) (since : time) : GO (list DatabaseStat) :=
  query (fun _ db => database_row db since <$> order_by (fun x y => String.leb (t_Name x) (t_Name y))
    (tr_target <$> sql_select (fun r => bool_decide (t_AccountID (tr_target r) = accountID) && bool_decide (tr_deleted_at r = None))
                     (targets (drill_db db)))).
Definition ReadinessStats (accountID : uuid) : GO (gmap uuid ReadinessStat) :=
  query (fun now db =>
    let l := sql_select (fun d => bool_decide (d_AccountID d = accountID)) (drills (drill_db db)) in
    list_to_map ((fun t => (t, readiness_row now (filter (fun d => d_TargetID d = t) l))) <$> remove_dups (d_TargetID <$> l))).
Definition ListEvidenceDrills (accountID : uuid) (since : time) : GO (list Drill) :=
  query (fun _ db => order_by latest_first
    (sql_select (fun d => bool_decide (d_AccountID d = accountID)
       && match d_EvidencePath d with Some p => negb (bool_decide (p = "")) | None => false end
       && match d_CompletedAt d with Some t => since <=? t | None => false end) (drills (drill_db db)))).
End reporting.

(** ** The readiness score (internal/readiness) *)

Record Stat : Type := mkStat {
  st_Cadence : string; st_LastSuccessAt : option time; st_LastStatus : string; st_Recent : Z; st_RecentPassed : Z
}.
Record Score : Type := mkScore { sc_Value : Z; Grade : string; sc_Label : string; Tone : string; Summary : string }.

Definition cadenceInterval (cadence : string) : Z :=
  if bool_decide (cadence = "hourly") then hour
  else if bool_decide (cadence = "daily") then 24 * hour
  else if bool_decide (cadence = "weekly") then 7 * 24 * hour
  else 30 * 24 * hour.

Definition itoa (n : Z) : string := show_Z n.
(** Duration.Hours *)
Definition Hours (d : Z) : spec_float :=
  F64.add (F64.of_int (Z.quot d hour)) (F64.div (F64.of_int (Z.rem d hour)) (F64.of_int hour)).
Definition humanizeAgo (d : Z) : string :=
  if d <? hour then "under an hour"
  else if d <? 48 * hour then
    let h := F64.to_int64 (Hours d) in if h =? 1 then "1 hour" else itoa h +:+ " hours"
  else let days := F64.to_int64 (F64.div (Hours d) (F64.of_int 24)) in if days =? 1 then "1 day" else itoa days +:+ " days".

Definition half : spec_float := F64.div (F64.of_int 1) (F64.of_int 2).
Definition freshness (s : Stat) (now interval : Z) : spec_float :=
  match st_LastSuccessAt s with
  | None => F64.of_int 0
  | Some t =>
      let ratio := F64.div (F64.of_int (Sub now t)) (F64.of_int interval) in
      if SFleb ratio (F64.of_int 1) then F64.of_int 60
      else if SFleb (F64.of_int 3) ratio then F64.of_int 0
      else F64.div (F64.mul (F64.of_int 60) (F64.sub (F64.of_int 3) ratio)) (F64.of_int 2)
  end.
Definition passRate (s : Stat) : spec_float :=
  if 0 <? st_Recent s
  then F64.div (F64.mul (F64.of_int 30) (F64.of_int (st_RecentPassed s))) (F64.of_int (st_Recent s))
  else F64.of_int 15.
Definition last_outcome (s : Stat) : spec_float :=
  if bool_decide (st_LastStatus s = "succeeded") then F64.of_int 10
  else if bool_decide (st_LastStatus s = "failed") then F64.of_int 0 else F64.of_int 5.

Definition decorate (value : Z) (s : Stat) (now interval : Z) : Score :=
  let '(grade, label, tone) :=
    if 90 <=? value then ("A", "Ready", "green") else if 80 <=? value then ("B", "Ready", "green")
    else if 70 <=? value then ("C", "At risk", "amber") else if 60 <=? value then ("D", "At risk", "amber")
    else ("F", "Failing", "red") in
  if bool_decide (st_LastStatus s = "failed") then
    mkScore value grade "Failing" "red" "The most recent drill failed — investigate before you rely on this backup." else
  match st_LastSuccessAt s with
  | None => mkScore value grade label tone "No passing drill on record yet."
  | Some t =>
      let ago := Sub now t in
      mkScore value grade label tone
        (if 3 * interval <? ago then "Last verified " +:+ humanizeAgo ago +:+ " ago — overdue for a drill."
         else if interval <? ago then "Last verified " +:+ humanizeAgo ago +:+ " ago — a fresh drill is due."
         else "Backup verified recently.")
  end.

Definition Compute_ (s : Stat) (now : time) : Score :=
  match st_LastSuccessAt s with
  | None => if bool_decide (st_LastStatus s = "")
            then mkScore 0 "F" "Unverified" "red" "No drill has run yet — this backup is unverified."
            else let interval := cadenceInterval (st_Cadence s) in
                 let value := F64.to_int64 (F64.add (F64.add (F64.add (freshness s now interval) (passRate s)) (last_outcome s)) half) in
                 decorate (if 100 <? value then 100 else value) s now interval
  | Some _ =>
      let interval := cadenceInterval (st_Cadence s) in
      let value := F64.to_int64 (F64.add (F64.add (F64.add (freshness s now interval) (passRate s)) (last_outcome s)) half) in
      decorate (if 100 <? value then 100 else value) s now interval
  end.

(** ** CSV (encoding/csv's Writer) *)

Definition csv_special (c : ascii) : bool :=
  bool_decide (c = ","%char) || bool_decide (c = "034"%char) || bool_decide (c = "010"%char) || bool_decide (c = "013"%char).
Definition fieldNeedsQuotes (field : string) : bool :=
  if bool_decide (field = "") then false
  else if bool_decide (field = "\.") then true
  else existsb csv_special (chars field) || match chars field with c :: _ => white c | [] => false end.
Definition csv_quoted (field : string) : list ascii :=
  "034"%char :: (chars field ≫= fun c => if bool_decide (c = "034"%char) then [c; c] else [c]) ++ ["034"%char].
Definition csv_field (field : string) : list ascii := if fieldNeedsQuotes field then csv_quoted field else chars field.
Fixpoint csv_fields (l : list string) : list ascii :=
  match l with [] => [] | [f] => csv_field f | f :: l' => csv_field f ++ ","%char :: csv_fields l' end.
Definition csv_line (l : list string) : string := unchars (csv_fields l ++ ["010"%char]).

(** ** The handlers *)

(** slugify of evidence_bundle.go; letters are lowered as ASCII. *)
Fixpoint slug_chars (prevDash : bool) (l : list ascii) : list ascii :=
  match l with
  | [] => []
  | c :: l' =>
      let b := byte_of c in
      if ((97 <=? b) && (b <=? 122)) || digit c then c :: slug_chars false l'
      else if prevDash then slug_chars true l' else "-"%char :: slug_chars true l'
  end.
Definition bundle_slug (s : string) : string :=
  let out := trim_by (fun c => bool_decide (c = "-"%char)) (unchars (slug_chars false (chars (ToLower (TrimSpace s))))) in
  if bool_decide (out = "") then "database" else out.

Section handlers.
Context `{env : Env} `{uuids : UuidLib} `{rand : Rand} `{json : JsonLib} `{store : EvidenceStore} (cipher : Cipher).
(** strconv.FormatFloat(_, 'f', 1, 64) of an average; json.MarshalIndent. *)
Context (format_avg : Z * Z -> string) (MarshalIndent : metadata -> string).
Context (who : Who).
Notation account := (acct who).

(** The scores of the page's databases, by id. *)
Definition readinessScores (targets : list Target) : GO (list (uuid * Score)) :=
  stats ← try (ReadinessStats (a_ID account));
  match stats with
  | inl _ => mret []
  | inr stats =>
      now ← time_Now;
      mret ((fun t => (t_ID t,
         match stats !! t_ID t with
         | Some st => Compute_ (mkStat (t_DrillCadence t) (rd_LastSuccessAt st) (rd_LastStatus st) (rd_Recent st) (rd_RecentPassed st)) now
         | None => Compute_ (mkStat (t_DrillCadence t) None "" 0 0) now
         end)) <$> filter (fun t => t_IsSample t = false) targets)
  end.
Definition targetsList : GO (response * list (uuid * Score)) :=
  r ← try (sc ← databaseScope who; ListTargets (a_ID account) sc);
  match r with
  | inl _ => mret (Render StatusOK "TargetsError", [])
  | inr targets => scores ← readinessScores targets; mret (Render StatusOK "TargetsPage", scores)
  end.

Record ReportsView : Type := mkReportsView {
  Months : list MonthlyStat; rv_Databases : list DatabaseStat; WindowMonths : Z; TotalDrills : Z; Succeeded : Z; Failed : Z
}.
Definition sum (f : MonthlyStat -> Z) (l : list MonthlyStat) : Z := foldr Z.add 0 (f <$> l).
Definition reports : GO (response + ReportsView) :=
  let months := if IsPaidAccount account then 12 else 3 in
  now ← time_Now;
  let since := monthsAgoUTC now months in
  monthly ← try (MonthlyStats (a_ID account) since);
  match monthly with
  | inl _ => mret (inl (HTTPError StatusInternalServerError))
  | inr monthly =>
      dbs ← try (DatabaseStats (a_ID account) since);
      match dbs with
      | inl _ => mret (inl (HTTPError StatusInternalServerError))
      | inr dbs => mret (inr (mkReportsView monthly dbs months (sum ms_Total monthly) (sum ms_Succeeded monthly) (sum ms_Failed monthly)))
      end
  end.

Definition FormatMonth (t : time) : string := String.substring 0 7 (FormatDate t).
Definition reportsExport : GO response :=
  if negb (IsPaidAccount account) then mret (HTTPError StatusForbidden) else
  now ← time_Now;
  or_else (MonthlyStats (a_ID account) (monthsAgoUTC now 12)) err_500 (fun monthly =>
    mret (Text StatusOK (csv_line ["month"; "total_drills"; "succeeded"; "failed"; "avg_duration_seconds"] +:+
      foldr (fun m s => csv_line [FormatMonth (Month m); show_Z (ms_Total m); show_Z (ms_Succeeded m); show_Z (ms_Failed m);
                                  format_avg (AvgSeconds m)] +:+ s) "" monthly))).

(** *** The evidence bundle: the files of the archive, in order *)

Definition name_of (targets : list Target) (id : uuid) : option string :=
  t_Name <$> last (filter (fun t => t_ID t = id) targets).
Record Bundle : Type := mkBundle { bd_files : list (string * string); bd_manifest : list (list string); included : Z }.

(** One drill: nothing when its file cannot be read or its database is not
    visible. *)
Definition add_evidence (targets : list Target) (b : Bundle) (d : Drill) : GO Bundle :=
  match d_EvidencePath d with
  | None => mret b
  | Some path =>
      pdf ← try (Read cipher (a_ID account) path);
      match pdf, name_of targets (d_TargetID d) with
      | inl _, _ | _, None => mret b
      | inr pdf, Some db =>
          let date := match d_CompletedAt d with Some t => FormatDate t | None => "" end in
          let base := bundle_slug db +:+ "-" +:+ date +:+ "-" +:+ String.substring 0 8 (uuid_String (d_ID d)) in
          let pdfName := "reports/" +:+ base +:+ ".pdf" in
          r ← try (GetSignature (d_ID d));
          let '(signingKey, retainUntil, files) :=
            match r with
            | inl _ => ("", "", [])
            | inr rec =>
                let sig := sg_Signature rec in
                (PublicKeyID sig, FormatDate (RetainUntil rec),
                 [("signatures/" +:+ base +:+ ".json", MarshalIndent
                    [("algorithm", AString (Algorithm sig)); ("pdf_sha256", AString (PDFSHA256 sig)); ("public_key_id", AString (PublicKeyID sig));
                     ("retain_until", ATime (RetainUntil rec)); ("signed_at", ATime (SignedAt sig)); ("value", AString (Value sig))])])
            end in
          mret (mkBundle (bd_files b ++ (pdfName, pdf) :: files)
                  (bd_manifest b ++ [[uuid_String (d_ID d); db; date; Status_text (d_Status d); retainUntil; signingKey; pdfName]])
                  (included b + 1))
      end
  end.
Fixpoint add_all (targets : list Target) (b : Bundle) (l : list Drill) : GO Bundle :=
  match l with [] => mret b | d :: l' => b ← add_evidence targets b d; add_all targets b l' end.

Definition manifest_header : list string := ["drill_id"; "database"; "completed_at"; "result"; "retain_until"; "signing_key"; "pdf_file"].
Definition evidenceBundle : GO (response + Bundle) :=
  if negb (IsPaidAccount account) then mret (inl (HTTPError StatusForbidden)) else
  now ← time_Now;
  drills ← try (ListEvidenceDrills (a_ID account) (monthsAgoUTC now 12));
  match drills with
  | inl _ => mret (inl (HTTPError StatusInternalServerError))
  | inr drills =>
      targets ← try (sc ← databaseScope who; ListTargets (a_ID account) sc);
      b ← add_all (match targets with inr l => l | inl _ => [] end) (mkBundle [] [manifest_header] 0) drills;
      audit_ who "evidence.bundle_downloaded" "account" (uuid_String (a_ID account)) [("reports", AInt (included b))];;
      mret (inr b)
  end.
End handlers.
