(* ===== verification/V1.v ===== *)
(** internal/web/handlers/v1*.go: the versioned JSON API -- bearer keys,
    scopes, idempotency keys, keyset pages, and every endpoint. *)
From S2P Require Import Prelude Crypto Effects Schema Encoding Path Time AuditLog Plans AccountStore DrillStore Assertions Steps Http AuthStore Web.
From S2P Require Import Cipher Signer EvidenceStore Evidence Scheduler Targets Compliance Heartbeat ApiKey.
From Stdlib Require Import Ascii.

(** ** JSON on the wire

    encoding/json on the API's bodies: an [any] value as the response encoder
    writes it, the two request decoders with DisallowUnknownFields, and the
    text of a page cursor. *)
Record createAssertionReq : Type := mkCreateAssertionReq { ca_Kind : string; ca_Config : option config }.
Record createDatabaseReq : Type := mkCreateDatabaseReq {
  cd_Name : string; cd_SourceURI : string; cd_Assertions : list createAssertionReq
}.
Record pageCursor : Type := mkPageCursor { pc_CreatedAt : time; pc_ID : uuid }.

Class ApiJson : Type := {
  json_Encode : any -> error + string;
  json_jsonb : string -> any;                               (* json.RawMessage of a JSONB column *)
  decode_createDatabaseReq : string -> option createDatabaseReq;
  decode_createDrillReq : string -> option string;          (* its database_id *)
  cursor_Marshal : pageCursor -> error + string;
  cursor_Unmarshal : string -> error + pageCursor
}.
(** A cursor's text is an object, and decodes to it: RFC 3339 covers the years
    up to 9999. *)
Class ApiJsonOk `{ApiJson} : Prop := {
  cursor_roundtrip : forall c, 0 <= pc_CreatedAt c < 253402300800 * ns ->
    exists s, cursor_Marshal c = inr s /\ s <> "" /\ cursor_Unmarshal s = inr c
}.

(** ** The request and the response *)

Record Request : Type := mkRequest {
  q_Method : string; q_Path : string; q_Authorization : string; q_IdempotencyKey : string;
  q_Body : error + string; q_limit : string; q_cursor : string; q_ClientIP : string; q_UserAgent : string
}.
Record Resp : Type := mkResp { rs_status : Z; rs_body : string; rs_replayed : bool }.

Record apiError : Type := mkApiError { ae_Code : string; ae_Message : string }.
Record envelope : Type := mkEnvelope { ev_Data : option any; ev_Meta : option any; ev_Errors : list apiError }.

(** What the middlewares put on the context. *)
Record Caller : Type := mkCaller { ca_acct : Account; ca_key : Key }.

(** strconv.Atoi and ParseInt(_, 10, 64): an optional sign and digits, within
    the range of an int64. *)
Fixpoint digits_value (n : Z) (l : list ascii) : option Z :=
  match l with
  | [] => Some n
  | c :: l' => if digit c then digits_value (n * 10 + (byte_of c - 48)) l' else None
  end.
Definition Atoi (s : string) : option Z :=
  let num (neg : bool) (l : list ascii) :=
    match l with
    | [] => None
    | _ => n ← digits_value 0 l;
           let n := if neg then - n else n in
           if (- 2 ^ 63 <=? n) && (n <? 2 ^ 63) then Some n else None
    end in
  match chars s with
  | "-"%char :: l => num true l
  | "+"%char :: l => num false l
  | l => num false l
  end.

Definition v1DefaultLimit : Z := 25.
Definition v1MaxLimit : Z := 100.

Section v1.
Context `{env : Env} `{uuids : UuidLib} `{rand : Rand} `{json : JsonLib} `{api : ApiJson} `{host : Host}.

Definition error_json (e : apiError) : any := AMap [("code", AString (ae_Code e)); ("message", AString (ae_Message e))].
Definition omit (key : string) (o : option any) : metadata := match o with Some v => [(key, v)] | None => [] end.
Definition envelope_json (e : envelope) : any :=
  AMap (omit "data" (ev_Data e) ++ omit "meta" (ev_Meta e)
        ++ match ev_Errors e with [] => [] | l => [("errors", AList (error_json <$> l))] end).
(** An envelope that does not encode leaves the body empty. *)
Definition writeJSON (status : Z) (e : envelope) : Resp :=
  mkResp status (match json_Encode (envelope_json e) with inr s => s | inl _ => "" end) false.
Definition writeData (status : Z) (data : any) (meta : option any) : Resp := writeJSON status (mkEnvelope (Some data) meta []).
Definition writeAPIError (status : Z) (code msg : string) : Resp := writeJSON status (mkEnvelope None None [mkApiError code msg]).

(** ** Authentication, scopes, trial *)

Definition bearer : string := "Bearer ".
Definition bearerToken (h : string) : option string :=
  if (String.length h <=? String.length bearer)%nat || negb (HasPrefix h bearer) then None
  else Some (String.substring (String.length bearer) (String.length h - String.length bearer) h).

Definition v1Authenticate (q : Request) (next : Caller -> GO Resp) : GO Resp :=
  match bearerToken (q_Authorization q) with
  | None => mret (writeAPIError StatusUnauthorized "unauthorized" "missing or malformed Authorization: Bearer header")
  | Some raw =>
      or_else (Authenticate raw) (fun _ => writeAPIError StatusUnauthorized "unauthorized" "invalid API key") (fun key =>
      or_else (GetAccount (k_AccountID key)) (fun _ => writeAPIError StatusUnauthorized "unauthorized" "account unavailable")
        (fun a => next (mkCaller a key)))
  end.

Definition v1RequireScope (scope : string) (c : Caller) (next : GO Resp) : GO Resp :=
  if HasScope (ca_key c) scope then next
  else mret (writeAPIError StatusForbidden "insufficient_scope" ("this API key lacks the required scope: " +:+ scope)).

Definition v1RequireUnlapsedTrial (c : Caller) (next : GO Resp) : GO Resp :=
  now ← time_Now;
  if TrialLapsed now (ca_acct c)
  then mret (writeAPIError StatusPaymentRequired "trial_expired" "trial has ended — subscribe to continue using the API")
  else next.

Definition v1AccountKey (c : Caller) : string := "v1:" +:+ uuid_String (a_ID (ca_acct c)).

(** v1BlockFreeReal (onboarding.go); [None] lets the request pass. *)
Definition v1BlockFreeReal (a : Account) : GO (option Resp) :=
  ok ← canDrillReal a;
  mret (if ok : bool then None
        else Some (writeAPIError StatusPaymentRequired "plan_required" "trial has ended; subscribe to drill your own backups")).

(** ** Idempotency *)

Definition NUL : string := String "000" "".
Definition fingerprintRequest (method path body : string) : string :=
  RawStdEncoding_Encode (sha256 (method +:+ NUL +:+ path +:+ NUL +:+ body)).

Definition bodyLimit : nat := 1024 * 1024.
(** io.ReadAll(io.LimitReader(r.Body, 1<<20)) *)
Definition read_body (q : Request) : error + string :=
  match q_Body q with inl e => inl e | inr b => inr (String.substring 0 bodyLimit b) end.

Definition stored_response (acct : uuid) (key : string) : GO StoredResponse :=
  query_row (fun _ db => api_idempotency (key_db db) !! (acct, key)).
Definition store_response (acct : uuid) (key fp : string) (r : Resp) : GO unit :=
  exec (fun now _ db =>
    match accounts (account_db db) !! acct, api_idempotency (key_db db) !! (acct, key) with
    | None, _ => inl (ErrConstraint "api_idempotency_account_id_fkey")
    | Some _, Some _ => inr (db, tt)
    | Some _, None => inr (db{{ key_db -> api_idempotency ::=
                        <[ (acct, key) := mkStoredResponse fp (rs_status r) (rs_body r) now ]> }}, tt)
    end).

(** A failed lookup counts as a fresh key; a 5xx is not stored.  The handler
    reads the body the middleware read. *)
Definition v1Idempotency (q : Request) (c : Caller) (next : Request -> GO Resp) : GO Resp :=
  let key := q_IdempotencyKey q in
  if bool_decide (key = "") then
    mret (writeAPIError StatusBadRequest "idempotency_key_required" "POST requests require an Idempotency-Key header") else
  match read_body q with
  | inl _ => mret (writeAPIError StatusBadRequest "bad_request" "could not read request body")
  | inr body =>
      let fp := fingerprintRequest (q_Method q) (q_Path q) body in
      stored ← try (stored_response (a_ID (ca_acct c)) key);
      match stored with
      | inr s =>
          if negb (bool_decide (sr_request_fingerprint s = fp)) then
            mret (writeAPIError StatusConflict "idempotency_key_reused" "this Idempotency-Key was used with a different request")
          else mret (mkResp (sr_status_code s) (sr_response_body s) true)
      | inl _ =>
          rec ← next (q{{ q_Body := inr body }});
          (if rs_status rec <? 500 then ignore (store_response (a_ID (ca_acct c)) key fp rec) else mret tt);;
          mret rec
      end
  end.

(** ** Cursor pagination *)

Definition encodeCursor (c : pageCursor) : string :=
  RawURLEncoding_Encode (match cursor_Marshal c with inr b => b | inl _ => "" end).
Definition malformed : string := "malformed cursor".
Definition decodeCursor (s : string) : string + pageCursor :=
  match RawURLEncoding_Decode s with
  | None => inl malformed
  | Some b => match cursor_Unmarshal b with inr c => inr c | inl _ => inl malformed end
  end.

Definition parse_limit (v : string) : string + Z :=
  if bool_decide (v = "") then inr v1DefaultLimit else
  match Atoi v with
  | Some n => if n <? 1 then inl "limit must be a positive integer" else inr (if v1MaxLimit <? n then v1MaxLimit else n)
  | None => inl "limit must be a positive integer"
  end.
Definition parsePageParams (q : Request) : string + (Z * option pageCursor) :=
  match parse_limit (q_limit q) with
  | inl e => inl e
  | inr limit =>
      if bool_decide (q_cursor q = "") then inr (limit, None)
      else match decodeCursor (q_cursor q) with inl e => inl e | inr c => inr (limit, Some c) end
  end.
Definition after_of (c : option pageCursor) : option (time * uuid) := (fun c => (pc_CreatedAt c, pc_ID c)) <$> c.

Record listMeta : Type := mkListMeta { lm_Count : Z; lm_NextCursor : string }.
Definition meta_json (m : listMeta) : any :=
  AMap (("count", AInt (lm_Count m)) :: (if bool_decide (lm_NextCursor m = "") then [] else [("next_cursor", AString (lm_NextCursor m))])).

(** One page of the rows a query for [limit + 1] returned: the rows shown and
    the cursor of the last of them when there are more. *)
Definition page_of {R} (cursor : R -> string) (limit : Z) (rows : list R) : list R * string :=
  if Z.of_nat (length rows) <=? limit then (rows, "")
  else let shown := take (Z.to_nat limit) rows in
       (shown, match last shown with Some r => cursor r | None => "" end).
Definition row_cursor {R} (at_ : R -> time) (id : R -> uuid) (r : R) : string := encodeCursor (mkPageCursor (at_ r) (id r)).

Definition bad_request (msg : string) : Resp := writeAPIError StatusBadRequest "bad_request" msg.
Definition internal (msg : string) (_ : error) : Resp := writeAPIError StatusInternalServerError "internal" msg.
Definition not_found (msg : string) : Resp := writeAPIError StatusNotFound "not_found" msg.
Definition count_meta (n : nat) (next : string) : option any := Some (meta_json (mkListMeta (Z.of_nat n) next)).

(** ** Databases (v1_databases.go) *)

(** encoding/json writes the keys of a map in order. *)
Definition sorted_entries (c : config) : metadata := order_by (fun x y => String.leb x.1 y.1) (map_to_list c).
Definition toAPIAssertion (a : Assertion) : any :=
  AMap [("id", AString (uuid_String (as_ID a))); ("kind", AString (as_Kind a));
        ("config", match json_Unmarshal (as_Config a) with inr c => AMap (sorted_entries c) | inl _ => ANil end)].
Definition toAPIDatabase (t : Target) (asserts : list Assertion) : any :=
  AMap [("id", AString (uuid_String (t_ID t))); ("name", AString (t_Name t)); ("source_kind", AString (t_SourceKind t));
        ("source_uri", AString (t_SourceURI t)); ("assertions", AList (toAPIAssertion <$> asserts));
        ("created_at", ATime (t_CreatedAt t))].

Definition v1ListDatabases (q : Request) (c : Caller) : GO Resp :=
  match parsePageParams q with
  | inl e => mret (bad_request e)
  | inr (limit, cursor) =>
      or_else (ListTargetsPage (a_ID (ca_acct c)) ScopeAll (after_of cursor) (limit + 1)) (internal "could not list databases") (fun targets =>
        let '(shown, next) := page_of (row_cursor t_CreatedAt t_ID) limit targets in
        or_else (ListAssertionsForTargets (t_ID <$> shown)) (internal "could not list databases") (fun byTarget =>
          mret (writeData StatusOK (AList ((fun t => toAPIDatabase t (default [] (byTarget !! t_ID t))) <$> shown))
                  (count_meta (length shown) next))))
  end.

Definition v1GetDatabase (idParam : string) (c : Caller) : GO Resp :=
  parse_id idParam (not_found "database not found") (fun id =>
    or_else (GetTarget (a_ID (ca_acct c)) id ScopeAll) (fun _ => not_found "database not found") (fun t =>
    or_else (ListTargetAssertions (t_ID t)) (internal "could not load database") (fun asserts =>
      mret (writeData StatusOK (toAPIDatabase t asserts) None)))).

(** The first assertion that does not validate, with its index. *)
Fixpoint first_invalid (i : Z) (l : list createAssertionReq) : option (Z * error) :=
  match l with
  | [] => None
  | a :: l' => match ValidateConfig (ca_Kind a) (default ∅ (ca_Config a)) with
               | Some e => Some (i, e)
               | None => first_invalid (i + 1) l'
               end
  end.

Definition decode_error : string := "request body is not valid JSON, or contains unexpected fields".
Definition decodeJSONBody {A} (decode : string -> option A) (q : Request) : option A :=
  match read_body q with inr b => decode b | inl _ => None end.

Definition config_bytes (c : option config) : string :=
  match c with
  | None => "null"
  | Some c => match json_Marshal (sorted_entries c) with inr b => b | inl _ => "" end
  end.
(** CreateAssertion for each, stopping at the first that fails. *)
Fixpoint attach (target : uuid) (l : list createAssertionReq) (stored : list Assertion) : GO (list Assertion) :=
  match l with
  | [] => mret stored
  | a :: l' => created ← CreateAssertion target (ca_Kind a) (config_bytes (ca_Config a));
               attach target l' (stored ++ [created])
  end.

Context (sourceDir : string).

Definition v1CreateDatabase (q : Request) (c : Caller) : GO Resp :=
  let acct := ca_acct c in
  blocked ← v1BlockFreeReal acct;
  match blocked with
  | Some r => mret r
  | None =>
  match decodeJSONBody decode_createDatabaseReq q with
  | None => mret (bad_request decode_error)
  | Some req =>
  let name := TrimSpace (cd_Name req) in let uri := TrimSpace (cd_SourceURI req) in
  if bool_decide (name = "") || bool_decide (uri = "") then
    mret (writeAPIError StatusBadRequest "validation" "name and source_uri are required") else
  match first_invalid 0 (cd_Assertions req) with
  | Some (i, e) => mret (writeAPIError StatusBadRequest "validation" ("assertions[" +:+ show_Z i +:+ "]: " +:+ Error e))
  | None =>
  or_else (resolveSourcePath sourceDir uri) (fun e => writeAPIError StatusBadRequest "validation" (Error e)) (fun cleanPath =>
  existing ← try (ListTargets (a_ID acct) ScopeAll);
  let limit := Databases (EffectiveLimits acct) in
  if AtLimit (count_of existing) limit then
    mret (writeAPIError StatusForbidden "plan_limit"
            ("the " +:+ a_Plan acct +:+ " plan is limited to " +:+ show_Z limit +:+ " databases — upgrade to add more")) else
  or_else (CreateTarget (mkTarget uuid_Nil (a_ID acct) (k_CreatedByUserID (ca_key c)) name "postgres_dump_local" cleanPath
                           None 0 "" None false)) (internal "could not create database") (fun t =>
  or_else (attach (t_ID t) (cd_Assertions req) []) (internal "could not attach assertion") (fun stored =>
    mret (writeData StatusCreated (toAPIDatabase t stored) None))))
  end end end.

(** ** Drills (v1_drills.go) *)

Definition AOpt (o : option string) : any := ANull AString o.
Definition drill_fields (d : Drill) : metadata :=
  [("id", AString (uuid_String (d_ID d))); ("database_id", AString (uuid_String (d_TargetID d)));
   ("status", AString (Status_text (d_Status d))); ("started_at", ANull ATime (d_StartedAt d));
   ("completed_at", ANull ATime (d_CompletedAt d)); ("error", AOpt (d_Error d));
   ("has_evidence", ABool (match has_evidence d with Some _ => true | None => false end));
   ("source_hash", AOpt (d_SourceHash d)); ("created_at", ATime (d_CreatedAt d))].
Definition toAPIDrill (d : Drill) : any := AMap (drill_fields d).

Definition v1ListDrills (q : Request) (c : Caller) : GO Resp :=
  match parsePageParams q with
  | inl e => mret (bad_request e)
  | inr (limit, cursor) =>
      or_else (ListDrillsPage (a_ID (ca_acct c)) ScopeAll (after_of cursor) (limit + 1)) (internal "could not list drills") (fun drills =>
        let '(shown, next) := page_of (row_cursor d_CreatedAt d_ID) limit drills in
        mret (writeData StatusOK (AList (toAPIDrill <$> shown)) (count_meta (length shown) next)))
  end.

(** GetDrill of the account, as every drill endpoint starts. *)
Definition own_drill {R} (idParam : string) (c : Caller) (bad : R) (k : Drill -> GO R) : GO R :=
  parse_id idParam bad (fun id => or_else (GetDrill (a_ID (ca_acct c)) id ScopeAll) (fun _ => bad) k).
Definition drill_missing : Resp := not_found "drill not found".

Definition toAPIStep (s : Step) : any :=
  AMap [("name", AString (StepName_String (s_Name s))); ("status", AString (Status_text (s_Status s)));
        ("started_at", ANull ATime (s_StartedAt s)); ("completed_at", ANull ATime (s_CompletedAt s)); ("error", AOpt (s_Error s))].
Definition toAPIResult (a : AssertionResult) : any :=
  AMap [("kind", AString (ar_Kind a)); ("expected", json_jsonb (ar_Expected a)); ("actual", json_jsonb (ar_Actual a));
        ("passed", ABool (ar_Passed a))].
(** A slice that stayed nil encodes as null. *)
Definition AListNil (l : list any) : any := match l with [] => ANil | _ => AList l end.
Definition rows_or_nil {A} (r : error + list A) : list A := match r with inr l => l | inl _ => [] end.

Definition v1GetDrill (idParam : string) (c : Caller) : GO Resp :=
  own_drill idParam c drill_missing (fun d =>
    steps ← try (ListSteps (d_ID d));
    ars ← try (ListAssertions (d_ID d));
    mret (writeData StatusOK (AMap (drill_fields d ++
      [("steps", AListNil (toAPIStep <$> rows_or_nil steps)); ("assertions", AListNil (toAPIResult <$> rows_or_nil ars))])) None)).

Definition quota_refusal (qe : drillQuotaError) : Resp :=
  writeAPIError StatusTooManyRequests "drill_quota_exceeded" (drillQuotaError_Error qe).
Definition size_refusal (de : dumpTooLargeError) : Resp :=
  writeAPIError StatusRequestEntityTooLarge "dump_too_large" (dumpTooLargeError_Error de).

Definition v1CreateDrill (q : Request) (c : Caller) : GO Resp :=
  let acct := ca_acct c in
  match decodeJSONBody decode_createDrillReq q with
  | None => mret (bad_request decode_error)
  | Some database_id =>
  parse_id database_id (writeAPIError StatusBadRequest "validation" "database_id must be a valid UUID") (fun targetID =>
  or_else (GetTarget (a_ID acct) targetID ScopeAll) (fun _ => not_found "database not found") (fun target =>
  blocked ← (if t_IsSample target then mret None else v1BlockFreeReal acct);
  match blocked with
  | Some r => mret r
  | None =>
      quota_gate acct quota_refusal (size_gate target acct size_refusal (
        or_else (CreateDrillIdempotent (a_ID acct) (k_CreatedByUserID (ca_key c)) (t_ID target) (q_IdempotencyKey q))
          (internal "could not create drill") (fun '(drillID, _) =>
        or_else (EnqueueDrill drillID (drillInsertOpts acct)) (internal "could not enqueue drill") (fun _ =>
        or_else (GetDrill (a_ID acct) drillID ScopeAll) (internal "drill created but not readable") (fun d =>
          mret (writeData StatusCreated (toAPIDrill d) None))))))
  end))
  end.

Definition toAPIStepLog (s : Step) : option any :=
  match s_OutputSnippet s, s_OutputSHA256 s with
  | None, None => None
  | _, _ => Some (AMap [("step", AString (StepName_String (s_Name s))); ("snippet", AOpt (s_OutputSnippet s));
                        ("sha256", AOpt (s_OutputSHA256 s)); ("truncated", ANull ABool (s_OutputTruncated s));
                        ("snippet_bytes", AInt (match s_OutputSnippet s with Some o => Z.of_nat (String.length o) | None => 0 end))])
  end.
Definition v1GetLogs (idParam : string) (c : Caller) : GO Resp :=
  parse_id idParam drill_missing (fun id =>
    or_else (GetDrill (a_ID (ca_acct c)) id ScopeAll) (fun _ => drill_missing) (fun _ =>
    or_else (ListSteps id) (internal "could not load steps") (fun steps =>
      mret (writeData StatusOK (AList (omap toAPIStepLog steps)) None)))).

Context `{ed : Ed25519} `{store : EvidenceStore} (signer : Signer) (cipher : Cipher).

Definition v1GetEvidence (idParam : string) (c : Caller) : GO Resp :=
  own_drill idParam c drill_missing (fun d =>
    match has_evidence d with
    | None => mret (writeAPIError StatusNotFound "no_evidence" "evidence not yet generated")
    | Some path =>
        r ← try (Read cipher (a_ID (ca_acct c)) path);
        match r with
        | inl e => mret (if errors_Is e ErrShredded then writeAPIError StatusGone "evidence_unavailable" "evidence is no longer available"
                         else writeAPIError StatusInternalServerError "internal" "could not read evidence")
        | inr body => mret (mkResp StatusOK body false)
        end
    end).

Definition toAPISignature (r : SignatureRecord) : any :=
  let s := sg_Signature r in
  AMap [("algorithm", AString (Algorithm s)); ("public_key_id", AString (PublicKeyID s)); ("value", AString (Value s));
        ("pdf_sha256", AString (PDFSHA256 s)); ("signed_at", ATime (SignedAt s)); ("retain_until", ATime (RetainUntil r))].
Definition v1GetSignature (idParam : string) (c : Caller) : GO Resp :=
  parse_id idParam drill_missing (fun id =>
    or_else (GetDrill (a_ID (ca_acct c)) id ScopeAll) (fun _ => drill_missing) (fun _ =>
      r ← try (GetSignature id);
      match r with
      | inl e => mret (if errors_Is e ErrNoSignature
                       then writeAPIError StatusNotFound "no_signature" "signature not yet recorded for this drill"
                       else writeAPIError StatusInternalServerError "internal" "could not load signature")
      | inr rec => mret (writeData StatusOK (toAPISignature rec) None)
      end)).

(** ** Alerts (v1_alerts.go) *)

Definition alert_limit (v : string) : Z :=
  match Atoi v with Some n => if (0 <? n) && (n <=? 200) then n else 50 | None => 50 end.
Definition alert_before (v : string) : Z := match Atoi v with Some n => if 0 <? n then n else 0 | None => 0 end.
Definition toAPIAlert (e : Entry) : any :=
  AMap ([("id", AString (show_Z (en_ID e))); ("at", ATime (en_At e)); ("action", AString (en_Action e));
         ("target_kind", AString (en_TargetKind e)); ("target_id", AString (en_TargetID e))]
        ++ match en_Metadata e with [] => [] | m => [("metadata", AMap m)] end).
Definition v1ListAlerts (q : Request) (c : Caller) : GO Resp :=
  let limit := alert_limit (q_limit q) in
  or_else (ListAlertsForAccount (a_ID (ca_acct c)) (limit + 1) (alert_before (q_cursor q))) (internal "could not list alerts") (fun entries =>
    let '(shown, next) := page_of (fun e => show_Z (en_ID e)) limit entries in
    mret (writeData StatusOK (AList (toAPIAlert <$> shown)) (count_meta (length shown) next))).

(** ** Heartbeats (v1_heartbeats.go) *)

Definition toAPIHeartbeat (h : Heartbeat) (now : time) : any :=
  AMap [("id", AString (uuid_String (h_ID h))); ("name", AString (h_Name h)); ("slug", AString (h_Slug h));
        ("status", AString (h_Status h)); ("overdue", ABool (Overdue h now)); ("period_seconds", AInt (h_PeriodSeconds h));
        ("grace_seconds", AInt (h_GraceSeconds h)); ("last_ping_at", ANull ATime (h_LastPingAt h));
        ("expected_by", ANull ATime (h_ExpectedBy h)); ("created_at", ATime (h_CreatedAt h))].
Definition v1ListHeartbeats (c : Caller) : GO Resp :=
  or_else (Heartbeat.List_ (a_ID (ca_acct c))) (internal "could not list heartbeats") (fun hbs =>
    now ← time_Now;
    mret (writeData StatusOK (AList ((fun h => toAPIHeartbeat h now) <$> hbs)) (count_meta (length hbs) ""))).
Definition v1GetHeartbeat (idParam : string) (c : Caller) : GO Resp :=
  parse_id idParam (not_found "heartbeat not found") (fun id =>
    or_else (Heartbeat.Get (a_ID (ca_acct c)) id) (fun _ => not_found "heartbeat not found") (fun h =>
      now ← time_Now; mret (writeData StatusOK (toAPIHeartbeat h now) None))).

(** ** Erasure (compliance.go) *)

Definition v1DeleteAccount (grace : Z) (idParam : string) (q : Request) (c : Caller) : GO Resp :=
  let id := a_ID (ca_acct c) in
  parse_id idParam (bad_request "invalid account id") (fun pathID =>
    if negb (bool_decide (pathID = id)) then
      mret (writeAPIError StatusForbidden "forbidden" "an API key can only delete the account it belongs to") else
    or_else (SoftDelete grace id (k_CreatedByUserID (ca_key c)))
      (fun _ => writeAPIError StatusConflict "already_deleted" "account is already scheduled for deletion") (fun purgeAfter =>
      ignore (InsertPurge id purgeAfter);;
      ignore (Record_ (EventLit (Some id) (Some (k_CreatedByUserID (ca_key c))) "account.delete_requested" "account" (uuid_String id)
                (q_ClientIP q) (q_UserAgent q)
                [("via", AString "v1"); ("api_key_id", AString (uuid_String (k_ID (ca_key c))))]));;
      mret (writeData 202 (AMap [("id", AString (uuid_String id)); ("purge_after", AString (FormatRFC3339 purgeAfter));
                                 ("status", AString "deletion_scheduled")]) None))).

(** ** The router (v1.go)

    chi's patterns, a literal or a parameter per segment; the last segment of
    a path is not empty.  Authentication and the rate limit wrap the routing,
    the other middlewares one route each. *)
Inductive seg : Type := Lit (s : string) | Param.
Fixpoint match_segs (pat : list seg) (path : list (list ascii)) : option string :=
  match pat, path with
  | [], [] => Some ""
  | Lit s :: pat', x :: path' => if bool_decide (unchars x = s) then match_segs pat' path' else None
  | Param :: pat', x :: path' =>
      if bool_decide (x = []) && bool_decide (path' = []) then None
      else match match_segs pat' path' with Some _ => Some (unchars x) | None => None end
  | _, _ => None
  end.

Record Route : Type := mkRoute { rt_Method : string; rt_Pattern : list seg; rt_Handler : string -> Request -> Caller -> GO Resp }.

Context (grace : Z).

Definition read_route (scope : string) (pat : list seg) (h : string -> Request -> Caller -> GO Resp) : Route :=
  mkRoute "GET" pat (fun id q c => v1RequireScope scope c (h id q c)).
Definition write_route (scope : string) (pat : list seg) (h : Request -> Caller -> GO Resp) : Route :=
  mkRoute "POST" pat (fun _ q c => v1RequireScope scope c (v1RequireUnlapsedTrial c (v1Idempotency q c (fun q => h q c)))).

Definition v1_routes : list Route :=
  [ read_route ScopeDatabasesRead [Lit "databases"] (fun _ => v1ListDatabases);
    read_route ScopeDatabasesRead [Lit "databases"; Param] (fun id _ => v1GetDatabase id);
    read_route ScopeDrillsRead [Lit "drills"] (fun _ => v1ListDrills);
    read_route ScopeDrillsRead [Lit "drills"; Param] (fun id _ => v1GetDrill id);
    read_route ScopeDrillsRead [Lit "drills"; Param; Lit "evidence"] (fun id _ => v1GetEvidence id);
    read_route ScopeDrillsRead [Lit "drills"; Param; Lit "signature"] (fun id _ => v1GetSignature id);
    read_route ScopeDrillsRead [Lit "drills"; Param; Lit "logs"] (fun id _ => v1GetLogs id);
    read_route ScopeDrillsRead [Lit "alerts"] (fun _ => v1ListAlerts);
    read_route ScopeHeartbeatsRead [Lit "heartbeats"] (fun _ _ => v1ListHeartbeats);
    read_route ScopeHeartbeatsRead [Lit "heartbeats"; Param] (fun id _ => v1GetHeartbeat id);
    write_route ScopeDatabasesWrite [Lit "databases"] v1CreateDatabase;
    write_route ScopeDrillsWrite [Lit "drills"] v1CreateDrill;
    mkRoute "DELETE" [Lit "accounts"; Param] (fun id q c =>
      v1RequireScope ScopeAccountDelete c (v1Idempotency q c (fun q => v1DeleteAccount grace id q c))) ].

(** The segments after the mount point. *)
Definition v1_segments (path : string) : option (list (list ascii)) :=
  match split (chars path) with
  | [] :: m :: segs => if bool_decide (unchars m = "v1") then Some segs else None
  | _ => None
  end.

Fixpoint dispatch (routes : list Route) (wrong_method : bool) (segs : list (list ascii)) (q : Request) (c : Caller) : GO Resp :=
  match routes with
  | [] => mret (mkResp (if wrong_method then 405 else StatusNotFound) "" false)
  | r :: routes' =>
      match match_segs (rt_Pattern r) segs with
      | None => dispatch routes' wrong_method segs q c
      | Some param =>
          if bool_decide (q_Method q = rt_Method r) then rt_Handler r param q c
          else dispatch routes' true segs q c
      end
  end.

(** The limiter of the server, by the caller's account. *)
Context (allow : string -> GO bool).
Definition v1Limiter (key : string) (next : GO Resp) : GO Resp :=
  ok ← allow key;
  if ok : bool then next else mret (mkResp StatusTooManyRequests ("rate limit exceeded" +:+ newline) false).

Definition v1Router (q : Request) : GO Resp :=
  v1Authenticate q (fun c => v1Limiter (v1AccountKey c) (
    match v1_segments (q_Path q) with
    | Some segs => dispatch v1_routes false segs q c
    | None => mret (mkResp StatusNotFound "" false)
    end)).
End v1.
