(* ===== verification/Config.v ===== *)
(** internal/config/config.go: the server's configuration from its
    environment. *)
From S2P Require Import Prelude Crypto Effects Schema Encoding Plans Billing EvidenceStore V1.
From Stdlib Require Import Ascii.

Record Config : Type := mkConfig {
  Addr : string; DatabaseURL : string; SessionKey : string; Environment : string; BaseURL : string;
  IdleTimeout : Z; AbsoluteMaxAge : Z; EvidenceDir : string; SourceDir : string;
  StripeSecretKey : string; StripeWebhookSecret : string; StripePriceStarter : string; StripePricePro : string;
  StripePriceScale : string; StripeMeterEvent : string;
  PriceStarterLabel : string; PriceProLabel : string; PriceScaleLabel : string;
  EvidenceSigningKey : string; EvidenceVerificationKeys : string; EvidenceEncryptionKey : string;
  EvidenceEncryptionKeysRetired : list string;
  EvidenceS3Bucket : string; EvidenceS3Region : string; EvidenceS3Endpoint : string;
  EvidenceS3AccessKeyID : string; EvidenceS3SecretAccessKey : string; SentryDSN : string;
  PostmarkToken : string; PostmarkWebhookToken : string; EmailFrom : string; PostHogAPIKey : string; PostHogHost : string;
  GoogleOAuthClientID : string; GoogleOAuthClientSecret : string; GitHubOAuthClientID : string; GitHubOAuthClientSecret : string;
  FlyAPIToken : string; FlyAppName : string; FlyPostgresImage : string; FlyRegion : string; FlySandboxDBPassword : string;
  StaffEmails : list string; MetricsToken : string; FirebaseServiceAccount : string
}.

(** The entries of a comma-separated value: each trimmed, the empty ones
    dropped. *)
Definition splitCSVRaw (v : string) : list string :=
  if bool_decide (v = "") then [] else filter (fun p => p <> "") (TrimSpace <$> Billing.Split v ","%char).
Definition parseList (v : string) : list string :=
  if bool_decide (v = "") then [] else filter (fun p => p <> "") ((fun part => TrimSpace (ToLower part)) <$> Billing.Split v ","%char).

(** int64 arithmetic. *)
Definition int64 (z : Z) : Z := (z + 2 ^ 63) mod 2 ^ 64 - 2 ^ 63.

Section load.
(** os.Getenv: the empty string for a variable that is not set. *)
Context (Getenv : string -> string).

Definition getenv (key def : string) : string := let v := Getenv key in if bool_decide (v = "") then def else v.

Definition dev_session_key : string := "dev-only-do-not-use-in-production-please-rotate".
(** The literal Load starts from. *)
Definition from_environment (session_key : string) (idle : Z) : Config := {|
  Addr := getenv "ADDR" ":8080"; DatabaseURL := Getenv "DATABASE_URL"; SessionKey := session_key;
  Environment := getenv "ENV" "dev"; BaseURL := trim_right_slash (Getenv "BASE_URL");
  IdleTimeout := idle; AbsoluteMaxAge := 30 * 24 * hour;
  EvidenceDir := getenv "EVIDENCE_DIR" "tmp/evidence"; SourceDir := getenv "SOURCE_DIR" "tmp/sources";
  StripeSecretKey := Getenv "STRIPE_SECRET_KEY"; StripeWebhookSecret := Getenv "STRIPE_WEBHOOK_SECRET";
  StripePriceStarter := Getenv "STRIPE_PRICE_STARTER"; StripePricePro := Getenv "STRIPE_PRICE_PRO";
  StripePriceScale := Getenv "STRIPE_PRICE_SCALE"; StripeMeterEvent := Getenv "STRIPE_METER_EVENT";
  PriceStarterLabel := getenv "PRICE_STARTER_LABEL" "$100"; PriceProLabel := getenv "PRICE_PRO_LABEL" "$300";
  PriceScaleLabel := getenv "PRICE_SCALE_LABEL" "$600";
  EvidenceSigningKey := Getenv "EVIDENCE_SIGNING_KEY"; EvidenceVerificationKeys := Getenv "EVIDENCE_VERIFICATION_KEYS";
  EvidenceEncryptionKey := Getenv "EVIDENCE_ENCRYPTION_KEY";
  EvidenceEncryptionKeysRetired := splitCSVRaw (Getenv "EVIDENCE_ENCRYPTION_KEYS_RETIRED");
  EvidenceS3Bucket := Getenv "EVIDENCE_S3_BUCKET"; EvidenceS3Region := Getenv "EVIDENCE_S3_REGION";
  EvidenceS3Endpoint := Getenv "EVIDENCE_S3_ENDPOINT"; EvidenceS3AccessKeyID := Getenv "EVIDENCE_S3_ACCESS_KEY_ID";
  EvidenceS3SecretAccessKey := Getenv "EVIDENCE_S3_SECRET_ACCESS_KEY"; SentryDSN := Getenv "SENTRY_DSN";
  PostmarkToken := Getenv "POSTMARK_TOKEN"; PostmarkWebhookToken := Getenv "POSTMARK_WEBHOOK_TOKEN";
  EmailFrom := getenv "EMAIL_FROM" "notifications@dokaz.net";
  PostHogAPIKey := Getenv "POSTHOG_API_KEY"; PostHogHost := Getenv "POSTHOG_HOST";
  GoogleOAuthClientID := Getenv "GOOGLE_OAUTH_CLIENT_ID"; GoogleOAuthClientSecret := Getenv "GOOGLE_OAUTH_CLIENT_SECRET";
  GitHubOAuthClientID := Getenv "GITHUB_OAUTH_CLIENT_ID"; GitHubOAuthClientSecret := Getenv "GITHUB_OAUTH_CLIENT_SECRET";
  FlyAPIToken := Getenv "FLY_API_TOKEN"; FlyAppName := Getenv "FLY_APP_NAME"; FlyPostgresImage := Getenv "FLY_POSTGRES_IMAGE";
  FlyRegion := getenv "FLY_REGION" "iad"; FlySandboxDBPassword := Getenv "FLY_SANDBOX_DB_PASSWORD";
  StaffEmails := parseList (Getenv "STAFF_EMAILS"); MetricsToken := Getenv "METRICS_TOKEN";
  FirebaseServiceAccount := Getenv "FIREBASE_SERVICE_ACCOUNT"
|}.

Definition Load : error + Config :=
  let c := from_environment "" (14 * 24 * hour) in
  if bool_decide (DatabaseURL c = "") then inl (ErrNew "DATABASE_URL is required") else
  let dev := bool_decide (Environment c = "dev") in
  if negb dev && bool_decide (BaseURL c = "") then inl (ErrNew "BASE_URL is required outside dev (e.g. https://app.dokaz.net)") else
  let key := Getenv "SESSION_KEY" in
  if bool_decide (key = "") && negb dev then inl (ErrNew "SESSION_KEY is required outside dev") else
  let key := if bool_decide (key = "") then dev_session_key else key in
  let v := Getenv "SESSION_IDLE_HOURS" in
  if bool_decide (v = "") then inr (from_environment key (14 * 24 * hour)) else
  match Atoi v with
  | None => inl (ErrNew "invalid SESSION_IDLE_HOURS")
  | Some hours => inr (from_environment key (int64 (hours * hour)))
  end.
End load.

Definition IsProduction (c : Config) : bool := bool_decide (Environment c = "prod") || bool_decide (Environment c = "production").
