(* ===== verification/Tools.v ===== *)
(** The operator's commands: cmd/evidence-keys, cmd/set-unlimited and
    cmd/devkeys, with the part of the flag package they use. *)
From S2P Require Import Prelude Crypto Effects Schema Encoding Scheduler AccountStore Cipher Signer Billing EvidenceStore V1 Config.
From Stdlib Require Import Ascii.

(** ** The flag package *)

(** strconv.ParseBool *)
Definition ParseBool (s : string) : option bool :=
  if bool_decide (s ∈ ["1"; "t"; "T"; "true"; "TRUE"; "True"]) then Some true
  else if bool_decide (s ∈ ["0"; "f"; "F"; "false"; "FALSE"; "False"]) then Some false else None.

(** A flag's value, and whether it is boolean. *)
Record Flag : Type := mkFlag { fl_bool : bool; fl_value : string }.
(** What FlagSet.Parse with ExitOnError comes to: the process exits with a
    code, or goes on with the values of the flags. *)
Definition ParseResult : Type := Z + gmap string Flag.

(** One or two dashes, then a name; anything else ends the flags. *)
Definition flag_name (arg : string) : option (option string) :=
  match chars arg with
  | "-"%char :: "-"%char :: [] => Some None
  | "-"%char :: "-"%char :: l => Some (Some (unchars l))
  | "-"%char :: c :: l => Some (Some (unchars (c :: l)))
  | _ => None
  end.
Fixpoint flag_Parse (flags : gmap string Flag) (args : list string) : ParseResult :=
  match args with
  | [] => inr flags
  | arg :: args' =>
      match flag_name arg with
      | None => inr flags                    (* the arguments proper begin *)
      | Some None => inr flags               (* -- *)
      | Some (Some body) =>
          if HasPrefix body "-" || HasPrefix body "=" then inl 2 else
          let '(name, value) := match Cut body "="%char with Some (n, v) => (n, Some v) | None => (body, None) end in
          match flags !! name with
          | None => inl (if bool_decide (name = "help") || bool_decide (name = "h") then 0 else 2)
          | Some f =>
              if fl_bool f then
                match ParseBool (default "true" value) with
                | Some b => flag_Parse (<[ name := mkFlag true (if b then "true" else "false") ]> flags) args'
                | None => inl 2
                end
              else
                match value, args' with
                | Some v, _ => flag_Parse (<[ name := mkFlag false v ]> flags) args'
                | None, v :: args'' => flag_Parse (<[ name := mkFlag false v ]> flags) args''
                | None, [] => inl 2
                end
          end
      end
  end.
Definition bool_flag (flags : gmap string Flag) (name : string) : bool :=
  match flags !! name with Some f => bool_decide (fl_value f = "true") | None => false end.
Definition string_flag (flags : gmap string Flag) (name : string) : string :=
  match flags !! name with Some f => fl_value f | None => "" end.

(** ** The commands *)

(** The exit code and the lines on the standard output. *)
Definition Exit : Type := Z * list string.

Section tools.
Context `{env : Env} `{uuids : UuidLib} `{rand : Rand} `{ed : Ed25519} `{files : KeyFiles}.
(** os.Getenv, and what pgxpool.New says of a URL. *)
Context (Getenv : string -> string) (pool_New : string -> option error).

(** cmd/evidence-keys; [args]: os.Args[1:].  [die] exits with 1. *)
Definition die : GO Exit := mret (1, []).
Definition usage : GO Exit := mret (2, []).
Definition or_die {A} (m : GO A) (k : A -> GO Exit) : GO Exit :=
  r ← try m; match r with inl _ => die | inr a => k a end.
Definition splitCSV (v : string) : list string :=
  if bool_decide (v = "") then [] else filter (fun p => p <> "") (TrimSpace <$> Billing.Split v ","%char).

Definition verify_command (c : Cipher) : GO Exit :=
  or_die (Audit c) (fun a =>
    mret (0, ("active=" +:+ show_Z (Z.of_nat (ka_Active a)) +:+ " retired=" +:+ show_Z (Z.of_nat (ka_Retired a))
              +:+ " poison=" +:+ show_Z (Z.of_nat (length (ka_Poison a))))
             :: ((fun id => "  poison: " +:+ uuid_String id) <$> ka_Poison a))).
Definition rewrap_command (c : Cipher) : GO Exit :=
  or_die (RewrapAll c) (fun '(n, poison) =>
    mret (0, ["rewrapped=" +:+ show_Z (Z.of_nat n) +:+ " poison=" +:+ show_Z (Z.of_nat poison)])).
Definition shred_command (yes : bool) (c : Cipher) : GO Exit :=
  or_die (Audit c) (fun a =>
    if bool_decide (ka_Poison a = []) then mret (0, ["no poison rows — nothing to shred"]) else
    if negb yes then
      mret (0, ("DRY RUN — " +:+ show_Z (Z.of_nat (length (ka_Poison a))) +:+ " poison row(s) would be deleted (re-run with --yes):")
               :: ((fun id => "  " +:+ uuid_String id) <$> ka_Poison a))
    else or_die (ShredPoison c) (fun n => mret (0, ["deleted " +:+ show_Z (Z.of_nat n) +:+ " poison row(s)"]))).
Definition evidence_keys (args : list string) : GO Exit :=
  match args with
  | [] => usage
  | cmd :: rest =>
      match flag_Parse {[ "yes" := mkFlag true "false" ]} rest with
      | inl code => mret (code, [])
      | inr flags =>
          let yes := bool_flag flags "yes" in
          let dsn := Getenv "DATABASE_URL" in
          if bool_decide (dsn = "") then die else
          match pool_New dsn with
          | Some _ => die
          | None =>
              or_die (NewCipher (Getenv "EVIDENCE_ENCRYPTION_KEY") (splitCSV (Getenv "EVIDENCE_ENCRYPTION_KEYS_RETIRED"))) (fun c =>
                if ephemeral c then die else
                if bool_decide (cmd = "verify") then verify_command c
                else if bool_decide (cmd = "rewrap") then rewrap_command c
                else if bool_decide (cmd = "shred-poison") then shred_command yes c
                else usage)
          end
      end
  end.

(** cmd/set-unlimited; [args]: os.Args[1:]. *)
Definition set_unlimited (args : list string) : GO Exit :=
  match flag_Parse {[ "email" := mkFlag false ""; "off" := mkFlag true "false" ]} args with
  | inl code => mret (code, [])
  | inr flags =>
      let email := string_flag flags "email" in let off := bool_flag flags "off" in
      if bool_decide (email = "") then usage else
      let dsn := Getenv "DATABASE_URL" in
      if bool_decide (dsn = "") then usage else
      match pool_New dsn with
      | Some _ => die
      | None =>
          or_die (SetUnlimitedByOwnerEmail email (negb off)) (fun id =>
            mret (0, [(if off then "CLEARED" else "SET") +:+ " is_unlimited on account " +:+ uuid_String id +:+ " (owner: " +:+ email +:+ ")"]))
      end
  end.

(** cmd/devkeys: a master key and a signing key for development; log.Fatalf
    exits with 1. *)
Context (MarshalPKCS8PrivateKey : string -> error + string) (pem_EncodePrivate : string -> string).
Definition devkeys : GO Exit :=
  or_die (rand_Read 32) (fun enc =>
  or_die (fun w => lift (ed_GenerateKey (w_tick w)) (tick w)) (fun priv =>
  or_die (lift (MarshalPKCS8PrivateKey priv)) (fun pkcs8 =>
    mret (0, ["EVIDENCE_ENCRYPTION_KEY=" +:+ StdEncoding_Encode enc;
              "EVIDENCE_SIGNING_KEY_B64=" +:+ StdEncoding_Encode (pem_EncodePrivate pkcs8)])))).
End tools.
