(* ===== verification/AuthFacts.v ===== *)
(** What internal/auth keeps: what a request's context vouches for, that
    one-time passwords, recovery codes and links are used once, and that the
    second login step rotates the session. *)
From S2P Require Import Prelude Crypto Effects Schema Encoding Plans Rbac Demo AccountStore AccountFacts AuthStore.
From Stdlib Require Import Ascii.

Section requests.
Context `{env : Env} `{uuids : UuidLib} `{rand : Rand} (idleTimeout absoluteMaxAge : Z).

(** The cookie names a session that is alive at [now] and past the second
    factor, of a user who is not deleted. *)
Definition vouched (db : DB) (now : time) (cookie : option string) (u : AuthUser) (row : SessionRow) : Prop :=
  exists c user, cookie = Some c /\
    (exists k, sessions (auth_db db) !! k = Some row) /\ ser_token_hash row = hashToken c /\
    se_MFAPending (ser_session row) = false /\
    now < se_ExpiresAt (ser_session row) /\ now - idleTimeout < ser_last_seen_at row /\
    users (account_db db) !! se_UserID (ser_session row) = Some user /\ u_DeletedAt user = None /\ u = auth_user user.

Lemma loadUser_ret id w u w' :
  loadUser id w = (Ret u, w') ->
  w_db w' = w_db w /\ exists user, users (account_db (w_db w)) !! id = Some user /\ u_DeletedAt user = None /\ u = auth_user user.
Proof.
  unfold loadUser. intros H. ret_inv. split; [done|]. revert H0. destruct (users _ !! id) as [user|]; [|done].
  simpl. case_bool_decide; [|done]. intros [= <-]. eauto.
Qed.

Lemma slide_ret c now w sess w' :
  slide idleTimeout c now w = (Ret sess, w') ->
  account_db (w_db w') = account_db (w_db w) /\
  exists row, (exists k, sessions (auth_db (w_db w)) !! k = Some row) /\ ser_token_hash row = hashToken c /\
    alive idleTimeout now row = true /\ sess = ser_session row.
Proof.
  unfold slide. intros [H _]%exec_ret. cbv beta zeta in H. destruct (head _) as [row|] eqn:E; [|done].
  injection H as Hdb <-. split; [rewrite <- Hdb; by destruct (w_db w)|].
  apply head_select_Some in E as [[Hc Ha]%andb_true_iff Hk].
  exists row. split; [done|]. split; [by apply bool_decide_eq_true in Hc|done].
Qed.

Lemma Lookup_ret cookie w u sess w' :
  Lookup idleTimeout cookie w = (Ret (u, sess), w') ->
  account_db (w_db w') = account_db (w_db w) /\
  (se_MFAPending sess = false -> exists row, vouched (w_db w) (env_now (w_tick w)) cookie u row /\ sess = ser_session row).
Proof.
  destruct cookie as [c|]; [|done]. unfold Lookup. intros H. ret_inv.
  match goal with Hs : slide _ _ _ _ = _ |- _ => apply slide_ret in Hs as (Ha & row & Hk & Hh & Hal & ->) end.
  match goal with Hl : loadUser _ _ = _ |- _ => apply loadUser_ret in Hl as (Hdb & user & Hu & Hd & ->) end.
  rewrite Hdb. rewrite Ha in *. split; [done|]. intros Hp.
  unfold alive in Hal. apply andb_true_iff in Hal as [?%Z.ltb_lt ?%Z.ltb_lt].
  exists row. split; [|done]. exists c, user. by repeat split.
Qed.

Lemma frame_ret_eq {A B} (proj : DB -> B) (m : GO A) w o w' :
  frame proj m -> m w = (o, w') -> proj (w_db w') = proj (w_db w).
Proof. intros Hf H. specialize (Hf w). by rewrite H in Hf. Qed.

Lemma frame_SetCurrentAccount cookie id : frame account_db (SetCurrentAccount cookie id).
Proof. destruct cookie; [|apply frame_fail]. apply frame_exec. intros t n db db' x Heq. injection Heq as <- _. by destruct db. Qed.
Lemma frame_CurrentAccountID cookie : frame account_db (CurrentAccountID cookie).
Proof. destruct cookie; unfold CurrentAccountID; frame_steps. Qed.
Lemma frame_GetMembership acct u : frame account_db (GetMembership acct u).
Proof. unfold GetMembership; frame_steps. Qed.
Lemma frame_GetAccount acct : frame account_db (GetAccount acct).
Proof. unfold GetAccount; frame_steps. Qed.
Lemma frame_ListAccountsForUser u : frame account_db (ListAccountsForUser u).
Proof. unfold ListAccountsForUser; frame_steps. Qed.
Lemma frame_Lookup cookie : frame account_db (Lookup idleTimeout cookie).
Proof.
  destruct cookie; unfold Lookup, loadUser; frame_steps. unfold slide. apply frame_exec.
  intros now n db db' x Heq. cbv zeta in Heq. destruct (head _); [|done]. injection Heq as <- _. by destruct db.
Qed.
End requests.

#[export] Hint Resolve frame_SetCurrentAccount frame_CurrentAccountID frame_GetMembership frame_GetAccount
  frame_ListAccountsForUser frame_Lookup : dokas.

Section context.
Context `{env : Env} `{uuids : UuidLib} `{rand : Rand} (idleTimeout absoluteMaxAge : Z).

(** The account on the context: live, with the user among its members. *)
Definition tenant_ok (db : DB) (ctx : ReqCtx) (a : Account) : Prop :=
  exists u id r m, cx_user ctx = Some u /\ cx_membership ctx = Some m /\
    accounts (account_db db) !! id = Some r /\ live_account r = true /\ acr_account r = a /\
    memberships (account_db db) !! (id, au_ID u) = Some m.

Lemma LoadCurrentAccount_ret cookie ctx w ctx' w' :
  cx_account ctx = None -> LoadCurrentAccount cookie mret ctx w = (Ret ctx', w') ->
  cx_user ctx' = cx_user ctx /\ (forall a, cx_account ctx' = Some a -> tenant_ok (w_db w) ctx' a).
Proof.
  intros Hno. unfold LoadCurrentAccount. destruct (cx_user ctx) as [u|] eqn:Eu;
    [|intros H; ret_inv; split; [done|]; intros a Ha; by rewrite Hno in Ha].
  intros (r & w1 & H1 & (id1 & w2 & H2 & (id2 & w3 & H3 & H)%bind_ret)%bind_ret)%bind_ret.
  cbv beta in *.
  apply (frame_ret_eq account_db) in H1; [|frame_steps].
  apply (frame_ret_eq account_db) in H2; [|frame_steps].
  apply (frame_ret_eq account_db) in H3; [|unfold ignore; frame_steps].
  case_bool_decide; [injection H as <- _; split; [done|]; intros a Ha; by rewrite Hno in Ha|].
  apply bind_ret in H as (ra & w4 & H4 & (rm & w5 & H5 & H)%bind_ret). cbv beta in *.
  pose proof (frame_ret_eq account_db _ _ _ _ (frame_try _ _ (frame_GetAccount id2)) H4) as F4.
  destruct ra as [e|a]; [injection H as <- _; split; [done|]; intros a Ha; by rewrite Hno in Ha|].
  destruct rm as [e|m]; [injection H as <- _; split; [done|]; intros a' Ha; by rewrite Hno in Ha|].
  injection H as <- _. split; [by destruct ctx|]. intros a' Ha'. 
  assert (Some a = Some a') as [= <-] by (rewrite <- Ha'; by destruct ctx).
  apply try_ret in H4, H5. unfold GetAccount, GetMembership in *. ret_inv.
  rewrite F4, H3, H2, H1 in *.
  destruct (accounts _ !! id2) as [row|] eqn:Er; [|done]. simpl in *. destruct (live_account row) eqn:El; simplify_eq.
  exists u, id2, row, m. by destruct ctx.
Qed.

(** What LoadUser and LoadCurrentAccount hand on. *)
Lemma request_context_ret cookie w ctx w' :
  LoadUser idleTimeout cookie (LoadCurrentAccount cookie mret) background w = (Ret ctx, w') ->
  (forall u, cx_user ctx = Some u ->
     exists row, vouched idleTimeout (w_db w) (env_now (w_tick w)) cookie u row) /\
  (forall a, cx_account ctx = Some a -> tenant_ok (w_db w) ctx a).
Proof.
  unfold LoadUser. intros (r & w1 & H1 & H)%bind_ret. cbv beta in H.
  pose proof (frame_ret_eq account_db _ _ _ _ (frame_try _ _ (frame_Lookup idleTimeout cookie)) H1) as F1.
  assert (forall db ctx a, account_db db = account_db (w_db w) -> tenant_ok db ctx a -> tenant_ok (w_db w) ctx a) as Hten
    by (unfold tenant_ok; intros db c a ->; done).
  destruct r as [e|[u sess]].
  { apply LoadCurrentAccount_ret in H as [Hu Ha]; [|done]. split; [by rewrite Hu|eauto]. }
  apply try_ret in H1. apply Lookup_ret in H1 as [_ Hv].
  destruct (se_MFAPending sess) eqn:Ep.
  { apply LoadCurrentAccount_ret in H as [Hu Ha]; [|done]. split; [by rewrite Hu|eauto]. }
  destruct (Hv eq_refl) as (row & Hrow & ->). destruct (se_ImpersonatorID _) as [staff|].
  - apply bind_ret in H as (r & w2 & H2 & H). cbv beta in H.
    apply (frame_ret_eq account_db) in H2; [|unfold loadUser; frame_steps].
    destruct r as [e|su]; apply LoadCurrentAccount_ret in H as [Hu Ha]; try done.
    all: split; [rewrite Hu; intros u' [= <-]; by exists row|].
    all: intros a Hac; apply (Hten (w_db w2)); [congruence|eauto].
  - apply LoadCurrentAccount_ret in H as [Hu Ha]; [|done]. split; [rewrite Hu; intros u' [= <-]; by exists row|eauto].
Qed.

(** what a handler may rely on.  Whatever fails on the way, when LoadUser
    and LoadCurrentAccount hand a request on, a user on its context was
    vouched for by the session of the request's own cookie - unexpired, not
    idle, past the second factor, of a user who is not deleted - and an
    account on its context is live and has that user as a member, under the
    membership that is on the context. *)
Theorem request_context cookie w ctx w' :
  LoadUser idleTimeout cookie (LoadCurrentAccount cookie mret) background w = (Ret ctx, w') ->
  (forall u, cx_user ctx = Some u ->
     exists row, vouched idleTimeout (w_db w) (env_now (w_tick w)) cookie u row) /\
  (forall a, cx_account ctx = Some a -> tenant_ok (w_db w) ctx a).
Proof. apply request_context_ret. Qed.
End context.

(** Ann is logged in with the cookie "c1"; her session acts for account 1. *)
Definition ann_session (pending : bool) (acct : option uuid) : SessionRow :=
  mkSessionRow (mkSession 70 2 0 (2000000000 * second) None pending None) (hashToken "c1") (1799999999 * second) acct.
Definition session_db : DB :=
  demo_db{{ auth_db -> sessions := {[ 70%N := ann_session false (Some 1%N) ]} }}.
Definition idle : Z := 3600 * second.

Lemma request_context_witness :
  exists ctx, (LoadUser (env:=demo_env) idle (Some "c1") (LoadCurrentAccount (env:=demo_env) (Some "c1") mret) background
                 (world session_db)).1 = Ret ctx /\ tenant_ok session_db ctx demo_account.
Proof.
  destruct (LoadUser (env:=demo_env) idle (Some "c1") (LoadCurrentAccount (env:=demo_env) (Some "c1") mret) background
    (world session_db)) as [o w'] eqn:E.
  pose proof E as E'. vm_compute in E'. injection E' as <- <-. eexists. split; [reflexivity|].
  apply (proj2 (request_context (env:=demo_env) idle (Some "c1") (world session_db) _ _ E)). reflexivity.
Defined.

(** Ann is also a member of account 6, and account 1 has been deleted. *)
Definition deleted_db : DB :=
  session_db{{ account_db -> accounts := {[ 1%N := mkAccountRow demo_account None None (Some 1) None;
                 6%N := mkAccountRow (mkAccount 6 "Beta" "beta" None "trial" 0 None None false) None None None None ]};
               account_db -> memberships := {[ (1%N, 2%N) := mkMembership 1 2 RoleOwner 0;
                                               (6%N, 2%N) := mkMembership 6 2 RoleOwner 0 ]} }}.

(** no fallback for a deleted account.  A session acts for an account
    that was soft-deleted while its memberships remain, and the user has
    another, live account; without any fault LoadCurrentAccount keeps the
    deleted account's id, because the membership still resolves, and hands
    the request on without an account, although ListAccountsForUser would
    have offered the live one. *)
Theorem deleted_account_no_fallback :
  exists (env : Env) (w w' w'' : World DB) cookie u ctx live,
    fault_free /\
    LoadUser (env:=env) idle (Some cookie) (LoadCurrentAccount (env:=env) (Some cookie) mret) background w = (Ret ctx, w') /\
    cx_user ctx = Some u /\ cx_account ctx = None /\
    ListAccountsForUser (env:=env) (au_ID u) w' = (Ret [(live, RoleOwner)], w'').
Proof.
  exists demo_env, (world deleted_db). eexists _, _, "c1". do 3 eexists. split; [done|].
  split; [vm_compute; reflexivity|]. split; [reflexivity|]. split; [reflexivity|].
  vm_compute. reflexivity.
Qed.

(** ** One-time passwords *)

Lemma length_decimal n z : String.length (decimal n z) = n.
Proof. induction n as [|n IH]; simpl; congruence. Qed.

Definition totp_skews : list Z := [0; - totpPeriod; totpPeriod].

Lemma TOTPCode_length secret t code : TOTPCode secret t = Some code -> String.length code = totpDigits.
Proof.
  unfold TOTPCode, mbind, option_bind. destruct (Base32_Decode _); [|done]. cbv zeta.
  intros Hc. apply (inj Some) in Hc. rewrite <- Hc. apply length_decimal.
Qed.

(** Whether a code exists depends on the secret alone. *)
Lemma TOTPCode_defined secret t t' code : TOTPCode secret t = Some code -> TOTPCode secret t' <> None.
Proof. unfold TOTPCode. by destruct (Base32_Decode _). Qed.

Lemma totp_try_Some secret code t l c :
  totp_try secret code t l = Some c ->
  exists skew, skew ∈ l /\ TOTPCode secret (t + skew) = Some code /\ c = totp_counter (t + skew).
Proof.
  induction l as [|skew l IH]; [done|]. simpl. destruct (TOTPCode secret (t + skew)) as [want|] eqn:E; [|done].
  case_bool_decide as Hw.
  - intros [= <-]. exists skew. split; [left|]. by subst.
  - intros (s & Hs & ?)%IH. exists s. split; [by right|done].
Qed.

Lemma totp_try_found secret code t l skew :
  skew ∈ l -> TOTPCode secret (t + skew) = Some code -> totp_try secret code t l <> None.
Proof.
  intros Hin Hc. induction l as [|s l IH]; [by apply not_elem_of_nil in Hin|]. simpl.
  pose proof (TOTPCode_defined _ _ (t + s) _ Hc) as Hd. destruct (TOTPCode secret (t + s)) as [want|] eqn:E; [|done].
  case_bool_decide as Hw; [done|]. apply elem_of_cons in Hin as [->|Hin]; [congruence|by apply IH].
Qed.

Lemma VerifyTOTPWithCounter_Some secret code t c :
  VerifyTOTPWithCounter secret code t = Some c ->
  exists skew, skew ∈ totp_skews /\ TOTPCode secret (t + skew) = Some (TrimSpace code) /\ c = totp_counter (t + skew).
Proof. unfold VerifyTOTPWithCounter. case_match; [done|]. apply totp_try_Some. Qed.

(** a code is accepted exactly when, up to surrounding blanks, it is the
    code of the current time step or of one of its two neighbours. *)
Theorem VerifyTOTP_window secret code t :
  VerifyTOTP secret code t = true <->
  exists skew, skew ∈ totp_skews /\ TOTPCode secret (t + skew) = Some (TrimSpace code).
Proof.
  unfold VerifyTOTP. split.
  - destruct (VerifyTOTPWithCounter secret code t) eqn:E; [|done].
    apply VerifyTOTPWithCounter_Some in E as (skew & ? & ? & _). eauto.
  - intros (skew & Hs & Hc). unfold VerifyTOTPWithCounter.
    rewrite (TOTPCode_length _ _ _ Hc), Nat.eqb_refl. simpl negb. cbv iota.
    pose proof (totp_try_found _ _ _ _ _ Hs Hc) as Hne. fold totp_skews.
    by destruct (totp_try _ _ _ _).
Qed.

Section totp.
Context `{env : Env} `{uuids : UuidLib} `{rand : Rand} (idleTimeout absoluteMaxAge : Z).

Definition last_counter (u : uuid) (db : DB) : option Z :=
  users (account_db db) !! u ≫= u_totp_last_used_counter.
Definition counter_from (u : uuid) (c : Z) (db : DB) : Prop := exists l, last_counter u db = Some l /\ c <= l.

Definition user_set (u : uuid) (f : User -> User) (db : DB) : DB := db{{ account_db -> users ::= alter f u }}.
Lemma update_user_ret u f w x w' : update_user u f w = (Ret x, w') -> w_db w' = user_set u f (w_db w).
Proof. intros H%update_ret. exact H. Qed.

Lemma last_counter_user_set u u' f db :
  last_counter u (user_set u' f db) =
  if decide (u' = u) then (f <$> users (account_db db) !! u) ≫= u_totp_last_used_counter else last_counter u db.
Proof. unfold last_counter. destruct db as [? [] ? ? ? ? ? ? ?]; simpl. rewrite lookup_alter. case_decide; by subst. Qed.

(** What a successful login code did. *)
Lemma VerifyAndConsumeTOTP_ret u code w w1 :
  VerifyAndConsumeTOTP u code w = (Ret true, w1) ->
  exists user secret n c, users (account_db (w_db w)) !! u = Some user /\ u_totp_secret user = Some secret /\
    VerifyTOTPWithCounter secret code (env_now n) = Some c /\
    (forall l, u_totp_last_used_counter user = Some l -> l < c) /\
    w_db w1 = user_set u (fun x => x{{ u_totp_last_used_counter := Some c }}) (w_db w).
Proof.
  intros H. apply tx_ret in H as (w0 & v & Hdb & [[H Hv]|[H Hv]]); revert Hv; ret_inv; intros Hv; try discriminate.
  match goal with Hq : (_ ≫= _) = Some _ |- _ => apply bind_Some in Hq as (user & Hu & [= Hs Hl]) end.
  match goal with Hu : update_user _ _ _ = _ |- _ => apply update_user_ret in Hu end.
  rewrite Hv. cbn [w_db tick] in *. repeat match goal with Hx : w_db _ = _ |- _ => rewrite Hx in *; clear Hx end.
  do 4 eexists. split; [exact Hu|]. split; [exact Hs|]. split; [eassumption|]. split; [|done].
  intros l Hl'.
  match goal with Hx : match _ with _ => _ end = false |- _ => rewrite <- Hl, Hl' in Hx; by apply Z.leb_gt end.
Qed.

(** The operations of the login flow that may run between two codes. *)
Inductive login_op : World DB -> World DB -> Prop :=
| op_code u code w : login_op w (VerifyAndConsumeTOTP u code w).2
| op_disable u w : login_op w (DisableMFA u w).2
| op_recovery u raw w : login_op w (ConsumeRecoveryCode u raw w).2
| op_verify_email raw w : login_op w (VerifyEmail raw w).2
| op_pending u w : login_op w (CreatePending absoluteMaxAge u w).2
| op_complete cookie w : login_op w (CompleteMFA absoluteMaxAge cookie w).2.

Lemma counter_from_user_set u u' c f db :
  (forall x l, u_totp_last_used_counter x = Some l -> c <= l ->
     exists l', u_totp_last_used_counter (f x) = Some l' /\ c <= l') ->
  counter_from u c db -> counter_from u c (user_set u' f db).
Proof.
  intros Hf (l & Hl & Hc). unfold counter_from. rewrite last_counter_user_set.
  case_decide; [|by exists l]. unfold last_counter in Hl.
  destruct (users _ !! u) as [x|]; [|done]. simpl in *. eauto.
Qed.

Lemma counter_from_update u c u' f :
  (forall x, u_totp_last_used_counter (f x) = u_totp_last_used_counter x) ->
  preserves (counter_from u c) (update_user u' f).
Proof.
  intros Hf. apply preserves_update. intros _ db. apply counter_from_user_set. intros x l. rewrite Hf. eauto.
Qed.

Lemma counter_from_frame {A} u c (m : GO A) : frame account_db m -> preserves (counter_from u c) m.
Proof. apply (frame_preserves account_db (fun d => exists l, users d !! u ≫= u_totp_last_used_counter = Some l /\ c <= l)). Qed.

Lemma frame_insert_session id u hash now expires acct p : frame account_db (insert_session id u hash now expires acct p).
Proof.
  apply frame_exec. intros t n db db' x Heq. repeat case_match; try discriminate Heq.
  injection Heq as <- _. by destruct db.
Qed.
Lemma frame_create u acct p : frame account_db (create absoluteMaxAge u acct p).
Proof.
  unfold create, generateToken. frame_steps; [|apply frame_insert_session].
  intros w. unfold rand_Read. by destruct (rand_bytes _ _).
Qed.
Lemma frame_delete_sessions p : frame account_db (delete_sessions p).
Proof. apply frame_exec. intros t n db db' x Heq. injection Heq as <- _. by destruct db. Qed.

Lemma login_op_counter u c w w' : login_op w w' -> counter_from u c (w_db w) -> counter_from u c (w_db w').
Proof.
  intros [u' code v|u' v|u' raw v|raw v|u' v|cookie v] HI.
  - revert v HI. apply (preserves_tx_ret (counter_from u c)). intros v [] v' HI H; ret_inv; try discriminate.
    match goal with Hu : update_user _ _ _ = _ |- _ => apply update_user_ret in Hu; rewrite Hu end.
    match goal with Hq : (_ ≫= _) = Some _ |- _ => apply bind_Some in Hq as (user & Hu & [= Hs Hl]) end.
    cbn [w_db tick] in *. repeat match goal with Hx : w_db _ = _ |- _ => rewrite Hx in *; clear Hx end.
    destruct HI as (l0 & Hl0 & Hc). unfold counter_from. rewrite last_counter_user_set.
    case_decide as Heq; [subst u'|by exists l0]. unfold last_counter in Hl0. rewrite Hu in *. simpl in *.
    rewrite Hl in Hl0. subst. eexists. split; [by destruct user|].
    match goal with Hx : (_ <=? _) = false |- _ => apply Z.leb_gt in Hx; lia end.
  - revert v HI. apply preserves_tx_body. preserve; [by apply counter_from_update; intros []|].
    apply counter_from_frame, frame_exec. intros t n db db' x Heq. injection Heq as <- _. by destruct db.
  - revert v HI. apply counter_from_frame. unfold ConsumeRecoveryCode. frame_steps.
    apply frame_exec. intros t n db db' x Heq. injection Heq as <- _. by destruct db.
  - revert v HI. apply preserves_tx_body. preserve; [|by apply counter_from_update; intros []].
    apply counter_from_frame, frame_exec. intros t n db db' x Heq. injection Heq as <- _. by destruct db.
  - revert v HI. apply counter_from_frame. apply frame_bind; [apply frame_delete_sessions|intros _; apply frame_create].
  - revert v HI. apply counter_from_frame. unfold CompleteMFA.
    pose proof frame_create. pose proof frame_delete_sessions. destruct cookie; frame_steps.
Qed.

Lemma login_ops_counter u c w w' : rtc login_op w w' -> counter_from u c (w_db w) -> counter_from u c (w_db w').
Proof. induction 1 as [w|w w1 w2 Hs _ IH]; [done|]. intros HI. apply IH. by eapply login_op_counter. Qed.

End totp.

(** Ann has enrolled an authenticator. *)
Definition ann_secret : string := "GEZDGNBVGY3TQOJQGEZDGNBVGY3TQOJQ".
Definition mfa_db : DB :=
  demo_db{{ account_db -> users := {[ 2%N := mkUser 2 "ann@example.com" true "" false true (Some ann_secret) None 0 None ]} }}.


(** ** One-time links *)

Definition tokens_wf (t : gmap uuid TokenRow) : Prop :=
  (forall k r, t !! k = Some r -> tk_id r = k) /\
  (forall k1 k2 r1 r2, t !! k1 = Some r1 -> t !! k2 = Some r2 -> tk_token_hash r1 = tk_token_hash r2 -> k1 = k2).
Definition tok_spent (h : string) (t : gmap uuid TokenRow) : Prop :=
  tokens_wf t /\ exists k r, t !! k = Some r /\ tk_token_hash r = h /\ tk_consumed_at r <> None.

Definition consumed (now : time) (id : uuid) (t : gmap uuid TokenRow) : gmap uuid TokenRow :=
  alter (fun r => r{{ tk_consumed_at := Some now }}) id t.

Lemma token_by_hash_Some h t r :
  token_by_hash h t = Some r -> tk_token_hash r = h /\ exists k, t !! k = Some r.
Proof. intros [Hh%bool_decide_eq_true Hk]%head_select_Some. done. Qed.

Lemma tok_spent_by_hash h t r : tok_spent h t -> token_by_hash h t = Some r -> tk_consumed_at r <> None.
Proof.
  intros [[_ Hu] (k & r' & Hk & Hh & Hc)] [Hh2 [k2 Hk2]]%token_by_hash_Some.
  assert (k = k2) as <- by (eapply Hu; eauto; congruence). congruence.
Qed.

Lemma lookup_consumed now id t k r' :
  consumed now id t !! k = Some r' ->
  exists r, t !! k = Some r /\ tk_id r' = tk_id r /\ tk_token_hash r' = tk_token_hash r /\
    tk_consumed_at r' = (if decide (id = k) then Some now else tk_consumed_at r).
Proof.
  unfold consumed. rewrite lookup_alter. case_decide; [|eauto 10].
  subst. intros (r & Hr & ->)%fmap_Some. exists r. by destruct r.
Qed.

Lemma tokens_wf_consumed now id t : tokens_wf t -> tokens_wf (consumed now id t).
Proof.
  intros [Hk Hu]. split.
  - intros k r' (r & Hr & -> & _)%lookup_consumed. eauto.
  - intros k1 k2 r1 r2 (x1 & H1 & _ & -> & _)%lookup_consumed (x2 & H2 & _ & -> & _)%lookup_consumed. eauto.
Qed.

Lemma lookup_consumed_eq now id t k r :
  t !! k = Some r -> exists r', consumed now id t !! k = Some r' /\ tk_token_hash r' = tk_token_hash r /\
    (tk_consumed_at r <> None -> tk_consumed_at r' <> None) /\ (id = k -> tk_consumed_at r' = Some now).
Proof.
  intros Hk. unfold consumed. rewrite lookup_alter. case_decide as Hd; subst; rewrite Hk; simpl.
  - eexists. split; [reflexivity|]. by destruct r.
  - exists r. naive_solver.
Qed.

Lemma tok_spent_consumed h now id t : tok_spent h t -> tok_spent h (consumed now id t).
Proof.
  intros [Hwf (k & r & Hr & Hh & Hc)]. split; [by apply tokens_wf_consumed|].
  destruct (lookup_consumed_eq now id t k r Hr) as (r' & ? & ? & ? & _). exists k, r'. naive_solver congruence.
Qed.

(** Consuming the token makes it spent. *)
Lemma consumed_spent h now t r :
  tokens_wf t -> token_by_hash h t = Some r -> tok_spent h (consumed now (tk_id r) t).
Proof.
  intros Hwf [Hh [k Hk]]%token_by_hash_Some. split; [by apply tokens_wf_consumed|].
  pose proof (proj1 Hwf _ _ Hk) as <-.
  destruct (lookup_consumed_eq now (tk_id r) t _ r Hk) as (r' & ? & ? & _ & Hc).
  exists (tk_id r), r'. rewrite Hc by done. naive_solver congruence.
Qed.

Lemma insert_token_tables t db id u hash expires t' :
  insert_token t db id u hash expires = inr t' ->
  t !! id = None /\ (forall k r, t !! k = Some r -> tk_token_hash r <> hash) /\
  t' = <[ id := mkTokenRow id u hash expires None ]> t.
Proof.
  unfold insert_token. repeat case_match; try discriminate. intros [= <-]. split; [done|]. split; [|done].
  match goal with Hx : sql_exists _ _ = false |- _ => rewrite sql_exists_false in Hx; rename Hx into Hf end.
  intros k r Hk Hh. specialize (Hf _ _ Hk). by rewrite bool_decide_eq_false in Hf.
Qed.

Lemma tok_spent_insert h t db id u hash expires t' :
  tok_spent h t -> insert_token t db id u hash expires = inr t' -> tok_spent h t'.
Proof.
  intros [[Hk Hu] (k & r & Hr & Hh & Hc)] (Hn & Hf & ->)%insert_token_tables. split; [split|].
  - intros k' r'. rewrite lookup_insert. case_decide; [naive_solver|eauto].
  - intros k1 k2 r1 r2. rewrite !lookup_insert. repeat case_decide; naive_solver.
  - exists k, r. rewrite lookup_insert_ne by congruence. done.
Qed.

Section links.
Context `{env : Env} `{uuids : UuidLib} `{rand : Rand}.

Definition magic (db : DB) : gmap uuid TokenRow := magic_link_tokens (auth_db db).
Definition verifs (db : DB) : gmap uuid TokenRow := email_verification_tokens (auth_db db).

Definition set_magic (t : gmap uuid TokenRow) (db : DB) : DB := db{{ auth_db -> magic_link_tokens := t }}.
Definition set_verifs (t : gmap uuid TokenRow) (db : DB) : DB := db{{ auth_db -> email_verification_tokens := t }}.
Lemma magic_set_magic t db : magic (set_magic t db) = t.
Proof. by destruct db as [? ? ? [] ? ? ?]. Qed.
Lemma verifs_set_verifs t db : verifs (set_verifs t db) = t.
Proof. by destruct db as [? ? ? [] ? ? ?]. Qed.
Lemma magic_user_set u f db : magic (user_set u f db) = magic db.
Proof. by destruct db as [? [] ? [] ? ? ? ?]. Qed.
Lemma verifs_user_set u f db : verifs (user_set u f db) = verifs db.
Proof. by destruct db as [? [] ? [] ? ? ? ?]. Qed.
Lemma magic_set_verifs t db : magic (set_verifs t db) = magic db.
Proof. by destruct db as [? ? ? [] ? ? ?]. Qed.
Lemma verifs_set_magic t db : verifs (set_magic t db) = verifs db.
Proof. by destruct db as [? ? ? [] ? ? ?]. Qed.

(** Reads a transaction body that committed back to the database before it. *)
Ltac link_commit :=
  ret_inv; try discriminate;
  repeat match goal with
    | Hu : update_user _ _ _ = _ |- _ => apply update_user_ret in Hu; rewrite Hu; clear Hu end;
  cbn [w_db tick] in *; repeat match goal with Hx : w_db _ = _ |- _ => rewrite Hx in *; clear Hx end.

(** What the two consumers did when they returned. *)
Lemma ConsumeMagicLink_ret raw w u w1 :
  ConsumeMagicLink raw w = (Ret u, w1) ->
  exists r n now, token_by_hash (hashToken raw) (magic (w_db w)) = Some r /\ tk_user_id r = u /\
    tk_consumed_at r = None /\ env_now n <= tk_expires_at r /\
    w_db w1 = set_magic (consumed now (tk_id r) (magic (w_db w))) (w_db w).
Proof.
  intros H. apply tx_ret in H as (w0 & v & Hdb & [[H Hv]|[H Hv]]); revert Hv; ret_inv; intros Hv; try discriminate.
  match goal with Hb : (_ <? env_now ?n) = false |- _ => apply Z.ltb_ge in Hb; eexists _, n, _ end.
  rewrite Hv. link_commit. do 4 (split; [done|]). unfold set_magic, magic.
  by destruct (w_db w) as [? ? ? [] ? ? ?].
Qed.

Lemma VerifyEmail_ret raw w u w1 :
  VerifyEmail raw w = (Ret u, w1) ->
  exists r n now, token_by_hash (hashToken raw) (verifs (w_db w)) = Some r /\ tk_user_id r = u /\
    tk_consumed_at r = None /\ env_now n <= tk_expires_at r /\
    w_db w1 = user_set u (fun x => x{{ u_EmailVerified := true }})
                (set_verifs (consumed now (tk_id r) (verifs (w_db w))) (w_db w)).
Proof.
  intros H. apply tx_ret in H as (w0 & v & Hdb & [[H Hv]|[H Hv]]); revert Hv; ret_inv; intros Hv; try discriminate.
  match goal with Hb : (_ <? env_now ?n) = false |- _ => apply Z.ltb_ge in Hb; eexists _, n, _ end.
  rewrite Hv. link_commit. do 4 (split; [done|]). unfold set_verifs, verifs.
  by destruct (w_db w) as [? [] ? [] ? ? ? ?].
Qed.

Inductive link_op : World DB -> World DB -> Prop :=
| op_new_link u w : link_op w (CreateMagicLinkToken u w).2
| op_use_link raw w : link_op w (ConsumeMagicLink raw w).2
| op_new_verif u w : link_op w (CreateVerificationToken u w).2
| op_use_verif raw w : link_op w (VerifyEmail raw w).2.

Definition both_spent (h h' : option string) (db : DB) : Prop :=
  (forall x, h = Some x -> tok_spent x (magic db)) /\ (forall x, h' = Some x -> tok_spent x (verifs db)).

Lemma both_spent_magic h h' t db :
  both_spent h h' db -> (forall x, tok_spent x (magic db) -> tok_spent x t) -> both_spent h h' (set_magic t db).
Proof. intros [H1 H2] Ht. split; intros x Hx; rewrite ?magic_set_magic, ?verifs_set_magic; eauto. Qed.
Lemma both_spent_verifs h h' t db :
  both_spent h h' db -> (forall x, tok_spent x (verifs db) -> tok_spent x t) -> both_spent h h' (set_verifs t db).
Proof. intros [H1 H2] Ht. split; intros x Hx; rewrite ?magic_set_verifs, ?verifs_set_verifs; eauto. Qed.

Lemma link_op_spent h h' w w' : link_op w w' -> both_spent h h' (w_db w) -> both_spent h h' (w_db w').
Proof.
  intros [u v|raw v|u v|raw v] HI; revert v HI.
  - fold (preserves (both_spent h h') (CreateMagicLinkToken u)). unfold CreateMagicLinkToken.
    preserve. apply preserves_exec. intros t n db db' x HS Heq.
    destruct (insert_token _ _ _ _ _ _) as [e|tab] eqn:E; [done|]. injection Heq as <- _.
    apply (both_spent_magic h h' tab db HS). intros y Hy. by eapply tok_spent_insert.
  - apply preserves_tx_ret. intros v u v' HS H. link_commit.
    refine (both_spent_magic h h' (consumed _ _ _) _ HS _). intros y. apply tok_spent_consumed.
  - fold (preserves (both_spent h h') (CreateVerificationToken u)). unfold CreateVerificationToken.
    preserve. apply preserves_exec. intros t n db db' x HS Heq.
    destruct (insert_token _ _ _ _ _ _) as [e|tab] eqn:E; [done|]. injection Heq as <- _.
    apply (both_spent_verifs h h' tab db HS). intros y Hy. by eapply tok_spent_insert.
  - apply preserves_tx_ret. intros v u v' HS H. link_commit.
    assert (forall db, both_spent h h' db -> both_spent h h' (user_set (tk_user_id a) (fun x => x{{ u_EmailVerified := true }}) db)) as Hu.
    { intros db [Hm Hv]. split; intros x Hx; rewrite ?magic_user_set, ?verifs_user_set; eauto. }
    apply Hu. refine (both_spent_verifs h h' (consumed _ _ _) _ HS _). intros y. apply tok_spent_consumed.
Qed.

Lemma link_ops_spent h h' w w' : rtc link_op w w' -> both_spent h h' (w_db w) -> both_spent h h' (w_db w').
Proof. induction 1 as [w|w w1 w2 Hs _ IH]; [done|]. intros HI. apply IH. by eapply link_op_spent. Qed.

(** C21: a sign-in link and a verification link work once.  When
    ConsumeMagicLink (VerifyEmail) returns a user, the token was that user's,
    unconsumed and unexpired (and the email now counts as verified); from
    then on, whatever links are issued or used and whatever fails, the token
    is never accepted again. *)
Theorem links_single_use raw w u w1 :
  (tokens_wf (magic (w_db w)) -> ConsumeMagicLink raw w = (Ret u, w1) ->
   (exists r n, token_by_hash (hashToken raw) (magic (w_db w)) = Some r /\ tk_user_id r = u /\
      tk_consumed_at r = None /\ env_now n <= tk_expires_at r) /\
   forall w2 u' w3, rtc link_op w1 w2 -> ConsumeMagicLink raw w2 <> (Ret u', w3)) /\
  (tokens_wf (verifs (w_db w)) -> VerifyEmail raw w = (Ret u, w1) ->
   (exists r n, token_by_hash (hashToken raw) (verifs (w_db w)) = Some r /\ tk_user_id r = u /\
      tk_consumed_at r = None /\ env_now n <= tk_expires_at r) /\
   (forall x, users (account_db (w_db w1)) !! u = Some x -> u_EmailVerified x = true) /\
   forall w2 u' w3, rtc link_op w1 w2 -> VerifyEmail raw w2 <> (Ret u', w3)).
Proof.
  split.
  - intros Hwf (r & n & now & Hr & Hu & Hc & Hx & Hdb)%ConsumeMagicLink_ret. split; [by exists r, n|].
    intros w2 u' w3 Hops (r2 & n2 & now2 & Hr2 & _ & Hc2 & _)%ConsumeMagicLink_ret.
    destruct (link_ops_spent (Some (hashToken raw)) None _ _ Hops) as [H1 _].
    { split; [|done]. intros x [= <-]. rewrite Hdb, magic_set_magic. by apply consumed_spent. }
    by destruct (tok_spent_by_hash _ _ _ (H1 _ eq_refl) Hr2).
  - intros Hwf (r & n & now & Hr & Hu & Hc & Hx & Hdb)%VerifyEmail_ret. split; [by exists r, n|]. split.
    { intros x Hx'. rewrite Hdb in Hx'. destruct (w_db w) as [? [] ? [] ? ? ? ?]; simpl in Hx'.
      rewrite lookup_alter_eq in Hx'. apply fmap_Some in Hx' as (y & _ & ->). by destruct y. }
    intros w2 u' w3 Hops (r2 & n2 & now2 & Hr2 & _ & Hc2 & _)%VerifyEmail_ret.
    destruct (link_ops_spent None (Some (hashToken raw)) _ _ Hops) as [_ H1].
    { split; [done|]. intros x [= <-]. rewrite Hdb, verifs_user_set, verifs_set_verifs. by apply consumed_spent. }
    by destruct (tok_spent_by_hash _ _ _ (H1 _ eq_refl) Hr2).
Qed.
End links.

(** One unused sign-in link and one verification link, both "tok". *)
Definition links_db : DB :=
  demo_db{{ auth_db -> magic_link_tokens := {[ 80%N := mkTokenRow 80 2 (hashToken "tok") (2000000000 * second) None ]};
            auth_db -> email_verification_tokens := {[ 81%N := mkTokenRow 81 2 (hashToken "tok") (2000000000 * second) None ]} }}.

Lemma tokens_wf_singleton r : tokens_wf {[ tk_id r := r ]}.
Proof. split; [intros k r'|intros k1 k2 r1 r2]; rewrite !lookup_singleton_Some; naive_solver. Qed.

Lemma links_single_use_witness :
  match ConsumeMagicLink (env:=demo_env) "tok" (ConsumeMagicLink (env:=demo_env) "tok" (world links_db)).2 with
  | (Ret _, _) => False | _ => True end.
Proof.
  destruct (ConsumeMagicLink (env:=demo_env) "tok" (world links_db)) as [o w1] eqn:E.
  pose proof E as E'. vm_compute in E'. injection E' as <- Hw. clear Hw.
  pose proof (fun u' w3 => proj2 (proj1 (links_single_use (env:=demo_env) "tok" (world links_db) 2 w1)
    (tokens_wf_singleton (mkTokenRow 80 2 (hashToken "tok") (2000000000 * second) None)) E) w1 u' w3 (rtc_refl _ _)) as H.
  simpl. destruct (ConsumeMagicLink _ w1) as [[u'|e|] w3]; [exact (H u' w3 eq_refl)|exact I|exact I].
Defined.

(** ** The second login step *)

Section rotation.
Context `{env : Env} `{uuids : UuidLib} `{rand : Rand} (idleTimeout absoluteMaxAge : Z).

Definition no_session (c : string) (db : DB) : Prop :=
  forall k s, sessions (auth_db db) !! k = Some s -> ser_token_hash s <> hashToken c.
Definition all_pending (c : string) (db : DB) : Prop :=
  forall k s, sessions (auth_db db) !! k = Some s -> ser_token_hash s = hashToken c ->
    se_MFAPending (ser_session s) = true.

Lemma no_session_all_pending c db : no_session c db -> all_pending c db.
Proof. intros Hn k s Hk Hh. by destruct (Hn _ _ Hk). Qed.

(** What storing a session does. *)
Lemma create_ret u acct p w c w' :
  create absoluteMaxAge u acct p w = (Ret c, w') ->
  exists id n, (w_tick w <= n)%nat /\
    let s := mkSessionRow (mkSession id u (env_now n) (env_now n + absoluteMaxAge) None p None) (hashToken c) (env_now n)
               (if bool_decide (acct = uuid_Nil) then None else Some acct) in
    no_session c (w_db w) /\ sessions (auth_db (w_db w)) !! id = None /\
    w_db w' = (w_db w){{ auth_db -> sessions ::= <[ id := s ]> }}.
Proof.
  unfold create. intros ([raw hash] & w1 & H1 & H)%bind_ret. cbv beta iota in H.
  assert (w_tick w <= w_tick w1)%nat as Ht.
  { revert H1. unfold generateToken, rand_Read, mbind, M_bind, mret, M_ret. destruct (rand_bytes _ _); [done|].
    intros [= _ _ <-]. simpl. lia. }
  apply generateToken_ret in H1 as [Hdb ->].
  apply bind_ret in H as (id & w2 & [= <- <-] & (now & w3 & [-> ->]%now_ret & (x & w4 & [H _]%exec_ret & H2)%bind_ret)%bind_ret).
  ret_inv. cbv beta in H. cbn [w_db tick] in H. rewrite Hdb in H.
  destruct (users _ !! u); [|done]. destruct (sessions (auth_db (w_db w)) !! _) eqn:Es; [done|].
  destruct (sql_exists _ _) eqn:Eh; [done|]. injection H as <-.
  exists (env_uuid (w_tick w1)), (w_tick (tick w1)). simpl. split; [lia|]. split; [|done].
  intros k s Hk Hh. rewrite sql_exists_false in Eh. specialize (Eh _ _ Hk). by rewrite bool_decide_eq_false in Eh.
Qed.

Lemma lookup_session_insert id s db k s' :
  sessions (auth_db db{{ auth_db -> sessions ::= <[ id := s ]> }}) !! k = Some s' ->
  (k = id /\ s' = s) \/ (sessions (auth_db db) !! k = Some s').
Proof.
  destruct db as [? ? ? [] ? ? ?]. simpl. rewrite lookup_insert. case_decide; naive_solver.
Qed.

(** A request whose session waits for the second factor, or that names no
    session, is passed on without a user. *)
Lemma LoadUser_none c w ctx w' :
  all_pending c (w_db w) -> LoadUser idleTimeout (Some c) mret background w = (Ret ctx, w') -> ctx = background.
Proof.
  intros Hp. unfold LoadUser. intros (r & w1 & H1 & H)%bind_ret. cbv beta in H.
  destruct r as [e|[u sess]]; [by ret_inv|].
  apply try_ret, Lookup_ret in H1 as [_ Hv]. destruct (se_MFAPending sess) eqn:E; [by ret_inv|].
  destruct (Hv eq_refl) as (row & (c' & user & [= <-] & [k Hk] & Hh & Hn & _) & _).
  rewrite (Hp _ _ Hk Hh) in Hn. done.
Qed.

Lemma LoadUser_found c w k s user :
  fault_free -> sessions (auth_db (w_db w)) !! k = Some s -> ser_token_hash s = hashToken c ->
  (forall k' s', sessions (auth_db (w_db w)) !! k' = Some s' -> ser_token_hash s' = hashToken c -> s' = s) ->
  alive idleTimeout (env_now (w_tick w)) s = true -> se_MFAPending (ser_session s) = false ->
  se_ImpersonatorID (ser_session s) = None ->
  users (account_db (w_db w)) !! se_UserID (ser_session s) = Some user -> u_DeletedAt user = None ->
  (LoadUser idleTimeout (Some c) mret background w).1 =
    Ret background{{ cx_user := Some (auth_user user); cx_staffVerifiedAt := se_StaffVerifiedAt (ser_session s) }}.
Proof.
  intros ff Hk Hh Hu Ha Hp Hi Huser Hd. unfold LoadUser.
  assert (exists w', Lookup idleTimeout (Some c) w = (Ret (auth_user user, ser_session s), w')) as [w' Hl].
  { eexists. unfold Lookup. eapply bind_ok; [reflexivity|]. cbv beta.
    eapply bind_ok.
    { unfold no_rows_as, try, mbind, M_bind, slide. erewrite exec_ok; [reflexivity|apply ff|].
      cbv zeta. cbn [w_db tick].
      rewrite (head_select_unique _ _ k s Hk); [reflexivity| |].
      - unfold of_cookie. by rewrite bool_decide_eq_true_2, Ha by done.
      - intros k' s' Hk' [Hc%bool_decide_eq_true _]%andb_true_iff. eauto. }
    cbv beta. eapply bind_ok; [|reflexivity]. unfold loadUser. apply query_row_ok; [apply ff|].
    cbn [w_db with_db]. destruct (w_db w) as [? [] ? [] ? ? ? ?]. simpl in *. rewrite Huser. simpl.
    by rewrite bool_decide_eq_true_2 by done. }
  unfold try, mbind, M_bind. rewrite Hl. cbv beta iota. by rewrite Hp, Hi.
Qed.

(** the second login step rotates the session.  After the password step
    the pending session's cookie does not authenticate a request; once the
    code is accepted and CompleteMFA has run, neither does the old cookie,
    while the new one, within the idle and absolute limits, authenticates
    its user, with no impersonation and no staff confirmation carried over. *)
Theorem mfa_rotates_session u user w c w1 c' w2 :
  fault_free -> (forall n m, (n <= m)%nat -> env_now n <= env_now m) ->
  users (account_db (w_db w)) !! u = Some user -> u_DeletedAt user = None ->
  CreatePending absoluteMaxAge u w = (Ret c, w1) ->
  CompleteMFA absoluteMaxAge (Some c) w1 = (Ret c', w2) ->
  hashToken c' <> hashToken c ->
  env_now (w_tick w2) < env_now (w_tick w1) + Z.min idleTimeout absoluteMaxAge ->
  (forall ctx w3, LoadUser idleTimeout (Some c) mret background w1 = (Ret ctx, w3) -> ctx = background) /\
  (forall ctx w3, LoadUser idleTimeout (Some c) mret background w2 = (Ret ctx, w3) -> ctx = background) /\
  (LoadUser idleTimeout (Some c') mret background w2).1 = Ret background{{ cx_user := Some (auth_user user) }}.
Proof.
  intros ff Hmono Hu Hd H1 H2 Hne Hnow.
  apply bind_ret in H1 as (x & w0 & Hdel & H1).
  pose proof (frame_ret_eq account_db _ _ _ _ (frame_delete_sessions _) Hdel) as F0.
  pose proof (frame_ret_eq account_db _ _ _ _ (frame_create absoluteMaxAge u uuid_Nil true) H1) as F1.
  apply create_ret in H1 as (id1 & n1 & Hn1 & Hno1 & Hid1 & Hdb1).
  unfold CompleteMFA in H2. apply bind_ret in H2 as (s & w1a & Hq & H2). cbv beta in H2.
  apply no_rows_as_ret in Hq. pose proof (exec_ret _ _ _ _ Hq) as [_ Ht1]. apply query_row_ret in Hq as [Hf Hdb1a].
  destruct (negb _) eqn:Ep; [done|]. apply bind_ret in H2 as (x2 & w1b & Hdel2 & H2). cbv beta in H2.
  pose proof (frame_ret_eq account_db _ _ _ _ (frame_delete_sessions _) Hdel2) as F1b.
  pose proof (frame_ret_eq account_db _ _ _ _ (frame_create absoluteMaxAge _ uuid_Nil false) H2) as F2.
  pose proof (exec_ret _ _ _ _ Hdel2) as [_ Ht2]. apply update_ret in Hdel2.
  apply create_ret in H2 as (id2 & n2 & Hn2 & Hno2 & Hid2 & Hdb2).
  assert (se_UserID (ser_session s) = u) as Hsu.
  { apply head_select_Some in Hf as [Hc%bool_decide_eq_true [k Hk]]. rewrite Hdb1 in Hk.
    apply lookup_session_insert in Hk as [[_ ->]|Hk]; [done|]. by destruct (Hno1 _ _ Hk). }
  assert (no_session c (w_db w1b)) as Hgone.
  { intros k s' Hk. rewrite Hdel2 in Hk. destruct (w_db w1a) as [? ? ? [] ? ? ?]; simpl in Hk.
    apply lookup_sql_delete_Some in Hk as [_ Hp]. by apply bool_decide_eq_false in Hp. }
  split; [|split].
  - intros ctx w3. apply LoadUser_none. intros k s' Hk Hh. rewrite Hdb1 in Hk.
    apply lookup_session_insert in Hk as [[_ ->]|Hk]; [done|]. by destruct (Hno1 _ _ Hk).
  - intros ctx w3. apply LoadUser_none, no_session_all_pending. intros k s' Hk Hh. rewrite Hdb2 in Hk.
    apply lookup_session_insert in Hk as [[_ ->]|Hk]; [by destruct Hne|]. by destruct (Hgone _ _ Hk).
  - pose proof (Hmono (w_tick w1) n2 ltac:(lia)) as Hge.
    match type of Hdb2 with _ = ?d => assert (sessions (auth_db d) !! id2 = Some (mkSessionRow
      (mkSession id2 u (env_now n2) (env_now n2 + absoluteMaxAge) None false None) (hashToken c') (env_now n2) None)) as Hs2 end.
    { rewrite Hsu. destruct (w_db w1b) as [? ? ? [] ? ? ?]. apply lookup_insert_eq. }
    rewrite <- Hdb2 in Hs2.
    erewrite (LoadUser_found c' w2 id2 _ user ff Hs2); [reflexivity|done| |  |done|done| |done].
    + intros k s' Hk Hh. rewrite Hdb2 in Hk.
      apply lookup_session_insert in Hk as [[-> ->]|Hk]; [by rewrite Hsu|]. by destruct (Hno2 _ _ Hk).
    + unfold alive. simpl. rewrite andb_true_iff, !Z.ltb_lt. lia.
    + simpl. by rewrite F2, F1b, Hdb1a, F1, F0.
Qed.
End rotation.

Lemma demo_clock_mono n m : (n <= m)%nat -> env_now (Env:=demo_env) n <= env_now (Env:=demo_env) m.
Proof. intros H. simpl. unfold Demo.second. lia. Qed.

Lemma mfa_rotates_session_witness :
  exists c' w2, (LoadUser (env:=demo_env) idle (Some c') mret background w2).1 =
    Ret background{{ cx_user := Some (mkAuthUser 2 "ann@example.com" true false false 0) }}.
Proof.
  destruct (CreatePending (env:=demo_env) day 2 (world demo_db)) as [o w1] eqn:E1.
  pose proof E1 as E1'. vm_compute in E1'. injection E1' as <- Hw1.
  destruct (CompleteMFA (env:=demo_env) day (Some "AQEBAQEBAQEBAQEBAQEBAQEBAQEBAQEBAQEBAQEBAQE") w1) as [o2 w2] eqn:E2.
  pose proof E2 as E2'. rewrite <- Hw1 in E2'. vm_compute in E2'. injection E2' as <- Hw2.
  eexists _, w2.
  apply (mfa_rotates_session (env:=demo_env) idle day 2 _ (world demo_db) _ w1 _ w2 (fun n => eq_refl) demo_clock_mono eq_refl eq_refl E1 E2).
  - vm_compute. discriminate.
  - rewrite <- Hw1, <- Hw2. vm_compute. reflexivity.
Defined.
