(* ===== verification/WebhookFacts.v ===== *)
(** What internal/webhooks keeps: which addresses a delivery may reach, what
    a fan-out creates, and that a delivered delivery stays so. *)
From S2P Require Import Prelude Crypto Effects Schema Encoding Net AuditLog Demo AccountFacts Http Webhooks.
From Stdlib Require Import Ascii.

(** ** Public addresses *)

(** The blocks that are not public, as (number, bits, prefix length). *)
Definition v4 (a b c d : Z) : Z := num [a; b; c; d].
Definition blocks4 : list (Z * Z) :=
  [ (v4 0 0 0 0, 32); (v4 10 0 0 0, 8); (v4 127 0 0 0, 8); (v4 169 254 0 0, 16); (v4 172 16 0 0, 12);
    (v4 192 168 0 0, 16); (v4 224 0 0 0, 4) ].
Definition v6 (a b last : Z) : Z := num ([a; b] ++ repeat 0 13 ++ [last]).
Definition blocks6 : list (Z * Z) :=
  [ (v6 0 0 0, 128); (v6 0 0 1, 128); (v6 0xfc 0 0, 7); (v6 0xfe 0x80 0, 10); (v6 0xff 0 0, 8) ].

Definition blocked (ip : IP) : Prop :=
  match To4 ip with
  | Some ip4 => Exists (fun '(base, len) => in_block 32 base len (num ip4)) blocks4
  | None => Exists (fun '(base, len) => in_block 128 base len (num ip)) blocks6
  end.

Lemma To4_wf ip ip4 : wf_ip ip -> To4 ip = Some ip4 -> length ip4 = 4%nat /\ Forall is_byte ip4.
Proof.
  intros [Hl Hb]. unfold To4. destruct (Nat.eqb_spec (length ip) 4) as [E|E]; [by intros [= <-]|].
  destruct (Nat.eqb_spec (length ip) 16) as [E2|E2]; simpl; [|done]. case_bool_decide; [|done].
  intros [= <-]. rewrite length_drop, E2. split; [done|]. by apply Forall_drop.
Qed.

Lemma land_byte m v k b :
  forallb (fun c => Bool.eqb (Z.land c m =? v) (c / 2 ^ k =? v / 2 ^ k)) (Z.of_nat <$> seq 0 256) = true ->
  is_byte b -> (Z.land b m =? v) = (b / 2 ^ k =? v / 2 ^ k).
Proof.
  intros H Hb. apply Bool.eqb_prop.
  exact (byte_cases (fun c => Bool.eqb (Z.land c m =? v) (c / 2 ^ k =? v / 2 ^ k)) b H Hb).
Qed.

Lemma in_block_bytes bits base len l1 l2 k v :
  Forall is_byte l2 -> 0 <= k -> bits - len = 8 * Z.of_nat (length l2) + k -> base / 2 ^ (bits - len) = v ->
  in_block bits base len (num (l1 ++ l2)) <-> num l1 / 2 ^ k = v.
Proof. intros H2 Hk He Hv. unfold in_block. rewrite Hv, He. by apply in_block_prefix. Qed.

Lemma num1 a : num [a] / 2 ^ 0 = a.
Proof. unfold num. simpl. rewrite Z.div_1_r. lia. Qed.
Lemma num1k a k : num [a] / 2 ^ k = a / 2 ^ k.
Proof. done. Qed.

Lemma pair_prefix a b x y k : is_byte b -> 0 <= y < 256 -> 0 <= k <= 8 ->
  num [a; b] / 2 ^ k = 256 * x / 2 ^ k + y / 2 ^ k <-> a = x /\ b / 2 ^ k = y / 2 ^ k.
Proof.
  intros Hb Hy Hk. unfold is_byte in Hb. unfold num. simpl.
  assert (exists q, 256 = q * 2 ^ k /\ 0 < 2 ^ k /\ 1 <= q) as (q & Hq & Hp & Hq1).
  { exists (2 ^ (8 - k)). rewrite <- Z.pow_add_r by lia. replace (8 - k + k) with 8 by lia. split; [done|].
    split; [by apply Z.pow_pos_nonneg; lia|]. pose proof (Z.pow_pos_nonneg 2 (8 - k)). lia. }
  replace (256 * (256 * 0 + a) + b) with (a * q * 2 ^ k + b) by (rewrite <- Z.mul_assoc, <- Hq; ring).
  replace (256 * x) with (x * q * 2 ^ k + 0) by (rewrite <- Z.mul_assoc, <- Hq; ring).
  rewrite !Z.div_add_l, Z.div_0_l by lia.
  assert (0 <= b / 2 ^ k < q) by (split; [apply Z.div_pos; lia|apply Z.div_lt_upper_bound; lia]).
  assert (0 <= y / 2 ^ k < q) by (split; [apply Z.div_pos; lia|apply Z.div_lt_upper_bound; lia]).
  split; [|naive_solver lia]. intros He. assert (a = x) as -> by nia. lia.
Qed.

Lemma Equal_v4 ip ip4 z : To4 ip = Some ip4 -> To4 z = Some z -> Equal ip z = bool_decide (ip4 = z).
Proof. unfold Equal. by intros -> ->. Qed.
Lemma Equal_cross ip z : (To4 ip = None <-> To4 z <> None) -> Equal ip z = false.
Proof. unfold Equal. destruct (To4 ip), (To4 z); naive_solver. Qed.

Lemma bytes4 a b c d : Forall is_byte [a; b; c; d] <-> is_byte a /\ is_byte b /\ is_byte c /\ is_byte d.
Proof. rewrite !Forall_cons. naive_solver. Qed.

Lemma blocked4 a b c d :
  Forall is_byte [a; b; c; d] ->
  Exists (fun '(base, len) => in_block 32 base len (num [a; b; c; d])) blocks4 <->
  [a; b; c; d] = IPv4zero \/ a = 10 \/ a = 127 \/ (a = 169 /\ b = 254) \/ (a = 172 /\ b / 2 ^ 4 = 1) \/
  (a = 192 /\ b = 168) \/ a / 2 ^ 4 = 14.
Proof.
  intros Hb. pose proof Hb as (Ha & Hb' & Hc & Hd)%bytes4. unfold blocks4. rewrite !Exists_cons, Exists_nil.
  assert (Forall is_byte [b; c; d]) as H3 by by inversion Hb.
  assert (Forall is_byte [c; d]) as H2 by by inversion H3.
  rewrite (in_block_bytes 32 (v4 10 0 0 0) 8 [a] [b; c; d] 0 10 H3 ltac:(lia) eq_refl eq_refl), num1.
  rewrite (in_block_bytes 32 (v4 127 0 0 0) 8 [a] [b; c; d] 0 127 H3 ltac:(lia) eq_refl eq_refl), num1.
  rewrite (in_block_bytes 32 (v4 169 254 0 0) 16 [a; b] [c; d] 0 _ H2 ltac:(lia) eq_refl eq_refl).
  rewrite (in_block_bytes 32 (v4 172 16 0 0) 12 [a; b] [c; d] 4 _ H2 ltac:(lia) eq_refl eq_refl).
  rewrite (in_block_bytes 32 (v4 192 168 0 0) 16 [a; b] [c; d] 0 _ H2 ltac:(lia) eq_refl eq_refl).
  rewrite (in_block_bytes 32 (v4 224 0 0 0) 4 [a] [b; c; d] 4 14 H3 ltac:(lia) eq_refl eq_refl), num1k.
  pose proof (pair_prefix a b 169 254 0 Hb' ltac:(lia) ltac:(lia)) as P1.
  pose proof (pair_prefix a b 172 16 4 Hb' ltac:(lia) ltac:(lia)) as P2.
  pose proof (pair_prefix a b 192 168 0 Hb' ltac:(lia) ltac:(lia)) as P3.
  change (256 * 169 / 2 ^ 0 + 254 / 2 ^ 0) with (v4 169 254 0 0 / 2 ^ (32 - 16)) in P1.
  change (256 * 172 / 2 ^ 4 + 16 / 2 ^ 4) with (v4 172 16 0 0 / 2 ^ (32 - 12)) in P2.
  change (256 * 192 / 2 ^ 0 + 168 / 2 ^ 0) with (v4 192 168 0 0 / 2 ^ (32 - 16)) in P3.
  rewrite P1, P2, P3. change (2 ^ 0) with 1. rewrite !Z.div_1_r. change (16 / 2 ^ 4) with 1.
  assert (in_block 32 (v4 0 0 0 0) 32 (num [a; b; c; d]) <-> [a; b; c; d] = IPv4zero) as ->; [|tauto].
  unfold in_block. change (2 ^ (32 - 32)) with 1. rewrite !Z.div_1_r. split; [|by intros ->].
  intros Hn. apply (num_inj [a; b; c; d] IPv4zero); [done| |done|done].
  by apply (Forall_forall is_byte); intros x Hx; repeat (apply elem_of_cons in Hx as [->|Hx]; [done|]); apply not_elem_of_nil in Hx.
Qed.

Lemma in_block_full ip z :
  Forall is_byte ip -> Forall is_byte z -> length ip = length z ->
  in_block 128 (num z) 128 (num ip) <-> ip = z.
Proof.
  intros Hi Hz Hl. unfold in_block. change (2 ^ (128 - 128)) with 1. rewrite !Z.div_1_r.
  split; [by apply num_inj|by intros ->].
Qed.

Lemma zeros_bytes n : Forall is_byte (repeat 0 n).
Proof. apply Forall_forall. intros x Hx%list_elem_of_In%repeat_spec. subst. unfold is_byte. lia. Qed.

Lemma blocked6 a b l :
  Forall is_byte (a :: b :: l) -> length l = 14%nat ->
  Exists (fun '(base, len) => in_block 128 base len (num (a :: b :: l))) blocks6 <->
  a :: b :: l = IPv6unspecified \/ a :: b :: l = IPv6loopback \/ a / 2 ^ 1 = 126 \/ (a = 254 /\ b / 2 ^ 6 = 2) \/ a = 255.
Proof.
  intros Hb Hl. assert (Forall is_byte (b :: l)) as H2 by by inversion Hb.
  assert (Forall is_byte l) as H3 by by inversion H2. assert (is_byte b) as Hbb by by inversion H2.
  unfold blocks6. rewrite !Exists_cons, Exists_nil.
  change (v6 0 0 0) with (num IPv6unspecified). change (v6 0 0 1) with (num IPv6loopback).
  rewrite (in_block_full (a :: b :: l) IPv6unspecified Hb (zeros_bytes 16)) by (simpl; lia).
  rewrite (in_block_full (a :: b :: l) IPv6loopback Hb) by
    first [simpl; lia | apply Forall_app; split; [apply zeros_bytes|by constructor]].
  rewrite (in_block_bytes 128 (v6 0xfc 0 0) 7 [a] (b :: l) 1 126 H2 ltac:(lia) ltac:(simpl; lia) eq_refl), num1k.
  rewrite (in_block_bytes 128 (v6 0xff 0 0) 8 [a] (b :: l) 0 255 H2 ltac:(lia) ltac:(simpl; lia) eq_refl), num1.
  rewrite (in_block_bytes 128 (v6 0xfe 0x80 0) 10 [a; b] l 6 _ H3 ltac:(lia) ltac:(lia) eq_refl).
  pose proof (pair_prefix a b 254 128 6 Hbb ltac:(lia) ltac:(lia)) as P1.
  change (256 * 254 / 2 ^ 6 + 128 / 2 ^ 6) with (v6 0xfe 0x80 0 / 2 ^ (128 - 10)) in P1.
  rewrite P1. change (128 / 2 ^ 6) with 2. tauto.
Qed.

(** isPublicIP is the complement of the special-purpose blocks.  It
    refuses an IPv4 address (also one mapped into IPv6) exactly in 0.0.0.0/32,
    10/8, 127/8, 169.254/16, 172.16/12, 192.168/16 and 224/4, and an IPv6
    address exactly in ::/128, ::1/128, fc00::/7, fe80::/10 and ff00::/8. *)
Theorem isPublicIP_blocks ip : wf_ip ip -> isPublicIP ip = true <-> ~ blocked ip.
Proof.
  intros Hwf. pose proof Hwf as [Hlen Hall]. unfold blocked, isPublicIP, IsLoopback, IsPrivate, IsUnspecified, IsLinkLocalUnicast,
    IsLinkLocalMulticast, IsMulticast. destruct (To4 ip) as [ip4|] eqn:E.
  - destruct (To4_wf _ _ Hwf E) as [Hl Hb]. rewrite (Equal_v4 ip ip4 IPv4zero E eq_refl).
    rewrite (Equal_cross ip IPv6unspecified) by (rewrite E; by vm_compute).
    destruct ip4 as [|a [|b [|c [|d [|]]]]]; try discriminate Hl.
    pose proof Hb as (Ha & Hb' & Hc & Hd)%bytes4.
    unfold byte_at. cbn [nth]. rewrite (blocked4 a b c d Hb).
    rewrite (land_byte 0xf0 16 4 b ltac:(vm_compute; reflexivity) Hb').
    rewrite (land_byte 0xf0 0xe0 4 a ltac:(vm_compute; reflexivity) Ha).
    change (16 / 2 ^ 4) with 1. change (0xe0 / 2 ^ 4) with 14.
    rewrite negb_true_iff, <- not_true_iff_false.
    rewrite !orb_true_iff, !andb_true_iff, !Z.eqb_eq, bool_decide_eq_true.
    assert (a = 224 -> a / 2 ^ 4 = 14) by (by intros ->). intuition congruence.
  - rewrite (Equal_cross ip IPv4zero) by (rewrite E; by vm_compute).
    assert (length ip = 16%nat) as Hl.
    { destruct Hlen as [H|H]; [|done]. unfold To4 in E. rewrite H in E. discriminate E. }
    rewrite Hl. destruct ip as [|a [|b l]]; try discriminate Hl. simpl in Hl. injection Hl as Hl.
    unfold byte_at. cbn [nth]. rewrite (blocked6 a b l Hall Hl).
    assert (is_byte a /\ is_byte b) as [Ha Hb] by (inversion Hall as [|? ? Ha Hr]; by inversion Hr).
    rewrite (land_byte 0xfe 0xfc 1 a ltac:(vm_compute; reflexivity) Ha).
    rewrite (land_byte 0xc0 0x80 6 b ltac:(vm_compute; reflexivity) Hb).
    assert (forall z, To4 z = None -> Equal (a :: b :: l) z = bool_decide (a :: b :: l = z)) as Heq
      by (intros z Hz; unfold Equal; by rewrite E, Hz).
    rewrite (Heq IPv6loopback eq_refl), (Heq IPv6unspecified eq_refl).
    change (0xfc / 2 ^ 1) with 126. change (0x80 / 2 ^ 6) with 2. simpl Nat.eqb.
    rewrite negb_true_iff, <- not_true_iff_false.
    rewrite !orb_true_iff, !andb_true_iff, !Z.eqb_eq, !bool_decide_eq_true. intuition congruence.
Qed.

Lemma isPublicIP_blocks_witness : isPublicIP [8; 8; 8; 8] = true /\ ~ blocked [8; 8; 8; 8].
Proof.
  assert (wf_ip [8; 8; 8; 8]) as Hwf.
  { split; [by left|]. repeat apply Forall_cons_2; try apply Forall_nil_2; unfold is_byte; lia. }
  split; [reflexivity|]. apply (proj1 (isPublicIP_blocks _ Hwf)). reflexivity.
Defined.

(** *** What ParseIP returns is an address *)

Lemma quad_field_byte l v : quad_field l = Some v -> is_byte v.
Proof.
  unfold quad_field. destruct (bool_decide (l = [])); [done|]. cbn [orb]. destruct (forallb digit l) eqn:Hd; [|done].
  cbn [negb]. case_match; [done|]. destruct (255 <? dec_value l) eqn:Hv; [done|]. intros [= <-]. apply Z.ltb_ge in Hv.
  assert (forall v, 0 <= v -> 0 <= foldl (fun v c => 10 * v + (byte_of c - 48)) v l) as Hpos.
  { clear Hv. match goal with Hx : _ && _ = false |- _ => clear Hx end. induction l as [|c l IH]; intros v Hv; [done|]. simpl in Hd. apply andb_true_iff in Hd as [Hc Hd].
    simpl. apply IH; [done|]. unfold digit in Hc. apply andb_true_iff in Hc as [Hc%Z.leb_le _]. lia. }
  unfold is_byte. specialize (Hpos 0 ltac:(lia)). unfold dec_value in *. lia.
Qed.
Lemma parse_quad_wf l ip : parse_quad l = Some ip -> length ip = 4%nat /\ Forall is_byte ip.
Proof.
  unfold parse_quad, mbind, option_bind. destruct (mapM _ _) as [fs|] eqn:E; [|done].
  destruct (Nat.eqb_spec (length fs) 4) as [Hl|]; [|done]. intros [= <-]. split; [done|].
  apply mapM_Some in E. clear Hl. induction E; constructor; [by eapply quad_field_byte|done].
Qed.
Lemma hex_value_any_range c h : hex_value_any c = Some h -> 0 <= h < 16.
Proof.
  unfold hex_value_any, hex_value. intros H. repeat case_match; simplify_eq;
    match goal with Hx : _ && _ = true |- _ => apply andb_true_iff in Hx as [?%Z.leb_le ?%Z.leb_le] end; lia.
Qed.
Lemma hex_group_bytes l ip : hex_group l = Some ip -> Forall is_byte ip.
Proof.
  unfold hex_group. destruct (bool_decide (l = [])); [done|]. cbn [orb]. destruct (Nat.ltb_spec 4 (length l)) as [|Hl]; [done|].
  set (f := fun v c => a ← v; h ← hex_value_any c; Some (16 * a + h)).
  assert (forall l k o, (forall a, o = Some a -> 0 <= a < 16 ^ Z.of_nat k) ->
    forall v, foldl f o l = Some v -> 0 <= v < 16 ^ Z.of_nat (k + length l)) as Hf.
  { clear l Hl. induction l as [|c l IH]; intros k o Ho v Hv; simpl in Hv; [rewrite Nat.add_0_r; by apply Ho|].
    replace (k + length (c :: l))%nat with (S k + length l)%nat by (simpl; lia). apply (IH (S k) (f o c)); [|done].
    intros a. unfold f. destruct o as [b|]; [|done]. simpl. destruct (hex_value_any c) as [h|] eqn:Eh; [|done].
    intros [= <-]. apply hex_value_any_range in Eh. specialize (Ho b eq_refl). rewrite Nat2Z.inj_succ, Z.pow_succ_r by lia. lia. }
  unfold mbind at 1, option_bind at 1. destruct (foldl f (Some 0) l) as [v|] eqn:E; [|done]. intros [= <-].
  apply (Hf l 0%nat) in E; [|intros a [= <-]; simpl; lia].
  assert (16 ^ Z.of_nat (0 + length l) <= 16 ^ 4) by (apply Z.pow_le_mono_r; lia). change (16 ^ 4) with (256 * 256) in *.
  repeat constructor; unfold is_byte; try apply Z.mod_pos_bound; try lia; [apply Z.div_pos|apply Z.div_lt_upper_bound]; lia.
Qed.
Lemma hex_groups_bytes gs ip : hex_groups gs = Some ip -> Forall is_byte ip.
Proof.
  revert ip. induction gs as [|g gs IH]; intros ip; [by intros [= <-]|]. destruct gs as [|g' gs'].
  - simpl. case_bool_decide; [by intros [_ ?]%parse_quad_wf|apply hex_group_bytes].
  - change (hex_groups (g :: g' :: gs')) with (b ← hex_group g; bs ← hex_groups (g' :: gs'); Some (b ++ bs)).
    unfold mbind, option_bind.
    destruct (hex_group g) as [b|] eqn:Eg; [|done]. destruct (hex_groups (g' :: gs')) as [bs|] eqn:Egs; [|done].
    intros [= <-]. apply Forall_app. split; [by eapply hex_group_bytes|by apply IH].
Qed.
Lemma groups_of_bytes l ip : groups_of l = Some ip -> Forall is_byte ip.
Proof. unfold groups_of. case_bool_decide; [by intros [= <-]|apply hex_groups_bytes]. Qed.

Lemma ParseIP_wf s ip : ParseIP s = Some ip -> wf_ip ip.
Proof.
  unfold ParseIP, parse_v6. case_bool_decide; [|].
  - destruct (cut_ellipsis [] (chars s)) as [[a b]|].
    + case_bool_decide; [done|]. destruct (groups_of a) as [x|] eqn:Ex; [|done]. simpl.
      destruct (groups_of b) as [y|] eqn:Ey; [|done]. simpl. destruct (Nat.ltb_spec (length x + length y) 16); [|done]. intros [= <-].
      split; [right; rewrite !length_app, repeat_length; lia|].
      rewrite !Forall_app. split; [by eapply groups_of_bytes|]. split; [apply zeros_bytes|by eapply groups_of_bytes].
    + destruct (groups_of (chars s)) as [x|] eqn:Ex; [|done]. simpl. destruct (Nat.eqb_spec (length x) 16); [|done].
      intros [= <-]. split; [by right|by eapply groups_of_bytes].
  - intros (q & Hq & ->)%fmap_Some. apply parse_quad_wf in Hq as [Hl Hb]. split; [right; simpl; by rewrite Hl|].
    change (repeat 0 10 ++ [0xff; 0xff] ++ q) with (repeat 0 10 ++ ([0xff; 0xff] ++ q)). rewrite !Forall_app.
    split; [apply zeros_bytes|]. split; [by repeat constructor|done].
Qed.

(** ** What a delivery reaches *)

(** A call to an address outside the blocks of [blocks4] and [blocks6]. *)
Definition public_target (c : extcall) : Prop :=
  ec_service c = "http" ->
  exists address rest host port ip, ec_args c = address :: rest /\
    SplitHostPort address = Some (host, port) /\ ParseIP host = Some ip /\ ~ blocked ip.

Lemma Control_public address :
  Control true address = None ->
  exists host port ip, SplitHostPort address = Some (host, port) /\ ParseIP host = Some ip /\ ~ blocked ip.
Proof.
  unfold Control. simpl. destruct (SplitHostPort address) as [[host port]|] eqn:Es; [|done].
  destruct (ParseIP host) as [ip|] eqn:Ei; [|done]. destruct (isPublicIP ip) eqn:Ep; [|done].
  intros _. exists host, port, ip. split; [done|]. split; [done|]. by apply isPublicIP_blocks; [eapply ParseIP_wf|].
Qed.

Lemma dial_checked net block n addrs e address : dial net block n addrs e = inr address -> Control block address = None.
Proof.
  revert e. induction addrs as [|a l IH]; intros e; [done|]. simpl.
  destruct (Control block a) as [e'|] eqn:Ec; [destruct (dial net block n l e') eqn:Ed; naive_solver|].
  destruct (connects net n a); [naive_solver|].
  destruct (dial net block n l _) eqn:Ed; naive_solver.
Qed.

Section facts.
Context `{env : Env} `{uuids : UuidLib} `{rand : Rand} (MarshalEvent : EventPayload -> error + string).
Context (net : Network) (metrics : bool).

Lemma calls_no_rows_as P {A} e (m : GO A) : calls P m -> calls P (no_rows_as e m).
Proof. intros Hm. apply calls_bind; [by apply calls_try|]. intros []; [apply calls_fail|apply calls_ret]. Qed.
Lemma calls_RecordAttempt P id st code err : calls P (RecordAttempt id st code err).
Proof. unfold RecordAttempt, set_attempt. call_steps. Qed.
Lemma calls_recordOutcome o : calls public_target (recordOutcome metrics o).
Proof. unfold recordOutcome. destruct metrics; [by apply calls_ext|apply calls_ret]. Qed.

Lemma frame_client_do {B} (proj : DB -> B) block call n method withBody url :
  frame proj (client_do net block call n method withBody url).
Proof.
  revert method withBody url. induction n as [|n IH]; intros method withBody url w; simpl;
    (destruct (dial _ _ _ _ _) as [err|address]; [done|]).
  all: match goal with |- ?p (w_db (?m _).2) = _ => assert (frame p m) as Hf; [|apply Hf] end.
  all: apply frame_bind; [apply frame_ext|intros [code loc]]; repeat case_match; first [apply frame_ret|apply frame_fail|apply IH].
Qed.
Lemma calls_client_do (P : extcall -> Prop) block call n method withBody url :
  (forall address m b u, Control block address = None -> P (call address m b u)) ->
  calls P (client_do net block call n method withBody url).
Proof.
  intros HP. revert method withBody url. induction n as [|n IH]; intros method withBody url w Hw; simpl;
    (destruct (dial _ _ _ _ _) as [err|address] eqn:Ed; [done|]; apply dial_checked in Ed; revert Hw).
  all: match goal with |- _ -> Forall ?p (w_trace (?m _).2) => cut (calls p m); [intros Hc; apply Hc|] end.
  all: apply calls_bind; [by apply calls_ext, HP|intros [code loc]].
  all: repeat case_match; first [apply calls_ret | apply calls_fail | apply IH].
Qed.
Lemma calls_post e d : calls public_target (post net true e d).
Proof.
  unfold post. destruct (new_request net (e_URL e)); [apply calls_fail|]. apply calls_client_do.
  intros address m b u Hc _. destruct (Control_public _ Hc) as (h & p & ip & ?). do 5 eexists. split; [reflexivity|eassumption].
Qed.

(** C28: with the guard on, a delivery job stays outside.  Whatever the
    delivery log, the endpoint's URL, the resolver, the redirects its target
    answers with and the faults are, every HTTP request a delivery makes goes
    to an address outside 0.0.0.0/32, 10/8, 127/8, 169.254/16, 172.16/12,
    192.168/16 and 224/4 - mapped into IPv6 or not - and outside ::/128,
    ::1/128, fc00::/7, fe80::/10 and ff00::/8: the check is on the address
    dialed, so a name or a redirect that leads to such an address is
    refused. *)
Theorem delivery_only_public id w :
  Forall public_target (w_trace w) ->
  Forall public_target (w_trace (DeliverWork net true metrics id w).2).
Proof.
  revert w. change (calls public_target (DeliverWork net true metrics id)). unfold DeliverWork.
  apply calls_bind; [apply calls_wrap_err, calls_no_rows_as, calls_exec|intros d].
  destruct (bool_decide _); [apply calls_ret|].
  apply calls_bind; [apply calls_try, calls_no_rows_as, calls_exec|intros [e|e]];
    [apply calls_wrap_err, calls_RecordAttempt|].
  apply calls_bind; [apply calls_try, calls_post|intros r].
  destruct (match r with inr _ => _ | inl _ => _ end) as [[code ok] reason]. destruct ok.
  - apply calls_bind; [apply calls_wrap_err, calls_RecordAttempt|intros; apply calls_recordOutcome].
  - apply calls_bind; [apply calls_wrap_err, calls_RecordAttempt|intros].
    apply calls_bind; [apply calls_recordOutcome|intros; apply calls_fail].
Qed.

(** ** A delivered delivery stays delivered *)

Definition rows_keyed (db : DB) : Prop :=
  forall k r, webhook_deliveries (hook_db db) !! k = Some r -> dl_ID (dr_delivery r) = k.
Definition delivered_row (id : uuid) (r : DeliveryRow) (db : DB) : Prop :=
  rows_keyed db /\ webhook_deliveries (hook_db db) !! id = Some r.

Lemma set_attempt_other id r id' st code err t :
  id' <> id -> preserves (delivered_row id r) (set_attempt id' st code err t).
Proof.
  intros Hne. apply preserves_update. intros now db [Hk Hr].
  unfold delivered_row, rows_keyed in *. destruct db as [? ? ? ? ? [] ?]; simpl in *. split.
  - intros k r'. rewrite lookup_alter. case_decide; [|apply Hk]. subst.
    intros (r0 & Hr0 & ->)%fmap_Some. rewrite <- (Hk _ _ Hr0). by destruct r0 as [[] ?].
  - by rewrite lookup_alter_ne.
Qed.

Lemma RecordAttempt_other id r id' st code err :
  id' <> id -> preserves (delivered_row id r) (RecordAttempt id' st code err).
Proof. intros Hne. unfold RecordAttempt. preserve; by apply set_attempt_other. Qed.

Lemma preserves_post I e d blockPrivate : preserves I (post net blockPrivate e d).
Proof.
  unfold post. destruct (new_request _ _); [apply preserves_fail|].
  intros w HI. by rewrite (frame_client_do (fun db => db)).
Qed.

Lemma DeliverWork_other id r blockPrivate id' :
  dl_Status (dr_delivery r) = StatusDelivered ->
  preserves (delivered_row id r) (DeliverWork net blockPrivate metrics id').
Proof.
  intros Hst. unfold DeliverWork.
  apply (preserves_bind_ret _ _ _ (fun d => dl_Status d = StatusDelivered \/ dl_ID d <> id)).
  - apply preserves_wrap_err. unfold GetDelivery. preserve.
  - intros w d w' [Hk Hr] Hret%wrap_err_ret. unfold GetDelivery in Hret. ret_inv.
    apply fmap_Some in H as (r' & Hr' & ->). pose proof (Hk _ _ Hr') as <-.
    destruct (decide (dl_ID (dr_delivery r') = id)) as [He|]; [left|by right].
    rewrite He in Hr'. congruence.
  - intros d Hd. case_bool_decide as Hs; [apply preserves_ret|]. destruct Hd as [|Hne]; [done|].
    unfold GetEndpointByID. apply preserves_bind; [preserve|intros [e|e]].
    { by apply preserves_wrap_err, RecordAttempt_other. }
    apply preserves_bind; [apply preserves_try, preserves_post|intros x].
    destruct (match x with inr _ => _ | inl _ => _ end) as [[code ok] reason].
    unfold recordOutcome. destruct ok; preserve; by apply preserves_wrap_err, RecordAttempt_other.
Qed.

Lemma CreateDelivery_other id r ep acct ev key payload :
  preserves (delivered_row id r) (CreateDelivery ep acct ev key payload).
Proof.
  apply preserves_exec. intros now k db db' x [Hk Hr] Heq. cbv zeta in Heq.
  destruct (env_jsonb payload) as [json|]; [|done]. destruct (_ ≫= _) as [r0|]; [by simplify_eq|].
  repeat case_match; try discriminate Heq. injection Heq as <- _.
  unfold delivered_row, rows_keyed in *. destruct db as [? ? ? ? ? [] ?]; simpl in *. split.
  - intros k' r'. rewrite lookup_insert. case_decide; [naive_solver|apply Hk].
  - rewrite lookup_insert_ne; [done|congruence].
Qed.

Lemma InsertJob_other id r d u : preserves (delivered_row id r) (InsertJob d u).
Proof.
  apply preserves_exec. intros now k db db' x Hd Heq.
  destruct (u && _); [by injection Heq as <- _|]. destruct (webhook_jobs _ !! _); [done|]. injection Heq as <- _. by destruct db as [? ? ? ? ? [] ?].
Qed.

Lemma Dispatch_other id r acct ev data : preserves (delivered_row id r) (Dispatch MarshalEvent acct ev data).
Proof.
  unfold Dispatch, ListEnabledEndpoints, ListEndpoints, MarshalPayload, send_one.
  repeat first [progress preserve | apply preserves_wrap_err
    | apply CreateDelivery_other | apply InsertJob_other].
Qed.

(** Everything that writes the delivery log. *)
Inductive hook_op : World DB -> World DB -> Prop :=
| op_deliver block id w : hook_op w (DeliverWork net block metrics id w).2
| op_dispatch acct ev data w : hook_op w (Dispatch MarshalEvent acct ev data w).2
| op_replay ep acct ev payload w : hook_op w (CreateDelivery ep acct ev "" payload w).2
| op_enqueue id w : hook_op w (Enqueue id w).2.

(** C27: delivered is final.  Once a delivery reads delivered, no further
    job, retry, duplicate job, dispatch or replay, whatever fails in it,
    changes its row, and running its job again makes no call. *)
Theorem delivered_is_final id r w w' :
  rows_keyed (w_db w) -> webhook_deliveries (hook_db (w_db w)) !! id = Some r ->
  dl_Status (dr_delivery r) = StatusDelivered -> rtc hook_op w w' ->
  webhook_deliveries (hook_db (w_db w')) !! id = Some r /\
  forall block, w_trace (DeliverWork net block metrics id w').2 = w_trace w'.
Proof.
  intros Hk Hr Hst Hops.
  assert (delivered_row id r (w_db w')) as [Hk' Hr'].
  { assert (delivered_row id r (w_db w)) as Hd by done. clear Hk Hr. revert Hd.
    induction Hops as [w|w w1 w2 Hs _ IH]; [done|]. intros Hd. apply IH. revert Hd.
    destruct Hs; [by apply DeliverWork_other|apply Dispatch_other|apply CreateDelivery_other|apply InsertJob_other]. }
  split; [done|]. intros block. unfold DeliverWork, GetDelivery, wrap_err, no_rows_as, try, mbind, M_bind.
  pose proof (exec_spec (fun now _ s => match (fun (_ : Z) db => dr_delivery <$> webhook_deliveries (hook_db db) !! id) now s with
    | Some a => inr (s, a) | None => inl ErrNoRows end) w') as (Ht & _ & _ & Ho).
  unfold query_row. destruct (exec _ w') as [[d|e|] w1]; simpl in *; try done.
  rewrite Hr' in Ho. simpl in Ho. injection Ho as _ <-. by rewrite bool_decide_eq_true_2.
Qed.
End facts.

(** ** Fan-out *)

Definition deliveries_to (ep : uuid) (db : DB) : nat :=
  sql_count (fun r => bool_decide (dl_EndpointID (dr_delivery r) = ep)) (webhook_deliveries (hook_db db)).

(** A delivery of this key to the endpoint is stored and has a job. *)
Definition queued (ep : uuid) (key : string) (db : DB) : Prop :=
  exists k r j, webhook_deliveries (hook_db db) !! k = Some r /\ same_key ep key r = true /\
    webhook_jobs (hook_db db) !! j = Some k.
Definition no_key (key : string) (ep : uuid) (db : DB) : Prop :=
  forall k r, webhook_deliveries (hook_db db) !! k = Some r -> same_key ep key r = false.

Section fanout.
Context `{env : Env} `{uuids : UuidLib} `{rand : Rand} (MarshalEvent : EventPayload -> error + string).

Lemma CreateDelivery_new ep acct ev key payload w d w' :
  key <> "" -> no_key key ep (w_db w) -> CreateDelivery ep acct ev key payload w = (Ret d, w') ->
  exists r, webhook_deliveries (hook_db (w_db w)) !! d = None /\ same_key ep key r = true /\
    dl_EndpointID (dr_delivery r) = ep /\ dr_event_key r = Some key /\
    w_db w' = (w_db w){{ hook_db -> webhook_deliveries ::= <[ d := r ]> }}.
Proof.
  intros Hk Hno [H _]%exec_ret. cbv beta zeta in H. destruct (env_jsonb payload) as [json|]; [|done].
  unfold nullif_empty in H. rewrite bool_decide_eq_false_2 in H by done.
  assert (head (sql_select (same_key ep key) (webhook_deliveries (hook_db (w_db w)))) = None) as Hnone
    by by apply head_select_None.
  simpl in H. rewrite Hnone in H. destruct (webhook_deliveries _ !! _) eqn:E; [done|].
  destruct (webhook_endpoints _ !! _); [|done]. destruct (accounts _ !! _); [|done].
  injection H as <- <-. eexists. split; [done|]. split; [|repeat split; reflexivity].
  unfold same_key. simpl. by rewrite !bool_decide_eq_true_2.
Qed.

(** One endpoint's share of the fan-out. *)
Lemma send_one_ret acct ev key payload e w w' :
  key <> "" -> no_key key (e_ID e) (w_db w) -> send_one acct ev key payload e w = (Ret tt, w') ->
  (forall ep, deliveries_to ep (w_db w') = (deliveries_to ep (w_db w) + if decide (ep = e_ID e) then 1 else 0)%nat) /\
  queued (e_ID e) key (w_db w') /\
  (forall ep, queued ep key (w_db w) -> queued ep key (w_db w')) /\
  (forall ep, ep <> e_ID e -> no_key key ep (w_db w) -> no_key key ep (w_db w')).
Proof.
  intros Hk Hno (d & w1 & H1%wrap_err_ret & H2%wrap_err_ret)%bind_ret. cbv beta in H2.
  destruct (CreateDelivery_new _ _ _ _ _ _ _ _ Hk Hno H1) as (r & Hd & Hr & Hep & Hkey & Hdb).
  unfold InsertJob in H2. apply exec_ret in H2 as [H2 _]. cbv beta in H2. simpl andb in H2.
  assert (webhook_deliveries (hook_db (w_db w')) = <[ d := r ]> (webhook_deliveries (hook_db (w_db w))) /\
    (exists j, webhook_jobs (hook_db (w_db w')) !! j = Some d) /\
    (forall j x, webhook_jobs (hook_db (w_db w)) !! j = Some x -> webhook_jobs (hook_db (w_db w')) !! j = Some x))
    as (Hdel & Hjob & Hkeep).
  { destruct (sql_exists _ _) eqn:Eq.
    - injection H2 as <-. apply sql_exists_true in Eq as (j & x & Hj & ->%bool_decide_eq_true). rewrite Hdb.
      split; [by destruct (w_db w) as [? ? ? ? ? [] ?]|]. split; [rewrite <- Hdb; by exists j|].
      by destruct (w_db w) as [? ? ? ? ? [] ?].
    - destruct (webhook_jobs _ !! _) eqn:Ej; [done|]. injection H2 as <-. rewrite Hdb in *.
      destruct (w_db w) as [? ? ? ? ? [] ?]. simpl in *. split; [done|].
      split; [eexists; apply lookup_insert_eq|]. intros j x Hj. rewrite lookup_insert_ne; [done|congruence]. }
  split; [|split; [|split]].
  - intros ep. unfold deliveries_to. rewrite Hdel, sql_count_insert by done. unfold count1. rewrite Hep.
    case_decide; case_bool_decide; subst; try done; lia.
  - destruct Hjob as [j Hj]. exists d, r, j. rewrite Hdel, lookup_insert_eq. done.
  - intros ep (k & r' & j & Hk' & Hs & Hj). exists k, r', j. rewrite Hdel. rewrite lookup_insert_ne by congruence. eauto.
  - intros ep Hne Hn k r'. rewrite Hdel, lookup_insert. case_decide; [|apply Hn].
    intros [= <-]. unfold same_key. rewrite Hep, bool_decide_eq_false_2 by congruence. done.
Qed.

Lemma fan_out_ret acct ev key payload l w w' :
  key <> "" -> NoDup (e_ID <$> l) -> (forall e, e ∈ l -> no_key key (e_ID e) (w_db w)) ->
  for_each l (send_one acct ev key payload) w = (Ret tt, w') ->
  (forall ep, deliveries_to ep (w_db w') =
     (deliveries_to ep (w_db w) + if decide (ep ∈ e_ID <$> l) then 1 else 0)%nat) /\
  (forall ep, ep ∈ e_ID <$> l \/ queued ep key (w_db w) -> queued ep key (w_db w')).
Proof.
  intros Hk. revert w. induction l as [|e l IH]; intros w Hnd Hno H; simpl in H.
  { injection H as <-. split; [intros ep; by rewrite decide_False by apply not_elem_of_nil; lia|].
    intros ep [Hin|]; [by apply not_elem_of_nil in Hin|done]. }
  apply NoDup_cons in Hnd as [Hni Hnd]. apply bind_ret in H as ([] & w1 & H1 & H2). cbv beta in H2.
  destruct (send_one_ret _ _ _ _ _ _ _ Hk (Hno e ltac:(left)) H1) as (Hc & Hq & Hkq & Hkn).
  assert (forall e', e' ∈ l -> no_key key (e_ID e') (w_db w1)) as Hno1.
  { intros e' He'. apply Hkn; [|apply Hno; by right]. intros Heq. apply Hni. rewrite <- Heq.
    by apply list_elem_of_fmap_2. }
  destruct (IH w1 Hnd Hno1 H2) as [Hc2 Hq2]. split.
  - intros ep. rewrite Hc2, Hc. destruct (decide (ep = e_ID e)) as [->|Hne].
    + rewrite (decide_False (P := _ ∈ _ <$> l)) by done. rewrite decide_True by left. lia.
    + destruct (decide (ep ∈ e_ID <$> l)).
      * rewrite decide_True by by right. lia.
      * rewrite decide_False by by intros [->|]%elem_of_cons. lia.
  - intros ep [[->|Hin]%elem_of_cons|Hin]; apply Hq2; auto.
Qed.

(** The endpoints a dispatch addresses. *)
Definition addressed (accountID ep : uuid) (db : DB) : Prop :=
  exists r, webhook_endpoints (hook_db db) !! ep = Some r /\ e_Account (er_endpoint r) = accountID /\
    er_deleted_at r = None /\ e_Enabled (er_endpoint r) = true.

Lemma enabled_ids accountID db ep :
  (forall k r, webhook_endpoints (hook_db db) !! k = Some r -> e_ID (er_endpoint r) = k) ->
  ep ∈ e_ID <$> filter (fun e => e_Enabled e = true) (endpoints_of accountID db) <-> addressed accountID ep db.
Proof.
  intros Hwf. rewrite list_elem_of_fmap. setoid_rewrite list_elem_of_filter. unfold endpoints_of.
  setoid_rewrite elem_of_order_by. setoid_rewrite list_elem_of_fmap. setoid_rewrite elem_of_sql_select.
  unfold live_endpoint, addressed. setoid_rewrite andb_true_iff. setoid_rewrite bool_decide_eq_true. split.
  - intros (e & -> & He & r & -> & [Ha Hd] & k & Hk). exists r. pose proof (Hwf _ _ Hk) as ->. auto.
  - intros (r & Hk & Ha & Hd & He). exists (er_endpoint r). split; [by rewrite (Hwf _ _ Hk)|]. split; [done|].
    exists r. eauto.
Qed.

Lemma NoDup_fmap_filter {A B} (f : A -> B) (p : A -> Prop) `{forall x, Decision (p x)} (l : list A) :
  NoDup (f <$> l) -> NoDup (f <$> filter p l).
Proof.
  induction l as [|x l IH]; [done|]. rewrite fmap_cons, filter_cons. intros [Hx Hl]%NoDup_cons.
  case_decide; [|by apply IH]. rewrite fmap_cons. apply NoDup_cons. split; [|by apply IH].
  intros (y & Hy & [_ Hin]%list_elem_of_filter)%list_elem_of_fmap. apply Hx. rewrite Hy. by apply list_elem_of_fmap_2.
Qed.

Lemma enabled_NoDup accountID db :
  (forall k r, webhook_endpoints (hook_db db) !! k = Some r -> e_ID (er_endpoint r) = k) ->
  NoDup (e_ID <$> filter (fun e => e_Enabled e = true) (endpoints_of accountID db)).
Proof.
  intros Hwf. unfold endpoints_of, sql_select.
  set (t := webhook_endpoints (hook_db db)) in *.
  assert (NoDup (e_ID <$> (er_endpoint <$> (snd <$> map_to_list t)))) as Hnd.
  { rewrite <- !list_fmap_compose.
    assert ((e_ID ∘ er_endpoint ∘ snd) <$> map_to_list t = fst <$> map_to_list t) as Hf.
    { apply list_fmap_ext. intros i [k r] Hi%list_elem_of_lookup_2%elem_of_map_to_list. simpl. by apply Hwf. }
    pose proof (NoDup_fst_map_to_list t) as Hn. rewrite <- Hf in Hn. exact Hn. }
  rewrite (order_by_Permutation _ (er_endpoint <$> _)).
  apply NoDup_fmap_filter. do 2 rewrite <- list_fmap_compose in Hnd. rewrite <- list_fmap_compose.
  apply NoDup_fmap_filter. by rewrite <- list_fmap_compose.
Qed.

(** a dispatched event reaches every enabled endpoint of the account
    once, and no other.  When Dispatch returns without an error and the
    fan-out's key is new, each live, enabled endpoint of the account has one
    delivery more, queued for sending, and no other endpoint has any. *)
Theorem dispatch_fans_out acct event data w w' :
  (forall k r, webhook_endpoints (hook_db (w_db w)) !! k = Some r -> e_ID (er_endpoint r) = k) ->
  (forall k r source n, webhook_deliveries (hook_db (w_db w)) !! k = Some r ->
     dr_event_key r <> Some (event +:+ "|" +:+ source +:+ "|" +:+ uuid_String (env_uuid n))) ->
  Dispatch MarshalEvent acct event data w = (Ret tt, w') ->
  (forall ep, addressed acct ep (w_db w) ->
     deliveries_to ep (w_db w') = S (deliveries_to ep (w_db w)) /\ exists key, queued ep key (w_db w')) /\
  (forall ep, ~ addressed acct ep (w_db w) -> deliveries_to ep (w_db w') = deliveries_to ep (w_db w)).
Proof.
  intros Hwf Hfresh H. unfold Dispatch, ListEnabledEndpoints, ListEndpoints in H.
  apply bind_ret in H as (l & w1 & Hl%wrap_err_ret & H). cbv beta in H.
  apply bind_ret in Hl as (all_ & w0 & Hq%query_ret & Hl). destruct Hq as [-> Hdb0].
  injection Hl as <- <-.
  set (l := filter (fun e => e_Enabled e = true) (endpoints_of acct (w_db w))) in *.
  assert (forall ep, ep ∈ e_ID <$> l <-> addressed acct ep (w_db w)) as Hin by (intros; by apply enabled_ids).
  destruct (bool_decide (l = [])) eqn:El.
  { apply bool_decide_eq_true in El. injection H as <-. rewrite Hdb0. split; [|done].
    intros ep Hep%Hin. rewrite El in Hep. by apply not_elem_of_nil in Hep. }
  apply bind_ret in H as (payload & w2 & Hp%wrap_err_ret & H). cbv beta zeta in H.
  assert (w_db w2 = w_db w0) as Hdb2.
  { unfold MarshalPayload in Hp. apply bind_ret in Hp as (now & w3 & [-> ->]%now_ret & Hp).
    destruct (MarshalEvent _); [done|]. by injection Hp as _ <-. }
  apply bind_ret in H as (src & w3 & Hs & H). cbv beta in H.
  assert (w_db w3 = w_db w2) as Hdb3.
  { unfold uuid_New, mbind, M_bind, mret, M_ret in Hs.
    match type of Hs with (if ?b then _ else _) _ = _ => destruct b end; by simplify_eq. }
  apply bind_ret in H as (u & w4 & Hu & H). unfold uuid_New in Hu. injection Hu as <- <-. cbv beta in H.
  match type of H with for_each _ (send_one _ _ ?k _) _ = _ => set (key := k) in * end.
  assert (w_db (tick w3) = w_db w) as Hdb by (simpl; congruence).
  destruct (fan_out_ret acct event key payload l (tick w3) w') as [Hc Hqd].
  - unfold key. by destruct event.
  - by apply enabled_NoDup.
  - intros e _ k r. rewrite Hdb. intros Hk. unfold same_key. apply andb_false_iff. right.
    apply bool_decide_eq_false. exact (Hfresh k r src (w_tick w3) Hk).
  - exact H.
  - rewrite Hdb in *. split.
    + intros ep Hep%Hin. rewrite Hc, decide_True by done. split; [lia|]. exists key. apply Hqd. by left.
    + intros ep Hep. rewrite Hc, decide_False by by rewrite Hin. lia.
Qed.
End fanout.

(** Two webhook endpoints of the demo account. *)
Definition hook_demo_db : DB :=
  demo_db{{ hook_db -> webhook_endpoints :=
    {[ 90%N := mkEndpointRow (mkEndpoint 90 1 "https://a.example/hook" "whsec_a" true 0) None;
       91%N := mkEndpointRow (mkEndpoint 91 1 "https://b.example/hook" "whsec_b" true 1) None ]} }}.
Definition demo_event (e : EventPayload) : error + string := inr "{}".

Lemma dispatch_fans_out_witness :
  deliveries_to 90 (w_db (Dispatch (env:=demo_env) demo_event 1 "drill.failed" [("drill_id", AString "d1")] (world hook_demo_db)).2) = 1%nat.
Proof.
  destruct (Dispatch (env:=demo_env) demo_event 1 "drill.failed" [("drill_id", AString "d1")] (world hook_demo_db)) as [o w'] eqn:E.
  assert (o = Ret tt) as -> by (pose proof (f_equal fst E) as Ho; vm_compute in Ho; by symmetry).
  refine (proj1 (proj1 (dispatch_fans_out (env:=demo_env) demo_event 1 "drill.failed" [("drill_id", AString "d1")]
    (world hook_demo_db) w' _ _ E) 90%N _)).
  - intros k r. change (webhook_endpoints (hook_db (w_db (world hook_demo_db)))) with
      ({[ 90%N := mkEndpointRow (mkEndpoint 90 1 "https://a.example/hook" "whsec_a" true 0) None;
          91%N := mkEndpointRow (mkEndpoint 91 1 "https://b.example/hook" "whsec_b" true 1) None ]} : gmap uuid EndpointRow).
    rewrite lookup_insert, lookup_singleton. repeat case_decide; naive_solver.
  - intros k r source n Hk.
    change (webhook_deliveries (hook_db (w_db (world hook_demo_db)))) with (∅ : gmap uuid DeliveryRow) in Hk.
    by rewrite lookup_empty in Hk.
  - eexists. split; [vm_compute; reflexivity|]. done.
Defined.

(** a retried fan-out sends twice.  The dispatch of an event fails at
    its second endpoint, after the first one's delivery was stored and
    queued; the caller's retry of the same event succeeds, because each call
    draws a new key, and the first endpoint now has two deliveries of the
    event, both queued. *)
Theorem retried_dispatch_duplicates :
  exists (env : Env) (w w1 w2 : World DB) data k1 k2 j1 j2,
    Dispatch (env:=env) demo_event 1 "drill.failed" data w = (Fail (ErrWrap "create delivery" ErrConn), w1) /\
    Dispatch (env:=env) demo_event 1 "drill.failed" data w1 = (Ret tt, w2) /\
    deliveries_to 91 (w_db w) = 0%nat /\ deliveries_to 91 (w_db w2) = 2%nat /\ k1 <> k2 /\
    webhook_jobs (hook_db (w_db w2)) !! j1 = Some k1 /\ webhook_jobs (hook_db (w_db w2)) !! j2 = Some k2 /\
    (dl_EndpointID ∘ dr_delivery) <$> webhook_deliveries (hook_db (w_db w2)) !! k1 = Some 91%N /\
    (dl_EndpointID ∘ dr_delivery) <$> webhook_deliveries (hook_db (w_db w2)) !! k2 = Some 91%N.
Proof.
  exists (fault_at 5 (FErr false)), (world hook_demo_db). eexists _, _, [("drill_id", AString "d1")].
  exists 1003%N, 1009%N, 1004%N, 1010%N.
  split; [vm_compute; reflexivity|]. split; [vm_compute; reflexivity|].
  repeat split; vm_compute; first [reflexivity | discriminate].
Qed.

(** A network in which names resolve to one private and one public address. *)
Definition demo_net : Network := {|
  new_request _ := None;
  resolve _ _ := ["10.0.0.7:443"; "93.184.216.34:443"];
  connects _ _ := true;
  respond _ _ := inr 200; location _ _ _ := None
|}.
Definition delivery_db : DB :=
  hook_demo_db{{ hook_db -> webhook_deliveries :=
    {[ 95%N := mkDeliveryRow (mkDelivery 95 90 1 "drill.failed" "{}" StatusPending 0 None None 0 0 None) None ]} }}.

Lemma delivery_only_public_witness :
  Forall public_target (w_trace (DeliverWork (env:=demo_env) demo_net true false 95 (world delivery_db)).2).
Proof. apply (delivery_only_public (env:=demo_env) demo_net false 95 (world delivery_db)). apply Forall_nil_2. Defined.

Example delivery_posts :
  length (w_trace (DeliverWork (env:=demo_env) demo_net true false 95 (world delivery_db)).2) = 1%nat.
Proof. vm_compute. reflexivity. Qed.

Lemma delivered_is_final_witness :
  let w1 := (DeliverWork (env:=demo_env) demo_net true false 95 (world delivery_db)).2 in
  w_trace (DeliverWork (env:=demo_env) demo_net true false 95 w1).2 = w_trace w1.
Proof.
  intros w1.
  assert (exists r, webhook_deliveries (hook_db (w_db w1)) = {[ 95%N := r ]} /\ dl_ID (dr_delivery r) = 95%N /\
    dl_Status (dr_delivery r) = StatusDelivered) as (r & Hm & Hid & Hst).
  { eexists. split; [vm_compute; reflexivity|]. split; reflexivity. }
  refine (proj2 (delivered_is_final (env:=demo_env) demo_event demo_net false 95 r w1 w1 _ _ Hst (rtc_refl _ _)) true).
  - intros k r'. rewrite Hm. intros [<- <-]%lookup_singleton_Some. exact Hid.
  - rewrite Hm. apply lookup_singleton_eq.
Defined.
