(* ===== verification/Notify.v ===== *)
(** The ways out to people: internal/email (the mailer, its suppression list,
    the messages, the drill notifier), internal/heartbeat/notify,
    internal/push, internal/alerting, drill.MultiNotifier, and the handlers
    that configure them (alerts.go, the Postmark webhook of growth.go).
    The Firebase client is in Fcm.v; log lines and nil loggers are not modelled. *)
From S2P Require Import Prelude Crypto Effects Schema Encoding AuditLog Plans Rbac AccountStore DrillStore Assertions Steps Http AuthStore Web Billing Webhooks Heartbeat.
From Stdlib Require Import Ascii SpecFloat.

(** ** The messages (messages.go) *)

Definition InvitationMessage (to accountName role acceptLink : string) : Message :=
  let p := ProductName in
  mkMessage to ("You've been invited to " +:+ accountName +:+ " on " +:+ p)
    ("You've been invited to join " +:+ accountName +:+ " on " +:+ p +:+ " as " +:+ role +:+ "." +:+ nl
     +:+ nl
     +:+ "Accept the invitation:" +:+ nl
     +:+ acceptLink +:+ nl
     +:+ nl
     +:+ "This link expires in 7 days. If you weren't expecting this, you can ignore it." +:+ nl
     +:+ nl
     +:+ "— " +:+ p +:+ nl).

Definition VerifyEmailMessage (to verifyLink : string) : Message :=
  let p := ProductName in
  mkMessage to ("Verify your email for " +:+ p)
    ("Confirm your email address to finish setting up your" +:+ nl
     +:+ p +:+ " account." +:+ nl
     +:+ nl
     +:+ "Verify your email:" +:+ nl
     +:+ verifyLink +:+ nl
     +:+ nl
     +:+ "This link expires in 24 hours. If you didn't create a " +:+ p +:+ nl
     +:+ "account, you can ignore this email." +:+ nl
     +:+ nl
     +:+ "— " +:+ p +:+ nl).

Definition MagicLinkMessage (to link : string) : Message :=
  let p := ProductName in
  mkMessage to ("Your " +:+ p +:+ " sign-in link")
    ("Use this link to sign in to " +:+ p +:+ ":" +:+ nl
     +:+ nl
     +:+ link +:+ nl
     +:+ nl
     +:+ "The link expires in 15 minutes and can be used once. If you didn't ask" +:+ nl
     +:+ "to sign in, you can ignore this email." +:+ nl
     +:+ nl
     +:+ "— " +:+ p +:+ nl).

Definition HeartbeatDownMessage (to monitorName accountName link : string) : Message :=
  let p := ProductName in
  mkMessage to ("[" +:+ p +:+ "] DOWN: " +:+ monitorName)
    ("A backup check-in is overdue." +:+ nl
     +:+ nl
     +:+ "Monitor: " +:+ monitorName +:+ nl
     +:+ "Workspace: " +:+ accountName +:+ nl
     +:+ nl
     +:+ p +:+ " has not received the expected check-in for this monitor, so the" +:+ nl
     +:+ "backup job it watches may have failed or stopped running. Investigate the" +:+ nl
     +:+ "job, then check the monitor:" +:+ nl
     +:+ nl
     +:+ link +:+ nl
     +:+ nl
     +:+ "You'll get an " +:+ quote +:+ "UP" +:+ quote +:+ " email automatically once a check-in arrives again." +:+ nl
     +:+ nl
     +:+ "— " +:+ p +:+ nl).

Definition HeartbeatUpMessage (to monitorName accountName link : string) : Message :=
  let p := ProductName in
  mkMessage to ("[" +:+ p +:+ "] UP: " +:+ monitorName)
    ("A backup check-in has recovered." +:+ nl
     +:+ nl
     +:+ "Monitor: " +:+ monitorName +:+ nl
     +:+ "Workspace: " +:+ accountName +:+ nl
     +:+ nl
     +:+ p +:+ " received a check-in for this monitor again — it's back to healthy." +:+ nl
     +:+ nl
     +:+ link +:+ nl
     +:+ nl
     +:+ "— " +:+ p +:+ nl).

Definition WelcomeMessage (to accountName : string) : Message :=
  let p := ProductName in
  mkMessage to ("Welcome to " +:+ p)
    ("Welcome to " +:+ p +:+ "." +:+ nl
     +:+ nl
     +:+ "Your workspace " +:+ quote +:+ accountName +:+ quote
     +:+ " is ready. Connect a database backup and run your first" +:+ nl
     +:+ "drill — we'll restore it in an isolated sandbox, run your assertions, and" +:+ nl
     +:+ "produce signed evidence that the backup is actually restorable." +:+ nl
     +:+ nl
     +:+ "— " +:+ p +:+ nl).

Definition DrillCompletedMessage (to targetName verdict drillLink : string) : Message :=
  let p := ProductName in
  mkMessage to (p +:+ " drill " +:+ verdict +:+ ": " +:+ targetName)
    ("Your latest " +:+ p +:+ " drill on " +:+ quote +:+ targetName +:+ quote +:+ " finished with verdict: "
     +:+ verdict +:+ "." +:+ nl
     +:+ nl
     +:+ "Open the drill for the signed Proof-of-Recovery PDF, the assertion" +:+ nl
     +:+ "receipts, and (if it failed) the captured restore log:" +:+ nl
     +:+ nl
     +:+ drillLink +:+ nl
     +:+ nl
     +:+ "— " +:+ p +:+ nl).

(** ** The mailer (email.go) *)

Definition ErrSuppressed : error := ErrNew "email: recipient is suppressed".

Section mailer.
Context `{env : Env}.
(** The configured Sender: what it answers to a message. *)
Context (provider : nat -> Message -> error + unit).

Definition suppressed (addr : string) (db : DB) : bool :=
  existsb (fun s => citext_eq (su_email s) addr) (email_suppressions (mail_db db)).
Definition isSuppressed (addr : string) : GO bool := query (fun _ db => suppressed addr db).

Definition sender_send (m : Message) : GO unit :=
  ext (ExtCall "mail" [To_ m; Subject m; TextBody m]) (fun n => provider n m).
(** A failed count of a sent message is only logged. *)
Definition Send (m : Message) : GO unit :=
  s ← isSuppressed (To_ m);
  if s : bool then fail ErrSuppressed else
  sender_send m;;
  ignore (update (fun now db => db{{ mail_db -> email_sends ::= cons now }})).

(** INSERT ... ON CONFLICT (email) DO UPDATE: the stored address stays as it
    was first written. *)
Definition upsert_suppression (addr reason : string) (detail : option string) (now : time) (l : list Suppression) : list Suppression :=
  if existsb (fun s => citext_eq (su_email s) addr) l
  then (fun s => if citext_eq (su_email s) addr then mkSuppression (su_email s) reason detail now else s) <$> l
  else mkSuppression addr reason detail now :: l.
Definition Suppress (addr reason detail : string) : GO unit :=
  update (fun now db => db{{ mail_db -> email_suppressions ::= upsert_suppression addr reason (nullif_empty detail) now }}).

(** *** The deliverability report (deliverability.go) *)

Record Deliverability : Type := mkDeliverability {
  Sends7d : Z; Sends30d : Z; Suppressed30d : Z; SuppressedAll : Z; BounceRate30d : spec_float;
  ByReason : list (string * Z); Recent : list (string * string * time)
}.
Definition float_of (z : Z) : spec_float := binary_normalize 53 1024 z 0 false.
Definition count_since_ (now days : Z) (l : list time) : Z := Z.of_nat (length (filter (fun t => now - days * day < t) l)).
Definition bounce_rate (suppressed sends : Z) : spec_float :=
  if 0 <? sends then SFmul 53 1024 (SFdiv 53 1024 (float_of suppressed) (float_of sends)) (float_of 100) else S754_zero false.
Definition by_reason (l : list string) : list (string * Z) :=
  order_by (fun x y => y.2 <=? x.2)
    ((fun r => (r, Z.of_nat (length (filter (fun x => x = r) l)))) <$> remove_dups l).
Definition deliverability : GO Deliverability :=
  '(s7, s30) ← query (fun now db => (count_since_ now 7 (email_sends (mail_db db)), count_since_ now 30 (email_sends (mail_db db))));
  '(all, sup30) ← query (fun now db =>
     let l := su_suppressed_at <$> email_suppressions (mail_db db) in (Z.of_nat (length l), count_since_ now 30 l));
  reasons ← query (fun now db => by_reason (su_reason <$> filter (fun s => now - 30 * day < su_suppressed_at s) (email_suppressions (mail_db db))));
  recent ← query (fun _ db => (fun s => (su_email s, su_reason s, su_suppressed_at s)) <$>
     take 20 (order_by (fun x y => su_suppressed_at y <=? su_suppressed_at x) (email_suppressions (mail_db db))));
  mret (mkDeliverability s7 s30 sup30 all (bounce_rate sup30 s30) reasons recent).
End mailer.

(** The Postmark webhook (growth.go); [payload]: the decoded body, or that it
    does not decode. *)
Record PostmarkPayload : Type := mkPostmarkPayload { pp_RecordType : string; pp_Type : string; pp_Email : string; pp_Description : string }.
Definition postmarkBounce `{env : Env} (postmarkWebhookToken token : string) (payload : option PostmarkPayload) : GO response :=
  if bool_decide (postmarkWebhookToken = "") then mret (HTTPError StatusNotFound) else
  if negb (bool_decide (token = postmarkWebhookToken)) then mret (HTTPError StatusForbidden) else
  match payload with
  | None => mret (HTTPError StatusBadRequest)
  | Some p =>
      let email := TrimSpace (ToLower (pp_Email p)) in
      if bool_decide (email = "") then mret (HTTPError StatusBadRequest) else
      let reason := pp_Type p in
      let reason := if bool_decide (reason = "") then pp_RecordType p else reason in
      let reason := if bool_decide (reason = "") then "unknown" else reason in
      or_else (Suppress email reason (pp_Description p)) err_500 (fun _ => mret (Text StatusOK ""))
  end.

(** ** Push (push.go) *)

Record Notification : Type := mkNotification { Title : string; Body : string; Data : list (string * string) }.

Section push.
Context `{env : Env} `{uuids : UuidLib}.
Context (fcm : list string -> Notification -> GO unit).

(** INSERT ... ON CONFLICT (token) DO UPDATE. *)
Definition Register (userID accountID : uuid) (token platform : string) : GO uuid :=
  exec (fun now id db =>
    let t := user_fcm_tokens (hook_db db) in
    match users (account_db db) !! userID, accounts (account_db db) !! accountID with
    | None, _ => inl (ErrConstraint "user_fcm_tokens_user_id_fkey")
    | _, None => inl (ErrConstraint "user_fcm_tokens_account_id_fkey")
    | Some _, Some _ =>
        match head (sql_select (fun d => bool_decide (dv_Token d = token)) t) with
        | Some d =>
            inr (db{{ hook_db -> user_fcm_tokens ::= sql_update (fun d => bool_decide (dv_Token d = token)) (fun d =>
                   d{{ dv_UserID := userID; dv_AccountID := accountID; dv_Platform := platform; dv_LastSeenAt := now }}) }}, dv_ID d)
        | None =>
            match t !! id with
            | Some _ => inl ErrUnique
            | None => inr (db{{ hook_db -> user_fcm_tokens ::=
                             <[ id := mkDevice id userID accountID token platform now now ]> }}, id)
            end
        end
    end).
Definition Delete (userID id : uuid) : GO unit :=
  update (fun _ db => db{{ hook_db -> user_fcm_tokens ::=
    sql_delete (fun d => bool_decide (dv_ID d = id) && bool_decide (dv_UserID d = userID)) }}).
Definition TokensForAccount (accountID : uuid) : GO (list string) :=
  query (fun _ db => dv_Token <$> sql_select (fun d => bool_decide (dv_AccountID d = accountID)) (user_fcm_tokens (hook_db db))).

Definition drill_push (dr : Drill) (event reason : string) : Notification :=
  let failed := bool_decide (event = EventFailed) in
  mkNotification (if failed then "Drill FAILED" else "Drill passed")
    (if failed then "A restore drill failed" +:+ (if bool_decide (reason = "") then "." else " — " +:+ reason)
     else "A restore drill completed successfully.")
    ([("type", "drill"); ("id", uuid_String (d_ID dr)); ("event", event)]
     ++ if bool_decide (reason = "") then [] else [("reason", reason)]).
Definition PushNotifyDrill (dr : Drill) (event reason : string) : GO unit :=
  tokens ← TokensForAccount (d_AccountID dr);
  match tokens with [] => mret tt | _ => fcm tokens (drill_push dr event reason) end.

Definition PushNotify (hb : Heartbeat) (event : string) : GO unit :=
  tokens ← TokensForAccount (h_AccountID hb);
  match tokens with
  | [] => mret tt
  | _ =>
      let '(title, body) :=
        if bool_decide (event = EventDown)
        then ("Backup check-in DOWN", h_Name hb +:+ " is overdue — the backup job may have stopped.")
        else ("Backup check-in recovered", h_Name hb +:+ " is reporting again.") in
      fcm tokens (mkNotification title body [("type", "heartbeat"); ("id", uuid_String (h_ID hb)); ("event", event)])
  end.
End push.

(** ** Alert channels (alerting.go) *)

Definition pagerDutyEnqueueURL : string := "https://events.pagerduty.com/v2/enqueue".
Definition no_channels : Channels := mkChannels "" "".
Definition Configured (c : Channels) : bool :=
  negb (bool_decide (SlackWebhookURL c = "")) || negb (bool_decide (PagerDutyRoutingKey c = "")).

Section alerting.
Context `{env : Env} `{uuids : UuidLib} `{json : JsonLib} (net : Network).

(** Any error reads as no channels. *)
Definition Get (accountID : uuid) : GO Channels :=
  r ← try (query_row (fun _ db => account_alert_channels (hook_db db) !! accountID));
  mret (match r with inr c => c | inl _ => no_channels end).
Definition Set_ (accountID : uuid) (c : Channels) : GO unit :=
  exec (fun _ _ db =>
    match accounts (account_db db) !! accountID with
    | None => inl (ErrConstraint "account_alert_channels_account_id_fkey")
    | Some _ => inr (db{{ hook_db -> account_alert_channels ::= <[ accountID := c ]> }}, tt)
    end).

(** No guard is set on the dialer's addresses; failures are only logged. *)
Definition alert_post (url : string) (body : list (string * any)) : GO unit :=
  match json_Marshal body, new_request net url with
  | inr buf, None => ignore (client_do net false
      (fun address method withBody url => ExtCall "http" [address; method; url; if withBody then buf else ""])
      defaultMaxRedirects "POST" true url)
  | _, _ => mret tt
  end.
Definition slack (ch : Channels) (text : string) : GO unit :=
  if bool_decide (SlackWebhookURL ch = "") then mret tt
  else alert_post (SlackWebhookURL ch) [("text", AString text)].
Definition pagerDuty (ch : Channels) (action dedupKey summary severity : string) : GO unit :=
  if bool_decide (PagerDutyRoutingKey ch = "") then mret tt
  else alert_post pagerDutyEnqueueURL
    [("dedup_key", AString dedupKey); ("event_action", AString action);
     ("payload", AMap [("severity", AString severity); ("source", AString "dokaz"); ("summary", AString summary)]);
     ("routing_key", AString (PagerDutyRoutingKey ch))].

Definition AlertNotify (hb : Heartbeat) (event : string) : GO unit :=
  ch ← Get (h_AccountID hb);
  if negb (Configured ch) then mret tt else
  if bool_decide (event = EventDown) then
    slack ch ("🔴 Backup check-in DOWN: *" +:+ h_Name hb +:+ "* missed its expected ping.");;
    pagerDuty ch "trigger" ("hb-" +:+ uuid_String (h_ID hb)) ("Backup check-in down: " +:+ h_Name hb) "critical"
  else if bool_decide (event = EventUp) then
    slack ch ("✅ Backup check-in recovered: *" +:+ h_Name hb +:+ "*.");;
    pagerDuty ch "resolve" ("hb-" +:+ uuid_String (h_ID hb)) ("Backup check-in recovered: " +:+ h_Name hb) "info"
  else mret tt.

Definition AlertNotifyDrill (d : Drill) (event reason : string) : GO unit :=
  if negb (bool_decide (event = EventFailed)) then mret tt else
  ch ← Get (d_AccountID d);
  if negb (Configured ch) then mret tt else
  let suffix := if bool_decide (reason = "") then "" else ": " +:+ reason in
  slack ch ("🔴 Restore drill FAILED" +:+ suffix);;
  pagerDuty ch "trigger" ("drill-" +:+ uuid_String (d_ID d)) ("Restore drill failed" +:+ suffix) "critical".

(** The settings form (alerts.go). *)
Record AlertForm : Type := mkAlertForm {
  clear_slack : string; slack_webhook_url : string; clear_pagerduty : string; pagerduty_routing_key : string
}.
Definition next_channels (cur : Channels) (f : AlertForm) : Channels :=
  let field clear value old :=
    if bool_decide (clear = "1") then "" else let v := TrimSpace value in if bool_decide (v = "") then old else v in
  mkChannels (field (clear_slack f) (slack_webhook_url f) (SlackWebhookURL cur))
    (field (clear_pagerduty f) (pagerduty_routing_key f) (PagerDutyRoutingKey cur)).
Definition alertChannelsSave (who : Who) (form : option AlertForm) : GO response :=
  match form with
  | None => mret (HTTPError StatusBadRequest)
  | Some f =>
      cur ← Get (a_ID (acct who));
      let next := next_channels cur f in
      if negb (bool_decide (SlackWebhookURL next = "")) && negb (HasPrefix (SlackWebhookURL next) "https://")
      then mret (Redirect "/account?alerts=badslack") else
      or_else (Set_ (a_ID (acct who)) next) err_500 (fun _ =>
        audit_ who "account.alerts_updated" "account" (uuid_String (a_ID (acct who))) [];;
        mret (Redirect "/account?alerts=saved"))
  end.
End alerting.

(** ** The notifiers that mail *)

Section mail_notifiers.
Context `{env : Env} `{uuids : UuidLib}.
Context (send : Message -> GO unit) (baseURL : string).

(** DrillNotifier (drill_notifier.go): the first owner in order of joining;
    every failure is logged and dropped. *)
Definition ownerEmail (accountID : uuid) : GO string :=
  members ← ListMembers accountID;
  mret (default "" (snd <$> head (filter (fun m => m_Role m.1 = RoleOwner) members))).
Definition MailNotifyDrill (dr : Drill) (event reason : string) : GO unit :=
  acct ← try (GetAccount (d_AccountID dr));
  match acct with
  | inl _ => mret tt
  | inr a =>
      owner ← try (ownerEmail (a_ID a));
      match owner with
      | inl _ => mret tt
      | inr owner =>
          if bool_decide (owner = "") then mret tt else
          target ← try (GetTarget (d_AccountID dr) (d_TargetID dr) ScopeAll);
          match target with
          | inl _ => mret tt
          | inr t =>
              let verdict := if bool_decide (event = EventFailed) then "FAILED" else "completed" in
              ignore (send (DrillCompletedMessage owner (t_Name t) verdict (baseURL +:+ "/drills/" +:+ uuid_String (d_ID dr))))
          end
      end
  end.

(** MailNotifier (heartbeat/notify): every member of the account. *)
Definition MailNotify (hb : Heartbeat) (event : string) : GO unit :=
  members ← ListMembers (h_AccountID hb);
  match members with
  | [] => mret tt
  | _ =>
      a ← GetAccount (h_AccountID hb);
      let link := baseURL +:+ "/heartbeats/" +:+ uuid_String (h_ID hb) in
      if bool_decide (event = EventDown) then
        for_each members (fun m => ignore (send (HeartbeatDownMessage m.2 (h_Name hb) (a_Name a) link)))
      else if bool_decide (event = EventUp) then
        for_each members (fun m => ignore (send (HeartbeatUpMessage m.2 (h_Name hb) (a_Name a) link)))
      else mret tt
  end.
End mail_notifiers.

(** drill.MultiNotifier: every notifier runs, the first error is returned. *)
Fixpoint notify_drills `{Env} (l : list (option (Drill -> string -> string -> GO unit))) (dr : Drill) (event reason : string)
    (firstErr : option error) : GO unit :=
  match l with
  | [] => match firstErr with Some e => fail e | None => mret tt end
  | None :: l' => notify_drills l' dr event reason firstErr
  | Some n :: l' =>
      r ← try (n dr event reason);
      notify_drills l' dr event reason (match r, firstErr with inl e, None => Some e | _, _ => firstErr end)
  end.
Definition MultiNotifyDrill `{Env} (l : list (option (Drill -> string -> string -> GO unit))) (dr : Drill) (event reason : string) : GO unit :=
  notify_drills l dr event reason None.
