(* ===== verification/Members.v ===== *)
(** internal/web/handlers/account.go and teams.go: inviting, accepting,
    changing and removing members, transferring ownership, switching accounts,
    and managing teams. *)
From S2P Require Import Prelude Crypto Effects Schema Encoding AuditLog Plans Rbac AccountStore DrillStore Http AuthStore Web Billing Notify.
From Stdlib Require Import Ascii.

(** analytics.Capture, when a backend is configured: it queues the event and
    reports nothing back. *)
Definition EventSignedUp : string := "user.signed_up".
Definition EventInvitationSent : string := "invitation.sent".
Definition Capture `{Env} (analytics : bool) (distinctID event : string) (props : list (string * string)) : GO unit :=
  if analytics then ignore (ext (ExtCall "analytics" (distinctID :: event :: (snd <$> props))) (fun _ => inr tt)) else mret tt.

(** [_ = h.audit.Record(...)] without the request's origin. *)
Definition audit_plain `{Env} (account actor : option uuid) (action kind id : string) (md : metadata) : GO unit :=
  ignore (Record_ (mkEvent account actor action kind id md)).

Definition valid_email (email : string) : bool := negb (bool_decide (email = "")) && Contains email "@".
Definition form_email (s : string) : string := TrimSpace (ToLower s).

Section members.
Context `{env : Env} `{uuids : UuidLib} `{rand : Rand}.
Context (Send : Message -> GO unit) (absoluteURL : string -> string) (analytics : bool).

Section inside.
Context (who : Who).
Notation account := (a_ID (acct who)).
Notation me := (au_ID (user who)).

Definition accountSettings : GO response :=
  ignore (ListMembers account);; ignore (ListPendingInvitations account);; Notify.Get account;;
  mret (Render StatusOK "AccountSettings").

(** The form: the posted email and role. *)
Definition inviteCreate (form : option (string * string)) : GO response :=
  members ← try (ListMembers account);
  pending ← try (ListPendingInvitations account);
  match enforceLimit (count_of members + count_of pending) (Seats (EffectiveLimits (acct who))) with
  | Some r => mret r
  | None =>
  match form with
  | None => mret (HTTPError StatusBadRequest)
  | Some (email, roleStr) =>
  let email := form_email email in
  match ParseRole (TrimSpace roleStr) with
  | None => mret (HTTPError StatusBadRequest)
  | Some role =>
  if negb (ValidInviteRole role) then mret (HTTPError StatusBadRequest) else
  if negb (valid_email email) then mret (HTTPError StatusBadRequest) else
  or_else (CreateInvitation account me email role (7 * day)) err_500 (fun '(rawToken, inv) =>
    ignore (Send (InvitationMessage email (a_Name (acct who)) role (absoluteURL ("/invitations/" +:+ rawToken))));;
    audit_plain (Some account) (Some me) "account.invited" "invitation" (uuid_String (i_ID inv))
      [("email", AString email); ("role", AString role)];;
    Capture analytics (uuid_String me) EventInvitationSent [("account_id", uuid_String account); ("role", role)];;
    mret (Redirect ("/account?invited=" +:+ uuid_String (i_ID inv))))
  end end end.

Definition bad_request_error (_ : error) : response := HTTPError StatusBadRequest.

Definition memberUpdate (userParam : string) (form : option string) : GO response :=
  parse_id userParam (HTTPError StatusBadRequest) (fun userID =>
    match form with
    | None => mret (HTTPError StatusBadRequest)
    | Some roleStr =>
        match ParseRole roleStr with
        | None => mret (HTTPError StatusBadRequest)
        | Some role =>
            or_else (UpdateMemberRole account userID role) bad_request_error (fun _ =>
              audit_plain (Some account) (Some me) "account.member_role_changed" "user" (uuid_String userID) [("role", AString role)];;
              mret (Redirect "/account"))
        end
    end).

Definition memberTransferOwnership (userParam : string) : GO response :=
  match membership who with
  | Some m =>
      if negb (bool_decide (m_Role m = RoleOwner)) then mret (HTTPError StatusForbidden) else
      parse_id userParam (HTTPError StatusBadRequest) (fun userID =>
        or_else (TransferOwnership account me userID) bad_request_error (fun _ =>
          audit_ who "account.ownership_transferred" "user" (uuid_String userID) [];;
          mret (Redirect "/account")))
  | None => mret (HTTPError StatusForbidden)
  end.

Definition memberRemove (userParam : string) : GO response :=
  parse_id userParam (HTTPError StatusBadRequest) (fun userID =>
    or_else (RemoveMember account userID) bad_request_error (fun _ =>
      audit_plain (Some account) (Some me) "account.member_removed" "user" (uuid_String userID) [];;
      mret (Redirect "/account"))).

(** *** Teams (teams.go) *)

Definition trimName (s : string) : string :=
  let s := TrimSpace s in if (80 <? String.length s)%nat then String.substring 0 80 s else s.

Record TeamView : Type := mkTeamView {
  tv_ID : uuid; tv_Name : string; tv_Members : list (uuid * string); tv_Databases : list (uuid * string)
}.
Record TeamsView : Type := mkTeamsView { CanManage : bool; Unassigned : list (uuid * string); tv_Teams : list TeamView }.

(** The last member row of a user wins, as assigning into a map does. *)
Definition email_of (members : list (Membership * string)) (u : uuid) : string :=
  default "" (snd <$> last (filter (fun m => m_UserID m.1 = u) members)).
Definition teams_view (role : Role) (teams : list Team) (members : list (Membership * string)) (edges : list (uuid * uuid))
    (targets : list Target) : TeamsView :=
  mkTeamsView (Allowed role ActionTeamWrite)
    ((fun t => (t_ID t, t_Name t)) <$> filter (fun t => t_TeamID t = None) targets)
    ((fun tm => mkTeamView (tm_ID tm) (tm_Name tm)
        ((fun e => (e.2, email_of members e.2)) <$> filter (fun e => e.1 = tm_ID tm) edges)
        ((fun t => (t_ID t, t_Name t)) <$> filter (fun t => t_TeamID t = Some (tm_ID tm)) targets)) <$> teams).

Definition buildTeamsView : GO TeamsView :=
  teams ← ListTeams account;
  members ← ListMembers account;
  edges ← TeamMemberships account;
  targets ← ListTargets account ScopeAll;
  mret (teams_view (match membership who with Some m => m_Role m | None => "" end) teams members edges targets).

Definition teamsPage : GO response := or_else buildTeamsView err_500 (fun _ => mret (Render StatusOK "TeamsPage")).
Definition renderTeamsError : GO response := or_else buildTeamsView err_500 (fun _ => mret (Render StatusBadRequest "TeamsPage")).
Definition auditTeam (action : string) (teamID : uuid) (meta : metadata) : GO unit :=
  audit_ who action "team" (uuid_String teamID) meta.

Definition teamCreate (form : option string) : GO response :=
  match form with
  | None => mret (HTTPError StatusBadRequest)
  | Some name =>
      let name := trimName name in
      if bool_decide (name = "") then renderTeamsError else
      r ← try (CreateTeam account name);
      match r with
      | inl e => if bool_decide (e = ErrTeamNameTaken) then renderTeamsError else mret (HTTPError StatusInternalServerError)
      | inr t => auditTeam "team.created" (tm_ID t) [("name", AString name)];; mret (Redirect "/account/teams")
      end
  end.

Definition teamRename (idParam : string) (form : option string) : GO response :=
  parse_id idParam (HTTPError StatusNotFound) (fun teamID =>
    match form with
    | None => mret (HTTPError StatusBadRequest)
    | Some name =>
        let name := trimName name in
        if bool_decide (name = "") then renderTeamsError else
        r ← try (RenameTeam account teamID name);
        match r with
        | inl e =>
            if bool_decide (e = ErrTeamNameTaken) then renderTeamsError
            else mret (HTTPError (if bool_decide (e = AccountStore.ErrNotFound) then StatusNotFound else StatusInternalServerError))
        | inr _ => auditTeam "team.renamed" teamID [("name", AString name)];; mret (Redirect "/account/teams")
        end
    end).

Definition teamDelete (idParam : string) : GO response :=
  parse_id idParam (HTTPError StatusNotFound) (fun teamID =>
    r ← try (DeleteTeam account teamID);
    match r with
    | inl e =>
        if bool_decide (e = AccountStore.ErrNotFound) then auditTeam "team.deleted" teamID [];; mret (Redirect "/account/teams")
        else mret (HTTPError StatusInternalServerError)
    | inr _ => auditTeam "team.deleted" teamID [];; mret (Redirect "/account/teams")
    end).

Definition err_team (e : error) : response :=
  HTTPError (if bool_decide (e = AccountStore.ErrNotFound) then StatusNotFound else StatusInternalServerError).
Definition teamMemberAdd (idParam : string) (form : option string) : GO response :=
  parse_id idParam (HTTPError StatusNotFound) (fun teamID =>
    match form with
    | None => mret (HTTPError StatusBadRequest)
    | Some u =>
        match uuid_Parse u with
        | inl _ => renderTeamsError
        | inr userID =>
            or_else (AddTeamMember account teamID userID) err_team (fun _ =>
              auditTeam "team.member_added" teamID [("user_id", AString (uuid_String userID))];; mret (Redirect "/account/teams"))
        end
    end).

Definition teamMemberRemove (idParam userParam : string) : GO response :=
  parse_id idParam (HTTPError StatusNotFound) (fun teamID =>
  parse_id userParam (HTTPError StatusNotFound) (fun userID =>
    or_else (RemoveTeamMember account teamID userID) err_500 (fun _ =>
      auditTeam "team.member_removed" teamID [("user_id", AString (uuid_String userID))];; mret (Redirect "/account/teams")))).

(** The form: database_id and team_id; no team_id unassigns. *)
Definition teamDatabaseAssign (form : option (string * string)) : GO response :=
  match form with
  | None => mret (HTTPError StatusBadRequest)
  | Some (database, team) =>
      parse_id database (HTTPError StatusNotFound) (fun targetID =>
        match (if bool_decide (team = "") then inr None else match uuid_Parse team with inl e => inl e | inr t => inr (Some t) end) with
        | inl _ => mret (HTTPError StatusNotFound)
        | inr teamID =>
            or_else (SetTargetTeam account targetID teamID)
              (fun e => HTTPError (if bool_decide (e = DrillStore.ErrNotFound) then StatusNotFound else StatusInternalServerError)) (fun _ =>
              auditTeam "team.database_assigned" targetID
                (("database_id", AString (uuid_String targetID))
                 :: match teamID with Some t => [("team_id", AString (uuid_String t))] | None => [] end);;
              mret (Redirect "/account/teams"))
        end)
  end.
End inside.

(** ** Outside the account: invitations and switching *)

(** safeNext and redirectTarget (auth.go). *)
Definition safeNext (next : string) : string :=
  if bool_decide (next = "") || negb (HasPrefix next "/") || HasPrefix next "//" then "" else next.
Definition redirectTarget (next : string) : string := if bool_decide (next = "") then "/dashboard" else next.

Context (ctx : ReqCtx) (cookie : option string).

Definition invitationPage (token : string) : GO response :=
  r ← try (LookupInvitation token);
  match r with
  | inl e =>
      mret (if errors_Is e AccountStore.ErrNotFound then HTTPError StatusNotFound
            else if errors_Is e ErrInvitationGone then Render StatusOK "InvitationGone" else HTTPError StatusInternalServerError)
  | inr inv => or_else (GetAccount (i_AccountID inv)) err_404 (fun _ => mret (Render StatusOK "InvitationAccept"))
  end.

Definition invitationAccept (token : string) : GO response :=
  match cx_user ctx with
  | None => mret (Redirect ("/signup?next=/invitations/" +:+ token))
  | Some u =>
      r ← try (AcceptInvitation token (au_ID u) (au_Email u));
      match r with
      | inl e =>
          mret (if errors_Is e AccountStore.ErrNotFound then HTTPError StatusNotFound
                else if errors_Is e ErrInvitationGone then Render StatusOK "InvitationGone"
                else if errors_Is e ErrInvitationWrongEmail then Render StatusForbidden "InvitationWrongEmail"
                else HTTPError StatusInternalServerError)
      | inr inv =>
          audit_plain (Some (i_AccountID inv)) (Some (au_ID u)) "account.member_added" "user" (uuid_String (au_ID u))
            [("via", AString "invitation"); ("role", AString (i_Role inv))];;
          or_else (SetCurrentAccount cookie (i_AccountID inv)) err_500 (fun _ => mret (Redirect "/dashboard"))
      end
  end.

(** The form: account_id and next. *)
Definition accountSwitch (u : AuthUser) (form : option (string * string)) : GO response :=
  match form with
  | None => mret (HTTPError StatusBadRequest)
  | Some (accountParam, next) =>
      parse_id accountParam (HTTPError StatusBadRequest) (fun target =>
        or_else (GetMembership target (au_ID u)) (fun _ => HTTPError StatusForbidden) (fun _ =>
        or_else (SetCurrentAccount cookie target) err_500 (fun _ =>
          audit_plain (Some target) (Some (au_ID u)) "account.switched" "account" (uuid_String target) [];;
          mret (Redirect (redirectTarget (safeNext next))))))
  end.
End members.

(** absoluteURL: the configured BASE_URL, or what the request says. *)
Definition absoluteURL (baseURL : string) (tls : bool) (forwardedProto host path : string) : string :=
  if negb (bool_decide (baseURL = "")) then baseURL +:+ path
  else (if tls || bool_decide (ToLower forwardedProto = "https") then "https" else "http") +:+ "://" +:+ host +:+ path.
