(* ===== verification/Login.v ===== *)
(** Signing in: internal/auth/password.go and the handlers of auth.go,
    magiclink.go, mfa.go and verification.go in internal/web/handlers. *)
From S2P Require Import Prelude Crypto Effects Schema Encoding AuditLog Plans Rbac AccountStore DrillStore Assertions Http AuthStore Web Billing Scheduler Notify Members.
From Stdlib Require Import Ascii.

(** ** Passwords (password.go) *)

(** golang.org/x/crypto/argon2: IDKey of a password and a salt with the time,
    the memory, the threads and the length of the key. *)
Class Argon2 : Type := { IDKey : string -> string -> Z -> Z -> Z -> Z -> string }.

Definition argonTime : Z := 2.
Definition argonMemory : Z := 19 * 1024.
Definition argonThreads : Z := 1.
Definition argonKeyLen : Z := 32.
Definition saltLen : nat := 16.
Definition argon2_Version : Z := 19.
Definition ErrInvalidHash : error := ErrNew "invalid password hash".
Definition ErrMismatch : error := ErrNew "password mismatch".

(** fmt.Sscanf with one literal and one %d: blanks before the number, a sign
    for an int, as many digits as there are, within [lo, hi]. *)
Fixpoint scan_lit (lit l : list ascii) : option (list ascii) :=
  match lit, l with
  | [], l => Some l
  | c :: lit', d :: l' => if bool_decide (c = d) then scan_lit lit' l' else None
  | _ :: _, [] => None
  end.
Fixpoint skip_space (l : list ascii) : list ascii :=
  match l with c :: l' => if bool_decide (c = " "%char) || bool_decide (c = "009"%char) then skip_space l' else l | [] => [] end.
Fixpoint take_digits (l : list ascii) : list ascii * list ascii :=
  match l with
  | c :: l' => if digit c then let '(ds, r) := take_digits l' in (c :: ds, r) else ([], l)
  | [] => ([], [])
  end.
Definition scan_num (signed : bool) (lo hi : Z) (l : list ascii) : option (Z * list ascii) :=
  let l := skip_space l in
  let '(neg, l) :=
    match l with
    | c :: l' => if signed && bool_decide (c = "-"%char) then (true, l')
                 else if signed && bool_decide (c = "+"%char) then (false, l') else (false, l)
    | [] => (false, [])
    end in
  match take_digits l with
  | ([], _) => None
  | (ds, rest) =>
      let n := foldl (fun v c => 10 * v + (byte_of c - 48)) 0 ds in
      let n := if neg then - n else n in
      if (lo <=? n) && (n <=? hi) then Some (n, rest) else None
  end.
Definition scan_field (lit : string) (signed : bool) (lo hi : Z) (l : list ascii) : option (Z * list ascii) :=
  l ← scan_lit (chars lit) l; scan_num signed lo hi l.

Definition scan_version (s : string) : option Z :=
  '(v, _) ← scan_field "v=" true (- 2 ^ 63) (2 ^ 63 - 1) (chars s); Some v.
Definition scan_params (s : string) : option (Z * Z * Z) :=
  '(m, l) ← scan_field "m=" false 0 (2 ^ 32 - 1) (chars s);
  '(t, l) ← scan_field ",t=" false 0 (2 ^ 32 - 1) l;
  '(p, _) ← scan_field ",p=" false 0 (2 ^ 8 - 1) l;
  Some (m, t, p).

Definition RawStdEncoding_Decode (s : string) : option string :=
  of_bytes <$> b64_decode (filter (fun c => is_newline c = false) (chars s)) false (symbol_value alphabet_std).

Section password.
Context `{env : Env} `{rand : Rand} `{argon : Argon2}.

Definition encode_hash (salt key : string) : string :=
  "$argon2id$v=" +:+ show_Z argon2_Version +:+ "$m=" +:+ show_Z argonMemory +:+ ",t=" +:+ show_Z argonTime +:+ ",p="
  +:+ show_Z argonThreads +:+ "$" +:+ RawStdEncoding_Encode salt +:+ "$" +:+ RawStdEncoding_Encode key.
Definition HashPassword (password : string) : GO string :=
  r ← try (rand_Read saltLen);
  match r with
  | inl e => fail (ErrWrap "rand" e)
  | inr salt => mret (encode_hash salt (IDKey password salt argonTime argonMemory argonThreads argonKeyLen))
  end.

(** argon2.IDKey panics when the time or the threads are zero. *)
Definition VerifyPassword (password encoded : string) : GO unit :=
  match Split encoded "$" with
  | [_; kind; version; params; salt; key] =>
      if negb (bool_decide (kind = "argon2id")) then fail ErrInvalidHash else
      match scan_version version, scan_params params, RawStdEncoding_Decode salt, RawStdEncoding_Decode key with
      | Some _, Some (m, t, p), Some salt, Some expected =>
          if (t <? 1) || (p <? 1) then panic else
          let actual := IDKey password salt t m p (Z.of_nat (String.length expected) mod 2 ^ 32) in
          if bool_decide (actual = expected) then mret tt else fail ErrMismatch
      | _, _, _, _ => fail ErrInvalidHash
      end
  | _ => fail ErrInvalidHash
  end.
End password.

(** ** The request and the answer *)

Record WebReq : Type := mkWebReq { wr_ctx : ReqCtx; wr_cookie : option string; wr_ip : string; wr_agent : string }.
(** What the answer does to the session cookie. *)
Inductive cookie_change : Type := KeepCookie | SetCookie (value : string) | ClearCookie.
Record answer : Type := mkAnswer { an_response : response; an_session : cookie_change }.
Definition plain (r : response) : answer := mkAnswer r KeepCookie.

Definition dummyHash : string :=
  "$argon2id$v=19$m=19456,t=2,p=1$AAAAAAAAAAAAAAAAAAAAAA$AAAAAAAAAAAAAAAAAAAAAAAAAAAAAAAAAAAAAAAAAAA".
Definition errEmailTaken : error := ErrNew "email already registered".
Definition errSignupDisabled : error := ErrNew "signup disabled".
Definition SelfServeSignup : string := "self_serve_signup".
Definition nilIfZero (id : uuid) : option uuid := if bool_decide (id = uuid_Nil) then None else Some id.

Section login.
Context `{env : Env} `{uuids : UuidLib} `{rand : Rand} `{argon : Argon2}.
Context (throttle : LoginThrottle) (absoluteMaxAge : Z) (billing : Service) (Send : Message -> GO unit) (analytics : bool).
Context (flags_Enabled : string -> string -> GO bool) (staffEmails : gset string) (absoluteURL : string -> string).
(** QueryEscape of net/url. *)
Context (QueryEscape : string -> string).

Definition user_by_email (email : string) (db : DB) : option User :=
  head (sql_select (fun u => citext_eq (u_Email u) email && bool_decide (u_DeletedAt u = None)) (users (account_db db))).

(** The oldest account the user owns, else the oldest, else uuid.Nil. *)
Definition pickDefaultAccount (userID : uuid) : GO uuid :=
  r ← try (ListAccountsForUser userID);
  mret (match r with
        | inl _ | inr [] => uuid_Nil
        | inr ((a, _) :: _ as l) =>
            match head (filter (fun x => x.2 = RoleOwner) l) with Some (o, _) => a_ID o | None => a_ID a end
        end).

Definition audit_req (q : WebReq) (account actor : option uuid) (action kind id : string) (md : metadata) : GO unit :=
  ignore (Record_ (EventLit account actor action kind id (wr_ip q) (wr_agent q) md)).
Definition signed_in (q : WebReq) : bool := match cx_user (wr_ctx q) with Some _ => true | None => false end.
Definition session_error : answer := plain (HTTPError StatusInternalServerError).

(** sessions.Create or CreatePending, then on with the new cookie. *)
Definition with_session (m : GO string) (k : cookie_change -> GO answer) : GO answer :=
  r ← try m; match r with inl _ => mret session_error | inr c => k (SetCookie c) end.

Definition index (q : WebReq) : GO answer :=
  mret (plain (if signed_in q then Redirect "/dashboard" else Render StatusOK "Landing")).

Definition loginPage (q : WebReq) : GO answer :=
  if signed_in q then mret (plain (Redirect "/dashboard")) else
  r ← try (PendingMFAUser (wr_cookie q));
  mret (plain (match r with inr _ => Redirect "/login/mfa" | inl _ => Render StatusOK "Login" end)).

(** What follows a correct first factor: the pending session of a user with
    MFA, or a full one. *)
Definition finish_login (q : WebReq) (id : uuid) (mfaEnabled : bool) (mfa_url ok_url : string) (md : metadata) : GO answer :=
  if mfaEnabled then
    with_session (CreatePending absoluteMaxAge id) (fun c => mret (mkAnswer (Redirect mfa_url) c))
  else
    currentAccount ← pickDefaultAccount id;
    with_session (AuthStore.Create absoluteMaxAge id currentAccount) (fun c =>
      audit_req q (nilIfZero currentAccount) (Some id) "login.succeeded" "" "" md;;
      mret (mkAnswer (Redirect ok_url) c)).

Record LoginForm : Type := mkLoginForm { lf_email : string; lf_password : string; lf_next : string }.

Definition loginSubmit (q : WebReq) (form : option LoginForm) : GO answer :=
  match form with
  | None => mret (plain (HTTPError StatusBadRequest))
  | Some f =>
      let email := form_email (lf_email f) in
      let password := lf_password f in
      let next := safeNext (lf_next f) in
      if bool_decide (email = "") || bool_decide (password = "") then mret (plain (Render StatusBadRequest "Login")) else
      lock ← try (Check_ throttle email);
      if match lock with inr l => Locked l | inl _ => false end then mret (plain (Render StatusTooManyRequests "Login")) else
      r ← try (query_row (fun _ db => user_by_email email db));
      match r with
      | inl _ =>
          ignore (VerifyPassword password dummyHash);;
          ignore (RecordAttempt email (wr_ip q) false);;
          mret (plain (Render StatusUnauthorized "Login"))
      | inr u =>
          ok ← try (VerifyPassword password (u_PasswordHash u));
          match ok with
          | inl _ =>
              ignore (RecordAttempt email (wr_ip q) false);;
              audit_req q None None "login.failed" "" (uuid_String (u_ID u)) [];;
              mret (plain (Render StatusUnauthorized "Login"))
          | inr _ =>
              ignore (RecordAttempt email (wr_ip q) true);;
              finish_login q (u_ID u) (u_MFAEnabled u)
                (if bool_decide (next = "") then "/login/mfa" else "/login/mfa?next=" +:+ QueryEscape next)
                (redirectTarget next) []
          end
      end
  end.

(** *** Signing up *)

(** insertUser's statement; the partial unique index is on live users. *)
Definition insert_user (email hash : string) (verified : bool) : GO uuid :=
  exec (fun now id db =>
    match users (account_db db) !! id with
    | Some _ => inl ErrUnique
    | None =>
        match user_by_email email db with
        | Some _ => inl ErrUnique
        | None => inr (db{{ account_db -> users ::= <[ id := mkUser id email verified hash false false None None now None ]> }}, id)
        end
    end).
Definition is_unique_violation (e : error) : bool :=
  match sql_state e with
  | Some s => bool_decide (s = "23505")
  | None => Contains (Error e) "23505" || Contains (ToLower (Error e)) "duplicate key"
  end.
Definition insertUser (email hash : string) : GO uuid :=
  r ← try (insert_user email hash false);
  match r with inr id => mret id | inl e => fail (if is_unique_violation e then errEmailTaken else e) end.

Definition promote_staff (email : string) (id : uuid) : GO unit :=
  if bool_decide (email ∈ staffEmails) then ignore (update_user id (fun u => u{{ u_IsStaff := true }})) else mret tt.

Definition ensure_customer (acct : Account) (email : string) : GO unit :=
  if Enabled billing then
    r ← try (Billing.Create billing (a_ID acct) email (a_Name acct));
    match r with
    | inr id => if bool_decide (id = "") then mret tt else ignore (SetStripeCustomerID (a_ID acct) id)
    | inl _ => mret tt
    end
  else mret tt.

Definition send_verification (id : uuid) (email : string) : GO unit :=
  r ← try (CreateVerificationToken id);
  match r with
  | inl _ => mret tt
  | inr token => ignore (Send (VerifyEmailMessage email (absoluteURL ("/verify-email/" +:+ token))))
  end.

Definition signupPage (q : WebReq) : GO answer :=
  if signed_in q then mret (plain (Redirect "/dashboard")) else
  on ← flags_Enabled SelfServeSignup ("ip:" +:+ wr_ip q);
  mret (plain (Render StatusOK (if on : bool then "Signup" else "SignupClosed"))).

Definition signupSubmit (q : WebReq) (form : option LoginForm) : GO answer :=
  on ← flags_Enabled SelfServeSignup ("ip:" +:+ wr_ip q);
  if negb (on : bool) then mret (plain (Render StatusForbidden "SignupClosed")) else
  match form with
  | None => mret (plain (HTTPError StatusBadRequest))
  | Some f =>
  let email := form_email (lf_email f) in
  let next := safeNext (lf_next f) in
  if negb (valid_email email) then mret (plain (Render StatusBadRequest "Signup")) else
  if (String.length (lf_password f) <? 12)%nat then mret (plain (Render StatusBadRequest "Signup")) else
  r ← try (HashPassword (lf_password f));
  match r with
  | inl _ => mret session_error
  | inr hash =>
  r ← try (insertUser email hash);
  match r with
  | inl e => mret (plain (if errors_Is e errEmailTaken then Render StatusConflict "Signup" else HTTPError StatusInternalServerError))
  | inr id =>
  promote_staff email id;;
  r ← try (CreatePersonalAccount id email);
  match r with
  | inl _ => mret session_error
  | inr acct =>
      audit_plain (Some (a_ID acct)) (Some id) "account.created" "account" (uuid_String (a_ID acct))
        [("name", AString (a_Name acct)); ("kind", AString "personal")];;
      ensure_customer acct email;;
      with_session (AuthStore.Create absoluteMaxAge id (a_ID acct)) (fun c =>
        audit_req q (Some (a_ID acct)) (Some id) "user.signed_up" "" "" [];;
        Capture analytics (uuid_String id) EventSignedUp [("account_id", uuid_String (a_ID acct))];;
        ignore (Send (WelcomeMessage email (a_Name acct)));;
        send_verification id email;;
        mret (mkAnswer (Redirect (redirectTarget next)) c))
  end end end end.

Definition logout (q : WebReq) : GO answer :=
  (match cx_user (wr_ctx q) with
   | Some u => audit_req q (a_ID <$> cx_account (wr_ctx q)) (Some (au_ID u)) "logout" "" "" []
   | None => mret tt
   end);;
  ignore (Destroy (wr_cookie q));;
  mret (mkAnswer (Redirect "/login") ClearCookie).

(** *** Magic links (magiclink.go)

    [allow]: authLimiter.Allow.  The token and the mail are made by a
    goroutine the response does not wait for; here it runs before the
    response is written. *)
Context (allow : string -> GO bool).

Definition magicLinkRequestPage (q : WebReq) : GO answer :=
  mret (plain (if signed_in q then Redirect "/dashboard" else Render StatusOK "MagicLinkRequest")).
Definition send_magic_link (userID : uuid) (email : string) : GO unit :=
  r ← try (CreateMagicLinkToken userID);
  match r with
  | inl _ => mret tt
  | inr token => ignore (Send (MagicLinkMessage email (absoluteURL ("/login/magic/" +:+ token))))
  end.
Definition magicLinkRequest (q : WebReq) (form : option string) : GO answer :=
  match form with
  | None => mret (plain (HTTPError StatusBadRequest))
  | Some email =>
      let email := form_email email in
      if negb (valid_email email) then mret (plain (Render StatusBadRequest "MagicLinkRequest")) else
      ok ← allow ("magiclink:" +:+ email);
      if negb (ok : bool) then mret (plain (Render StatusOK "MagicLinkSent")) else
      r ← try (query_row (fun _ db => user_by_email email db));
      (match r with inr u => send_magic_link (u_ID u) email | inl _ => mret tt end);;
      mret (plain (Render StatusOK "MagicLinkSent"))
  end.
Definition magicLinkConsume (q : WebReq) (token : string) : GO answer :=
  if signed_in q then mret (plain (Redirect "/dashboard")) else
  r ← try (ConsumeMagicLink token);
  match r with
  | inl _ => mret (plain (Render StatusBadRequest "MagicLinkRequest"))
  | inr userID =>
      u ← try (LoadUserByID userID);
      match u with
      | inl _ => mret session_error
      | inr u => finish_login q userID (au_MFAEnabled u) "/login/mfa" "/dashboard" []
      end
  end.

(** *** The second factor (mfa.go) *)

Definition mfaSetupPage (u : AuthUser) : GO answer :=
  if au_MFAEnabled u then mret (plain (Render StatusOK "MFAManage")) else
  r ← try GenerateTOTPSecret;
  mret (match r with inl _ => session_error | inr _ => plain (Render StatusOK "MFASetup") end).

(** The form: the proposed secret and a code of it. *)
Definition mfaEnable (q : WebReq) (u : AuthUser) (form : option (string * string)) : GO answer :=
  if au_MFAEnabled u then mret (plain (Redirect "/account/mfa")) else
  match form with
  | None => mret (plain (HTTPError StatusBadRequest))
  | Some (secret, code) =>
      let secret := TrimSpace secret in
      now ← time_Now;
      match VerifyTOTPWithCounter secret (TrimSpace code) now with
      | None => mret (plain (Render StatusBadRequest "MFASetup"))
      | Some counter =>
          if bool_decide (secret = "") then mret (plain (Render StatusBadRequest "MFASetup")) else
          r ← try GenerateRecoveryCodes;
          match r with
          | inl _ => mret session_error
          | inr codes =>
              r ← try (ReplaceRecoveryCodes (au_ID u) codes);
              match r with
              | inl _ => mret session_error
              | inr _ =>
                  r ← try (EnableMFA (au_ID u) secret counter);
                  match r with
                  | inl _ => mret session_error
                  | inr _ =>
                      audit_req q None (Some (au_ID u)) "mfa.enabled" "user" (uuid_String (au_ID u)) [];;
                      mret (plain (Render StatusOK "MFARecoveryCodes"))
                  end
              end
          end
      end
  end.

Definition mfaDisable (q : WebReq) (u : AuthUser) : GO answer :=
  r ← try (DisableMFA (au_ID u));
  match r with
  | inl _ => mret session_error
  | inr _ =>
      audit_req q None (Some (au_ID u)) "mfa.disabled" "user" (uuid_String (au_ID u)) [];;
      mret (plain (Redirect "/account/mfa"))
  end.

Definition mfaChallengePage (q : WebReq) : GO answer :=
  r ← try (PendingMFAUser (wr_cookie q));
  mret (plain (match r with inl _ => Redirect "/login" | inr _ => Render StatusOK "MFAChallenge" end)).

(** A code of the app, or a recovery code. *)
Definition second_factor (userID : uuid) (code : string) : GO bool :=
  ok ← VerifyAndConsumeTOTP userID code;
  if ok : bool then mret true else ConsumeRecoveryCode userID code.

(** The form: the code and next. *)
Definition mfaChallengeSubmit (q : WebReq) (form : option (string * string)) : GO answer :=
  r ← try (PendingMFAUser (wr_cookie q));
  match r with
  | inl _ => mret (plain (Redirect "/login"))
  | inr u =>
      match form with
      | None => mret (plain (HTTPError StatusBadRequest))
      | Some (code, next) =>
          let next := safeNext next in
          ok ← try (second_factor (au_ID u) (TrimSpace code));
          match ok with
          | inl _ => mret session_error
          | inr false => mret (plain (Render StatusUnauthorized "MFAChallenge"))
          | inr true =>
              r ← try (CompleteMFA absoluteMaxAge (wr_cookie q));
              match r with
              | inl _ => mret (plain (Redirect "/login"))
              | inr c =>
                  audit_req q None (Some (au_ID u)) "login.succeeded" "" "" [];;
                  mret (mkAnswer (Redirect (redirectTarget next)) (SetCookie c))
              end
          end
      end
  end.

(** *** Email verification (verification.go) *)

Definition verifyEmail (q : WebReq) (token : string) : GO answer :=
  r ← try (VerifyEmail token);
  match r with
  | inl _ => mret (plain (Render StatusBadRequest "VerifyEmailResult"))
  | inr userID =>
      audit_req q None (Some userID) "email.verified" "user" (uuid_String userID) [];;
      mret (plain (Render StatusOK "VerifyEmailResult"))
  end.
Definition verifyEmailResend (q : WebReq) : GO answer :=
  match cx_user (wr_ctx q) with
  | None => mret (plain (Redirect "/login"))
  | Some u =>
      if au_EmailVerified u then mret (plain (Render StatusOK "VerifyEmailResult")) else
      r ← try (CreateVerificationToken (au_ID u));
      match r with
      | inl _ => mret session_error
      | inr token =>
          ignore (Send (VerifyEmailMessage (au_Email u) (absoluteURL ("/verify-email/" +:+ token))));;
          mret (plain (Render StatusOK "VerifyEmailResult"))
      end
  end.
End login.
