(* ===== verification/Oauth.v ===== *)
(** internal/oauth and the handlers of oauth.go and staff_sso.go: social
    login with a state cookie and PKCE, and the step-up of the staff panel. *)
From S2P Require Import Prelude Crypto Effects Schema Encoding AuditLog Plans Rbac AccountStore DrillStore Http AuthStore Web Billing Scheduler Notify Members Login.
From Stdlib Require Import Ascii.

(** ** Providers (internal/oauth) *)

Record Identity : Type := mkIdentity { Email : string; Verified : bool }.
(** [p_redirect]: the callback address is the last argument of both. *)
Record Provider : Type := mkProvider {
  AuthCodeURL : string -> string -> string -> string;
  Identity_   : string -> string -> string -> GO Identity
}.

(** One exchange with a provider's servers: the method, the address, the
    bearer token and the form, answered by a status and a body. *)
Record HttpReq : Type := mkHttpReq { hq_Method : string; hq_URL : string; hq_Bearer : option string; hq_Form : string }.

(** encoding/json on what providers answer and on the state cookie, and
    url.Values.Encode on pairs in key order. *)
Record oauthStateValue : Type := mkState { sv_State : string; sv_Verifier : string }.
Record gitHubEmail : Type := mkGitHubEmail { gh_Email : string; gh_Primary : bool; gh_Verified : bool }.
Class OauthLib : Type := {
  values_Encode   : list (string * string) -> string;
  token_Unmarshal : string -> error + string;
  google_Unmarshal : string -> error + Identity;
  github_Unmarshal : string -> error + list gitHubEmail;
  state_Marshal   : oauthStateValue -> error + string;
  state_Unmarshal : string -> error + oauthStateValue
}.
Class OauthLibOk `{OauthLib} : Prop := { state_roundtrip : forall v, exists s, state_Marshal v = inr s /\ state_Unmarshal s = inr v }.

Section oauth.
Context `{env : Env} `{uuids : UuidLib} `{rand : Rand} `{lib : OauthLib}.

Definition State : GO string := b ← rand_Read 24; mret (RawURLEncoding_Encode b).
Definition PKCEVerifier : GO string := b ← rand_Read 32; mret (RawURLEncoding_Encode b).
Definition PKCEChallenge (verifier : string) : string := RawURLEncoding_Encode (sha256 verifier).

Section provider.
Context (http : HttpReq -> nat -> error + (Z * string)).
Context (name clientID clientSecret authURL tokenURL emailURL scope : string) (parseEmail : string -> error + Identity).

Definition provider_AuthCodeURL (state codeChallenge redirectURI : string) : string :=
  authURL +:+ "?" +:+ values_Encode
    [("client_id", clientID); ("code_challenge", codeChallenge); ("code_challenge_method", "S256");
     ("redirect_uri", redirectURI); ("response_type", "code"); ("scope", scope); ("state", state)].

Definition do (req : HttpReq) : GO string :=
  r ← try (ext (ExtCall "oauth" [hq_Method req; hq_URL req; default "" (hq_Bearer req); hq_Form req]) (http req));
  match r with
  | inl e => fail (ErrWrap ("oauth " +:+ name) e)
  | inr (code, body) =>
      if 400 <=? code then fail (ErrNew ("oauth " +:+ name +:+ ": " +:+ show_Z code))
      else mret (String.substring 0 (Z.to_nat (Z.shiftl 1 20)) body)
  end.
Definition exchange (code codeVerifier redirectURI : string) : GO string :=
  body ← do (mkHttpReq "POST" tokenURL None (values_Encode
    [("client_id", clientID); ("client_secret", clientSecret); ("code", code); ("code_verifier", codeVerifier);
     ("grant_type", "authorization_code"); ("redirect_uri", redirectURI)]));
  match token_Unmarshal body with
  | inl e => fail (ErrWrap ("oauth " +:+ name +:+ ": decode token") e)
  | inr tok => if bool_decide (tok = "") then fail (ErrNew ("oauth " +:+ name +:+ ": token response had no access_token")) else mret tok
  end.
Definition get (rawURL token : string) : GO string := do (mkHttpReq "GET" rawURL (Some token) "").
Definition provider_Identity (code codeVerifier redirectURI : string) : GO Identity :=
  token ← exchange code codeVerifier redirectURI;
  body ← get emailURL token;
  lift (parseEmail body).
Definition provider : Provider := mkProvider provider_AuthCodeURL provider_Identity.
End provider.

Definition parseGoogleEmail (body : string) : error + Identity :=
  match google_Unmarshal body with
  | inl e => inl (ErrWrap "oauth google: decode userinfo" e)
  | inr u => if bool_decide (Email u = "") then inl (ErrNew "oauth google: userinfo had no email") else inr u
  end.
Definition parseGitHubEmail (body : string) : error + Identity :=
  match github_Unmarshal body with
  | inl e => inl (ErrWrap "oauth github: decode emails" e)
  | inr emails =>
      match head (filter (fun e => gh_Primary e = true) emails) with
      | Some e => inr (mkIdentity (gh_Email e) (gh_Verified e))
      | None => inl (ErrNew "oauth github: account has no primary email")
      end
  end.

(** The registry; a provider needs both its id and its secret. *)
Definition NewRegistry (http : HttpReq -> nat -> error + (Z * string)) (googleID googleSecret githubID githubSecret : string)
    : gmap string Provider :=
  let set (id secret slug : string) (p : Provider) (m : gmap string Provider) :=
    if bool_decide (id = "") || bool_decide (secret = "") then m else <[ slug := p ]> m in
  set githubID githubSecret "github"
    (provider http "github" githubID githubSecret "https://github.com/login/oauth/authorize"
       "https://github.com/login/oauth/access_token" "https://api.github.com/user/emails" "read:user user:email" parseGitHubEmail)
    (set googleID googleSecret "google"
      (provider http "google" googleID googleSecret "https://accounts.google.com/o/oauth2/v2/auth"
         "https://oauth2.googleapis.com/token" "https://openidconnect.googleapis.com/v1/userinfo" "openid email" parseGoogleEmail) ∅).
Definition Names (r : gmap string Provider) : list string := order_by String.leb (fst <$> map_to_list r).

(** ** The handlers *)

Context `{argon : Argon2}.
Context (oauth : gmap string Provider) (absoluteMaxAge : Z) (billing : Service) (analytics : bool).
Context (flags_Enabled : string -> string -> GO bool) (staffEmails : gset string) (absoluteURL : string -> string).

Definition encodeOAuthState (v : oauthStateValue) : error + string :=
  match state_Marshal v with inl e => inl e | inr b => inr (RawURLEncoding_Encode b) end.
Definition decodeOAuthState (s : string) : option oauthStateValue :=
  b ← RawURLEncoding_Decode s; match state_Unmarshal b with inr v => Some v | inl _ => None end.

Definition staffSSOWindow : Z := hour.
Definition staffSSOProvider : string := "google".
Definition staffSSOFresh (verifiedAt : option time) (now : time) : bool :=
  match verifiedAt with Some t => now - t <? staffSSOWindow | None => false end.

(** The flow cookies a request carries, and what an answer does to them. *)
Record FlowCookies : Type := mkFlow { so_oauth_state : option string; so_staff_oauth_state : option string; so_staff_sso : option string }.
Record flow_answer : Type := mkFlowAnswer { fa_answer : answer; fa_cookies : FlowCookies }.

Definition oauthCallbackURL (provName : string) : string := absoluteURL ("/auth/" +:+ provName +:+ "/callback").

(** State and verifier, in a cookie [set] puts into the answer. *)
Definition start_flow (prov : Provider) (provName : string) (fc : FlowCookies) (set : string -> FlowCookies) : GO flow_answer :=
  let bad := mkFlowAnswer (plain (HTTPError StatusInternalServerError)) fc in
  state ← try State;
  match state with
  | inl _ => mret bad
  | inr state =>
      verifier ← try PKCEVerifier;
      match verifier with
      | inl _ => mret bad
      | inr verifier =>
          match encodeOAuthState (mkState state verifier) with
          | inl _ => mret bad
          | inr cookie =>
              mret (mkFlowAnswer (plain (Redirect (AuthCodeURL prov state (PKCEChallenge verifier) (oauthCallbackURL provName)))) (set cookie))
          end
      end
  end.

Definition oauthStart (fc : FlowCookies) (provName : string) : GO flow_answer :=
  match oauth !! provName with
  | None => mret (mkFlowAnswer (plain (HTTPError StatusNotFound)) fc)
  | Some prov => start_flow prov provName fc (fun c => fc{{ so_oauth_state := Some c }})
  end.
Definition adminSSOStart (fc : FlowCookies) : GO flow_answer :=
  match oauth !! staffSSOProvider with
  | None => mret (mkFlowAnswer (plain (HTTPError 501)) fc)
  | Some prov => start_flow prov staffSSOProvider fc (fun c => fc{{ so_staff_oauth_state := Some c; so_staff_sso := Some "1" }})
  end.
Definition adminSSOPage : GO response := mret (Render StatusOK "AdminSSO").

(** requireStaffSSO: a 404 for everyone else; without the provider staff
    status is enough. *)
Definition requireStaffSSO {R} (notFound toSSO : R) (next : ReqCtx -> GO R) (ctx : ReqCtx) : GO R :=
  match cx_user ctx with
  | Some u =>
      if negb (au_IsStaff u) then mret notFound else
      match oauth !! staffSSOProvider with
      | None => next ctx
      | Some _ => now ← time_Now; if staffSSOFresh (cx_staffVerifiedAt ctx) now then next ctx else mret toSSO
      end
  | None => mret notFound
  end.

(** An existing user with the address, or a new one with a personal account. *)
Definition findOrCreateOAuthUser (email : string) (signupAllowed : bool) : GO (uuid * bool) :=
  r ← try (query_row (fun _ db => user_by_email email db));
  match r with
  | inr u => mret (u_ID u, u_MFAEnabled u)
  | inl e =>
      if negb (errors_Is e ErrNoRows) then fail e else
      if negb signupAllowed then fail errSignupDisabled else
      random ← State;
      hash ← HashPassword random;
      id ← insert_user email hash true;
      promote_staff staffEmails email id;;
      acct ← CreatePersonalAccount id email;
      audit_plain (Some (a_ID acct)) (Some id) "user.signed_up" "account" (uuid_String (a_ID acct)) [("method", AString "oauth")];;
      ensure_customer billing acct email;;
      Capture analytics (uuid_String id) EventSignedUp [("account_id", uuid_String (a_ID acct))];;
      mret (id, false)
  end.

Definition completeStaffSSO (q : WebReq) (provName ssoEmail : string) : GO answer :=
  let ssoEmail := ToLower (TrimSpace ssoEmail) in
  let refused := plain (HTTPError StatusForbidden) in
  match cx_user (wr_ctx q) with
  | None => mret refused
  | Some u =>
      if negb (EqualFold (au_Email u) ssoEmail) || negb (bool_decide (ssoEmail ∈ staffEmails)) then mret refused else
      live ← try (query_row (fun _ db =>
               x ← users (account_db db) !! au_ID u; if bool_decide (u_DeletedAt x = None) then Some (u_IsStaff x) else None));
      match live with
      | inr true =>
          r ← try (MarkStaffVerified (wr_cookie q));
          match r with
          | inl _ => mret session_error
          | inr _ =>
              audit_req q None (Some (au_ID u)) "staff.sso_verified" "" "" [("provider", AString provName)];;
              mret (plain (Redirect "/admin"))
          end
      | _ => mret refused
      end
  end.

(** [state] and [code]: the parameters the provider sends back. *)
Definition oauthCallback (q : WebReq) (fc : FlowCookies) (provName state code : string) : GO flow_answer :=
  match oauth !! provName with
  | None => mret (mkFlowAnswer (plain (HTTPError StatusNotFound)) fc)
  | Some prov =>
      let staff := bool_decide (so_staff_sso fc = Some "1") in
      let cookie := default "" (if staff then so_staff_oauth_state fc else so_oauth_state fc) in
      let invalid := mkFlowAnswer (plain (HTTPError StatusBadRequest)) fc in
      if bool_decide (cookie = "") || bool_decide (state = "") then mret invalid else
      match decodeOAuthState cookie with
      | None => mret invalid
      | Some stored =>
          if bool_decide (sv_State stored = "") || bool_decide (sv_Verifier stored = "")
             || negb (bool_decide (sv_State stored = state)) then mret invalid else
          let fc := if staff then fc{{ so_staff_oauth_state := None }} else fc{{ so_oauth_state := None }} in
          let out a := mkFlowAnswer a fc in
          if bool_decide (code = "") then mret (out (plain (HTTPError StatusBadRequest))) else
          r ← try (Identity_ prov code (sv_Verifier stored) (oauthCallbackURL provName));
          match r with
          | inl _ => mret (out (plain (HTTPError 502)))
          | inr id =>
              if negb (Verified id) then mret (out (plain (HTTPError StatusForbidden))) else
              if staff then a ← completeStaffSSO q provName (Email id); mret (mkFlowAnswer a fc{{ so_staff_sso := None }}) else
              if signed_in q then mret (out (plain (Redirect "/dashboard"))) else
              on ← flags_Enabled SelfServeSignup ("ip:" +:+ wr_ip q);
              r ← try (findOrCreateOAuthUser (ToLower (TrimSpace (Email id))) on);
              match r with
              | inl e => mret (out (plain (HTTPError (if errors_Is e errSignupDisabled then StatusForbidden else StatusInternalServerError))))
              | inr (userID, mfaEnabled) =>
                  a ← finish_login absoluteMaxAge q userID mfaEnabled "/login/mfa" "/dashboard"
                        [("method", AString "oauth"); ("provider", AString provName)];
                  mret (out a)
              end
          end
      end
  end.
End oauth.
