(* ===== verification/Fcm.v ===== *)
(** internal/push/fcm.go: the sender of push messages through Firebase Cloud
    Messaging, with the access token it keeps between calls. *)
From S2P Require Import Prelude Crypto Effects Schema Encoding Scheduler Http Billing Oauth Notify.
From Stdlib Require Import Ascii.

(** The service account's JSON, its private key and RSA signatures; JSON
    strings; the answer of the token endpoint; one HTTP exchange (the status
    and the body). *)
Record serviceAccount : Type := mkServiceAccount { sa_ProjectID : string; sa_ClientEmail : string; sa_PrivateKey : string; sa_TokenURI : string }.
Class Firebase : Type := {
  sa_Unmarshal   : string -> error + serviceAccount;
  sa_ReadFile    : nat -> string -> error + string;
  pem_block      : string -> option string;
  ParsePKCS1     : string -> error + string;
  ParsePKCS8_RSA : string -> error + option string;      (* [None]: not an RSA key *)
  rsa_Sign       : nat -> string -> string -> error + string;
  json_String    : string -> string;
  message_JSON   : string -> Notification -> string;
  access_Decode  : string -> error + (string * Z);        (* access_token, expires_in *)
  fcm_http       : nat -> string -> option string -> string -> error + (Z * string)
}.

Record FCMSender : Type := mkFCMSender { fs_email : string; fs_key : string; fs_tokenURI : string; fs_endpoint : string }.
(** The fields behind the mutex. *)
Record Access : Type := mkAccess { ac_token : string; ac_exp : time }.
Definition no_access : Access := mkAccess "" 0.

Section fcm.
Context `{env : Env} `{lib : OauthLib} `{firebase : Firebase}.

Definition parsePrivateKey (pemStr : string) : error + string :=
  match pem_block pemStr with
  | None => inl (ErrNew "not a PEM block")
  | Some block =>
      match ParsePKCS1 block with
      | inr k => inr k
      | inl _ =>
          match ParsePKCS8_RSA block with
          | inl e => inl e
          | inr None => inl (ErrNew "not an RSA private key")
          | inr (Some k) => inr k
          end
      end
  end.

(** [None]: push is not configured. *)
Definition NewFCMSender (src : string) : GO (option FCMSender) :=
  let src := TrimSpace src in
  if bool_decide (src = "") then mret None else
  data ← (if HasPrefix src "{" then mret src
          else wrap_err "read service account file" (fun w => lift (sa_ReadFile (w_tick w) src) (tick w)));
  sa ← wrap_err "parse service account" (lift (sa_Unmarshal data));
  if bool_decide (sa_ProjectID sa = "") || bool_decide (sa_ClientEmail sa = "") || bool_decide (sa_PrivateKey sa = "") then
    fail (ErrNew "service account missing project_id, client_email, or private_key") else
  key ← wrap_err "parse private key" (lift (parsePrivateKey (sa_PrivateKey sa)));
  let tokenURI := if bool_decide (sa_TokenURI sa = "") then "https://oauth2.googleapis.com/token" else sa_TokenURI sa in
  mret (Some (mkFCMSender (sa_ClientEmail sa) key tokenURI
    ("https://fcm.googleapis.com/v1/projects/" +:+ sa_ProjectID sa +:+ "/messages:send"))).

Context (s : FCMSender).

(** json.Marshal of a map: its keys in order. *)
Definition jwt_header : string :=
  "{" +:+ json_String "alg" +:+ ":" +:+ json_String "RS256" +:+ "," +:+ json_String "typ" +:+ ":" +:+ json_String "JWT" +:+ "}".
Definition jwt_claims (iat exp : Z) : string :=
  "{" +:+ json_String "aud" +:+ ":" +:+ json_String (fs_tokenURI s) +:+ "," +:+ json_String "exp" +:+ ":" +:+ show_Z exp +:+ ","
  +:+ json_String "iat" +:+ ":" +:+ show_Z iat +:+ "," +:+ json_String "iss" +:+ ":" +:+ json_String (fs_email s) +:+ ","
  +:+ json_String "scope" +:+ ":" +:+ json_String "https://www.googleapis.com/auth/firebase.messaging" +:+ "}".
Definition rsa_sign (digest : string) : GO string := fun w => lift (rsa_Sign (w_tick w) (fs_key s) digest) (tick w).
Definition signJWT : GO string :=
  now ← time_Now;
  let signing := RawURLEncoding_Encode jwt_header +:+ "." +:+ RawURLEncoding_Encode (jwt_claims (now / second_ns) ((now + 3600 * second_ns) / second_ns)) in
  sig ← rsa_sign (sha256 signing);
  mret (signing +:+ "." +:+ RawURLEncoding_Encode sig).

Definition exchange_http (url : string) (bearer : option string) (body : string) : GO (Z * string) :=
  ext (ExtCall "fcm" [url; default "" bearer; body]) (fun n => fcm_http n url bearer body).
Definition limited (body : string) : string := TrimSpace (String.substring 0 4096 body).

Definition accessToken (st : Access) : GO (string * Access) :=
  now ← time_Now;
  if negb (bool_decide (ac_token st = "")) && (60 * second_ns <? ac_exp st - now) then mret (ac_token st, st) else
  jwt ← signJWT;
  '(code, body) ← exchange_http (fs_tokenURI s) None
    (values_Encode [("assertion", jwt); ("grant_type", "urn:ietf:params:oauth:grant-type:jwt-bearer")]);
  if negb (code =? 200) then fail (ErrNew ("oauth token: " +:+ show_Z code +:+ " " +:+ limited body)) else
  '(tok, expires) ← lift (access_Decode body);
  now ← time_Now;
  mret (tok, mkAccess tok (now + expires * second_ns)).

Definition sendOne (access token : string) (n : Notification) : GO unit :=
  '(code, body) ← exchange_http (fs_endpoint s) (Some access) (message_JSON token n);
  if 400 <=? code then fail (ErrNew ("fcm: " +:+ show_Z code +:+ " " +:+ limited body)) else mret tt.
(** The loop over the tokens; the first error is the one returned. *)
Fixpoint send_all (access : string) (tokens : list string) (n : Notification) (firstErr : option error) : GO (option error) :=
  match tokens with
  | [] => mret firstErr
  | t :: tokens' =>
      r ← try (sendOne access t n);
      send_all access tokens' n (match r, firstErr with inl e, None => Some e | _, _ => firstErr end)
  end.
(** Send; the sender keeps the token it fetched whatever became of the
    messages. *)
Definition fcm_Send (tokens : list string) (n : Notification) (st : Access) : GO (option error * Access) :=
  match tokens with
  | [] => mret (None, st)
  | _ =>
      r ← try (accessToken st);
      match r with
      | inl e => mret (Some e, st)
      | inr (access, st) => e ← send_all access tokens n None; mret (e, st)
      end
  end.
(** The Sender interface, from a sender that holds [st]. *)
Definition fcm_sender (st : Access) (tokens : list string) (n : Notification) : GO unit :=
  '(e, _) ← fcm_Send tokens n st; match e with Some e => fail e | None => mret tt end.
End fcm.

(** ** What a push reaches *)

Section fcm_facts.
Context `{env : Env} `{lib : OauthLib} `{firebase : Firebase} (s : FCMSender).

Definition message_call (access : string) (n : Notification) (token : string) : extcall :=
  ExtCall "fcm" [fs_endpoint s; access; message_JSON token n].

Lemma sendOne_trace access t n w r w' :
  try (sendOne s access t n) w = (Ret r, w') -> w_trace w' = message_call access n t :: w_trace w.
Proof.
  unfold try, sendOne, exchange_http, ext, mbind, M_bind, lift. simpl default.
  destruct (env_fault (w_tick w)) as [| |[]]; try done;
    (destruct (fcm_http _ _ _ _) as [e|[code body]]; cbn; [|destruct (400 <=? code)]); intros H; first [discriminate H|by injection H as _ <-].
Qed.
Lemma send_all_trace access tokens n : forall fe w r w',
  send_all s access tokens n fe w = (Ret r, w') -> w_trace w' = rev (message_call access n <$> tokens) ++ w_trace w.
Proof.
  induction tokens as [|t tokens IH]; intros fe w r w' H; [by injection H as _ <-|].
  simpl in H. apply bind_ret in H as (x & w1 & Hx & H). apply sendOne_trace in Hx. apply IH in H.
  rewrite H, Hx. simpl. by rewrite <- app_assoc.
Qed.
Lemma accessToken_cached st w : ac_token st <> "" -> 60 * second_ns < ac_exp st - env_now (w_tick w) ->
  accessToken s st w = (Ret (ac_token st, st), tick w).
Proof.
  intros Hne Hlt. unfold accessToken, mbind, M_bind, time_Now. rewrite bool_decide_eq_false_2 by done.
  apply Z.ltb_lt in Hlt. by rewrite Hlt.
Qed.

(** A push that returns, with an error or not, was tried on every device once
    it had an access token, and a token with a minute left is used again
    without asking for another. *)
Lemma push_tries_every_device tokens n st w e st' w' :
  fcm_Send s tokens n st w = (Ret (e, st'), w') -> tokens <> [] ->
  (exists access w1, accessToken s st w = (Ret (access, st'), w1) /\
     w_trace w' = rev (message_call access n <$> tokens) ++ w_trace w1) \/
  (exists err, e = Some err /\ st' = st /\ (accessToken s st w).1 = Fail err).
Proof.
  intros H Hne. destruct tokens as [|t tokens]; [done|]. unfold fcm_Send in H. apply bind_ret in H as (r & w1 & Hr & H).
  unfold try in Hr. destruct (accessToken s st w) as [[[access st1]|err|] w2] eqn:E; [injection Hr as <- <-|injection Hr as <- <-|done].
  - cbv iota in H. apply bind_ret in H as (r & w3 & Hs & [= <- <- <-]). left. exists access, w2. split; [done|]. by apply send_all_trace in Hs.
  - injection H as <- <- <-. right. by exists err.
Qed.
End fcm_facts.
