(* ===== verification/Flags.v ===== *)
(** internal/flags and internal/analytics: feature flags from the environment
    or from PostHog's /decide endpoint, with the cache that background
    refreshes fill, and the delivery of product events. *)
From S2P Require Import Prelude Crypto Effects Schema Encoding Time Scheduler AuthStore EvidenceStore Billing Notify Login Oauth Tools.
From Stdlib Require Import Ascii.

(** ** StaticFlags (flags.go) *)

Definition flag_defaults : gmap string bool := {[ SelfServeSignup := true ]}.

Section static.
(** os.LookupEnv *)
Context (LookupEnv : string -> option string).
Definition env_name (key : string) : string := "FEATURE_" +:+ ToUpper key.
Definition default_flag (key : string) : bool := default false (flag_defaults !! key).

Definition static_Enabled (key : string) : bool :=
  match LookupEnv (env_name key) with
  | Some v => match ParseBool (TrimSpace v) with Some b => b | None => default_flag key end
  | None => default_flag key
  end.
Definition static_Variant (key : string) : string :=
  let v := TrimSpace (default "" (LookupEnv (env_name key))) in
  if bool_decide (v = "") then "" else
  match ParseBool v with Some _ => "" | None => v end.

(** ** PostHogFlags (posthog.go) *)

Definition decideCacheTTL : Z := 60 * AuthStore.second.

Record flagSet : Type := mkFlagSet { fs_flags : gmap string bool; fs_variants : gmap string string; fs_fetched : time }.

(** Where a background refresh of an actor's flags stands: its request is out,
    its answer is to be stored, or its mark is to be removed. *)
Inductive Refresh : Type :=
| Fetching (distinctID : string)
| Storing (distinctID : string) (evaluated : flagSet)
| Clearing (distinctID : string).
Definition actor_of (r : Refresh) : string :=
  match r with Fetching id | Storing id _ | Clearing id => id end.

(** The fields behind the mutex, and the goroutines that run. *)
Record PostHogFlags : Type := mkPostHogFlags {
  ph_cache : gmap string flagSet; ph_inflight : gset string; ph_running : list Refresh
}.
Definition NewPostHogFlags : PostHogFlags := mkPostHogFlags ∅ ∅ [].

(** One critical section: the cached entry, and a new goroutine when it is
    missing or stale and none runs for the actor. *)
Definition lookup_flags (now : time) (distinctID : string) (p : PostHogFlags) : option flagSet * PostHogFlags :=
  let entry := ph_cache p !! distinctID in
  let stale := match entry with None => true | Some fs => decideCacheTTL <? now - fs_fetched fs end in
  (entry,
   if stale && negb (bool_decide (distinctID ∈ ph_inflight p))
   then mkPostHogFlags (ph_cache p) ({[ distinctID ]} ∪ ph_inflight p) (Fetching distinctID :: ph_running p)
   else p).

Definition posthog_Enabled (now : time) (key distinctID : string) (p : PostHogFlags) : bool * PostHogFlags :=
  let '(entry, p') := lookup_flags now distinctID p in
  (default (static_Enabled key) (entry ≫= fun fs => fs_flags fs !! key), p').
Definition posthog_Variant (now : time) (key distinctID : string) (p : PostHogFlags) : string * PostHogFlags :=
  let '(entry, p') := lookup_flags now distinctID p in
  (default (static_Variant key) (entry ≫= fun fs => fs_variants fs !! key), p').
End static.

(** The last part of fetch: a flag is a boolean or the name of a variant. *)
Definition flag_of (v : any) : option bool :=
  match v with
  | ABool b => Some b
  | AString t => Some (negb (bool_decide (t = "")) && negb (bool_decide (t = "false")))
  | _ => None
  end.
Definition variant_of (v : any) : option string := match v with AString t => Some t | _ => None end.
Definition evaluated_of (featureFlags : gmap string any) (now : time) : flagSet :=
  mkFlagSet (omap flag_of featureFlags) (omap variant_of featureFlags) now.

Section posthog.
Context `{env : Env}.
(** The decide endpoint: its URL and the body in, the status and the body
    out; JSON's strings and the decoder of the answer's featureFlags. *)
Context (decide_http : nat -> string -> string -> error + (Z * string)).
Context (marshal_map : list (string * string) -> string) (decide_Decode : string -> error + gmap string any).
Context (apiKey host : string).

Definition posthog_host : string := if bool_decide (host = "") then "https://app.posthog.com" else host.
Definition decide_endpoint : string := trim_right_slash posthog_host +:+ "/decide/?v=3".

Definition fetch (distinctID : string) : GO flagSet :=
  let body := marshal_map [("api_key", apiKey); ("distinct_id", distinctID)] in
  '(code, answer) ← ext (ExtCall "http" [decide_endpoint; body]) (fun n => decide_http n decide_endpoint body);
  if 400 <=? code then fail (ErrNew ("posthog decide: status " +:+ show_Z code)) else
  featureFlags ← lift (decide_Decode answer);
  now ← time_Now;
  mret (evaluated_of featureFlags now).

(** The next stretch of a refresh between two critical sections: its request
    ends with [answer] (no answer: fetch failed, which is logged), the answer
    is stored, the mark removed. *)
Definition refresh_step (answer : option flagSet) (r : Refresh) (p : PostHogFlags) : PostHogFlags * option Refresh :=
  match r with
  | Fetching id => (p, Some (match answer with Some fs => Storing id fs | None => Clearing id end))
  | Storing id fs => (mkPostHogFlags (<[ id := fs ]> (ph_cache p)) (ph_inflight p) (ph_running p), Some (Clearing id))
  | Clearing id => (mkPostHogFlags (ph_cache p) (ph_inflight p ∖ {[ id ]}) (ph_running p), None)
  end.

(** ** Analytics (analytics.go) *)

(** What a goroutine of Capture does; every failure is logged and dropped. *)
Context (capture_http : nat -> string -> string -> error + (Z * string)).
Context (marshal_event : string -> string -> string -> list (string * any) -> string -> error + string).
Definition analytics_endpoint : string := posthog_host +:+ "/capture/".
Definition deliver (distinctID event : string) (props : list (string * any)) : GO unit :=
  now ← time_Now;
  match marshal_event apiKey event distinctID props (FormatRFC3339 now) with
  | inl _ => mret tt
  | inr body => ignore (ext (ExtCall "http" [analytics_endpoint; body]) (fun n => capture_http n analytics_endpoint body))
  end.
(** New, Enabled: nothing is sent without a key. *)
Definition Capture (distinctID event : string) (props : list (string * any)) : GO unit :=
  if bool_decide (apiKey = "") then mret tt else deliver distinctID event props.
End posthog.

(** ** Interleavings *)

(** Requests evaluate flags and goroutines advance in any order.  [log] keeps
    the answers PostHog gave, the latest first. *)
Record Flagging : Type := mkFlagging { fl_state : PostHogFlags; fl_log : list (string * flagSet) }.

Inductive flag_step : Flagging -> Flagging -> Prop :=
| step_lookup now id p log :
    flag_step (mkFlagging p log) (mkFlagging (lookup_flags now id p).2 log)
| step_refresh l1 r l2 answer p log p' next :
    ph_running p = l1 ++ r :: l2 ->
    refresh_step answer r (mkPostHogFlags (ph_cache p) (ph_inflight p) (l1 ++ l2)) = (p', next) ->
    flag_step (mkFlagging p log)
      (mkFlagging (mkPostHogFlags (ph_cache p') (ph_inflight p') (option_list next ++ ph_running p'))
        (match r, answer with Fetching id, Some fs => (id, fs) :: log | _, _ => log end)).
Definition flagging : Flagging -> Flagging -> Prop := rtc flag_step.
Definition fresh_flags : Flagging := mkFlagging NewPostHogFlags [].

Definition last_answer (id : string) (log : list (string * flagSet)) : option flagSet :=
  snd <$> head (filter (fun a => a.1 = id) log).
(** The answer an actor's refresh has still to store. *)
Definition pending (id : string) (l : list Refresh) : Prop := exists fs, Storing id fs ∈ l.

(** ** Facts *)

Section facts.
Definition running_for (id : string) (l : list Refresh) : list Refresh := filter (fun r => actor_of r = id) l.

Record FlagInv (s : Flagging) : Prop := {
  inv_marked : forall id, running_for id (ph_running (fl_state s)) = [] <-> id ∉ ph_inflight (fl_state s);
  inv_single : forall id, (length (running_for id (ph_running (fl_state s))) <= 1)%nat;
  inv_pending : forall id fs, Storing id fs ∈ ph_running (fl_state s) -> last_answer id (fl_log s) = Some fs;
  inv_cached : forall id, ~ pending id (ph_running (fl_state s)) -> ph_cache (fl_state s) !! id = last_answer id (fl_log s)
}.

#[local] Arguments running_for : simpl never.
#[local] Arguments last_answer : simpl never.
Lemma running_for_app id l1 l2 : running_for id (l1 ++ l2) = running_for id l1 ++ running_for id l2.
Proof. apply filter_app. Qed.
Lemma running_for_cons id r l :
  running_for id (r :: l) = if decide (actor_of r = id) then r :: running_for id l else running_for id l.
Proof. unfold running_for. rewrite filter_cons. by destruct (decide (actor_of r = id)). Qed.
Lemma running_for_nil id l : running_for id l = [] <-> forall r, r ∈ l -> actor_of r <> id.
Proof.
  unfold running_for. split.
  - intros H r Hr E. assert (r ∈ (filter (fun r => actor_of r = id) l)) as Hin by by apply list_elem_of_filter.
    rewrite H in Hin. by apply elem_of_nil in Hin.
  - intros H. destruct (filter _ l) as [|r k] eqn:E; [done|].
    assert (r ∈ filter (fun r => actor_of r = id) l) as [Hr1 Hr2]%list_elem_of_filter by (rewrite E; left). by destruct (H r).
Qed.
Lemma last_answer_cons id i fs log :
  last_answer id ((i, fs) :: log) = if decide (i = id) then Some fs else last_answer id log.
Proof. unfold last_answer. rewrite filter_cons. cbn. by destruct (decide (i = id)). Qed.

(** The goroutine that runs for an actor is the only one, and the others are
    not his. *)
Lemma only_one s l1 r l2 : FlagInv s -> ph_running (fl_state s) = l1 ++ r :: l2 -> running_for (actor_of r) (l1 ++ l2) = [].
Proof.
  intros HI E. pose proof (inv_single _ HI (actor_of r)) as H. rewrite E, running_for_app, running_for_cons, decide_True in H by done.
  rewrite running_for_app. rewrite length_app in H. simpl in H.
  destruct (running_for _ l1), (running_for _ l2); simpl in H; (done || lia).
Qed.
(** Replacing the goroutine [r] by what it becomes changes nothing for the
    other actors. *)
Lemma elem_of_running id fs l1 r l2 (next : option Refresh) :
  (forall x, next = Some x -> actor_of x = actor_of r) -> actor_of r <> id ->
  Storing id fs ∈ option_list next ++ l1 ++ l2 <-> Storing id fs ∈ l1 ++ r :: l2.
Proof.
  intros Hn Hid. rewrite !elem_of_app, elem_of_cons. split.
  - intros [H|H]; [|naive_solver]. destruct next as [x|]; cbn in H; [|by apply elem_of_nil in H].
    apply list_elem_of_singleton in H as <-. destruct Hid. symmetry. apply (Hn _ eq_refl).
  - intros [H|[<-|H]]; [naive_solver|by destruct Hid|naive_solver].
Qed.
Lemma FlagInv_lookup now id p log : FlagInv (mkFlagging p log) -> FlagInv (mkFlagging (lookup_flags now id p).2 log).
Proof.
  intros HI. unfold lookup_flags. cbn. destruct (_ && _) eqn:E; [|done].
  apply andb_prop in E as [_ E]. apply negb_true_iff, bool_decide_eq_false in E.
  destruct HI as [Hm Hs Hp Hc]; cbn in *. pose proof (proj2 (Hm id) E) as H0. split; cbn.
  - intros i. rewrite running_for_cons. cbn. destruct (decide (id = i)) as [<-|Hi]; [split; [done|set_solver]|].
    rewrite Hm. set_solver.
  - intros i. rewrite running_for_cons. cbn. destruct (decide (id = i)) as [<-|Hi]; [by rewrite H0|apply Hs].
  - intros i fs [[=]|H]%elem_of_cons. by apply Hp.
  - intros i Hn. apply Hc. intros [fs Hfs]. apply Hn. exists fs. by right.
Qed.
(** What the others see of a goroutine that goes on, or ends. *)
Lemma running_for_others i l1 r l2 (next : option Refresh) :
  (forall x, next = Some x -> actor_of x = actor_of r) -> actor_of r <> i ->
  running_for i (option_list next ++ l1 ++ l2) = running_for i (l1 ++ r :: l2).
Proof.
  intros Hn Hi. rewrite !running_for_app, running_for_cons, decide_False by done.
  destruct next as [x|]; [|done]. cbn. rewrite running_for_cons, decide_False; [done|by rewrite (Hn x)].
Qed.

(** A goroutine goes on or ends: the invariant holds again when its actor's
    part does, the other actors' parts being as they were. *)
Lemma FlagInv_replace l1 r l2 next p log cache' inflight' log' :
  FlagInv (mkFlagging p log) -> ph_running p = l1 ++ r :: l2 -> (forall x, next = Some x -> actor_of x = actor_of r) ->
  (forall i, actor_of r <> i ->
     (i ∈ inflight' <-> i ∈ ph_inflight p) /\ cache' !! i = ph_cache p !! i /\ last_answer i log' = last_answer i log) ->
  (actor_of r ∈ inflight' <-> is_Some next) ->
  (forall fs, next = Some (Storing (actor_of r) fs) -> last_answer (actor_of r) log' = Some fs) ->
  ((forall fs, next <> Some (Storing (actor_of r) fs)) -> cache' !! actor_of r = last_answer (actor_of r) log') ->
  FlagInv (mkFlagging (mkPostHogFlags cache' inflight' (option_list next ++ l1 ++ l2)) log').
Proof.
  intros HI E Hn Hoth Hin Hsto Hca. pose proof (only_one _ _ _ _ HI E) as Honly. destruct HI as [Hm Hs Hp Hc]. cbn in Hm, Hs, Hp, Hc.
  set (k := actor_of r) in *.
  assert (running_for k (option_list next ++ l1 ++ l2) = option_list next) as Hk.
  { rewrite running_for_app, Honly, app_nil_r. destruct next as [x|]; [|done]. cbn. by rewrite running_for_cons, decide_True by by apply Hn. }
  assert (forall fs, Storing k fs ∈ option_list next ++ l1 ++ l2 -> next = Some (Storing k fs)) as Hnext.
  { intros fs [H|H]%elem_of_app; [|by destruct (proj1 (running_for_nil _ _) Honly _ H)].
    destruct next as [x|]; cbn in H; [by apply list_elem_of_singleton in H as ->|by apply elem_of_nil in H]. }
  split; cbn [fl_state fl_log ph_running ph_cache ph_inflight].
  - intros i. destruct (decide (k = i)) as [<-|Hi].
    + rewrite Hk, Hin. destruct next; cbn; split; [done|by intros []|by intros _ []|done].
    + rewrite (running_for_others i l1 r l2 next) by done. rewrite <- E, Hm. by rewrite (proj1 (Hoth i Hi)).
  - intros i. destruct (decide (k = i)) as [<-|Hi]; [rewrite Hk; by destruct next as [|]; cbn; lia|].
    rewrite (running_for_others i l1 r l2 next), <- E by done. apply Hs.
  - intros i fs H. destruct (decide (k = i)) as [<-|Hi]; [by apply Hsto, Hnext|].
    apply (elem_of_running i fs l1 r l2 next) in H; [|done..]. rewrite <- E in H. rewrite (proj2 (proj2 (Hoth i Hi))). by apply Hp.
  - intros i H. destruct (decide (k = i)) as [<-|Hi].
    + apply Hca. intros fs ->. apply H. exists fs. cbn. left.
    + destruct (Hoth i Hi) as (_ & -> & ->). apply Hc. intros [fs Hfs]. apply H. exists fs.
      apply elem_of_running with r; [done..|]. by rewrite <- E.
Qed.

Lemma FlagInv_refresh l1 r l2 answer p log p' next :
  ph_running p = l1 ++ r :: l2 ->
  refresh_step answer r (mkPostHogFlags (ph_cache p) (ph_inflight p) (l1 ++ l2)) = (p', next) ->
  FlagInv (mkFlagging p log) ->
  FlagInv (mkFlagging (mkPostHogFlags (ph_cache p') (ph_inflight p') (option_list next ++ ph_running p'))
    (match r, answer with Fetching id, Some fs => (id, fs) :: log | _, _ => log end)).
Proof.
  intros E Hstep HI.
  assert (actor_of r ∈ ph_inflight p) as Hin.
  { destruct (decide (actor_of r ∈ ph_inflight p)) as [|Hn]; [done|]. apply (inv_marked _ HI) in Hn. rewrite running_for_nil in Hn.
    destruct (Hn r); [cbn; rewrite E; set_solver|done]. }
  assert ((forall fs, r <> Storing (actor_of r) fs) -> ph_cache p !! actor_of r = last_answer (actor_of r) log) as Hca.
  { intros Hr. apply (inv_cached _ HI). intros [fs Hfs]. cbn in Hfs. pose proof (only_one _ _ _ _ HI E) as Honly.
    rewrite E, elem_of_app, elem_of_cons in Hfs. destruct Hfs as [H|[H|H]]; [|by destruct (Hr fs)|];
      (destruct (proj1 (running_for_nil _ _) Honly (Storing (actor_of r) fs)); [rewrite elem_of_app; naive_solver|done]). }
  destruct r as [k|k fs|k]; [destruct answer as [a|]|..]; injection Hstep as <- <-;
    eapply (FlagInv_replace _ _ _ _ _ _ _ _ _ HI E); cbn [actor_of ph_cache ph_inflight] in *; try naive_solver.
  all: rewrite ?last_answer_cons, ?decide_True by done; try naive_solver.
  3: intros _; rewrite lookup_insert_eq; symmetry; apply (inv_pending _ HI); cbn; rewrite E; set_solver.
  4: split; [set_solver|by intros []].
  all: intros i Hi; rewrite ?last_answer_cons, ?decide_False, ?lookup_insert_ne by done; set_solver.
Qed.

Lemma FlagInv_fresh : FlagInv fresh_flags.
Proof. split; [done|intros; apply Nat.le_0_l|by intros ? ? ?%elem_of_nil|done]. Qed.
Lemma FlagInv_flagging s s' : flagging s s' -> FlagInv s -> FlagInv s'.
Proof.
  induction 1 as [|s1 s2 s3 Hs _ IH]; [done|]. intros HI. apply IH. destruct Hs; [by apply FlagInv_lookup|by eapply FlagInv_refresh].
Qed.
End facts.

(** ** Theorems *)

(** C35: whatever requests and background refreshes interleave, at most one
    refresh runs per actor, and while it has no answer left to store, a flag
    is what PostHog last answered for this actor, or else the static default. *)
Theorem flags_follow_posthog (LookupEnv : string -> option string) s id :
  flagging fresh_flags s ->
  (length (running_for id (ph_running (fl_state s))) <= 1)%nat /\
  (~ pending id (ph_running (fl_state s)) -> forall now key,
    (posthog_Enabled LookupEnv now key id (fl_state s)).1
      = default (static_Enabled LookupEnv key) (last_answer id (fl_log s) ≫= fun fs => fs_flags fs !! key)).
Proof.
  intros Hs. pose proof (FlagInv_flagging _ _ Hs FlagInv_fresh) as HI. split; [apply (inv_single _ HI)|].
  intros Hn now key. unfold posthog_Enabled, lookup_flags. cbn. by rewrite (inv_cached _ HI).
Qed.

Definition signup_closed : flagSet := evaluated_of {[ SelfServeSignup := ABool false; "beta" := AString "blue" ]} 0.
(** Two visits of one address: the first starts a refresh and sees the
    default, the second sees the answer. *)
Definition visited : Flagging :=
  mkFlagging (mkPostHogFlags {[ "ip:1" := signup_closed ]} ∅ []) [("ip:1", signup_closed)].
Lemma flags_follow_posthog_witness :
  (posthog_Enabled (fun _ => None) 5 SelfServeSignup "ip:1" NewPostHogFlags).1 = true /\
  flagging fresh_flags visited /\
  (posthog_Enabled (fun _ => None) 5 SelfServeSignup "ip:1" (fl_state visited)).1 = false.
Proof.
  assert (flagging fresh_flags visited) as H.
  { eapply rtc_l; [apply (step_lookup 0 "ip:1")|]. eapply rtc_l.
    { eapply (step_refresh [] _ [] (Some signup_closed)); reflexivity. }
    eapply rtc_l; [by eapply (step_refresh [] _ [] None)|].
    eapply rtc_l; [by eapply (step_refresh [] _ [] None)|].
    match goal with |- rtc _ ?x ?y => replace x with y by (vm_compute; reflexivity) end. apply rtc_refl. }
  split; [vm_compute; reflexivity|]. split; [exact H|].
  rewrite (proj2 (flags_follow_posthog (fun _ => None) visited "ip:1" H)); [vm_compute; reflexivity|].
  by intros [fs Hfs%elem_of_nil].
Defined.

(** An entry is never evicted, so the map grows with every address that opens
    the signup page. *)
Lemma flag_cache_never_shrinks s s' id : flagging s s' ->
  is_Some (ph_cache (fl_state s) !! id) -> is_Some (ph_cache (fl_state s') !! id).
Proof.
  induction 1 as [|s1 s2 s3 Hs _ IH]; [done|]. intros H. apply IH. clear IH.
  destruct Hs as [now i p log|l1 r l2 a p log p' next E Hstep]; cbn in *.
  - unfold lookup_flags. cbn. by destruct (_ && _).
  - destruct r as [k|k fs|k]; injection Hstep as <- _; cbn; [done| |done].
    destruct (decide (k = id)) as [->|]; [by rewrite lookup_insert_eq|by rewrite lookup_insert_ne].
Qed.
