(* ===== verification/Changelog.v ===== *)
(** internal/changelog: the parser of CHANGELOG.md behind the public
    changelog page, and the text a document is written as. *)
From S2P Require Import Prelude Crypto Effects Schema Encoding Billing.
From Stdlib Require Import Ascii.

Inductive SegmentKind : Type := KindText | KindBold | KindCode | KindLink.
Record Segment : Type := mkSegment { seg_Kind : SegmentKind; seg_Text : string; seg_URL : string }.
Record Item : Type := mkItem { it_Segments : list Segment }.
Record Group : Type := mkGroup { gr_Title : string; gr_Items : list Item }.
Record Release : Type := mkRelease { re_Heading : string; re_Groups : list Group; re_Notes : list Item }.
Record Doc : Type := mkDoc { dc_Releases : list Release }.

(** ** Inline markup *)

Definition newline : ascii := "010"%char.
(** The rest of [l] after the prefix [p]. *)
Fixpoint strip (p l : list ascii) : option (list ascii) :=
  match p, l with
  | [], _ => Some l
  | c :: p', d :: l' => if bool_decide (c = d) then strip p' l' else None
  | _ :: _, [] => None
  end.
Definition stars : list ascii := ["*"; "*"]%char.
(** [(.+?)\*\*]: the shortest text, of at least one character and without a
    newline, that two stars end. *)
Fixpoint lazy_bold (l : list ascii) : option (list ascii * list ascii) :=
  match l with
  | [] => None
  | c :: l' =>
      if bool_decide (c = newline) then None else
      match strip stars l' with
      | Some rest => Some ([c], rest)
      | None => '(t, rest) ← lazy_bold l'; Some (c :: t, rest)
      end
  end.
(** [([^c]+)c]: a non-empty text that [c] ends. *)
Definition until (c : ascii) (l : list ascii) : option (list ascii * list ascii) :=
  match cut_chars c l with Some ([], _) => None | r => r end.
(** inlineRe at one place: its alternatives in order. *)
Definition match_bold (l : list ascii) : option (Segment * list ascii) :=
  l1 ← strip stars l; '(t, rest) ← lazy_bold l1; Some (mkSegment KindBold (unchars t) "", rest).
Definition match_code (l : list ascii) : option (Segment * list ascii) :=
  l1 ← strip ["`"%char] l; '(t, rest) ← until "`"%char l1; Some (mkSegment KindCode (unchars t) "", rest).
Definition match_link (l : list ascii) : option (Segment * list ascii) :=
  l1 ← strip ["["%char] l; '(t, l2) ← until "]"%char l1;
  l3 ← strip ["("%char] l2; '(u, rest) ← until ")"%char l3;
  Some (mkSegment KindLink (unchars t) (unchars u), rest).
Definition match_inline (l : list ascii) : option (Segment * list ascii) :=
  match match_bold l with
  | Some r => Some r
  | None => match match_code l with Some r => Some r | None => match_link l end
  end.

Definition text (acc : list ascii) : list Segment :=
  match acc with [] => [] | _ => [mkSegment KindText (unchars (rev acc)) ""] end.
(** FindAllStringSubmatchIndex and the loop over the matches: the leftmost
    match, then on from its end.  Each step consumes a character, so the fuel
    is the length. *)
Fixpoint parse_chars (fuel : nat) (acc l : list ascii) : list Segment :=
  match fuel, l with
  | S fuel', c :: l' =>
      match match_inline l with
      | Some (seg, rest) => text acc ++ seg :: parse_chars fuel' [] rest
      | None => parse_chars fuel' (c :: acc) l'
      end
  | _, _ => text acc
  end.
(** A match takes characters, so more fuel than the text is long changes
    nothing. *)
Lemma strip_length p l r : strip p l = Some r -> length l = (length p + length r)%nat.
Proof.
  revert l. induction p as [|c p IH]; intros [|d l]; cbn; [by intros [= <-]|by intros [= <-]|done|].
  case_bool_decide; [|done]. intros E%IH. lia.
Qed.
Lemma cut_chars_length c l t rest : cut_chars c l = Some (t, rest) -> (length rest < length l)%nat.
Proof.
  revert t. induction l as [|d l IH]; intros t; cbn; [done|]. case_bool_decide; [intros [= <- <-]; lia|].
  destruct (cut_chars c l) as [[k v]|]; [|done]. intros [= <- <-]. specialize (IH k eq_refl). lia.
Qed.
Lemma until_length c l t rest : until c l = Some (t, rest) -> (length rest < length l)%nat.
Proof. unfold until. destruct (cut_chars c l) as [[[|d k] v]|] eqn:E; [done| |done]. intros [= <- <-]. by eapply cut_chars_length. Qed.
Lemma lazy_bold_length l t rest : lazy_bold l = Some (t, rest) -> (length rest < length l)%nat.
Proof.
  revert t. induction l as [|c l IH]; intros t; cbn [lazy_bold]; [done|]. case_bool_decide; [done|].
  destruct (strip stars l) as [r|] eqn:E; [intros [= _ <-]; apply strip_length in E; cbn in *; lia|].
  destruct (lazy_bold l) as [[k v]|]; [|done]. intros [= <- <-]. specialize (IH k eq_refl). cbn. lia.
Qed.
Lemma match_inline_length l seg rest : match_inline l = Some (seg, rest) -> (length rest < length l)%nat.
Proof.
  unfold match_inline, match_bold, match_code, match_link. intros H.
  repeat match goal with
  | H : strip _ _ = Some _ |- _ => apply strip_length in H
  | H : until _ _ = Some _ |- _ => apply until_length in H
  | H : lazy_bold _ = Some _ |- _ => apply lazy_bold_length in H
  | H : context [strip ?p ?l ≫= _] |- _ => destruct (strip p l) eqn:?; cbn [mbind option_bind] in H
  | H : context [lazy_bold ?l ≫= _] |- _ => destruct (lazy_bold l) as [[? ?]|] eqn:?; cbn [mbind option_bind] in H
  | H : context [until ?c ?l ≫= _] |- _ => destruct (until c l) as [[? ?]|] eqn:?; cbn [mbind option_bind] in H
  end; try discriminate H; injection H as _ <-; cbn [length stars] in *; lia.
Qed.
Lemma parse_chars_fuel n m acc l : (length l <= n)%nat -> (length l <= m)%nat -> parse_chars n acc l = parse_chars m acc l.
Proof.
  revert m acc l. induction n as [|n IH]; intros [|m] acc [|c l] Hn Hm; cbn in Hn, Hm |- *; try done; try lia.
  destruct (match_inline (c :: l)) as [[seg rest]|] eqn:E.
  - apply match_inline_length in E. cbn in E. do 2 f_equal. apply IH; lia.
  - apply IH; lia.
Qed.
Definition parseInline (s : string) : list Segment := parse_chars (String.length s) [] (chars s).

(** ** Lines *)

Definition drop_string (n : nat) (s : string) : string := unchars (drop n (chars s)).
(** strings.TrimRight(raw, cr) *)
Definition trim_right_cr (s : string) : string :=
  unchars (rev (drop_while (fun c => bool_decide (c = "013"%char)) (rev (chars s)))).
(** strings.TrimPrefix, strings.TrimSuffix of one character *)
Definition trim_prefix (c : ascii) (s : string) : string :=
  match chars s with d :: l => if bool_decide (d = c) then unchars l else s | [] => s end.
Definition trim_suffix (c : ascii) (s : string) : string :=
  match rev (chars s) with d :: l => if bool_decide (d = c) then unchars (rev l) else s | [] => s end.
Definition cleanHeading (s : string) : string :=
  trim_suffix "]"%char (trim_prefix "["%char (TrimSpace s)).

(** Parse's local variables. *)
Record Parser : Type := mkParser {
  pa_releases : list Release; pa_cur : Release; pa_group : Group; pa_item : string;
  pa_haveRelease : bool; pa_haveGroup : bool; pa_haveItem : bool
}.
Definition no_group : Group := mkGroup "" [].
Definition no_release : Release := mkRelease "" [] [].
Definition parser0 : Parser := mkParser [] no_release no_group "" false false false.

Definition add_item (it : Item) (p : Parser) : Parser :=
  if pa_haveGroup p then
    mkParser (pa_releases p) (pa_cur p) (mkGroup (gr_Title (pa_group p)) (gr_Items (pa_group p) ++ [it])) (pa_item p)
      (pa_haveRelease p) true (pa_haveItem p)
  else if pa_haveRelease p then
    mkParser (pa_releases p) (mkRelease (re_Heading (pa_cur p)) (re_Groups (pa_cur p)) (re_Notes (pa_cur p) ++ [it]))
      (pa_group p) (pa_item p) true false (pa_haveItem p)
  else p.
Definition with_item (s : string) (have : bool) (p : Parser) : Parser :=
  mkParser (pa_releases p) (pa_cur p) (pa_group p) s (pa_haveRelease p) (pa_haveGroup p) have.
Definition flushItem (p : Parser) : Parser :=
  if negb (pa_haveItem p) then p else
  let text := TrimSpace (pa_item p) in
  let p := with_item "" false p in
  if bool_decide (text = "") then p else add_item (mkItem (parseInline text)) p.
Definition flushGroup (p : Parser) : Parser :=
  let p := flushItem p in
  if pa_haveGroup p then
    mkParser (pa_releases p) (mkRelease (re_Heading (pa_cur p)) (re_Groups (pa_cur p) ++ [pa_group p]) (re_Notes (pa_cur p)))
      no_group (pa_item p) (pa_haveRelease p) false (pa_haveItem p)
  else p.
Definition flushRelease (p : Parser) : Parser :=
  let p := flushGroup p in
  if pa_haveRelease p then
    mkParser (pa_releases p ++ [pa_cur p]) no_release (pa_group p) (pa_item p) false (pa_haveGroup p) (pa_haveItem p)
  else p.

(** One turn of the loop over the lines. *)
Definition parse_line (p : Parser) (raw : string) : Parser :=
  let trimmed := TrimSpace (trim_right_cr raw) in
  if HasPrefix trimmed "## " then
    let p := flushRelease p in
    mkParser (pa_releases p) (mkRelease (cleanHeading (drop_string 3 trimmed)) [] []) (pa_group p) (pa_item p)
      true (pa_haveGroup p) (pa_haveItem p)
  else if HasPrefix trimmed "### " then
    let p := flushGroup p in
    mkParser (pa_releases p) (pa_cur p) (mkGroup (TrimSpace (drop_string 4 trimmed)) []) (pa_item p)
      (pa_haveRelease p) true (pa_haveItem p)
  else if HasPrefix trimmed "- " then
    let p := flushItem p in with_item (pa_item p +:+ TrimSpace (drop_string 2 trimmed)) true p
  else if bool_decide (trimmed = "") then flushItem p
  else if pa_haveItem p then with_item (pa_item p +:+ " " +:+ trimmed) true p else p.

Definition Parse (md : string) : Doc :=
  mkDoc (pa_releases (flushRelease (fold_left parse_line (Split md newline) parser0))).

Example parse_small :
  Parse (String.concat (String newline "") ["# Changelog"; "intro - dropped"; ""; "## [2026-05-01]"; "- note **x**"; ""; "### Added";
    "- a `b` [c](d)"; "  wrapped"; ""; "- ***t** "; "## 2026-04-30"])
  = mkDoc [ mkRelease "2026-05-01"
      [mkGroup "Added" [mkItem [mkSegment KindText "a " ""; mkSegment KindCode "b" ""; mkSegment KindText " " "";
                                mkSegment KindLink "c" "d"; mkSegment KindText " wrapped" ""];
                        mkItem [mkSegment KindBold "*t" ""]]]
      [mkItem [mkSegment KindText "note " ""; mkSegment KindBold "x" ""]]; mkRelease "2026-04-30" [] [] ].
Proof. vm_compute. reflexivity. Qed.

(** ** Written documents *)

Definition print_segment (s : Segment) : list ascii :=
  match seg_Kind s with
  | KindText => chars (seg_Text s)
  | KindBold => stars ++ chars (seg_Text s) ++ stars
  | KindCode => "`"%char :: chars (seg_Text s) ++ ["`"%char]
  | KindLink => "["%char :: chars (seg_Text s) ++ "]"%char :: "("%char :: chars (seg_URL s) ++ [")"%char]
  end.
Definition print_segments (l : list Segment) : string := unchars (l ≫= print_segment).

(** Text that reads back: of the markup of its kind it holds no character. *)
Definition free_of (bad : list ascii) (s : string) : bool := forallb (fun c => bool_decide (c ∉ bad)) (chars s).
Definition segment_ok (s : Segment) : bool :=
  negb (bool_decide (seg_Text s = "")) &&
  match seg_Kind s with
  | KindText => free_of ["*"; "`"; "["]%char (seg_Text s) && bool_decide (seg_URL s = "")
  | KindBold => free_of ["*"; newline]%char (seg_Text s) && bool_decide (seg_URL s = "")
  | KindCode => free_of ["`"]%char (seg_Text s) && bool_decide (seg_URL s = "")
  | KindLink => free_of ["]"]%char (seg_Text s) && free_of [")"]%char (seg_URL s) && negb (bool_decide (seg_URL s = ""))
  end.
Definition is_text (s : Segment) : bool := match seg_Kind s with KindText => true | _ => false end.
Fixpoint segments_ok (l : list Segment) : bool :=
  match l with
  | [] => true
  | s :: l' => segment_ok s && segments_ok l' && negb (is_text s && match l' with s' :: _ => is_text s' | [] => false end)
  end.

Lemma free_of_notin bad s c : free_of bad s = true -> c ∈ bad -> c ∉ chars s.
Proof.
  unfold free_of. rewrite forallb_forall. intros H Hc Hin. apply list_elem_of_In in Hin.
  specialize (H c Hin). by apply bool_decide_eq_true in H.
Qed.
Lemma cut_chars_app c t rest : c ∉ t -> cut_chars c (t ++ c :: rest) = Some (t, rest).
Proof.
  induction t as [|d t IH]; intros Hc; simpl; [by rewrite bool_decide_eq_true_2|].
  rewrite bool_decide_eq_false_2 by set_solver. rewrite IH by set_solver. done.
Qed.
Lemma until_app c t rest : t <> [] -> c ∉ t -> until c (t ++ c :: rest) = Some (t, rest).
Proof. intros Ht Hc. unfold until. rewrite cut_chars_app by done. by destruct t. Qed.
Lemma lazy_bold_app t rest : t <> [] -> "*"%char ∉ t -> newline ∉ t -> lazy_bold (t ++ stars ++ rest) = Some (t, rest).
Proof.
  induction t as [|c t IH]; intros Ht Hs Hn; [done|]. cbn [lazy_bold app]. rewrite bool_decide_eq_false_2 by set_solver.
  destruct t as [|d t]; [done|].
  assert (strip stars ((d :: t) ++ stars ++ rest) = None) as ->.
  { cbn [app strip stars]. by rewrite bool_decide_eq_false_2 by set_solver. }
  rewrite IH by set_solver. done.
Qed.

(** A character that starts no markup. *)
Definition special : list ascii := ["*"; "`"; "["]%char.
Lemma strip_same c p l : strip (c :: p) (c :: l) = strip p l.
Proof. cbn. by rewrite bool_decide_eq_true_2. Qed.
Lemma strip_other c d p l : c <> d -> strip (c :: p) (d :: l) = None.
Proof. intros H. cbn. by rewrite bool_decide_eq_false_2. Qed.
Lemma match_bold_other c l : c <> "*"%char -> match_bold (c :: l) = None.
Proof. intros H. unfold match_bold, stars. by rewrite strip_other. Qed.
Lemma match_code_other c l : c <> "`"%char -> match_code (c :: l) = None.
Proof. intros H. unfold match_code. by rewrite strip_other. Qed.
Lemma match_link_other c l : c <> "["%char -> match_link (c :: l) = None.
Proof. intros H. unfold match_link. by rewrite strip_other. Qed.
Lemma match_inline_plain c l : c ∉ special -> match_inline (c :: l) = None.
Proof.
  intros Hc. unfold match_inline, special in *. by rewrite match_bold_other, match_code_other, match_link_other by set_solver.
Qed.
Lemma match_bold_print t rest :
  t <> [] -> "*"%char ∉ t -> newline ∉ t ->
  match_inline (stars ++ t ++ stars ++ rest) = Some (mkSegment KindBold (unchars t) "", rest).
Proof.
  intros Ht Hs Hn. unfold match_inline, match_bold. change (strip stars (stars ++ ?l)) with (Some l). cbn [mbind option_bind].
  by rewrite lazy_bold_app.
Qed.
Lemma match_code_print t rest :
  t <> [] -> "`"%char ∉ t -> match_inline ("`"%char :: t ++ "`"%char :: rest) = Some (mkSegment KindCode (unchars t) "", rest).
Proof.
  intros Ht Hc. unfold match_inline. rewrite match_bold_other by done. unfold match_code. rewrite strip_same. cbn [mbind option_bind strip].
  by rewrite until_app.
Qed.
Lemma match_link_print t u rest :
  t <> [] -> "]"%char ∉ t -> u <> [] -> ")"%char ∉ u ->
  match_inline ("["%char :: t ++ "]"%char :: "("%char :: u ++ ")"%char :: rest) = Some (mkSegment KindLink (unchars t) (unchars u), rest).
Proof.
  intros Ht Hc Hu Hd. unfold match_inline. rewrite match_bold_other, match_code_other by done. unfold match_link.
  rewrite strip_same. change (strip [] ?l) with (Some l). cbn [mbind option_bind]. rewrite until_app by done. cbn [mbind option_bind].
  rewrite strip_same. change (strip [] ?l) with (Some l). cbn [mbind option_bind]. by rewrite until_app.
Qed.
Lemma match_inline_segment s rest :
  segment_ok s = true -> is_text s = false -> match_inline (print_segment s ++ rest) = Some (s, rest).
Proof.
  intros Hs Ht. unfold segment_ok in Hs. destruct s as [k t u]; cbn in *. apply andb_prop in Hs as [Hne Hs].
  apply negb_true_iff, bool_decide_eq_false in Hne.
  assert (chars t <> []) as Ht0 by (intros E; apply Hne; by destruct t).
  assert (unchars (chars t) = t) as Htt by apply String.string_of_list_ascii_of_string.
  unfold print_segment; destruct k; cbn in Hs |- *; [done|..]; rewrite ?andb_true_iff in Hs; rewrite <- ?app_assoc.
  - destruct Hs as [H1 Hu%bool_decide_eq_true]. subst u.
    change ("*"%char :: "*"%char :: ?l) with (stars ++ l). rewrite match_bold_print by first [done|eapply free_of_notin; [exact H1|set_solver]]. by rewrite Htt.
  - destruct Hs as [H1 Hu%bool_decide_eq_true]. subst u. cbn [app]. rewrite match_code_print by first [done|eapply free_of_notin; [exact H1|set_solver]]. by rewrite Htt.
  - destruct Hs as [[H1 H2] Hu%negb_true_iff%bool_decide_eq_false].
    assert (chars u <> []) as Hu0 by (intros E; apply Hu; by destruct u).
    cbn [app]. rewrite <- ?app_assoc. cbn [app]. rewrite <- ?app_assoc. cbn [app].
    rewrite match_link_print; [|done|eapply free_of_notin; [exact H1|set_solver]|done|eapply free_of_notin; [exact H2|set_solver]].
    by rewrite Htt, String.string_of_list_ascii_of_string.
Qed.
Lemma parse_chars_plain t n acc l :
  (forall c, c ∈ t -> c ∉ special) -> parse_chars (length t + n) acc (t ++ l) = parse_chars n (rev t ++ acc) l.
Proof.
  revert acc. induction t as [|c t IH]; intros acc Ht; [done|]. cbn [length app rev Nat.add parse_chars].
  rewrite match_inline_plain by (apply Ht; left). rewrite IH by (intros; apply Ht; by right). by rewrite <- app_assoc.
Qed.
Lemma parse_chars_segments l n acc :
  segments_ok l = true -> (length (l ≫= print_segment) <= n)%nat ->
  (acc = [] \/ match l with s :: _ => is_text s = false | [] => True end) ->
  parse_chars n acc (l ≫= print_segment) = text acc ++ l.
Proof.
  revert n acc. induction l as [|s l IH]; intros n acc Hok Hn Hacc; [destruct n; cbn; by rewrite app_nil_r|].
  cbn in Hok, Hn |- *. rewrite !andb_true_iff in Hok. destruct Hok as [[Hs Hl] Hnext]. rewrite length_app in Hn.
  destruct (is_text s) eqn:Et.
  - destruct Hacc as [->|?]; [|done]. destruct s as [[] t u]; try discriminate Et. cbn in Hs, Hn, Hnext |- *.
    unfold segment_ok in Hs; cbn [seg_Kind seg_Text seg_URL] in Hs; rewrite !andb_true_iff in Hs. destruct Hs as [Hne [Hfree Hu]]. apply bool_decide_eq_true in Hu as ->.
    replace n with (length (chars t) + (n - length (chars t)))%nat by lia.
    rewrite parse_chars_plain by (intros c Hc Hsp; by eapply free_of_notin). rewrite app_nil_r.
    rewrite IH; [|done|lia|right; destruct l; [done|by apply negb_true_iff in Hnext]].
    unfold text. destruct (rev (chars t)) eqn:E.
    + apply (f_equal (@rev _)) in E. rewrite rev_involutive in E. by destruct t.
    + rewrite <- E, rev_involutive, String.string_of_list_ascii_of_string. done.
  - destruct (print_segment s) as [|c p] eqn:Ep.
    { by destruct s as [[] t u]. }
    cbn in Hn |- *. destruct n as [|n]; [lia|]. cbn [parse_chars].
    change (c :: p ++ ?r) with ((c :: p) ++ r). rewrite <- Ep, match_inline_segment by done.
    f_equal. f_equal. rewrite IH; [done|done|lia|by left].
Qed.
Lemma parseInline_print l : segments_ok l = true -> parseInline (print_segments l) = l.
Proof.
  intros H. unfold parseInline, print_segments. rewrite chars_unchars.
  rewrite parse_chars_segments; [done|done| |by left].
  rewrite <- (chars_unchars (l ≫= print_segment)) at 1. generalize (unchars (l ≫= print_segment)). clear.
  induction s; cbn; lia.
Qed.

(** *** Items, groups and releases as they are written *)

(** An item's segments and the lines they are wrapped on. *)
Record WrittenItem : Type := mkWrittenItem { wi_segments : list Segment; wi_lines : list string }.
Record WrittenGroup : Type := mkWrittenGroup { wg_title : string; wg_items : list WrittenItem }.
Record WrittenRelease : Type := mkWrittenRelease { wr_heading : string; wr_notes : list WrittenItem; wr_groups : list WrittenGroup }.

Definition print_item (i : WrittenItem) : list string :=
  match wi_lines i with [] => [] | t :: ts => ("- " +:+ t) :: ((fun x => "  " +:+ x) <$> ts) end.
Definition print_group (g : WrittenGroup) : list string :=
  ("### " +:+ wg_title g) :: (wg_items g ≫= print_item) ++ [""].
Definition print_release (r : WrittenRelease) : list string :=
  ("## [" +:+ wr_heading r +:+ "]") :: "" :: (wr_notes r ≫= print_item) ++ (wr_groups r ≫= print_group).
Definition print_doc (l : list WrittenRelease) : string :=
  String.concat (String newline "") ("# Changelog" :: "" :: (l ≫= print_release)).

Definition item_of (i : WrittenItem) : Item := mkItem (wi_segments i).
Definition group_of (g : WrittenGroup) : Group := mkGroup (wg_title g) (item_of <$> wg_items g).
Definition release_of (r : WrittenRelease) : Release := mkRelease (wr_heading r) (group_of <$> wr_groups r) (item_of <$> wr_notes r).
Definition doc_of (l : list WrittenRelease) : Doc := mkDoc (release_of <$> l).

(** Non-empty, on one line, without white space at its ends. *)
Definition one_line (s : string) : bool := free_of [newline] s.
Definition trimmed (s : string) : bool :=
  match chars s with [] => false | c :: l => negb (white c) && negb (white (List.last l c)) end.
Definition line_ok (s : string) : bool := trimmed s && one_line s.
Definition wrapped_ok (s : string) : bool :=
  line_ok s && negb (HasPrefix s "## ") && negb (HasPrefix s "### ") && negb (HasPrefix s "- ").
Definition item_ok (i : WrittenItem) : bool :=
  match wi_lines i with [] => false | t :: ts => line_ok t && forallb wrapped_ok ts end
  && segments_ok (wi_segments i) && bool_decide (String.concat " " (wi_lines i) = print_segments (wi_segments i)).
Definition group_ok (g : WrittenGroup) : bool := line_ok (wg_title g) && forallb item_ok (wg_items g).
Definition release_ok (r : WrittenRelease) : bool :=
  one_line (wr_heading r) && forallb item_ok (wr_notes r) && forallb group_ok (wr_groups r).

(** ** The parser reads them back *)

Lemma unchars_chars s : unchars (chars s) = s.
Proof. apply String.string_of_list_ascii_of_string. Qed.
Lemma trimmed_last s : trimmed s = true -> exists l c, chars s = l ++ [c] /\ white c = false.
Proof.
  unfold trimmed. destruct (chars s) as [|c l]; [done|]. intros [_ H]%andb_prop. apply negb_true_iff in H.
  destruct l as [|d l _] using rev_ind; [by exists [], c|]. rewrite List.last_last in H. by exists (c :: l), d.
Qed.
Lemma trimmed_first s : trimmed s = true -> exists c l, chars s = c :: l /\ white c = false.
Proof. unfold trimmed. destruct (chars s) as [|c l]; [done|]. intros [H _]%andb_prop. apply negb_true_iff in H. by exists c, l. Qed.
(** A line that ends in a trimmed text loses only the white space in front. *)
Lemma trim_line p s : trimmed s = true -> trim_right_cr (p +:+ s) = p +:+ s /\
  TrimSpace (p +:+ s) = unchars (drop_while white (chars (p +:+ s))).
Proof.
  intros Hs. destruct (trimmed_last s Hs) as (l & c & E & Hc). destruct (trimmed_first s Hs) as (d & l' & E' & Hd).
  split.
  - unfold trim_right_cr. rewrite chars_app, E, app_assoc, rev_unit. cbn [drop_while].
    rewrite bool_decide_eq_false_2 by (intros ->; discriminate Hc).
    cbn [rev]. rewrite rev_involutive, <- app_assoc, <- E, <- chars_app. apply unchars_chars.
  - unfold TrimSpace, trim_by. f_equal.
    assert (exists k, drop_while white (chars (p +:+ s)) = k ++ [c]) as [k ->].
    { rewrite chars_app. induction (chars p) as [|x q IH]; cbn.
      - rewrite E'. cbn. rewrite Hd, <- E', E. by exists l.
      - destruct (white x); [done|]. exists (x :: q ++ l). by rewrite E, app_assoc. }
    rewrite rev_unit. cbn [drop_while]. rewrite Hc. cbn [rev]. by rewrite rev_involutive.
Qed.
Lemma trim_marked p s : trimmed s = true -> (match chars p with c :: _ => white c = false | [] => True end) ->
  TrimSpace (trim_right_cr (p +:+ s)) = p +:+ s.
Proof.
  intros Hs Hp. destruct (trim_line p s Hs) as [-> ->]. rewrite chars_app. destruct (chars p) as [|c q] eqn:E; cbn.
  - destruct (trimmed_first s Hs) as (d & l & E' & Hd). rewrite E'. cbn. rewrite Hd, <- E'. destruct p; [|discriminate E].
    apply unchars_chars.
  - rewrite Hp. change (c :: q ++ chars s) with ((c :: q) ++ chars s). rewrite <- E, <- chars_app. apply unchars_chars.
Qed.
Lemma trim_trimmed s : trimmed s = true -> TrimSpace s = s.
Proof. intros H. pose proof (trim_marked "" s H I) as E. destruct (trim_line "" s H) as [E' _]. cbn in E, E'. by rewrite E' in E. Qed.
Lemma trim_indented s : trimmed s = true -> TrimSpace (trim_right_cr ("  " +:+ s)) = s.
Proof.
  intros H. destruct (trim_line "  " s H) as [-> ->]. rewrite chars_app. cbn.
  destruct (trimmed_first s H) as (d & l & E & Hd). rewrite E. cbn. rewrite Hd, <- E. apply unchars_chars.
Qed.
Lemma drop_string_app p s : drop_string (String.length p) (p +:+ s) = s.
Proof. unfold drop_string. induction p as [|c p IH]; cbn; [apply unchars_chars|exact IH]. Qed.

(** *** The loop *)

(** No item is open, and none is half written. *)
Definition closed (p : Parser) : Prop := pa_haveItem p = false -> pa_item p = "".
Definition no_item (p : Parser) : Prop := pa_haveItem p = false /\ pa_item p = "".
Lemma no_item_closed p : no_item p -> closed p.
Proof. by intros [_ H] _. Qed.
Lemma add_item_no_item i p : no_item p -> no_item (add_item i p).
Proof. intros [H1 H2]. unfold add_item. by destruct (pa_haveGroup p), (pa_haveRelease p). Qed.
Lemma flushItem_no_item p : closed p -> no_item (flushItem p).
Proof.
  intros Hp. unfold flushItem. destruct (pa_haveItem p) eqn:E; cbn; [|split; [done|by apply Hp]].
  case_bool_decide; [done|by apply add_item_no_item].
Qed.
Lemma flushItem_none p : no_item p -> flushItem p = p.
Proof. intros [H _]. unfold flushItem. by rewrite H. Qed.
Lemma with_item_none p : no_item p -> with_item "" false p = p.
Proof. intros [H1 H2]. unfold with_item. destruct p; cbn in *. by subst. Qed.
Lemma flushItem_open s p : no_item p -> trimmed s = true -> flushItem (with_item s true p) = add_item (mkItem (parseInline s)) p.
Proof.
  intros Hp Hs. unfold flushItem. cbn [with_item pa_haveItem pa_item negb].
  assert (TrimSpace s = s) as -> by by apply trim_trimmed.
  rewrite bool_decide_eq_false_2 by (intros ->; discriminate Hs).
  change (with_item "" false (with_item s true p)) with (with_item "" false p). by rewrite with_item_none.
Qed.
Lemma with_item_with s s' b b' p : with_item s b (with_item s' b' p) = with_item s b p.
Proof. done. Qed.

Lemma parse_blank p : parse_line p "" = flushItem p.
Proof. done. Qed.
Lemma parse_bullet t p : trimmed t = true -> closed p -> parse_line p ("- " +:+ t) = with_item t true (flushItem p).
Proof.
  intros Ht Hp. unfold parse_line. rewrite trim_marked by done. change (HasPrefix ("- " +:+ t) "## ") with false.
  change (HasPrefix ("- " +:+ t) "### ") with false. rewrite HasPrefix_app. change 2%nat with (String.length "- ").
  rewrite drop_string_app, trim_trimmed by done. by destruct (flushItem_no_item p Hp) as [_ ->].
Qed.
Lemma parse_wrapped x s p : wrapped_ok x = true -> parse_line (with_item s true p) ("  " +:+ x) = with_item (s +:+ " " +:+ x) true p.
Proof.
  unfold wrapped_ok, line_ok. rewrite !andb_true_iff, !negb_true_iff. intros [[[[Ht _] H1] H2] H3].
  unfold parse_line. rewrite trim_indented, H1, H2, H3 by done.
  by rewrite bool_decide_eq_false_2 by (intros ->; discriminate Ht).
Qed.
Lemma parse_heading h p : parse_line p ("## [" +:+ h +:+ "]")
  = let p := flushRelease p in mkParser (pa_releases p) (mkRelease h [] []) (pa_group p) (pa_item p) true (pa_haveGroup p) (pa_haveItem p).
Proof.
  assert (trimmed ("[" +:+ h +:+ "]") = true) as Ht.
  { unfold trimmed. rewrite !chars_app. cbn [app chars String.list_ascii_of_string]. by rewrite List.last_last. }
  unfold parse_line. change ("## [" +:+ h +:+ "]") with ("## " +:+ "[" +:+ h +:+ "]"). rewrite trim_marked by done.
  rewrite HasPrefix_app. change 3%nat with (String.length "## "). rewrite drop_string_app. cbv zeta. do 2 f_equal.
  unfold cleanHeading. rewrite trim_trimmed by done. change ("[" +:+ h +:+ "]") with (String "[" (h +:+ "]")).
  unfold trim_prefix. cbn [String.list_ascii_of_string]. rewrite bool_decide_eq_true_2, unchars_chars by done.
  unfold trim_suffix. rewrite chars_app. cbn [String.list_ascii_of_string]. rewrite rev_unit, bool_decide_eq_true_2 by done.
  by rewrite rev_involutive, unchars_chars.
Qed.
Lemma parse_title t p : trimmed t = true -> parse_line p ("### " +:+ t)
  = let p := flushGroup p in mkParser (pa_releases p) (pa_cur p) (mkGroup t []) (pa_item p) (pa_haveRelease p) true (pa_haveItem p).
Proof.
  intros Ht. unfold parse_line. rewrite trim_marked by done. change (HasPrefix ("### " +:+ t) "## ") with false. rewrite HasPrefix_app.
  change 4%nat with (String.length "### "). rewrite drop_string_app, trim_trimmed by done. done.
Qed.

Definition run (p : Parser) (lines : list string) : Parser := fold_left parse_line lines p.
Lemma run_app p l1 l2 : run p (l1 ++ l2) = run (run p l1) l2.
Proof. apply fold_left_app. Qed.
Lemma run_cons p l ls : run p (l :: ls) = run (parse_line p l) ls.
Proof. done. Qed.
Lemma run_one p l : run p [l] = parse_line p l.
Proof. done. Qed.
Lemma concat_cons s xs : xs <> [] -> String.concat " " (s :: xs) = s +:+ " " +:+ String.concat " " xs.
Proof. by destruct xs. Qed.
Lemma append_assoc (a b c : string) : (a +:+ b) +:+ c = a +:+ b +:+ c.
Proof. induction a as [|x a IH]; [done|]. change (String x ((a +:+ b) +:+ c) = String x (a +:+ b +:+ c)). by rewrite IH. Qed.
Lemma run_wrapped xs s p : forallb wrapped_ok xs = true ->
  run (with_item s true p) ((fun x => "  " +:+ x) <$> xs) = with_item (String.concat " " (s :: xs)) true p.
Proof.
  revert s. induction xs as [|x xs IH]; intros s; [done|]. cbn [forallb]. intros [Hx Hxs]%andb_prop.
  cbn [fmap list_fmap]. rewrite run_cons, parse_wrapped, IH by done. f_equal. destruct xs as [|y xs]; [done|]. by rewrite !concat_cons, !append_assoc by done.
Qed.
(** What an item's lines join to is trimmed, as its lines are. *)
Lemma trimmed_concat t ts : trimmed t = true -> forallb wrapped_ok ts = true -> trimmed (String.concat " " (t :: ts)) = true.
Proof.
  revert t. induction ts as [|x ts IH]; intros t Ht; [done|]. cbn [forallb]. intros [Hx Hts]%andb_prop.
  rewrite concat_cons by done. assert (trimmed (String.concat " " (x :: ts)) = true) as Hr.
  { apply IH; [|done]. unfold wrapped_ok, line_ok in Hx. rewrite !andb_true_iff in Hx. naive_solver. }
  destruct (trimmed_last _ Hr) as (l & c & E & Hc). destruct (trimmed_first t Ht) as (d & l' & E' & Hd).
  unfold trimmed. rewrite !chars_app, E, E', !app_assoc. cbn [app]. by rewrite List.last_last, Hc, Hd.
Qed.
Lemma run_item i p : item_ok i = true -> closed p ->
  exists s, run p (print_item i) = with_item s true (flushItem p) /\
    flushItem (run p (print_item i)) = add_item (item_of i) (flushItem p).
Proof.
  unfold item_ok, print_item, item_of. destruct (wi_lines i) as [|t ts]; [done|].
  rewrite !andb_true_iff. intros [[[Ht Hts] Hseg] Hc%bool_decide_eq_true] Hp.
  unfold line_ok in Ht. apply andb_prop in Ht as [Ht _].
  exists (String.concat " " (t :: ts)). rewrite run_cons, parse_bullet, run_wrapped by done. split; [done|].
  rewrite flushItem_open; [|by apply flushItem_no_item|by apply trimmed_concat]. by rewrite Hc, parseInline_print.
Qed.
Definition add_items (l : list Item) (p : Parser) : Parser := fold_left (fun q i => add_item i q) l p.
Lemma run_items l p : forallb item_ok l = true -> closed p ->
  closed (run p (l ≫= print_item)) /\ flushItem (run p (l ≫= print_item)) = add_items (item_of <$> l) (flushItem p).
Proof.
  revert p. induction l as [|i l IH]; intros p; [done|]. cbn [forallb]. intros [Hi Hl]%andb_prop Hp.
  change ((i :: l) ≫= print_item) with (print_item i ++ (l ≫= print_item)). rewrite run_app.
  destruct (run_item i p Hi Hp) as (s & E & Ef). destruct (IH (run p (print_item i)) Hl) as [Hc ->]; [by rewrite E|].
  split; [done|]. by rewrite Ef.
Qed.
Lemma add_items_group l p : pa_haveGroup p = true -> add_items l p =
  mkParser (pa_releases p) (pa_cur p) (mkGroup (gr_Title (pa_group p)) (gr_Items (pa_group p) ++ l)) (pa_item p)
    (pa_haveRelease p) true (pa_haveItem p).
Proof.
  revert p. induction l as [|i l IH]; intros p Hp; cbn.
  - rewrite app_nil_r. destruct p as [? ? [] ? ? ? ?]; cbn in *. by rewrite Hp.
  - rewrite IH by (unfold add_item; by rewrite Hp). unfold add_item. rewrite Hp. cbn. by rewrite <- app_assoc.
Qed.
Lemma add_items_notes l p : pa_haveGroup p = false -> pa_haveRelease p = true -> add_items l p =
  mkParser (pa_releases p) (mkRelease (re_Heading (pa_cur p)) (re_Groups (pa_cur p)) (re_Notes (pa_cur p) ++ l)) (pa_group p)
    (pa_item p) true false (pa_haveItem p).
Proof.
  revert p. induction l as [|i l IH]; intros p Hp Hr; cbn.
  - rewrite app_nil_r. destruct p as [? [] ? ? ? ? ?]; cbn in *. by rewrite Hp, Hr.
  - rewrite IH by (unfold add_item; by rewrite Hp, Hr). unfold add_item. rewrite Hp, Hr. cbn. by rewrite <- app_assoc.
Qed.

(** Between groups: no item, no group. *)
Definition between (p : Parser) : Prop := no_item p /\ pa_haveGroup p = false /\ pa_group p = no_group.
Definition add_group (g : Group) (p : Parser) : Parser :=
  mkParser (pa_releases p) (mkRelease (re_Heading (pa_cur p)) (re_Groups (pa_cur p) ++ [g]) (re_Notes (pa_cur p)))
    (pa_group p) (pa_item p) (pa_haveRelease p) (pa_haveGroup p) (pa_haveItem p).
Lemma flushGroup_between p : between p -> flushGroup p = p.
Proof. intros (H & Hg & _). unfold flushGroup. rewrite flushItem_none by done. by rewrite Hg. Qed.
Lemma run_group g p : group_ok g = true -> closed p -> between (flushGroup p) ->
  no_item (run p (print_group g)) /\ flushGroup (run p (print_group g)) = add_group (group_of g) (flushGroup p).
Proof.
  unfold group_ok, line_ok. rewrite !andb_true_iff. intros [[Ht _] Hi] Hp Hb.
  unfold print_group. rewrite run_cons, parse_title by done. cbv zeta.
  match goal with |- context [run ?x _] => set (q := x) end. destruct Hb as (Hn & Hg & Hng).
  assert (no_item q) as Hq by exact Hn. rewrite run_app, run_one, parse_blank.
  destruct (run_items (wg_items g) q Hi (no_item_closed _ Hq)) as [Hc E]. rewrite (flushItem_none q Hq) in E.
  pose proof (flushItem_no_item _ Hc) as Hf. split; [done|]. unfold flushGroup at 1. rewrite (flushItem_none (flushItem _) Hf).
  rewrite E, add_items_group by done. unfold add_group, group_of. subst q. cbn. by rewrite Hg, Hng.
Qed.
Definition add_groups (l : list Group) (p : Parser) : Parser := fold_left (fun q g => add_group g q) l p.
Lemma add_groups_eq l p : add_groups l p =
  mkParser (pa_releases p) (mkRelease (re_Heading (pa_cur p)) (re_Groups (pa_cur p) ++ l) (re_Notes (pa_cur p))) (pa_group p)
    (pa_item p) (pa_haveRelease p) (pa_haveGroup p) (pa_haveItem p).
Proof.
  revert p. induction l as [|g l IH]; intros p; cbn; [rewrite app_nil_r; by destruct p as [? [] ? ? ? ? ?]|].
  rewrite IH. cbn. by rewrite <- app_assoc.
Qed.
Lemma run_groups l p : forallb group_ok l = true -> closed p -> between (flushGroup p) ->
  closed (run p (l ≫= print_group)) /\ flushGroup (run p (l ≫= print_group)) = add_groups (group_of <$> l) (flushGroup p).
Proof.
  revert p. induction l as [|g l IH]; intros p; [done|]. cbn [forallb]. intros [Hg Hl]%andb_prop Hp Hb.
  change ((g :: l) ≫= print_group) with (print_group g ++ (l ≫= print_group)). rewrite run_app.
  destruct (run_group g p Hg Hp Hb) as [Hn E]. destruct (IH (run p (print_group g)) Hl) as [Hc ->].
  - by apply no_item_closed.
  - rewrite E. by destruct Hb as ([? ?] & ? & ?).
  - split; [done|]. by rewrite E.
Qed.

(** Between releases. *)
Definition at_rest (p : Parser) : Prop := between p /\ pa_haveRelease p = false /\ pa_cur p = no_release.
Definition add_release (r : Release) (p : Parser) : Parser :=
  mkParser (pa_releases p ++ [r]) (pa_cur p) (pa_group p) (pa_item p) (pa_haveRelease p) (pa_haveGroup p) (pa_haveItem p).
Lemma run_release r p : release_ok r = true -> at_rest (flushRelease p) ->
  closed (run p (print_release r)) /\ flushRelease (run p (print_release r)) = add_release (release_of r) (flushRelease p).
Proof.
  unfold release_ok. rewrite !andb_true_iff. intros [[_ Hno] Hgr] (Hb & Hr & Hcur).
  unfold print_release. rewrite run_cons, parse_heading, run_cons, parse_blank. cbv zeta.
  match goal with |- context [flushItem ?x] => set (q := x) end.
  assert (between q) as (Hq & Hqg & Hqn) by exact Hb. rewrite (flushItem_none q Hq), run_app.
  destruct (run_items (wr_notes r) q Hno (no_item_closed _ Hq)) as [Hc E].
  rewrite (flushItem_none q Hq), add_items_notes in E by done.
  set (q1 := run q (wr_notes r ≫= print_item)) in *.
  assert (flushGroup q1 = flushItem q1) as Eg by (unfold flushGroup; by rewrite E).
  assert (between (flushGroup q1)) as Hb1 by (rewrite Eg, E; done).
  destruct (run_groups (wr_groups r) q1 Hgr Hc Hb1) as [Hc2 E2]. split; [done|].
  unfold flushRelease at 1. rewrite E2, Eg, E, add_groups_eq. subst q. cbn.
  unfold add_release, release_of. cbn in Hqg. by rewrite Hqg, Hr, Hcur.
Qed.
Lemma run_releases l p : forallb release_ok l = true -> at_rest (flushRelease p) ->
  flushRelease (run p (l ≫= print_release)) =
    let q := flushRelease p in
    mkParser (pa_releases q ++ (release_of <$> l)) (pa_cur q) (pa_group q) (pa_item q) (pa_haveRelease q) (pa_haveGroup q) (pa_haveItem q).
Proof.
  revert p. induction l as [|r l IH]; intros p; [intros _ _; cbn; rewrite app_nil_r; by destruct (flushRelease p)|].
  cbn [forallb]. intros [Hr Hl]%andb_prop Hp. change ((r :: l) ≫= print_release) with (print_release r ++ (l ≫= print_release)).
  rewrite run_app. destruct (run_release r p Hr Hp) as [Hc E]. rewrite IH; [|done|rewrite E; exact Hp].
  cbv zeta. rewrite E. cbn. by rewrite <- app_assoc.
Qed.

(** The lines of a written document hold no newline, so Split gives them
    back. *)
Lemma Split_concat sep l : l <> [] -> Forall (fun s => sep ∉ chars s) l -> Split (String.concat (String sep "") l) sep = l.
Proof.
  intros Hl H. unfold Split. induction H as [|s l Hs H IH]; [done|].
  assert (Forall (fun c => c <> sep) (chars s)) as Hs' by (apply Forall_forall; by intros c Hc ->).
  destruct l as [|t l].
  - cbn. rewrite split_chars_one by done. cbn. by rewrite unchars_chars.
  - change (String.concat (String sep "") (s :: t :: l)) with (s +:+ String sep (String.concat (String sep "") (t :: l))).
    rewrite chars_app. cbn [String.list_ascii_of_string]. rewrite split_chars_app by done. cbn [fmap list_fmap].
    rewrite unchars_chars. f_equal. by apply IH.
Qed.
Lemma one_line_app p s : newline ∉ chars p -> newline ∉ chars s -> newline ∉ chars (p +:+ s).
Proof. rewrite chars_app. set_solver. Qed.
Lemma line_ok_notin s : line_ok s = true -> newline ∉ chars s.
Proof. intros [_ H]%andb_prop. eapply free_of_notin; [exact H|set_solver]. Qed.
Lemma print_item_lines i : item_ok i = true -> Forall (fun s => newline ∉ chars s) (print_item i).
Proof.
  unfold item_ok, print_item. destruct (wi_lines i) as [|t ts]; [done|]. rewrite !andb_true_iff. intros [[[Ht Hts] _] _].
  constructor; [apply one_line_app; [by vm_compute; set_solver|by apply line_ok_notin]|].
  apply Forall_fmap, Forall_forall. intros x Hx%list_elem_of_In. rewrite forallb_forall in Hts. apply Hts in Hx.
  apply one_line_app; [set_solver|]. apply line_ok_notin. unfold wrapped_ok in Hx. rewrite !andb_true_iff in Hx. naive_solver.
Qed.
Lemma print_items_lines l : forallb item_ok l = true -> Forall (fun s => newline ∉ chars s) (l ≫= print_item).
Proof.
  rewrite forallb_forall. intros H. apply Forall_forall. intros s (i & Hs & Hi)%list_elem_of_bind.
  apply list_elem_of_In in Hi. apply H, print_item_lines in Hi. rewrite Forall_forall in Hi. by apply Hi.
Qed.
Lemma print_release_lines r : release_ok r = true -> Forall (fun s => newline ∉ chars s) (print_release r).
Proof.
  unfold release_ok, print_release. rewrite !andb_true_iff, !forallb_forall. intros [[Hh Hn] Hg].
  constructor; [|constructor; [set_solver|]].
  - change ("## [" +:+ wr_heading r +:+ "]") with ("## [" +:+ (wr_heading r +:+ "]")). apply one_line_app; [set_solver|].
    apply one_line_app; [eapply free_of_notin; [exact Hh|set_solver]|set_solver].
  - apply Forall_app; split; [apply print_items_lines; by apply forallb_forall|].
    apply Forall_forall. intros s (g & Hs & Hi)%list_elem_of_bind. apply list_elem_of_In, Hg in Hi.
    unfold group_ok in Hi. apply andb_prop in Hi as [Ht Hi]. unfold print_group in Hs.
    apply elem_of_cons in Hs as [->|Hs]; [apply one_line_app; [set_solver|by apply line_ok_notin]|].
    apply elem_of_app in Hs as [Hs|Hs]; [|apply list_elem_of_singleton in Hs as ->; set_solver].
    pose proof (print_items_lines _ Hi) as H. rewrite Forall_forall in H. by apply H.
Qed.

(** C36: a changelog reads back as it was written, whatever line breaks its
    items are wrapped with: Parse inverts the printer of well-formed
    documents, down to the bold, code and link segments of each item. *)
Theorem changelog_roundtrip l : forallb release_ok l = true -> Parse (print_doc l) = doc_of l.
Proof.
  intros Hl. unfold Parse, print_doc, doc_of. rewrite Split_concat; [|done|].
  - f_equal. fold (run parser0 ("# Changelog" :: "" :: (l ≫= print_release))).
    rewrite !run_cons. assert (parse_line (parse_line parser0 "# Changelog") "" = parser0) as -> by done.
    by rewrite run_releases.
  - constructor; [set_solver|]. constructor; [set_solver|]. apply Forall_forall. intros s (r & Hs & Hr)%list_elem_of_bind.
    apply list_elem_of_In in Hr. rewrite forallb_forall in Hl. apply Hl, print_release_lines in Hr. rewrite Forall_forall in Hr. by apply Hr.
Qed.
Definition sample_changelog : list WrittenRelease :=
  [mkWrittenRelease "2026-05-01"
     [mkWrittenItem [mkSegment KindText "see " ""; mkSegment KindLink "docs" "/docs"] ["see"; "[docs](/docs)"]]
     [mkWrittenGroup "Added" [mkWrittenItem [mkSegment KindBold "Share links" ""; mkSegment KindText ": " ""; mkSegment KindCode "POST /share" ""]
        ["**Share"; "links**: `POST /share`"]]];
   mkWrittenRelease "2026-04-02" [] []].
Lemma changelog_roundtrip_witness : Parse (print_doc sample_changelog) = doc_of sample_changelog.
Proof. apply (changelog_roundtrip sample_changelog). vm_compute. reflexivity. Defined.
