(* ===== verification/Admin.v ===== *)
(** The staff panel (internal/web/handlers/admin.go), the charges and refunds
    behind it (internal/billing/refunds.go), and the account's audit trail and
    the public status page. *)
From S2P Require Import Prelude Crypto Effects Schema Encoding Path Time AuditLog Plans Rbac AccountStore DrillStore Assertions Runner Steps Http Billing AuthStore RateLimit Web.
From S2P Require Import Cipher Signer EvidenceStore Evidence Scheduler Targets Compliance Pdf Notify Login.
From Stdlib Require Import Ascii SpecFloat.

(** ** Charges and refunds *)

Record Charge : Type := mkCharge {
  ch_ID : string; ch_Amount : Z; ch_Currency : string; ch_Created : time; ch_Status : string; ch_Refunded : bool; ch_Description : string
}.
Record RefundResult : Type := mkRefundResult { rr_ID : string; rr_Amount : Z; rr_Status : string }.

(** A decoded JSON object, and the members of it that have a type. *)
Definition object : Type := gmap string any.
Definition str_member (m : object) (k : string) : string := match m !! k with Some (AString s) => s | _ => "" end.
Definition bool_member (m : object) (k : string) : bool := match m !! k with Some (ABool b) => b | _ => false end.
Definition num_member (m : object) (k : string) : option Z := match m !! k with Some (AFloat64 f) => Some (F64.to_int64 f) | _ => None end.
Definition parseCharge (m : object) : Charge :=
  mkCharge (str_member m "id") (default 0 (num_member m "amount")) (str_member m "currency")
    (default 0 ((fun s => s * second) <$> num_member m "created")) (str_member m "status") (bool_member m "refunded") (str_member m "description").

(** The two methods of billing.Service the panel adds. *)
Record StaffBilling : Type := mkStaffBilling {
  ListCharges : string -> GO (list Charge);
  Refund : string -> string -> GO RefundResult
}.
Definition noop_staff : StaffBilling := {|
  ListCharges _ := fail notConfigured;
  Refund _ _ := fail notConfigured
|}.

Section stripe.
Context `{env : Env}.
(** The REST client, on decoded objects; the members of a "data" array that
    are objects come decoded too. *)
Context (get : string -> GO object) (post_form : string -> list (string * string) -> string -> GO object).
Context (data : object -> list (option object)) (QueryEscape : string -> string).

Definition stripe_ListCharges (customerID : string) : GO (list Charge) :=
  if bool_decide (customerID = "") then fail (ErrNew "billing: list charges needs a customer") else
  resp ← get ("/charges?limit=20&customer=" +:+ QueryEscape customerID);
  mret (parseCharge <$> omap id (data resp)).

Definition stripe_Refund (chargeID idempotencyKey : string) : GO RefundResult :=
  if bool_decide (chargeID = "") then fail (ErrNew "billing: refund needs a charge") else
  resp ← post_form "/refunds" [("charge", chargeID)] idempotencyKey;
  let r := mkRefundResult (str_member resp "id") (default 0 (num_member resp "amount")) (str_member resp "status") in
  if bool_decide (rr_ID r = "") then fail (ErrNew "stripe: empty id in refund response") else mret r.

Definition stripe_staff : StaffBilling := {| ListCharges := stripe_ListCharges; Refund := stripe_Refund |}.
End stripe.

(** formatMoney's %.2f of the float64 quotient, rounded half to even from its
    exact value. *)
Definition fixed2 (f : spec_float) : string :=
  let print (neg : bool) (cents : Z) := (if neg then "-" else "") +:+ show_Z (cents / 100) +:+ "." +:+ padded 2 (cents mod 100) in
  match f with
  | S754_finite s m e => print s (if 0 <=? e then Zpos m * 2 ^ e * 100 else round_div (Zpos m * 100) (2 ^ (- e)))
  | S754_zero s => print s 0
  | S754_nan => "NaN"
  | S754_infinity s => if s then "-Inf" else "+Inf"
  end.
Definition formatMoney (minorUnits : Z) (currency : string) : string :=
  ToUpper currency +:+ " " +:+ fixed2 (F64.div (F64.of_int minorUnits) (n_ 100)).
Example money : formatMoney 1500 "usd" = "USD 15.00" /\ formatMoney (-5) "eur" = "EUR -0.05" /\ formatMoney 123456789012345 "jpy" = "JPY 1234567890123.45".
Proof. vm_compute. done. Qed.

(** ** The panel *)

(** PostgreSQL's LIKE on the bytes of a pattern and a text. *)
Fixpoint like (p t : list ascii) {struct p} : bool :=
  match p with
  | [] => match t with [] => true | _ => false end
  | c :: p' =>
      if bool_decide (c = "%"%char) then
        (fix any (t : list ascii) : bool := like p' t || match t with [] => false | _ :: t' => any t' end) t
      else if bool_decide (c = "_"%char) then match t with [] => false | _ :: t' => like p' t' end
      else if bool_decide (c = "\"%char) then
        match p', t with d :: p'', x :: t' => bool_decide (d = x) && like p'' t' | _, _ => false end
      else match t with [] => false | x :: t' => bool_decide (c = x) && like p' t' end
  end.
(** email ILIKE '%' || $1 || '%' *)
Definition email_matches (q : string) (u : User) : bool := like (chars ("%" +:+ ToLower q +:+ "%")) (chars (ToLower (u_Email u))).

Record AdminUser : Type := mkAdminUser { aus_ID : uuid; aus_Email : string; aus_IsStaff : bool; aus_CreatedAt : time; aus_Deleted : bool }.
Definition zero_target : Target := mkTarget uuid_Nil uuid_Nil uuid_Nil "" "" "" None 0 "" None false.
(** [v, _ := m(...)] *)
Definition or_zero `{Env} {A} (zero : A) (m : GO A) : GO A := r ← try m; mret (match r with inr a => a | inl _ => zero end).

Record AdminDrillView : Type := mkAdminDrillView {
  adv_Drill : Drill; adv_Target : Target; adv_Steps : list Step; adv_Assertions : list AssertionResult; adv_Verify : VerifyResult
}.
Record AdminAccountView : Type := mkAdminAccountView {
  aav_ID : uuid; aav_Name : string; aav_Slug : string; aav_Plan : string; aav_StripeCustomerID : string;
  aav_Notice : string; aav_ActionError : string; aav_BillingError : string; aav_Charges : list Charge
}.

Section admin.
Context `{env : Env} `{uuids : UuidLib} `{rand : Rand} `{json : JsonLib} `{ed : Ed25519} `{store : EvidenceStore}.
Context (signer : Signer) (cipher : Cipher) (retention : Z) (billing : Service) (staff_billing : StaffBilling).
Context (render : Drill -> Target -> list Step -> list AssertionResult -> string -> time -> error + string).   (* report.Render *)
Context (q : WebReq) (staff : AuthUser).

Notation staff_audit account action kind id md := (audit_req q account (Some (au_ID staff)) action kind id md).

Definition adminHome : GO response := mret (Render StatusOK "AdminHome").

Definition adminUserSearch (query_q : string) : GO (response * list AdminUser) :=
  let q := TrimSpace query_q in
  if bool_decide (q = "") then mret (Render StatusOK "AdminUsers", []) else
  r ← try (query (fun _ db => take 50 (order_by (fun x y => aus_CreatedAt y <=? aus_CreatedAt x)
        ((fun u => mkAdminUser (u_ID u) (u_Email u) (u_IsStaff u) (u_CreatedAt u) (negb (bool_decide (u_DeletedAt u = None))))
         <$> sql_select (email_matches q) (users (account_db db))))));
  mret match r with inl _ => (HTTPError StatusInternalServerError, []) | inr l => (Render StatusOK "AdminUsers", l) end.

Definition adminUserDetail (idParam : string) : GO (response * list (uuid * string * Role) * list Drill) :=
  let not_found := (HTTPError StatusNotFound, [], []) in
  parse_id idParam not_found (fun userID =>
    r ← try (LoadUserByID userID);
    match r with
    | inl _ => mret not_found
    | inr _ =>
        accts ← or_zero [] (ListAccountsForUser userID);
        drills ← or_zero [] (ListDrillsByCreator userID 25);
        mret (Render StatusOK "AdminUserDetail", (fun x => (a_ID x.1, a_Name x.1, x.2)) <$> accts, drills)
    end).

(** The form: the reason. *)
Definition adminImpersonate (idParam : string) (form : option string) : GO response :=
  parse_id idParam (HTTPError StatusNotFound) (fun userID =>
    match form with
    | None => mret (HTTPError StatusBadRequest)
    | Some reason =>
        let reason := TrimSpace reason in
        if (String.length reason <? 3)%nat then mret (HTTPError StatusBadRequest)
        else if bool_decide (userID = au_ID staff) then mret (HTTPError StatusBadRequest)
        else or_else (StartImpersonation (wr_cookie q) (au_ID staff) userID) (fun _ => HTTPError StatusConflict) (fun _ =>
          staff_audit None "staff.impersonation_started" "user" (uuid_String userID) [("reason", AString reason)];;
          mret (Redirect "/dashboard"))
    end).

Definition impersonateStop : GO response :=
  match cx_impersonation (wr_ctx q) with
  | None => mret (Redirect "/dashboard")
  | Some imp =>
      or_else (StopImpersonation (wr_cookie q)) err_500 (fun _ =>
        audit_req q None (Some (StaffUserID imp)) "staff.impersonation_stopped" "" "" [];;
        mret (Redirect "/admin"))
  end.

Definition adminDrillReplay (idParam : string) : GO response :=
  parse_id idParam (HTTPError StatusNotFound) (fun drillID =>
    or_else (GetDrillByID drillID) err_404 (fun dr =>
    key ← uuid_New;
    or_else (CreateDrillIdempotent (d_AccountID dr) (au_ID staff) (d_TargetID dr) (uuid_String key)) err_500 (fun new =>
    or_else (EnqueueDrill new.1 0) err_500 (fun _ =>
      staff_audit None "staff.drill_replayed" "drill" (uuid_String drillID) [("replay_drill_id", AString (uuid_String new.1))];;
      mret (Redirect ("/admin/drills/" +:+ uuid_String new.1)))))).

Definition adminDrillDetail (idParam : string) : GO (response + AdminDrillView) :=
  parse_id idParam (inl (HTTPError StatusNotFound)) (fun drillID =>
    or_else (GetDrillByID drillID) (fun _ => inl (HTTPError StatusNotFound)) (fun dr =>
      target ← or_zero zero_target (GetTargetByID (d_TargetID dr));
      steps ← or_zero [] (ListSteps (d_ID dr));
      ars ← or_zero [] (ListAssertions (d_ID dr));
      verify ← match has_evidence dr with
               | Some path => or_zero (mkVerifyResult false false "" "" 0 0) (ServiceVerify signer cipher (d_ID dr) (d_AccountID dr) path)
               | None => mret (mkVerifyResult false false "" "" 0 0)
               end;
      mret (inr (mkAdminDrillView dr target steps ars verify)))).

Definition adminEvidenceRegen (idParam : string) : GO response :=
  parse_id idParam (HTTPError StatusNotFound) (fun drillID =>
    or_else (GetDrillByID drillID) err_404 (fun dr =>
      target ← or_zero zero_target (GetTargetByID (d_TargetID dr));
      steps ← or_zero [] (ListSteps (d_ID dr));
      ars ← or_zero [] (ListAssertions (d_ID dr));
      operator ← or_zero "" (CreatorEmail (d_CreatedByUserID dr));
      now ← time_Now;
      match render dr target steps ars operator now with
      | inl _ => mret (HTTPError StatusInternalServerError)
      | inr pdf =>
          or_else (Finalize signer cipher retention (d_ID dr) (d_AccountID dr) pdf) err_500 (fun path =>
          or_else (MarkEvidence (d_ID dr) path) err_500 (fun _ =>
            staff_audit None "staff.evidence_regenerated" "drill" (uuid_String drillID) [];;
            mret (Redirect ("/admin/drills/" +:+ uuid_String drillID))))
      end)).

Definition renderAdminAccount (accountID : uuid) (notice actionErr : string) : GO (response + AdminAccountView) :=
  or_else (GetAccount accountID) (fun _ => inl (HTTPError StatusNotFound)) (fun acct =>
    let customer := default "" (a_StripeCustomerID acct) in
    '(billingErr, charges) ←
      (if negb (Enabled billing) then mret ("Stripe is not configured in this environment.", [])
       else if bool_decide (customer = "") then mret ("This account has no Stripe customer — it has never subscribed.", [])
       else r ← try (ListCharges staff_billing customer);
            mret match r with
                 | inl e => ("Could not load charges from Stripe: " +:+ Error e, [])
                 | inr l => ("", l)
                 end);
    mret (inr (mkAdminAccountView (a_ID acct) (a_Name acct) (a_Slug acct) (a_Plan acct) customer notice actionErr billingErr charges))).

Definition adminAccountDetail (idParam refunded : string) : GO (response + AdminAccountView) :=
  parse_id idParam (inl (HTTPError StatusNotFound)) (fun accountID =>
    let refundID := TrimSpace refunded in
    renderAdminAccount accountID
      (if bool_decide (refundID = "") then "" else "Refund issued — Stripe refund " +:+ refundID +:+ ".") "").

(** The form: the charge. *)
Definition adminRefund (idParam : string) (form : option string) : GO (response + AdminAccountView) :=
  parse_id idParam (inl (HTTPError StatusNotFound)) (fun accountID =>
    match form with
    | None => mret (inl (HTTPError StatusBadRequest))
    | Some charge =>
        let chargeID := TrimSpace charge in
        if bool_decide (chargeID = "") then renderAdminAccount accountID "" "A charge must be selected to refund." else
        r ← try (Refund staff_billing chargeID ("admin-refund-" +:+ chargeID));
        match r with
        | inl e => renderAdminAccount accountID "" ("Refund failed: " +:+ Error e)
        | inr res =>
            staff_audit (Some accountID) "staff.refund_issued" "account" (uuid_String accountID)
              [("amount", AInt (rr_Amount res)); ("charge_id", AString chargeID); ("refund_id", AString (rr_ID res)); ("status", AString (rr_Status res))];;
            mret (inl (Redirect ("/admin/accounts/" +:+ uuid_String accountID +:+ "?refunded=" +:+ rr_ID res)))
        end
    end).

Definition adminEmailReport : GO response := or_else deliverability err_500 (fun _ => mret (Render StatusOK "AdminEmailReport")).
End admin.

(** ** The audit trail of an account (audit_viewer.go) *)

Definition auditLogPageSize : nat := 50.
Record AuditPage : Type := mkAuditPage { ap_Entries : list Entry; ap_NextBefore : Z }.
(** strconv.ParseUint: reading stops where 64 bits overflow. *)
Fixpoint uint_value (n : Z) (l : list ascii) : option Z :=
  match l with
  | [] => Some n
  | c :: l' =>
      if negb (digit c) then None else
      let n := n * 10 + (byte_of c - 48) in if 2 ^ 64 <=? n then Some (2 ^ 64 - 1) else uint_value n l'
  end.
(** strconv.ParseInt as it is used here: the value, saturated out of range
    and 0 on a syntax error. *)
Definition ParseInt_value (s : string) : Z :=
  let '(sign, l) := match chars s with
                    | c :: l' => if bool_decide (c = "-"%char) then (-1, l') else if bool_decide (c = "+"%char) then (1, l') else (1, c :: l')
                    | [] => (1, []) end in
  match l with
  | [] => 0
  | _ => match uint_value 0 l with
         | Some n => Z.max (- 2 ^ 63) (Z.min (2 ^ 63 - 1) (sign * n))
         | None => 0
         end
  end.
Definition auditLog `{env : Env} (account : uuid) (before_param : string) : GO (response + AuditPage) :=
  let before := if bool_decide (before_param = "") then 0 else ParseInt_value before_param in
  or_else (ListForAccount account (Z.of_nat auditLogPageSize + 1) before) (fun _ => inl (HTTPError StatusInternalServerError)) (fun entries =>
    if (auditLogPageSize <? length entries)%nat then
      let entries := take auditLogPageSize entries in
      mret (inr (mkAuditPage entries (default 0 (en_ID <$> last entries))))
    else mret (inr (mkAuditPage entries 0))).
