(* ===== verification/Mobile.v ===== *)
(** internal/web/handlers/mobile.go: signing the phone app in, and the API
    it reads with its token - the /v1 handlers behind another gate. *)
From S2P Require Import Prelude Crypto Effects Schema Encoding Path Time AuditLog Plans AccountStore DrillStore Assertions Steps Http AuthStore Web.
From S2P Require Import Cipher Signer EvidenceStore Evidence Scheduler Targets Compliance Heartbeat Billing Notify Members Login ApiKey MobileAuth V1.
From Stdlib Require Import Ascii.

Record mobileLoginReq : Type := mkMobileLoginReq { ml_Email : string; ml_Password : string; ml_DeviceName : string }.
Record mobileMFAVerifyReq : Type := mkMobileMFAVerifyReq { mv_ChallengeID : string; mv_Code : string }.
Record mobileDeviceReq : Type := mkMobileDeviceReq { md_Token : string; md_Platform : string }.

(** encoding/json on the request bodies, unknown fields refused. *)
Class MobileJson : Type := {
  decode_mobileLoginReq : string -> option mobileLoginReq;
  decode_mobileMFAVerifyReq : string -> option mobileMFAVerifyReq;
  decode_mobileDeviceReq : string -> option mobileDeviceReq
}.

(** What mobileBearerAuth puts on the context. *)
Record MobileCaller : Type := mkMobileCaller { mc_acct : Account; mc_user : AuthUser; mc_token : MobileToken }.

(** apiKeyFromContext without a key: the zero Key. *)
Definition no_key : Key := mkKey uuid_Nil uuid_Nil "" "" [] uuid_Nil 0 None None.
Definition as_caller (c : MobileCaller) : Caller := mkCaller (mc_acct c) no_key.

Section mobile.
Context `{env : Env} `{uuids : UuidLib} `{rand : Rand} `{json : JsonLib} `{api : ApiJson} `{mobile : MobileJson} `{argon : Argon2}.
Context (throttle : LoginThrottle).

Definition invalid_login : Resp := writeAPIError StatusUnauthorized "unauthorized" "invalid email or password".
Definition mobile_audit (q : Request) (account actor : option uuid) (action id : string) : GO unit :=
  ignore (Record_ (EventLit account actor action "" id (q_ClientIP q) (q_UserAgent q) [])).

Definition issueMobileToken (q : Request) (userID accountID : uuid) (email deviceName : string) : GO Resp :=
  or_else (MobileAuth.Create userID accountID deviceName MobileAuth.DefaultTTL) (internal "could not issue token") (fun '(tok, secret) =>
    mobile_audit q (Some accountID) (Some userID) "mobile.login.succeeded" "";;
    mret (writeData StatusOK (AMap [("token", AString secret); ("token_type", AString "Bearer"); ("expires_at", ATime (mt_ExpiresAt tok));
      ("account_id", AString (uuid_String accountID));
      ("user", AMap [("id", AString (uuid_String userID)); ("email", AString email)])]) None)).

Definition mobileLogin (q : Request) : GO Resp :=
  match decodeJSONBody decode_mobileLoginReq q with
  | None => mret (bad_request decode_error)
  | Some req =>
      let email := form_email (ml_Email req) in
      if bool_decide (email = "") || bool_decide (ml_Password req = "") then mret (bad_request "email and password are required") else
      lock ← try (Check_ throttle email);
      if match lock with inr l => Locked l | inl _ => false end then
        mret (writeAPIError StatusTooManyRequests "too_many_requests" "too many failed attempts; try again later") else
      r ← try (query_row (fun _ db => user_by_email email db));
      match r with
      | inl _ =>
          ignore (VerifyPassword (ml_Password req) dummyHash);;
          ignore (RecordAttempt email (q_ClientIP q) false);;
          mret invalid_login
      | inr u =>
          ok ← try (VerifyPassword (ml_Password req) (u_PasswordHash u));
          match ok with
          | inl _ =>
              ignore (RecordAttempt email (q_ClientIP q) false);;
              mobile_audit q None None "mobile.login.failed" (uuid_String (u_ID u));;
              mret invalid_login
          | inr _ =>
              ignore (RecordAttempt email (q_ClientIP q) true);;
              acctID ← pickDefaultAccount (u_ID u);
              if bool_decide (acctID = uuid_Nil) then mret (writeAPIError StatusForbidden "no_account" "user has no workspace") else
              if u_MFAEnabled u then
                or_else (CreateChallenge (u_ID u) acctID (ml_DeviceName req)) (internal "could not start MFA challenge") (fun ch =>
                  mret (writeData 202 (AMap [("mfa_required", ABool true); ("challenge_id", AString (uuid_String ch))]) None))
              else issueMobileToken q (u_ID u) acctID (u_Email u) (ml_DeviceName req)
          end
      end
  end.

Definition could_not_verify (_ : error) : Resp := writeAPIError StatusInternalServerError "internal" "could not verify code".

(** A TOTP code, or a recovery code; the challenge is spent either way. *)
Definition mobileMFAVerify (q : Request) : GO Resp :=
  match decodeJSONBody decode_mobileMFAVerifyReq q with
  | None => mret (bad_request decode_error)
  | Some req =>
      parse_id (TrimSpace (mv_ChallengeID req)) (bad_request "challenge_id must be a valid UUID") (fun chID =>
      let code := TrimSpace (mv_Code req) in
      if bool_decide (code = "") then mret (bad_request "code is required") else
      or_else (ConsumeChallenge chID) (fun _ => writeAPIError StatusUnauthorized "unauthorized" "challenge expired or not found") (fun ch =>
      or_else (second_factor (ch_UserID ch) code) could_not_verify (fun ok =>
        if negb (ok : bool) then mret (writeAPIError StatusUnauthorized "unauthorized" "invalid code") else
        email ← try (query_row (fun _ db => u_Email <$> users (account_db db) !! ch_UserID ch));
        issueMobileToken q (ch_UserID ch) (ch_AccountID ch) (match email with inr e => e | inl _ => "" end) (ch_DeviceName ch))))
  end.

Definition mobileLogout (c : MobileCaller) : GO Resp :=
  or_else (MobileAuth.Revoke (mt_UserID (mc_token c)) (mt_ID (mc_token c))) (internal "could not revoke token") (fun _ =>
    mret (writeData StatusOK (AMap [("revoked", ABool true)]) None)).

Definition mobileRegisterDevice (q : Request) (c : MobileCaller) : GO Resp :=
  match decodeJSONBody decode_mobileDeviceReq q with
  | None => mret (bad_request decode_error)
  | Some req =>
      if bool_decide (TrimSpace (md_Token req) = "") then mret (bad_request "token is required") else
      or_else (Register (au_ID (mc_user c)) (a_ID (mc_acct c)) (md_Token req) (md_Platform req)) (internal "could not register device") (fun id =>
        mret (writeData StatusOK (AMap [("id", AString (uuid_String id))]) None))
  end.

Definition mobileDeleteDevice (idParam : string) (c : MobileCaller) : GO Resp :=
  parse_id idParam (not_found "device not found") (fun id =>
    or_else (Notify.Delete (au_ID (mc_user c)) id) (internal "could not delete device") (fun _ =>
      mret (writeData StatusOK (AMap [("deleted", ABool true)]) None))).

Definition unauthorized (msg : string) (_ : error) : Resp := writeAPIError StatusUnauthorized "unauthorized" msg.
Definition mobileBearerAuth (q : Request) (next : MobileCaller -> GO Resp) : GO Resp :=
  match bearerToken (q_Authorization q) with
  | None => mret (writeAPIError StatusUnauthorized "unauthorized" "missing or malformed Authorization: Bearer header")
  | Some raw =>
      or_else (MobileAuth.Authenticate raw) (unauthorized "invalid or expired token") (fun tok =>
      or_else (GetMembership (mt_AccountID tok) (mt_UserID tok))
        (fun _ => writeAPIError StatusForbidden "forbidden" "no access to this workspace") (fun _ =>
      or_else (GetAccount (mt_AccountID tok)) (unauthorized "account unavailable") (fun acct =>
      or_else (LoadUserByID (mt_UserID tok)) (unauthorized "user unavailable") (fun user =>
        next (mkMobileCaller acct user tok)))))
  end.

(** *** The router *)

Context `{ed : Ed25519} `{store : EvidenceStore} (signer : Signer) (cipher : Cipher).
Context (authAllow v1Allow : string -> GO bool).

Definition limited (allow : string -> GO bool) (key : string) (next : GO Resp) : GO Resp :=
  ok ← allow key;
  if ok : bool then next else mret (mkResp StatusTooManyRequests ("rate limit exceeded" +:+ newline) false).

Definition login_route (h : Request -> GO Resp) : string -> Request -> GO Resp :=
  fun _ q => limited authAllow ("ip:" +:+ q_ClientIP q) (h q).
Definition token_route (h : string -> Request -> MobileCaller -> GO Resp) : string -> Request -> GO Resp :=
  fun id q => mobileBearerAuth q (fun c => limited v1Allow (v1AccountKey (as_caller c)) (h id q c)).
Definition read_of (h : string -> Request -> Caller -> GO Resp) : string -> Request -> GO Resp :=
  token_route (fun id q c => h id q (as_caller c)).

Definition mobile_routes : list (string * list seg * (string -> Request -> GO Resp)) :=
  [ ("POST", [Lit "login"], login_route mobileLogin);
    ("POST", [Lit "mfa-verify"], login_route mobileMFAVerify);
    ("POST", [Lit "logout"], token_route (fun _ _ => mobileLogout));
    ("POST", [Lit "devices"], token_route (fun _ => mobileRegisterDevice));
    ("DELETE", [Lit "devices"; Param], token_route (fun id _ => mobileDeleteDevice id));
    ("GET", [Lit "databases"], read_of (fun _ => v1ListDatabases));
    ("GET", [Lit "databases"; Param], read_of (fun id _ => v1GetDatabase id));
    ("GET", [Lit "drills"], read_of (fun _ => v1ListDrills));
    ("GET", [Lit "drills"; Param], read_of (fun id _ => v1GetDrill id));
    ("GET", [Lit "drills"; Param; Lit "evidence"], read_of (fun id _ => v1GetEvidence cipher id));
    ("GET", [Lit "drills"; Param; Lit "signature"], read_of (fun id _ => v1GetSignature id));
    ("GET", [Lit "drills"; Param; Lit "logs"], read_of (fun id _ => v1GetLogs id));
    ("GET", [Lit "heartbeats"], read_of (fun _ _ => v1ListHeartbeats));
    ("GET", [Lit "heartbeats"; Param], read_of (fun id _ => v1GetHeartbeat id));
    ("GET", [Lit "alerts"], read_of (fun _ => v1ListAlerts)) ].

Fixpoint mobile_dispatch (routes : list (string * list seg * (string -> Request -> GO Resp))) (wrong_method : bool)
    (segs : list (list ascii)) (q : Request) : GO Resp :=
  match routes with
  | [] => mret (mkResp (if wrong_method then 405 else StatusNotFound) "" false)
  | (method, pat, h) :: routes' =>
      match match_segs pat segs with
      | None => mobile_dispatch routes' wrong_method segs q
      | Some param => if bool_decide (q_Method q = method) then h param q else mobile_dispatch routes' true segs q
      end
  end.

(** mobileCORS answers the preflight; its headers are not modelled. *)
Definition mobileCORS (q : Request) (next : GO Resp) : GO Resp :=
  if bool_decide (q_Method q = "OPTIONS") then mret (mkResp StatusNoContent "" false) else next.

Definition mobileRouter (q : Request) : GO Resp :=
  mobileCORS q
    match split (chars (q_Path q)) with
    | [] :: m :: segs => if bool_decide (unchars m = "mobile") then mobile_dispatch mobile_routes false segs q else mret (mkResp StatusNotFound "" false)
    | _ => mret (mkResp StatusNotFound "" false)
    end.
End mobile.
