(* ===== verification/Router.v ===== *)
(** internal/web/handlers/handlers.go: the route table of the web server and
    the middlewares around it, with the handlers of the other files behind
    them; and the few pages that have no file of their own. *)
From S2P Require Import Prelude Crypto Effects Schema Encoding Net Path Time Http AuditLog Plans Rbac AccountStore DrillStore Assertions Steps Billing AuthStore RateLimit Web.
From S2P Require Import Cipher Signer EvidenceStore Evidence Webhooks Heartbeat ApiKey MobileAuth ShareLink Scheduler Targets Compliance Pdf Share Reports V1 Notify Members Login Oauth Admin Mobile.
From Stdlib Require Import Ascii.

(** ** Requests and answers *)

(** A request as the middlewares before the router leave it: the parsed form
    and query ("" where a key is missing), the bodies of the routes that read
    one, and the client address of audit.ClientIP. *)
Record PageReq : Type := mkPageReq {
  pr_Method : string; pr_Path : string; pr_session : option string; pr_csrf : option string; pr_flow : FlowCookies;
  pr_form : string -> string; pr_form_values : string -> list string; pr_query : string -> string; pr_upload : option Upload;
  pr_Authorization : string; pr_IdempotencyKey : string; pr_StripeSignature : string; pr_Body : error + string;
  pr_IP : string; pr_UserAgent : string
}.
Definition api_request (q : PageReq) : Request :=
  mkRequest (pr_Method q) (pr_Path q) (pr_Authorization q) (pr_IdempotencyKey q) (pr_Body q) (pr_query q "limit") (pr_query q "cursor")
    (pr_IP q) (pr_UserAgent q).
Definition web_request (q : PageReq) (ctx : ReqCtx) : WebReq := mkWebReq ctx (pr_session q) (pr_IP q) (pr_UserAgent q).

Inductive Page : Type :=
| PAnswer (a : answer)          (* a page of the web application *)
| PFlow (f : flow_answer)       (* with the cookies of an OAuth flow *)
| PApi (r : Resp)               (* the JSON APIs *)
| PFile (path : string).        (* the static files *)
Definition PResponse (r : response) : Page := PAnswer (plain r).

(** ** The middlewares of handlers.go *)

Definition requireUnlapsedTrial `{Env} {R} (ended : R) (next : ReqCtx -> GO R) (ctx : ReqCtx) : GO R :=
  match cx_account ctx with
  | Some a => now ← time_Now; if TrialLapsed now a then mret ended else next ctx
  | None => next ctx
  end.
Definition clientIPKey (q : PageReq) : string := "ip:" +:+ pr_IP q.
Definition accountKey `{UuidLib} (q : PageReq) (ctx : ReqCtx) : string :=
  match cx_account ctx with Some a => "acct:" +:+ uuid_String (a_ID a) | None => "ip:" +:+ pr_IP q end.

(** The groups of routes, by what stands in front of their handlers. *)
Inductive Group : Type :=
| Public | PingLimited | AuthLimited
| SignedIn                              (* RequireUser *)
| Staff                                 (* RequireUser, RequireStaff *)
| StaffSSO                              (* RequireUser, requireStaffSSO *)
| InAccount                             (* RequireUser, RequireAccount, the account's limiter *)
| Acting (a : Action) (trial : bool).   (* InAccount and RequireAction, and requireUnlapsedTrial *)

Record PageRoute : Type := mkPageRoute {
  pt_Method : option string;   (* None: any method *)
  pt_Pattern : list seg; pt_Group : Group; pt_Handler : PageReq -> list string -> ReqCtx -> GO Page
}.

(** chi's patterns: the parameters a path binds. *)
Fixpoint match_pattern (pat : list seg) (path : list (list ascii)) : option (list string) :=
  match pat, path with
  | [], [] => Some []
  | Lit s :: pat', x :: path' => if bool_decide (unchars x = s) then match_pattern pat' path' else None
  | Param :: pat', x :: path' =>
      if bool_decide (x = []) && bool_decide (path' = []) then None else cons (unchars x) <$> match_pattern pat' path'
  | _, _ => None
  end.
Definition method_ok (r : PageRoute) (method : string) : bool :=
  match pt_Method r with None => true | Some m => bool_decide (m = method) end.
(** The route of a request, or whether only the method was wrong.  The table
    lists a literal before the parameter it competes with, as chi tries them. *)
Fixpoint find_route (routes : list PageRoute) (wrong_method : bool) (method : string) (path : list (list ascii))
    : bool + (PageRoute * list string) :=
  match routes with
  | [] => inl wrong_method
  | r :: routes' =>
      match match_pattern (pt_Pattern r) path with
      | None => find_route routes' wrong_method method path
      | Some ps => if method_ok r method then inr (r, ps) else find_route routes' true method path
      end
  end.

(** ** Pages without a file of their own *)

Definition robots_txt : string := String.concat newline
  ["User-agent: *"; "Allow: /$"; "Allow: /pricing"; "Allow: /how-it-works"; "Allow: /legal/"; "Disallow: /dashboard"; "Disallow: /account";
   "Disallow: /admin"; "Disallow: /drills"; "Disallow: /databases"; "Disallow: /reports"; "Disallow: /v1/"; "Disallow: /webhooks/";
   "Disallow: /login"; "Disallow: /signup"; "Disallow: /verify-email"; "Disallow: /invitations/"; ""].
(** pool.Ping *)
Definition Ping `{Env} : GO unit := query (fun _ _ => tt).
Definition readyz `{Env} : GO response :=
  r ← try Ping;
  mret match r with
       | inl e => Text StatusServiceUnavailable ("not ready: database: " +:+ Error e)
       | inr _ => Text StatusOK "ready"
       end.
(** statusPage: the components and whether each is healthy. *)
Definition statusPage `{Env} : GO (list (string * bool)) :=
  r ← try Ping;
  mret [("Website & API", true); ("Database", match r with inr _ => true | inl _ => false end); ("Evidence signing", true)].
Definition metricsHandler (metricsToken authorization : string) : response :=
  if bool_decide (metricsToken = "") || bool_decide (authorization = "Bearer " +:+ metricsToken) then Render StatusOK "metrics"
  else HTTPError StatusUnauthorized.
Definition dashboard `{Env} (who : Who) : GO response :=
  scope ← databaseScope who;
  targets ← or_zero [] (ListTargets (a_ID (acct who)) scope);
  ignore (ListDrills (a_ID (acct who)) scope 10);;
  ignore (Heartbeat.List_ (a_ID (acct who)));;
  readinessScores who targets;;
  mret (Render StatusOK "Dashboard").
Definition page (name : string) : Page := PResponse (Render StatusOK name).

(** ** The server *)

(** handlers.Deps: what main.go wires into the handlers, and the encodings of
    the bodies some of them read or write. *)
Record Deps `{Env} : Type := mkDeps {
  dp_idleTimeout : Z; dp_absoluteMaxAge : Z;                                        (* Sessions *)
  dp_throttle : LoginThrottle; dp_signer : Signer; dp_cipher : Cipher; dp_retention : Z;   (* Throttle, Signer, Evidence *)
  dp_grace : Z;                                                                     (* Purger *)
  dp_billing : Service; dp_staff_billing : StaffBilling; dp_Send : Message -> GO unit;      (* Billing, Mailer *)
  dp_analytics : bool; dp_flags_Enabled : string -> string -> GO bool;                 (* Analytics, Flags *)
  dp_staffEmails : gset string; dp_oauth : gmap string Provider;                    (* StaffEmails, OAuth *)
  dp_sourceDir : string; dp_sampleDump : string; dp_baseURL : string; dp_postmarkToken : string; dp_metricsToken : string;
  dp_authAllow : string -> GO bool; dp_appAllow : string -> GO bool; dp_v1Allow : string -> GO bool; dp_pingAllow : string -> GO bool;
  dp_magicAllow : string -> GO bool;                                                (* the limiters' Allow *)
  dp_openAPIDoc : string; dp_absoluteURL : string -> string; dp_QueryEscape : string -> string;
  dp_render : Drill -> Target -> list Step -> list AssertionResult -> string -> time -> error + string;
  dp_stripe_unmarshal : string -> error + Envelope; dp_postmark_decode : error + string -> option PostmarkPayload;
  dp_jsonb : string -> any; dp_EncodeIndent : any -> string; dp_format_avg : Z * Z -> string; dp_MarshalIndent : metadata -> string;
  dp_wrapped : string -> option Signature; dp_bare : string -> error + Signature
}.

Section server.
Context `{env : Env} `{uuids : UuidLib} `{rand : Rand} `{json : JsonLib} `{api : ApiJson} `{mobile : MobileJson} `{argon : Argon2} `{host : Host}.
Context `{ed : Ed25519} `{store : EvidenceStore} `{keyfiles : KeyFiles} `{urls : UrlLib} `{lib : OauthLib} `{disp : Dispatcher} `{notif : Notifier}.

Context (h : Deps).
Notation idleTimeout := (dp_idleTimeout h).
Notation absoluteMaxAge := (dp_absoluteMaxAge h).
Notation throttle := (dp_throttle h).
Notation signer := (dp_signer h).
Notation cipher := (dp_cipher h).
Notation retention := (dp_retention h).
Notation grace := (dp_grace h).
Notation billing := (dp_billing h).
Notation staff_billing := (dp_staff_billing h).
Notation Send := (dp_Send h).
Notation analytics := (dp_analytics h).
Notation flags_Enabled := (dp_flags_Enabled h).
Notation staffEmails := (dp_staffEmails h).
Notation oauth := (dp_oauth h).
Notation sourceDir := (dp_sourceDir h).
Notation sampleDump := (dp_sampleDump h).
Notation baseURL := (dp_baseURL h).
Notation postmarkToken := (dp_postmarkToken h).
Notation metricsToken := (dp_metricsToken h).
Notation authAllow := (dp_authAllow h).
Notation appAllow := (dp_appAllow h).
Notation v1Allow := (dp_v1Allow h).
Notation pingAllow := (dp_pingAllow h).
Notation magicAllow := (dp_magicAllow h).
Notation openAPIDoc := (dp_openAPIDoc h).
Notation absoluteURL := (dp_absoluteURL h).
Notation QueryEscape := (dp_QueryEscape h).
Notation render := (dp_render h).
Notation stripe_unmarshal := (dp_stripe_unmarshal h).
Notation postmark_decode := (dp_postmark_decode h).
Notation jsonb := (dp_jsonb h).
Notation EncodeIndent := (dp_EncodeIndent h).
Notation format_avg := (dp_format_avg h).
Notation MarshalIndent := (dp_MarshalIndent h).
Notation wrapped := (dp_wrapped h).
Notation bare := (dp_bare h).

Notation handler := (PageReq -> list string -> ReqCtx -> GO Page).
Definition nth_param (ps : list string) (i : nat) : string := default "" (ps !! i).

(** How the handlers meet the router. *)
Definition to_page {A} (f : A -> Page) (m : GO A) : GO Page := a ← m; mret (f a).
Definition of_response : GO response -> GO Page := to_page PResponse.
Definition of_answer : GO answer -> GO Page := to_page PAnswer.
Definition of_view {V} (name : string) (m : GO (response + V)) : GO Page :=
  to_page (fun r => match r with inl r => PResponse r | inr _ => page name end) m.
Definition always (p : Page) : handler := fun _ _ _ => mret p.
Definition public (h : PageReq -> list string -> GO Page) : handler := fun q ps _ => h q ps.
Definition web (h : WebReq -> PageReq -> list string -> GO answer) : handler := fun q ps ctx => of_answer (h (web_request q ctx) q ps).
(** A handler behind RequireUser; without it, it dereferences nil. *)
Definition with_user (h : AuthUser -> WebReq -> PageReq -> list string -> GO Page) : handler := fun q ps ctx =>
  match cx_user ctx with Some u => h u (web_request q ctx) q ps | None => panic end.
(** A handler behind RequireUser and RequireAccount. *)
Definition inside (h : Who -> PageReq -> list string -> GO response) : handler := fun q ps ctx =>
  match cx_user ctx, cx_account ctx with
  | Some u, Some a => of_response (h (mkWho a u (cx_membership ctx) (pr_IP q) (pr_UserAgent q)) q ps)
  | _, _ => panic
  end.
Definition get (segs : list seg) (g : Group) (h : handler) : PageRoute := mkPageRoute (Some "GET") segs g h.
Definition post (segs : list seg) (g : Group) (h : handler) : PageRoute := mkPageRoute (Some "POST") segs g h.

Definition public_routes : list PageRoute :=
  [ get [Lit "healthz"] Public (always (PResponse (Text StatusOK "ok")));
    get [Lit "readyz"] Public (public (fun _ _ => of_response readyz));
    mkPageRoute None [Lit "metrics"] Public (public (fun q _ => mret (PResponse (metricsHandler metricsToken (pr_Authorization q)))));
    get [Lit "robots.txt"] Public (always (PResponse (Text StatusOK robots_txt)));
    get [Lit ".well-known"; Lit "evidence-signing-keys.pem"] Public (always (PResponse (evidenceSigningKeys signer)));
    post [Lit "webhooks"; Lit "postmark"; Param] Public (public (fun q ps =>
      of_response (postmarkBounce postmarkToken (nth_param ps 0) (postmark_decode (pr_Body q)))));
    post [Lit "webhooks"; Lit "stripe"] Public (public (fun q _ =>
      match pr_Body q with
      | inl _ => mret (PResponse (HTTPError StatusBadRequest))
      | inr body => code ← stripeWebhook billing stripe_unmarshal Send baseURL body (pr_StripeSignature q); mret (PResponse (Text code ""))
      end));
    mkPageRoute None [Lit "ping"; Param] PingLimited (public (fun q ps => of_response (ping (pr_IP q) (pr_UserAgent q) (nth_param ps 0) "")));
    mkPageRoute None [Lit "ping"; Param; Param] PingLimited (public (fun q ps =>
      of_response (ping (pr_IP q) (pr_UserAgent q) (nth_param ps 0) (nth_param ps 1))));
    get [Lit "openapi.json"] Public (always (PResponse (Text StatusOK openAPIDoc)));
    get [Lit "docs"] Public (always (page "DocsPage"));
    get [Lit "pricing"] Public (always (page "Pricing"));
    get [Lit "changelog"] Public (always (page "ChangelogPage"));
    get [Lit "how-it-works"] Public (always (page "HowItWorks"));
    get [Lit "verify"] Public (always (page "VerifyEvidence"));
    post [Lit "verify"] Public (public (fun q _ =>
      mret (page (if OK (verifyEvidence signer wrapped bare (pr_upload q)) then "VerifyEvidence: authentic" else "VerifyEvidence: refused"))));
    get [Lit "s"; Param] Public (public (fun _ ps =>
      r ← sharePage signer cipher (nth_param ps 0); mret match r with Gone r => PResponse r | Shared _ _ _ => page "SharePage" end));
    get [Lit "s"; Param; Lit "evidence.pdf"] Public (public (fun _ ps => of_response (shareDownload cipher (nth_param ps 0))));
    get [Lit "status"] Public (public (fun _ _ => statusPage;; mret (page "StatusPage")));
    get [Lit "onboarding"; Lit "sample.dump"] Public (always (PResponse (Text StatusOK sampleDump)));
    get [Lit ""] Public (web (fun w _ _ => index w));
    post [Lit "logout"] Public (web (fun w _ _ => logout w));
    get [Lit "invitations"; Param] Public (public (fun _ ps => of_response (invitationPage (nth_param ps 0))));
    post [Lit "invitations"; Param; Lit "accept"] Public (fun q ps ctx => of_response (invitationAccept ctx (pr_session q) (nth_param ps 0)));
    get [Lit "verify-email"; Param] Public (web (fun w _ ps => verifyEmail w (nth_param ps 0)));
    get [Lit "legal"; Lit "terms"] Public (always (page "LegalPage"));
    get [Lit "legal"; Lit "privacy"] Public (always (page "LegalPage"));
    get [Lit "legal"; Lit "dpa"] Public (always (page "LegalPage"));
    get [Lit "legal"; Lit "subprocessors"] Public (always (page "LegalPage"));
    get [Lit "legal"; Lit "cookies"] Public (always (page "LegalPage"));
    get [Lit "help"] Public (always (page "HelpPage")) ].

Definition login_form (q : PageReq) : option LoginForm := Some (mkLoginForm (pr_form q "email") (pr_form q "password") (pr_form q "next")).
Definition auth_routes : list PageRoute :=
  [ get [Lit "login"] AuthLimited (web (fun w _ _ => loginPage w));
    post [Lit "login"] AuthLimited (web (fun w q _ => loginSubmit throttle absoluteMaxAge QueryEscape w (login_form q)));
    get [Lit "signup"] AuthLimited (web (fun w _ _ => signupPage flags_Enabled w));
    post [Lit "signup"] AuthLimited (web (fun w q _ =>
      signupSubmit absoluteMaxAge billing Send analytics flags_Enabled staffEmails absoluteURL w (login_form q)));
    get [Lit "login"; Lit "mfa"] AuthLimited (web (fun w _ _ => mfaChallengePage w));
    post [Lit "login"; Lit "mfa"] AuthLimited (web (fun w q _ => mfaChallengeSubmit absoluteMaxAge w (Some (pr_form q "code", pr_form q "next"))));
    get [Lit "login"; Lit "magic"] AuthLimited (web (fun w _ _ => magicLinkRequestPage w));
    post [Lit "login"; Lit "magic"] AuthLimited (web (fun w q _ => magicLinkRequest Send absoluteURL magicAllow w (Some (pr_form q "email"))));
    get [Lit "login"; Lit "magic"; Param] AuthLimited (web (fun w _ ps => magicLinkConsume absoluteMaxAge w (nth_param ps 0)));
    get [Lit "auth"; Param; Lit "start"] AuthLimited (public (fun q ps =>
      to_page PFlow (oauthStart oauth absoluteURL (pr_flow q) (nth_param ps 0))));
    get [Lit "auth"; Param; Lit "callback"] AuthLimited (fun q ps ctx =>
      to_page PFlow (oauthCallback oauth absoluteMaxAge billing analytics flags_Enabled staffEmails absoluteURL (web_request q ctx) (pr_flow q)
                       (nth_param ps 0) (pr_query q "state") (pr_query q "code"))) ].

Definition staff_routes : list PageRoute :=
  [ post [Lit "impersonate"; Lit "stop"] SignedIn (fun q _ ctx => of_response (impersonateStop (web_request q ctx)));
    get [Lit "admin"; Lit "sso"] Staff (always (page "AdminSSO"));
    get [Lit "admin"; Lit "sso"; Lit "start"] Staff (public (fun q _ => to_page PFlow (adminSSOStart oauth absoluteURL (pr_flow q))));
    get [Lit "admin"] StaffSSO (always (page "AdminHome"));
    get [Lit "admin"; Lit "users"] StaffSSO (public (fun q _ => to_page (PResponse ∘ fst) (adminUserSearch (pr_query q "q"))));
    get [Lit "admin"; Lit "users"; Param] StaffSSO (public (fun _ ps => to_page (PResponse ∘ fst ∘ fst) (adminUserDetail (nth_param ps 0))));
    post [Lit "admin"; Lit "users"; Param; Lit "impersonate"] StaffSSO (with_user (fun u w q ps =>
      of_response (adminImpersonate w u (nth_param ps 0) (Some (pr_form q "reason")))));
    get [Lit "admin"; Lit "drills"; Param] StaffSSO (public (fun _ ps => of_view "AdminDrillDetail" (adminDrillDetail signer cipher (nth_param ps 0))));
    post [Lit "admin"; Lit "drills"; Param; Lit "replay"] StaffSSO (with_user (fun u w _ ps => of_response (adminDrillReplay w u (nth_param ps 0))));
    post [Lit "admin"; Lit "drills"; Param; Lit "regen-evidence"] StaffSSO (with_user (fun u w _ ps =>
      of_response (adminEvidenceRegen signer cipher retention render w u (nth_param ps 0))));
    get [Lit "admin"; Lit "accounts"; Param] StaffSSO (public (fun q ps =>
      of_view "AdminAccountDetail" (adminAccountDetail billing staff_billing (nth_param ps 0) (pr_query q "refunded"))));
    post [Lit "admin"; Lit "accounts"; Param; Lit "refund"] StaffSSO (with_user (fun u w q ps =>
      of_view "AdminAccountDetail" (adminRefund billing staff_billing w u (nth_param ps 0) (Some (pr_form q "charge_id")))));
    get [Lit "admin"; Lit "email"] StaffSSO (public (fun _ _ => of_response adminEmailReport)) ].

(** The account pages. *)
Definition hb_form (q : PageReq) : option HBForm :=
  Some (mkHBForm (pr_form q "name") (pr_form q "period_value") (pr_form q "period_unit") (pr_form q "grace_value") (pr_form q "grace_unit")).
Definition assertion_form (q : PageReq) : option AssertionForm :=
  Some (mkAssertionForm (pr_form q "kind") (pr_form q "table") (pr_form q "column") (pr_form q "min_rows")).
Definition alert_form (q : PageReq) : option AlertForm :=
  Some (mkAlertForm (pr_form q "clear_slack") (pr_form q "slack_webhook_url") (pr_form q "clear_pagerduty") (pr_form q "pagerduty_routing_key")).
Definition form2 (q : PageReq) (a b : string) : option (string * string) := Some (pr_form q a, pr_form q b).
Definition fst_response {A} (m : GO (response * A)) : GO response := r ← m; mret r.1.
Definition view_response {V} (name : string) (m : GO (response + V)) : GO response :=
  r ← m; mret match r with inl r => r | inr _ => Render StatusOK name end.

Definition own_routes : list PageRoute :=
  [ get [Lit "dashboard"] InAccount (inside (fun who _ _ => dashboard who));
    post [Lit "account"; Lit "switch"] InAccount (with_user (fun u w q _ => of_response (accountSwitch (wr_cookie w) u (form2 q "account_id" "next"))));
    post [Lit "verify-email"; Lit "resend"] InAccount (web (fun w _ _ => verifyEmailResend Send absoluteURL w));
    get [Lit "account"; Lit "mfa"] InAccount (with_user (fun u _ _ _ => of_answer (mfaSetupPage u)));
    post [Lit "account"; Lit "mfa"; Lit "enable"] InAccount (with_user (fun u w q _ => of_answer (mfaEnable w u (form2 q "secret" "code"))));
    post [Lit "account"; Lit "mfa"; Lit "disable"] InAccount (with_user (fun u w _ _ => of_answer (mfaDisable w u))) ].

Definition read (a : Action) : Group := Acting a false.
Definition read_routes : list PageRoute :=
  [ get [Lit "databases"; Lit "new"] (Acting ActionTargetWrite true) (always (page "TargetNewForm"));
    get [Lit "databases"] (read ActionTargetRead) (inside (fun who _ _ => fst_response (targetsList who)));
    get [Lit "databases"; Param] (read ActionTargetRead) (inside (fun who _ ps => targetDetail who (nth_param ps 0)));
    get [Lit "drills"] (read ActionDrillRead) (inside (fun who _ _ => drillsList who));
    get [Lit "drills"; Param] (read ActionDrillRead) (inside (fun who _ ps => drillDetail who signer cipher (nth_param ps 0)));
    get [Lit "drills"; Param; Lit "steps"] (read ActionDrillRead) (inside (fun who _ ps => drillStepsPartial who (nth_param ps 0)));
    get [Lit "reports"] (read ActionDrillRead) (inside (fun who _ _ => view_response "Reports" (reports who)));
    get [Lit "reports"; Lit "export.csv"] (read ActionDrillRead) (inside (fun who _ _ => reportsExport format_avg who));
    get [Lit "reports"; Lit "evidence-bundle.zip"] (read ActionDrillRead) (inside (fun who _ _ =>
      view_response "evidence-bundle.zip" (evidenceBundle cipher MarshalIndent who)));
    get [Lit "heartbeats"; Lit "new"] (Acting ActionHeartbeatWrite true) (always (page "HeartbeatNewForm"));
    get [Lit "heartbeats"] (read ActionHeartbeatRead) (inside (fun who _ _ => heartbeatsList who));
    get [Lit "heartbeats"; Param] (read ActionHeartbeatRead) (inside (fun who _ ps => heartbeatDetail who (nth_param ps 0)));
    get [Lit "heartbeats"; Param; Lit "rows"] (read ActionHeartbeatRead) (inside (fun who _ ps => heartbeatStatusPartial who (nth_param ps 0)));
    get [Lit "drills"; Param; Lit "evidence"] (read ActionEvidenceRead) (inside (fun who _ ps => drillEvidence who cipher (nth_param ps 0)));
    get [Lit "account"] (read ActionAccountRead) (inside (fun who _ _ => accountSettings who));
    get [Lit "account"; Lit "audit"] (read ActionAccountRead) (inside (fun who q _ =>
      view_response "AuditLogPage" (auditLog (a_ID (acct who)) (pr_query q "before"))));
    get [Lit "account"; Lit "webhooks"] (read ActionAccountRead) (inside (fun who _ _ => webhooksList who));
    get [Lit "account"; Lit "webhooks"; Param; Lit "deliveries"] (read ActionAccountRead) (inside (fun who _ ps => webhookDeliveries who (nth_param ps 0)));
    get [Lit "account"; Lit "api-keys"] (read ActionAccountRead) (inside (fun who _ _ => apiKeysList who));
    get [Lit "account"; Lit "teams"] (read ActionTeamRead) (inside (fun who _ _ => teamsPage who)) ].

Definition target_routes : list PageRoute :=
  let g := Acting ActionTargetWrite true in
  [ post [Lit "databases"] g (inside (fun who q _ => targetCreate sourceDir who (form2 q "name" "source_uri")));
    post [Lit "databases"; Param; Lit "assertions"] g (inside (fun who q ps => assertionCreate who (nth_param ps 0) (assertion_form q)));
    post [Lit "databases"; Param; Lit "assertions"; Param; Lit "delete"] g (inside (fun who _ ps => assertionDelete who (nth_param ps 0) (nth_param ps 1)));
    post [Lit "databases"; Param; Lit "schedule"] g (inside (fun who q ps => targetScheduleUpdate who (nth_param ps 0) (Some (pr_form q "cadence")))) ].
Definition drill_routes : list PageRoute :=
  let g := Acting ActionDrillWrite true in
  [ post [Lit "drills"] g (inside (fun who q _ => drillCreate who (form2 q "idempotency_key" "target_id")));
    post [Lit "databases"; Lit "sample-drill"] g (inside (fun who _ _ => runSampleDrill sourceDir sampleDump who));
    post [Lit "drills"; Param; Lit "share"] g (inside (fun who q ps => fst_response (shareCreate who baseURL (nth_param ps 0) (form2 q "label" "ttl_days"))));
    post [Lit "drills"; Param; Lit "share"; Param; Lit "revoke"] g (inside (fun who _ ps => shareRevoke who (nth_param ps 0) (nth_param ps 1))) ].
Definition heartbeat_routes : list PageRoute :=
  let g := Acting ActionHeartbeatWrite true in
  [ post [Lit "heartbeats"] g (inside (fun who q _ => heartbeatCreate who (hb_form q)));
    post [Lit "heartbeats"; Param; Lit "pause"] g (inside (fun who _ ps => heartbeatPause who (nth_param ps 0)));
    post [Lit "heartbeats"; Param; Lit "resume"] g (inside (fun who _ ps => heartbeatResume who (nth_param ps 0)));
    post [Lit "heartbeats"; Param; Lit "delete"] g (inside (fun who _ ps => heartbeatDelete who (nth_param ps 0))) ].
Definition member_routes : list PageRoute :=
  let g := Acting ActionMemberWrite false in
  [ post [Lit "account"; Lit "invitations"] g (inside (fun who q _ => inviteCreate Send absoluteURL analytics who (form2 q "email" "role")));
    post [Lit "account"; Lit "members"; Param] g (inside (fun who q ps => memberUpdate who (nth_param ps 0) (Some (pr_form q "role"))));
    post [Lit "account"; Lit "members"; Param; Lit "remove"] g (inside (fun who _ ps => memberRemove who (nth_param ps 0)));
    post [Lit "account"; Lit "members"; Param; Lit "transfer-ownership"] g (inside (fun who _ ps => memberTransferOwnership who (nth_param ps 0))) ].
Definition account_routes : list PageRoute :=
  let g := Acting ActionAccountWrite false in
  [ post [Lit "account"; Lit "webhooks"] g (inside (fun who q _ => webhookCreate who (Some (pr_form q "url"))));
    post [Lit "account"; Lit "webhooks"; Param; Lit "delete"] g (inside (fun who _ ps => webhookDelete who (nth_param ps 0)));
    post [Lit "account"; Lit "webhooks"; Param; Lit "deliveries"; Param; Lit "replay"] g
      (inside (fun who _ ps => webhookReplay who (nth_param ps 0) (nth_param ps 1)));
    post [Lit "account"; Lit "api-keys"] g (inside (fun who q _ => apiKeyCreate who (Some (pr_form q "name", pr_form_values q "scopes"))));
    post [Lit "account"; Lit "api-keys"; Param; Lit "revoke"] g (inside (fun who _ ps => apiKeyRevoke who (nth_param ps 0)));
    post [Lit "account"; Lit "alerts"] g (inside (fun who q _ => alertChannelsSave who (alert_form q)));
    get [Lit "account"; Lit "export"] g (inside (fun who _ _ => accountExport jsonb EncodeIndent who));
    post [Lit "account"; Lit "delete"] g (inside (fun who _ _ => accountDelete who grace));
    post [Lit "account"; Lit "billing"; Lit "checkout"] (Acting ActionBillingWrite false) (inside (fun who q _ =>
      billingCheckout billing absoluteURL (acct who) (au_ID (user who)) (au_Email (user who)) (pr_form q "plan")));
    post [Lit "account"; Lit "billing"; Lit "portal"] (Acting ActionBillingWrite false) (inside (fun who _ _ =>
      billingPortal billing absoluteURL (acct who))) ].
Definition team_routes : list PageRoute :=
  let g := Acting ActionTeamWrite false in
  [ post [Lit "account"; Lit "teams"] g (inside (fun who q _ => teamCreate who (Some (pr_form q "name"))));
    post [Lit "account"; Lit "teams"; Lit "databases"] g (inside (fun who q _ => teamDatabaseAssign who (form2 q "database_id" "team_id")));
    post [Lit "account"; Lit "teams"; Param; Lit "rename"] g (inside (fun who q ps => teamRename who (nth_param ps 0) (Some (pr_form q "name"))));
    post [Lit "account"; Lit "teams"; Param; Lit "delete"] g (inside (fun who _ ps => teamDelete who (nth_param ps 0)));
    post [Lit "account"; Lit "teams"; Param; Lit "members"] g (inside (fun who q ps => teamMemberAdd who (nth_param ps 0) (Some (pr_form q "user_id"))));
    post [Lit "account"; Lit "teams"; Param; Lit "members"; Param; Lit "remove"] g
      (inside (fun who _ ps => teamMemberRemove who (nth_param ps 0) (nth_param ps 1))) ].

Definition routes : list PageRoute :=
  public_routes ++ auth_routes ++ staff_routes ++ own_routes ++ read_routes ++ target_routes ++ drill_routes ++ heartbeat_routes
  ++ member_routes ++ account_routes ++ team_routes.

(** *** The guards of a group *)

Definition forbidden : Page := PResponse (HTTPError StatusForbidden).
Definition not_found : Page := PResponse (HTTPError StatusNotFound).
Definition to_login : Page := PResponse (Redirect "/login").
Definition rate_limited (allow : string -> GO bool) (key : string) (next : GO Page) : GO Page :=
  ok ← allow key; if ok : bool then next else mret (PResponse (HTTPError StatusTooManyRequests)).
Definition in_account (q : PageReq) (next : ReqCtx -> GO Page) : ReqCtx -> GO Page :=
  RequireUser to_login (RequireAccount forbidden (fun ctx => rate_limited appAllow (accountKey q ctx) (next ctx))).
Definition guard (g : Group) (q : PageReq) (next : ReqCtx -> GO Page) : ReqCtx -> GO Page :=
  match g with
  | Public => next
  | PingLimited => fun ctx => rate_limited pingAllow (clientIPKey q) (next ctx)
  | AuthLimited => fun ctx => rate_limited authAllow (clientIPKey q) (next ctx)
  | SignedIn => RequireUser to_login next
  | Staff => RequireUser to_login (RequireStaff not_found next)
  | StaffSSO => RequireUser to_login (requireStaffSSO oauth not_found (PResponse (Redirect "/admin/sso")) next)
  | InAccount => in_account q next
  | Acting a trial => in_account q (fun ctx =>
      RequireAction (mret forbidden) a
        (if trial then requireUnlapsedTrial (PResponse (Render StatusPaymentRequired "TrialEnded")) next ctx else next ctx)
        (cx_membership ctx))
  end.

Definition path_segments (path : string) : list (list ascii) := match split (chars path) with [] :: segs => segs | _ => [] end.
(** The mounted subtrees, then the table. *)
Definition route (q : PageReq) (ctx : ReqCtx) : GO Page :=
  match path_segments (pr_Path q) with
  | m :: rest =>
      if bool_decide (unchars m = "v1") then to_page PApi (v1Router sourceDir cipher grace v1Allow (api_request q))
      else if bool_decide (unchars m = "mobile") then to_page PApi (mobileRouter throttle cipher authAllow v1Allow (api_request q))
      else if bool_decide (unchars m = "static") && negb (bool_decide (rest = [])) then mret (PFile (pr_Path q))
      else match find_route routes false (pr_Method q) (path_segments (pr_Path q)) with
           | inl wrong_method => mret (PResponse (HTTPError (if wrong_method then 405 else StatusNotFound)))
           | inr (r, ps) => guard (pt_Group r) q (pt_Handler r q ps) ctx
           end
  | [] => mret not_found
  end.

(** Router: LoadUser, LoadCurrentAccount and the CSRF check in front of it
    all; the answer comes with the token cookie to set. *)
Definition Router (q : PageReq) : GO (Page * option string) :=
  LoadUser idleTimeout (pr_session q)
    (LoadCurrentAccount (pr_session q) (fun ctx =>
      csrf_Middleware csrf_exempt (pr_csrf q) (pr_Method q) (pr_Path q) (pr_form q FieldName) forbidden (route q ctx))) background.
End server.
