(* ===== verification/LoginFacts.v ===== *)
(** What the sign-in handlers keep: no first factor alone opens a session of a
    user who has a second one; what passwords round-trip; and the holes the
    handlers leave. *)
From S2P Require Import Prelude Crypto Effects Schema Encoding AuditLog Plans Rbac AccountStore DrillStore Demo Http AuthStore Web Billing AuthFacts Notify Members Login Oauth ApiKey MobileAuth V1 Mobile.
From Stdlib Require Import Ascii.

(** The users, the sessions and the phones' tokens: what signing in is about. *)
Record LoginView : Type := mkLoginView {
  v_users : gmap uuid User; v_sessions : gmap uuid SessionRow; v_tokens : gmap uuid MobileTokenRow
}.
Definition login_view (db : DB) : LoginView :=
  mkLoginView (users (account_db db)) (sessions (auth_db db)) (mobile_auth_tokens (key_db db)).

(** The user [v] has a second factor, rows are kept under their own id, and
    every session of [v] past the second factor, and every phone token of
    [v], is one of [S0]. *)
Definition wall_ (v : uuid) (S0 : gset (uuid * string)) (x : LoginView) : Prop :=
  (exists usr, v_users x !! v = Some usr /\ u_MFAEnabled usr = true) /\
  map_Forall (fun k usr => u_ID usr = k) (v_users x) /\
  map_Forall (fun k row => se_UserID (ser_session row) = v -> se_MFAPending (ser_session row) = false ->
    (k, ser_token_hash row) ∈ S0) (v_sessions x) /\
  map_Forall (fun k row => mt_UserID (mtr_token row) = v -> (k, mtr_token_hash row) ∈ S0) (v_tokens x).
Definition mfa_wall v S0 (db : DB) : Prop := wall_ v S0 (login_view db).

Lemma view_users f db : login_view (db{{ account_db -> users ::= f }}) = mkLoginView (f (users (account_db db))) (sessions (auth_db db)) (mobile_auth_tokens (key_db db)).
Proof. by destruct db as [? [] ? ? ? ? ? ? ?]. Qed.
Lemma view_sessions f db : login_view (db{{ auth_db -> sessions ::= f }}) = mkLoginView (users (account_db db)) (f (sessions (auth_db db))) (mobile_auth_tokens (key_db db)).
Proof. by destruct db as [? ? ? [] ? ? ? ? ?]. Qed.
Lemma view_tokens f db : login_view (db{{ key_db -> mobile_auth_tokens ::= f }}) = mkLoginView (users (account_db db)) (sessions (auth_db db)) (f (mobile_auth_tokens (key_db db))).
Proof. by destruct db as [? ? ? ? ? ? [] ? ?]. Qed.

Section wall.
Context `{env : Env} `{uuids : UuidLib} `{rand : Rand} `{argon : Argon2}.
Context (v : uuid) (S0 : gset (uuid * string)).
Notation wall := (mfa_wall v S0).

Lemma wall_frame {A} (m : GO A) : frame login_view m -> preserves wall m.
Proof. apply (frame_preserves login_view (wall_ v S0)). Qed.

Lemma wall_user db k usr : wall db -> users (account_db db) !! k = Some usr -> u_ID usr = k /\ (k = v -> u_MFAEnabled usr = true).
Proof.
  intros ((u0 & Hu & Hm) & Hk & _) Hl. simpl in *. split; [by apply (Hk k)|]. intros ->. congruence.
Qed.
Lemma wall_delete_sessions p db : wall db -> wall (db{{ auth_db -> sessions ::= sql_delete p }}).
Proof.
  intros (Hu & Hk & Hs & Ht). unfold mfa_wall. rewrite view_sessions. split; [done|]. split; [done|]. split; [|done].
  intros k row [Hl _]%map_lookup_filter_Some. by apply Hs.
Qed.
Lemma wall_update_sessions p f db :
  (forall s, se_UserID (ser_session (f s)) = se_UserID (ser_session s) /\
             se_MFAPending (ser_session (f s)) = se_MFAPending (ser_session s) /\ ser_token_hash (f s) = ser_token_hash s) ->
  wall db -> wall (db{{ auth_db -> sessions ::= sql_update p f }}).
Proof.
  intros Hf (Hu & Hk & Hs & Ht). unfold mfa_wall. rewrite view_sessions. split; [done|]. split; [done|]. split; [|done]. simpl.
  intros k row. unfold sql_update. rewrite lookup_fmap. intros (s & Hl & ->)%fmap_Some.
  destruct (p s); [|by apply Hs]. destruct (Hf s) as (-> & -> & ->). by apply Hs.
Qed.
Lemma wall_user_set u f db :
  (forall x, u_ID (f x) = u_ID x /\ (u_MFAEnabled x = true -> u_MFAEnabled (f x) = true)) ->
  wall db -> wall (db{{ account_db -> users ::= alter f u }}).
Proof.
  intros Hf ((u0 & Hu & Hm) & Hk & Hs). unfold mfa_wall. rewrite view_users. split; [|split; [|done]]; simpl in *.
  - rewrite lookup_alter. case_decide; [|by exists u0]. subst. rewrite Hu. eexists. split; [done|]. by apply Hf.
  - intros k x. rewrite lookup_alter. case_decide; [|apply Hk]. intros (y & Hy & ->)%fmap_Some. subst.
    rewrite (proj1 (Hf y)). by apply (Hk k).
Qed.

(** *** Statements that leave users and sessions alone *)

Lemma view_Record e : frame login_view (Record_ e).
Proof. apply frame_Record. intros f db. by destruct db. Qed.
Lemma view_audit_plain a u act k i md : frame login_view (audit_plain a u act k i md).
Proof. apply frame_ignore, view_Record. Qed.
Lemma view_audit_req q a u act k i md : frame login_view (audit_req q a u act k i md).
Proof. apply frame_ignore, view_Record. Qed.
Lemma view_rand n : frame login_view (rand_Read n).
Proof. intros w. unfold rand_Read. by destruct (rand_bytes _ _). Qed.
Lemma view_RecordAttempt e ip b : frame login_view (AuthStore.RecordAttempt e ip b).
Proof. by frame_stmt. Qed.
Lemma view_Check t e : frame login_view (Check_ t e).
Proof. unfold Check_. frame_steps. Qed.
Lemma view_VerifyPassword p h : frame login_view (VerifyPassword p h).
Proof. unfold VerifyPassword, panic. frame_steps; by intros w. Qed.
Lemma view_pick u : frame login_view (pickDefaultAccount u).
Proof. unfold pickDefaultAccount, ListAccountsForUser. frame_steps. Qed.
Lemma view_personal u e : frame login_view (CreatePersonalAccount u e).
Proof. unfold CreatePersonalAccount. frame_steps; by frame_stmt. Qed.
Lemma view_Capture b i e p : frame login_view (Capture b i e p).
Proof. unfold Capture. frame_steps. Qed.
Lemma view_token u : frame login_view (CreateVerificationToken u).
Proof. unfold CreateVerificationToken, generateToken. frame_steps; first [apply view_rand | by frame_stmt]. Qed.
Lemma view_hash p : frame login_view (HashPassword p).
Proof. unfold HashPassword. frame_steps. apply view_rand. Qed.
Lemma view_consume t : frame login_view (ConsumeMagicLink t).
Proof. unfold ConsumeMagicLink. frame_steps; by frame_stmt. Qed.
Lemma view_State : frame login_view State.
Proof. unfold State. frame_steps. apply view_rand. Qed.

(** *** Sessions and tokens *)

Lemma wall_MobileCreate u acct dev ttl : u <> v -> preserves wall (MobileAuth.Create u acct dev ttl).
Proof.
  intros Hne. unfold MobileAuth.Create, generate. preserve.
  apply preserves_exec. intros t n db db' x (Hu & Hk & Hs & Ht) Heq. repeat case_match; try discriminate Heq.
  all: apply inr_pair in Heq as [<- _]; unfold mfa_wall; rewrite view_tokens; split; [done|]; split; [done|]; split; [done|].
  all: apply map_Forall_insert_2; [done|exact Ht].
Qed.
Lemma view_CreateChallenge u a d : frame login_view (CreateChallenge u a d).
Proof. unfold CreateChallenge. frame_steps. by frame_stmt. Qed.
Lemma view_ConsumeChallenge id : frame login_view (ConsumeChallenge id).
Proof. unfold ConsumeChallenge. frame_steps. by frame_stmt. Qed.


Lemma wall_create age u acct p : (u = v -> p = true) -> preserves wall (create age u acct p).
Proof.
  intros Hp. unfold create, generateToken. preserve.
  apply preserves_exec. intros t n db db' x (Hu & Hk & Hs & Ht) Heq. repeat case_match; try discriminate Heq.
  all: apply inr_pair in Heq as [<- _]; unfold mfa_wall; rewrite view_sessions; split; [done|]; split; [done|]; split; [|done].
  all: apply map_Forall_insert_2; [|done]; simpl; intros -> Hf; by rewrite (Hp eq_refl) in Hf.
Qed.
Lemma wall_CreatePending age u : preserves wall (CreatePending age u).
Proof.
  apply preserves_bind; [|intros _; by apply wall_create].
  apply preserves_update. intros _ db. apply wall_delete_sessions.
Qed.
Lemma wall_finish age q id mfa u1 u2 md : (id = v -> mfa = true) -> preserves wall (finish_login age q id mfa u1 u2 md).
Proof.
  intros Hm. unfold finish_login, with_session. destruct mfa.
  - preserve. apply wall_CreatePending.
  - preserve; first [apply wall_frame, view_pick | apply wall_frame, view_audit_req | apply wall_create].
    intros ->. by specialize (Hm eq_refl).
Qed.

(** The address of a login names a live user of the table. *)
Lemma user_by_email_wall e w u w' :
  wall (w_db w) -> query_row (fun _ db => user_by_email e db) w = (Ret u, w') -> u_ID u = v -> u_MFAEnabled u = true.
Proof.
  intros Hw [Hq _]%query_row_ret Hid. unfold user_by_email in Hq.
  apply head_select_Some in Hq as [_ [k Hk]]. destruct (wall_user _ _ _ Hw Hk) as [<- He]. auto.
Qed.
Lemma wall_update_user u f :
  (forall x, u_ID (f x) = u_ID x /\ (u_MFAEnabled x = true -> u_MFAEnabled (f x) = true)) -> preserves wall (update_user u f).
Proof. intros Hf. apply preserves_update. intros _ db. by apply wall_user_set. Qed.
Lemma wall_promote s e u : preserves wall (promote_staff s e u).
Proof. unfold promote_staff. preserve. apply wall_update_user. by intros []. Qed.
Lemma wall_insert_user e h b : preserves wall (insert_user e h b).
Proof.
  apply preserves_exec. intros t n db db' x (Hu & Hk & Hs & Ht) Heq. cbv beta in Heq.
  destruct (users (account_db db) !! n) eqn:En; [discriminate Heq|].
  destruct (user_by_email e db); [discriminate Heq|]. apply inr_pair in Heq as [<- _].
  unfold mfa_wall. rewrite view_users. split; [|split; [|done]]; simpl.
  - destruct Hu as (u0 & Hv & Hm). exists u0. split; [|done]. rewrite lookup_insert_ne; [done|]. intros ->. simpl in Hv. congruence.
  - by apply map_Forall_insert_2.
Qed.
Lemma insert_user_fresh e h b w id w' : wall (w_db w) -> insert_user e h b w = (Ret id, w') -> id <> v.
Proof.
  intros ((u0 & Hv & _) & _) [H _]%exec_ret ->. cbv beta in H. simpl in Hv.
  destruct (users _ !! env_uuid _) eqn:En; [discriminate H|]. destruct (user_by_email _ _); [discriminate H|].
  apply inr_pair in H as [_ <-]. congruence.
Qed.
End wall.

(** ** Passwords *)

(** argon2.IDKey gives as many bytes as it is asked for. *)
Class Argon2Ok `{Argon2} : Prop := { IDKey_length : forall p s t m th n, 0 <= n -> Z.of_nat (String.length (IDKey p s t m th n)) = n }.

Lemma RawStdEncoding_Decode_Encode s : RawStdEncoding_Decode (RawStdEncoding_Encode s) = Some s.
Proof.
  unfold RawStdEncoding_Decode, RawStdEncoding_Encode. rewrite chars_unchars.
  rewrite filter_all by (eapply (b64_no_newline alphabet_std); [vm_compute; reflexivity|done|apply bytes_of_range]).
  rewrite (b64_roundtrip alphabet_std ltac:(vm_compute; reflexivity) (length (bytes_of s))) by (done || apply bytes_of_range).
  simpl. by rewrite of_bytes_of.
Qed.
Definition no_dollar (s : string) : Prop := Forall (fun c => c <> "$"%char) (chars s).
Lemma RawStdEncoding_no_dollar s : no_dollar (RawStdEncoding_Encode s).
Proof.
  unfold no_dollar, RawStdEncoding_Encode. rewrite chars_unchars.
  apply (b64_symbols alphabet_std _ (length (bytes_of s))); [|done|done|apply bytes_of_range].
  intros v Hv. assert (forallb (fun n => negb (bool_decide (symbol alphabet_std (Z.of_nat n) = "$"%char))) (seq 0 64) = true) as Hs
    by (vm_compute; reflexivity).
  rewrite forallb_forall in Hs. specialize (Hs (Z.to_nat v)). rewrite Z2Nat.id in Hs by lia.
  rewrite negb_true_iff, bool_decide_eq_false in Hs. apply Hs, in_seq. lia.
Qed.

Lemma Split_app a b : no_dollar a -> Split (a +:+ "$" +:+ b) "$" = a :: Split b "$".
Proof.
  intros Ha. unfold Split. rewrite chars_app. simpl. rewrite split_chars_app by done. simpl.
  by rewrite String.string_of_list_ascii_of_string.
Qed.
Lemma Split_one a : no_dollar a -> Split a "$" = [a].
Proof. intros Ha. unfold Split. rewrite split_chars_one by done. simpl. by rewrite String.string_of_list_ascii_of_string. Qed.
Lemma Split_hash salt key :
  Split (encode_hash salt key) "$" = [""; "argon2id"; "v=19"; "m=19456,t=2,p=1"; RawStdEncoding_Encode salt; RawStdEncoding_Encode key].
Proof.
  change (encode_hash salt key) with
    ("" +:+ "$" +:+ ("argon2id" +:+ "$" +:+ ("v=19" +:+ "$" +:+ ("m=19456,t=2,p=1" +:+ "$" +:+
      (RawStdEncoding_Encode salt +:+ "$" +:+ RawStdEncoding_Encode key))))).
  rewrite !Split_app; try apply RawStdEncoding_no_dollar; try by repeat constructor.
  by rewrite Split_one by apply RawStdEncoding_no_dollar.
Qed.

(** what a stored hash lets in.  Whatever HashPassword returned for a
    password, VerifyPassword lets the same password in and answers any other
    with ErrMismatch, unless Argon2 gives it the same key for the salt that
    was drawn; it neither panics nor calls the hash malformed, and never
    touches the world. *)
Theorem password_roundtrip `{env : Env, rand : Rand, argon : Argon2, !Argon2Ok} password w h w' :
  HashPassword password w = (Ret h, w') ->
  exists salt, h = encode_hash salt (IDKey password salt argonTime argonMemory argonThreads argonKeyLen) /\
    (forall v, VerifyPassword password h v = (Ret tt, v)) /\
    (forall other v, IDKey other salt argonTime argonMemory argonThreads argonKeyLen <>
       IDKey password salt argonTime argonMemory argonThreads argonKeyLen -> VerifyPassword other h v = (Fail ErrMismatch, v)).
Proof.
  unfold HashPassword. intros (r & w1 & _ & Hh)%bind_ret. cbv beta in Hh. destruct r as [e|salt]; [done|].
  injection Hh as <- _. exists salt. split; [done|].
  assert (forall p v, VerifyPassword p (encode_hash salt (IDKey password salt argonTime argonMemory argonThreads argonKeyLen)) v =
    (if bool_decide (IDKey p salt argonTime argonMemory argonThreads argonKeyLen =
                     IDKey password salt argonTime argonMemory argonThreads argonKeyLen) then Ret tt else Fail ErrMismatch, v)) as Hv.
  { intros p v. unfold VerifyPassword. rewrite Split_hash, !RawStdEncoding_Decode_Encode, IDKey_length by done.
    rewrite (bool_decide_eq_true_2 ("argon2id" = "argon2id")) by done. cbv iota beta zeta delta [negb].
    change (scan_version "v=19") with (Some 19). change (scan_params "m=19456,t=2,p=1") with (Some (argonMemory, argonTime, argonThreads)).
    cbv iota beta. change ((argonTime <? 1) || (argonThreads <? 1)) with false. cbv iota zeta.
    change (argonKeyLen mod 2 ^ 32) with argonKeyLen. by case_bool_decide. }
  split; [intros v|intros other v Hne]; rewrite Hv; [by rewrite bool_decide_eq_true_2|by rewrite bool_decide_eq_false_2].
Qed.

(** ** The requests of the sign-in pages *)

Section requests.
Context `{env : Env} `{uuids : UuidLib} `{rand : Rand} `{argon : Argon2} `{lib : OauthLib} `{api : ApiJson} `{phone : MobileJson}.
Context (throttle : LoginThrottle) (age : Z) (billing : Service) (Send : Message -> GO unit) (analytics : bool).
Context (flags : string -> string -> GO bool) (staffEmails : gset string) (absoluteURL : string -> string).
Context (QueryEscape : string -> string) (allow : string -> GO bool) (oauth : gmap string Provider).
(** Mail, billing, flags, the rate limiter and the providers write neither
    users nor sessions. *)
Record Outside : Prop := mkOutside {
  out_Send : forall m, frame login_view (Send m);
  out_Create : forall i e n, frame login_view (Billing.Create billing i e n);
  out_flags : forall f k, frame login_view (flags f k);
  out_allow : forall k, frame login_view (allow k);
  out_Identity : map_Forall (fun _ p => forall c f r, frame login_view (Identity_ p c f r)) oauth
}.
Context (HO : Outside).

(** A request that proves at most a first factor. *)
Inductive first_factor (w : World DB) : World DB -> Prop :=
| ff_login q f : first_factor w (loginSubmit throttle age QueryEscape q f w).2
| ff_signup q f : first_factor w (signupSubmit age billing Send analytics flags staffEmails absoluteURL q f w).2
| ff_magic_request q f : first_factor w (magicLinkRequest Send absoluteURL allow q f w).2
| ff_magic q token : first_factor w (magicLinkConsume age q token w).2
| ff_oauth q fc prov state code :
    first_factor w (oauthCallback oauth age billing analytics flags staffEmails absoluteURL q fc prov state code w).2
| ff_mobile q : first_factor w (mobileLogin throttle q w).2
| ff_verify q token : first_factor w (verifyEmail q token w).2
| ff_logout q : first_factor w (logout q w).2.

Context (v : uuid) (S0 : gset (uuid * string)).
Notation wall := (mfa_wall v S0).

Lemma view_customer a e : frame login_view (ensure_customer billing a e).
Proof.
  unfold ensure_customer. pose proof (out_Create HO). frame_steps. unfold SetStripeCustomerID, update_account. by frame_stmt.
Qed.
Lemma view_send_verification u e : frame login_view (send_verification Send absoluteURL u e).
Proof. unfold send_verification. pose proof (out_Send HO). pose proof view_token. frame_steps. Qed.
Lemma view_send_magic u e : frame login_view (send_magic_link Send absoluteURL u e).
Proof.
  unfold send_magic_link, CreateMagicLinkToken, generateToken. pose proof (out_Send HO). pose proof view_rand.
  frame_steps. by frame_stmt.
Qed.

Lemma wall_login q f : preserves wall (loginSubmit throttle age QueryEscape q f).
Proof.
  unfold loginSubmit. destruct f as [f|]; [|apply preserves_ret]. cbv zeta.
  destruct (_ || _); [apply preserves_ret|]. apply preserves_bind; [apply wall_frame, frame_try, view_Check|intros lock].
  destruct (match lock with inl _ => false | inr l => Locked l end); [apply preserves_ret|].
  apply (preserves_bind_ret _ _ _ (fun r => match r with inr u => u_ID u = v -> u_MFAEnabled u = true | inl _ => True end)).
  { apply preserves_try, preserves_query_row. }
  { intros w [e|u] w' Hw H; [done|]. apply try_ret in H. eauto using user_by_email_wall. }
  pose proof view_VerifyPassword. pose proof view_RecordAttempt. pose proof view_audit_req.
  intros [e|u] Hu; [apply wall_frame; frame_steps|].
  apply preserves_bind; [apply wall_frame; frame_steps|intros [e|[]]; [apply wall_frame; frame_steps|]].
  apply preserves_bind; [apply wall_frame; frame_steps|intros _; by apply wall_finish].
Qed.

(** A new user is not [v]: the statement that inserts it refuses a known id. *)
Lemma wall_new_user {A} e h b (k : error + uuid -> GO A) :
  (forall e, preserves wall (k (inl e))) -> (forall id, id <> v -> preserves wall (k (inr id))) ->
  preserves wall (try (insert_user e h b) ≫= k).
Proof.
  intros He Hk. apply (preserves_bind_ret _ _ _ (fun r => match r with inr id => id <> v | inl _ => True end)).
  - apply preserves_try, wall_insert_user.
  - intros w [e'|id] w' Hw H; [done|]. apply try_ret in H. eauto using insert_user_fresh.
  - intros [e'|id]; auto.
Qed.
Lemma insertUser_try e h w :
  try (insertUser e h) w =
  (r ← try (insert_user e h false); mret (match r with inr id => inr id | inl x => inl (if is_unique_violation x then errEmailTaken else x) end)) w.
Proof.
  unfold insertUser, try, mbind, M_bind. destruct (insert_user e h false w) as [[id|x|] w1]; reflexivity.
Qed.
Lemma try_insertUser_bind {A} e h (k : error + uuid -> GO A) :
  (forall e, preserves wall (k (inl e))) -> (forall id, id <> v -> preserves wall (k (inr id))) ->
  preserves wall (try (insertUser e h) ≫= k).
Proof.
  intros He Hk w Hw. pose proof (insertUser_try e h w) as E. unfold mbind at 1, M_bind at 1. rewrite E.
  pose proof (wall_new_user e h false
    (fun r => k (match r with inr id => inr id | inl x => inl (if is_unique_violation x then errEmailTaken else x) end))) as Hn.
  specialize (Hn (fun x => He _) Hk w Hw). unfold mbind, M_bind in *.
  destruct (try (insert_user e h false) w) as [[r|x|] w1]; exact Hn.
Qed.

Lemma wall_signup q f : preserves wall (signupSubmit age billing Send analytics flags staffEmails absoluteURL q f).
Proof.
  unfold signupSubmit. apply preserves_bind; [apply wall_frame, (out_flags HO)|intros on].
  destruct (negb on); [apply preserves_ret|]. destruct f as [f|]; [|apply preserves_ret]. cbv zeta.
  destruct (negb (valid_email _)); [apply preserves_ret|]. destruct (_ <? 12)%nat; [apply preserves_ret|].
  apply preserves_bind; [apply wall_frame, frame_try, view_hash|intros [e|hash]; [apply preserves_ret|]].
  apply try_insertUser_bind; [intros e; apply preserves_ret|intros id Hid].
  apply preserves_bind; [apply wall_promote|intros _].
  apply preserves_bind; [apply wall_frame, frame_try, view_personal|intros [e|a]; [apply preserves_ret|]].
  apply preserves_bind; [apply wall_frame, view_audit_plain|intros _].
  apply preserves_bind; [apply wall_frame, view_customer|intros _].
  unfold with_session. apply preserves_bind; [by apply preserves_try, wall_create; intros ->|intros [e|c]; [apply preserves_ret|]].
  apply wall_frame. pose proof view_audit_req. pose proof view_Capture. pose proof (out_Send HO). pose proof view_send_verification.
  frame_steps.
Qed.

Lemma wall_magic_request q f : preserves wall (magicLinkRequest Send absoluteURL allow q f).
Proof. apply wall_frame. unfold magicLinkRequest. pose proof (out_allow HO). pose proof view_send_magic. frame_steps. Qed.

Lemma LoadUserByID_wall id w u w' :
  wall (w_db w) -> LoadUserByID id w = (Ret u, w') -> au_ID u = id /\ (id = v -> au_MFAEnabled u = true).
Proof.
  intros Hw (_ & x & Hx & _ & ->)%loadUser_ret. exact (wall_user _ _ _ _ _ Hw Hx).
Qed.
Lemma wall_magic q token : preserves wall (magicLinkConsume age q token).
Proof.
  unfold magicLinkConsume. destruct (signed_in q); [apply preserves_ret|].
  apply preserves_bind; [apply wall_frame, frame_try, view_consume|intros [e|id]; [apply preserves_ret|]].
  apply (preserves_bind_ret _ _ _ (fun r => match r with inr u => id = v -> au_MFAEnabled u = true | inl _ => True end)).
  - apply wall_frame. unfold LoadUserByID, loadUser. frame_steps.
  - intros w [e|u] w' Hw H; [done|]. apply try_ret in H. by eapply LoadUserByID_wall.
  - intros [e|u] Hu; [apply preserves_ret|by apply wall_finish].
Qed.

(** findOrCreateOAuthUser: what it returns of [v] says that [v] has MFA. *)
Lemma wall_find_or_create e ok : preserves wall (findOrCreateOAuthUser billing analytics staffEmails e ok).
Proof.
  unfold findOrCreateOAuthUser. pose proof view_audit_plain. pose proof view_Capture. pose proof view_customer.
  pose proof view_personal. pose proof view_hash. pose proof view_State.
  preserve; first [apply wall_insert_user | apply wall_promote | apply wall_frame; solve [eauto]].
Qed.
Lemma find_or_create_wall e ok w r w' :
  wall (w_db w) -> findOrCreateOAuthUser billing analytics staffEmails e ok w = (Ret r, w') -> r.1 = v -> r.2 = true.
Proof.
  intros Hw. unfold findOrCreateOAuthUser. intros (q & w1 & Hq & H)%bind_ret. cbv beta in H.
  destruct q as [x|u].
  - destruct (negb (errors_Is x ErrNoRows)); [discriminate H|]. destruct (negb ok); [discriminate H|].
    assert (wall (w_db w1)) as Hw1.
    { pose proof (preserves_try wall _ (preserves_query_row wall (fun _ db => user_by_email e db)) w Hw) as H1. by rewrite Hq in H1. }
    apply bind_ret in H as (rnd & w2 & H2 & (hash & w3 & H3 & (id & w4 & H4 & H)%bind_ret)%bind_ret). cbv beta in *.
    pose proof (frame_ret_eq login_view _ _ _ _ view_State H2) as F2.
    pose proof (frame_ret_eq login_view _ _ _ _ (view_hash rnd) H3) as F3.
    assert (id <> v) as Hid. { eapply insert_user_fresh; [|exact H4]. unfold mfa_wall. by rewrite F3, F2. }
    repeat (apply bind_ret in H as (? & ? & _ & H); cbv beta in H). injection H as <- _. done.
  - injection H as <- _. apply try_ret in Hq. simpl. by eapply user_by_email_wall.
Qed.

Lemma wall_staff q prov e : preserves wall (completeStaffSSO staffEmails q prov e).
Proof.
  unfold completeStaffSSO. pose proof view_audit_req. preserve; [|by apply wall_frame].
  destruct (wr_cookie q); [|apply preserves_fail]. apply preserves_update. intros now db.
  apply wall_update_sessions. by intros [[]].
Qed.

Lemma wall_oauth q fc prov state code :
  preserves wall (oauthCallback oauth age billing analytics flags staffEmails absoluteURL q fc prov state code).
Proof.
  unfold oauthCallback. destruct (oauth !! prov) as [p|] eqn:Ep; [|apply preserves_ret].
  pose proof (out_Identity HO _ _ Ep) as Hid. cbv zeta. destruct (_ || _); [apply preserves_ret|].
  destruct (decodeOAuthState _) as [stored|]; [|apply preserves_ret].
  destruct (_ || _); [apply preserves_ret|].
  destruct (bool_decide (code = "")); [apply preserves_ret|].
  apply preserves_bind; [apply wall_frame, frame_try, Hid|intros [e|id]; [apply preserves_ret|]].
  destruct (negb (Verified id)); [apply preserves_ret|].
  destruct (bool_decide (so_staff_sso fc = Some "1")); [apply preserves_bind; [apply wall_staff|intros; apply preserves_ret]|].
  destruct (signed_in q); [apply preserves_ret|].
  apply preserves_bind; [apply wall_frame, (out_flags HO)|intros on].
  apply (preserves_bind_ret _ _ _ (fun r => match r with inr (u, mfa) => u = v -> mfa = true | inl _ => True end)).
  - apply preserves_try, wall_find_or_create.
  - intros w [e|[u mfa]] w' Hw H; [done|]. apply try_ret in H. exact (find_or_create_wall _ _ _ _ _ Hw H).
  - intros [e|[u mfa]] Hu; [apply preserves_ret|]. apply preserves_bind; [by apply wall_finish|intros; apply preserves_ret].
Qed.

Lemma wall_verify q token : preserves wall (verifyEmail q token).
Proof.
  unfold verifyEmail, VerifyEmail. pose proof view_audit_req.
  apply preserves_bind; [apply preserves_try, preserves_tx_body|intros; apply wall_frame; frame_steps].
  preserve; [apply wall_frame; by frame_stmt|]. apply wall_update_user. by intros [].
Qed.
Lemma wall_logout q : preserves wall (logout q).
Proof.
  unfold logout, Destroy. pose proof view_audit_req. preserve; [by apply wall_frame|].
  apply preserves_update. intros _ db. apply wall_delete_sessions.
Qed.

Lemma view_mobile_audit q a u act id : frame login_view (mobile_audit q a u act id).
Proof. apply frame_ignore, view_Record. Qed.
Lemma wall_issue q u a e d : u <> v -> preserves wall (issueMobileToken q u a e d).
Proof.
  intros Hne. unfold issueMobileToken, or_else. apply preserves_bind; [by apply preserves_try, wall_MobileCreate|].
  pose proof view_mobile_audit. intros [x|[tok secret]]; [apply preserves_ret|apply wall_frame; frame_steps].
Qed.
Lemma wall_mobile_login q : preserves wall (mobileLogin throttle q).
Proof.
  unfold mobileLogin. destruct (decodeJSONBody decode_mobileLoginReq q) as [f|]; [|apply preserves_ret]. cbv zeta.
  destruct (_ || _); [apply preserves_ret|]. apply preserves_bind; [apply wall_frame, frame_try, view_Check|intros lock].
  destruct (match lock with inl _ => false | inr l => Locked l end); [apply preserves_ret|].
  apply (preserves_bind_ret _ _ _ (fun r => match r with inr u => u_ID u = v -> u_MFAEnabled u = true | inl _ => True end)).
  { apply preserves_try, preserves_query_row. }
  { intros w [e|u] w' Hw H; [done|]. apply try_ret in H. eauto using user_by_email_wall. }
  pose proof view_VerifyPassword. pose proof view_RecordAttempt. pose proof view_mobile_audit. pose proof view_pick. pose proof view_CreateChallenge.
  intros [e|u] Hu; [apply wall_frame; frame_steps|].
  apply preserves_bind; [apply wall_frame; frame_steps|intros [e|[]]; [apply wall_frame; frame_steps|]].
  apply preserves_bind; [apply wall_frame; frame_steps|intros _].
  apply preserves_bind; [by apply wall_frame|intros acct]. destruct (bool_decide _); [apply preserves_ret|].
  destruct (u_MFAEnabled u) eqn:Em; [apply wall_frame; unfold or_else; frame_steps|].
  apply wall_issue. intros Hv. by specialize (Hu Hv).
Qed.

Lemma wall_first_factor w w' : first_factor w w' -> wall (w_db w) -> wall (w_db w').
Proof.
  intros [] Hw; revert Hw; [apply wall_login|apply wall_signup|apply wall_magic_request|apply wall_magic
    |apply wall_oauth|apply wall_mobile_login|apply wall_verify|apply wall_logout].
Qed.

(** *** The second step *)

(** The code is one of [u]'s authenticator app that was not used yet, or one
    of the unused recovery codes of [u]. *)
Definition redeems (u : uuid) (code : string) (db : DB) : Prop :=
  (exists usr secret n c, users (account_db db) !! u = Some usr /\ u_totp_secret usr = Some secret /\
     VerifyTOTPWithCounter secret code (env_now n) = Some c /\ (forall l, u_totp_last_used_counter usr = Some l -> l < c)) \/
  (exists k r, mfa_recovery_codes (auth_db db) !! k = Some r /\ unused_code u code r = true).

Lemma sql_count_one {V} (p : V -> bool) (t : gmap uuid V) : sql_count p t = 1%nat -> exists k r, t !! k = Some r /\ p r = true.
Proof.
  intros H1. destruct (head (sql_select p t)) as [r|] eqn:E.
  - apply head_select_Some in E as [Hp [k Hk]]. by exists k, r.
  - unfold sql_count in H1. destruct (sql_select p t); discriminate.
Qed.
Lemma second_factor_ret u code w w' : second_factor u code w = (Ret true, w') -> redeems u code (w_db w).
Proof.
  unfold second_factor. intros (ok & w1 & H1 & H)%bind_ret. cbv beta in H. destruct ok.
  - apply VerifyAndConsumeTOTP_ret in H1 as (usr & secret & n & c & ? & ? & ? & ? & _). left. by exists usr, secret, n, c.
  - right. apply tx_ret in H1 as (w0 & w2 & H0 & [[Hc _]|[_ Hr]]); [exfalso; ret_inv; discriminate|].
    unfold ConsumeRecoveryCode in H. apply bind_ret in H as (m & w3 & H3 & H). injection H as Hm _.
    apply exec_ret in H3 as [H3 _]. cbv beta in H3. apply inr_pair in H3 as [_ H3].
    rewrite <- Hr. apply sql_count_one. rewrite H3. by apply Nat.eqb_eq.
Qed.
Lemma sessions_second_factor u code : frame (fun db => sessions (auth_db db)) (second_factor u code).
Proof.
  unfold second_factor, VerifyAndConsumeTOTP, ConsumeRecoveryCode. frame_steps; by frame_stmt.
Qed.
Lemma wall_second_factor u code : preserves wall (second_factor u code).
Proof.
  unfold second_factor, VerifyAndConsumeTOTP, ConsumeRecoveryCode.
  preserve; [apply preserves_tx_body; preserve; apply wall_update_user; by intros []|apply wall_frame; by frame_stmt].
Qed.
Lemma PendingMFAUser_ret cookie w u w' :
  PendingMFAUser cookie w = (Ret u, w') ->
  exists c s usr, cookie = Some c /\ find_session c (w_db w) = Some s /\
    users (account_db (w_db w)) !! se_UserID (ser_session s) = Some usr /\ u = auth_user usr /\ w_db w' = w_db w.
Proof.
  unfold PendingMFAUser. destruct cookie as [c|]; [|done]. intros H. ret_inv.
  match goal with Hl : loadUser _ _ = _ |- _ => apply loadUser_ret in Hl as (Hdb & usr & Hu & _ & ->) end.
  db_eqs. by exists c, a, usr.
Qed.

(** The three ways a call whose error is looked at can end. *)
Lemma try_bind_cases {A B} (m : GO A) (k : error + A -> GO B) w :
  (exists a w1, m w = (Ret a, w1) /\ (try m ≫= k) w = k (inr a) w1) \/
  (exists e w1, m w = (Fail e, w1) /\ (try m ≫= k) w = k (inl e) w1) \/
  (exists w1, m w = (Crash, w1) /\ (try m ≫= k) w = (Crash, w1)).
Proof. unfold mbind, M_bind, try. destruct (m w) as [[a|e|] w1]; eauto 10. Qed.

Ltac try_case m :=
  match goal with |- context [(try m ≫= ?k) ?w] =>
    let E := fresh "E" in let x := fresh "x" in let w1 := fresh "w" in
    destruct (try_bind_cases m k w) as [(x & w1 & E & ->)|[(x & w1 & E & ->)|(w1 & E & ->)]]
  end.

Lemma wall_complete c s w :
  wall (w_db w) -> find_session c (w_db w) = Some s -> se_UserID (ser_session s) <> v ->
  wall (w_db (CompleteMFA age (Some c) w).2).
Proof.
  intros Hw Hs Hv. unfold CompleteMFA.
  unfold mbind at 1, M_bind at 1. destruct (no_rows_as _ _ w) as [o w1] eqn:E.
  assert (frame (fun db : DB => db) (no_rows_as ErrNoSession (query_row (fun _ db => find_session c db)))) as Hf by frame_steps.
  specialize (Hf w). rewrite E in Hf. simpl in Hf. destruct o as [t|e|]; [|simpl; by rewrite Hf..].
  apply no_rows_as_ret, query_row_ret in E as [Et _]. rewrite Hs in Et. injection Et as <-.
  assert (wall (w_db w1)) as Hw1 by by rewrite Hf. revert w1 Hf Hw1. intros w1 _. revert w1.
  match goal with |- forall w1, _ -> wall (w_db (?m w1).2) => change (preserves wall m) end.
  preserve; [|by apply wall_create]. apply preserves_update. intros _ db. apply wall_delete_sessions.
Qed.

(** The second step opens a session of [v] only for a code of [v]. *)
Lemma wall_challenge q form w :
  wall (w_db w) ->
  wall (w_db (mfaChallengeSubmit age q form w).2) \/
  exists code next, form = Some (code, next) /\ redeems v (TrimSpace code) (w_db w).
Proof.
  intros Hw. unfold mfaChallengeSubmit.
  assert (frame (fun db : DB => db) (PendingMFAUser (wr_cookie q))) as Hf by (unfold PendingMFAUser, loadUser; frame_steps).
  specialize (Hf w). try_case (PendingMFAUser (wr_cookie q)); rewrite E in Hf; simpl in Hf; [|left; simpl; by rewrite Hf..].
  apply PendingMFAUser_ret in E as (c & s & usr & Hc & Hs & Hu & -> & _).
  assert (wall (w_db w0)) as Hw1 by by rewrite Hf.
  destruct form as [[code next]|]; [|by left]. cbv zeta.
  pose proof (wall_second_factor (au_ID (auth_user usr)) (TrimSpace code) w0 Hw1) as Hw2.
  pose proof (sessions_second_factor (au_ID (auth_user usr)) (TrimSpace code) w0) as Hs2.
  try_case (second_factor (au_ID (auth_user usr)) (TrimSpace code)); rewrite E in Hw2, Hs2; [|by left..].
  destruct x; [|by left]. apply second_factor_ret in E. rewrite Hf in E. cbn [snd] in *.
  destruct (wall_user _ _ _ _ _ Hw Hu) as [Hid _]. destruct (decide (se_UserID (ser_session s) = v)) as [Hv|Hv].
  { right. exists code, next. split; [done|]. by rewrite <- Hv, <- Hid. }
  left. rewrite Hc. assert (find_session c (w_db w1) = Some s) as Hs' by (unfold find_session in *; by rewrite Hs2, Hf).
  pose proof (wall_complete c s w1 Hw2 Hs' Hv) as Hw3. pose proof view_audit_req.
  try_case (CompleteMFA age (Some c)); rewrite E0 in Hw3; [|done..].
  revert w2 E0 Hw3. intros w2 _ Hw3. revert w2 Hw3. apply wall_frame. frame_steps.
Qed.

(** The same on the phone, once the challenge is spent. *)
Lemma redeems_same u code db db' :
  users (account_db db') = users (account_db db) -> mfa_recovery_codes (auth_db db') = mfa_recovery_codes (auth_db db) ->
  redeems u code db' -> redeems u code db.
Proof. unfold redeems. by intros -> ->. Qed.
Lemma wall_mobile_verify q w :
  wall (w_db w) ->
  wall (w_db (mobileMFAVerify q w).2) \/
  exists req, decodeJSONBody decode_mobileMFAVerifyReq q = Some req /\ redeems v (TrimSpace (mv_Code req)) (w_db w).
Proof.
  intros Hw. unfold mobileMFAVerify. destruct (decodeJSONBody decode_mobileMFAVerifyReq q) as [req|]; [|by left].
  unfold parse_id. destruct (uuid_Parse _) as [e|chID]; [by left|]. cbv zeta. destruct (bool_decide _); [by left|].
  unfold or_else.
  assert (frame (fun db : DB => (login_view db, mfa_recovery_codes (auth_db db))) (ConsumeChallenge chID)) as Hf
    by (unfold ConsumeChallenge; frame_steps; by frame_stmt).
  specialize (Hf w). try_case (ConsumeChallenge chID); rewrite E in Hf; cbn [snd] in Hf; injection Hf as Hu Hs Ht Hr;
    (assert (wall (w_db w0)) as Hw1 by (unfold mfa_wall, login_view; by rewrite Hu, Hs, Ht)); [|by left..].
  pose proof (wall_second_factor (ch_UserID x) (TrimSpace (mv_Code req)) w0 Hw1) as Hw2.
  try_case (second_factor (ch_UserID x) (TrimSpace (mv_Code req))); rewrite E0 in Hw2; cbn [snd] in Hw2; [|by left..].
  destruct x0; [|by left]. cbn [negb]. apply second_factor_ret in E0.
  destruct (decide (ch_UserID x = v)) as [<-|Hv]; [right; exists req; split; [done|by eapply redeems_same]|left].
  clear E0. revert w1 Hw2. match goal with |- forall w1, _ -> wall (w_db (?m w1).2) => change (preserves wall m) end.
  apply preserves_bind; [apply preserves_try, preserves_query_row|intros r; by apply wall_issue].
Qed.

(** A second step with the code it carries, on the web or on the phone. *)
Inductive second_step (code : string) (w : World DB) : World DB -> Prop :=
| ss_web q next : second_step code w (mfaChallengeSubmit age q (Some (code, next)) w).2
| ss_phone q req : decodeJSONBody decode_mobileMFAVerifyReq q = Some req -> mv_Code req = code ->
    second_step code w (mobileMFAVerify q w).2.
(** Any request that signs in. *)
Inductive sign_in (w : World DB) : World DB -> Prop :=
| si_first w' : first_factor w w' -> sign_in w w'
| si_challenge q form : sign_in w (mfaChallengeSubmit age q form w).2
| si_phone q : sign_in w (mobileMFAVerify q w).2.

(** C8: nobody is in without the second factor.  A user [v] has MFA, and every
    session of [v] past the second step, and every phone token of [v], is in
    [S0].  Whatever sign-in requests follow - passwords on the web or on the
    phone, sign-ups, magic links, social logins, second steps, in any order,
    from anyone, with any fault in them - a session of [v] past the second
    step or a phone token of [v] that is not in [S0] exists only once a second
    step was answered with an unused code of [v]'s authenticator or an unused
    recovery code of [v]. *)
Theorem second_factor_required w w' :
  wall (w_db w) -> rtc sign_in w w' ->
  wall (w_db w') \/
  exists w1 w2 code, rtc sign_in w w1 /\ second_step code w1 w2 /\ rtc sign_in w2 w' /\ redeems v (TrimSpace code) (w_db w1).
Proof.
  intros Hw Hr. induction Hr as [w|w w1 w' Hs Hr IH]; [by left|].
  assert (wall (w_db w1) \/ exists code, second_step code w w1 /\ redeems v (TrimSpace code) (w_db w)) as [Hw1|(code & Hc & Hd)].
  - destruct Hs as [w1 Hs|q form|q]; [left; by eapply wall_first_factor|..].
    + destruct (wall_challenge q form w Hw) as [?|(code & next & -> & ?)]; [by left|right; eauto using second_step].
    + destruct (wall_mobile_verify q w Hw) as [?|(req & ? & ?)]; [by left|right; eauto using second_step].
  - destruct (IH Hw1) as [?|(w2 & w3 & code & H1 & H2 & H3 & H4)]; [by left|right].
    exists w2, w3, code. split; [by eapply rtc_l|done].
  - right. exists w, w1, code. split; [apply rtc_refl|done].
Qed.
End requests.

(** ** A concrete sign-in *)

#[global] Instance demo_argon : Argon2 := {| IDKey p s _ _ _ n :=
  of_bytes (take (Z.to_nat n) (bytes_of (sha256 (p +:+ s)) ++ repeat 0 (Z.to_nat n))) |}.
#[global] Instance demo_argon_ok : Argon2Ok.
Proof. constructor. intros p s t m th n Hn. simpl. rewrite length_of_bytes, length_take, length_app, repeat_length. lia. Qed.

(** Ann's password lets her in, another does not. *)
Lemma password_roundtrip_witness :
  exists h, (HashPassword "correct horse" (world demo_db)).1 = Ret h /\
    VerifyPassword "correct horse" h (world demo_db) = (Ret tt, world demo_db) /\
    VerifyPassword "correct hors" h (world demo_db) = (Fail ErrMismatch, world demo_db).
Proof.
  destruct (HashPassword "correct horse" (world demo_db)) as [o w'] eqn:E.
  pose proof E as E'. vm_compute in E'. injection E' as Ho _. eexists. split; [exact (eq_sym Ho)|]. subst o.
  destruct (password_roundtrip (env:=demo_env) _ _ _ _ E) as (salt & Hh & Hsame & Hother).
  assert (Some salt = RawStdEncoding_Decode (List.nth 4 (Split (encode_hash salt
    (IDKey "correct horse" salt argonTime argonMemory argonThreads argonKeyLen)) "$") "")) as Hs
    by (rewrite Split_hash; simpl List.nth; by rewrite RawStdEncoding_Decode_Encode).
  rewrite <- Hh in Hs. vm_compute in Hs. injection Hs as ->.
  split; [apply Hsame|apply Hother]. vm_compute. discriminate.
Defined.

(** Ann, with a second factor. *)
Definition demo_salt : string := "0123456789abcdef".
Definition ann_hash : string := encode_hash demo_salt (IDKey "correct horse" demo_salt argonTime argonMemory argonThreads argonKeyLen).
Definition ann_mfa : User := mkUser 2 "ann@example.com" true ann_hash false true (Some "JBSWY3DPEHPK3PXP") None 0 None.
Definition mfa_db : DB :=
  demo_db{{ account_db -> users := {[ 2%N := ann_mfa ]}; auth_db -> sessions := ∅ }}.
Definition web (cookie : option string) : WebReq := mkWebReq background cookie "203.0.113.7" "curl".
Definition demo_throttle : LoginThrottle := mkLoginThrottle 5 (15 * 60 * second).
Definition ann_login : World DB :=
  (loginSubmit (env:=demo_env) demo_throttle (24 * 3600 * second) (fun s => s) (web None)
     (Some (mkLoginForm " Ann@Example.com" "correct horse" "")) (world mfa_db)).2.
Definition silent (m : Message) : GO unit := mret tt.
#[global] Instance demo_oauth_lib : OauthLib := {|
  values_Encode _ := ""; token_Unmarshal s := inr s; google_Unmarshal s := inr (mkIdentity s true);
  github_Unmarshal _ := inr []; state_Marshal v := inr (sv_State v +:+ "." +:+ sv_Verifier v);
  state_Unmarshal s := inl (ErrNew "unexpected end of JSON input")
|}.
Lemma demo_outside : Outside noopService silent (fun _ _ => mret true) (fun _ => mret true) ∅.
Proof. split; try (intros; apply frame_ret). apply map_Forall_empty. Qed.

(** The bodies of the phone are never JSON here. *)
#[local] Instance no_phone : MobileJson := {|
  decode_mobileLoginReq _ := None; decode_mobileMFAVerifyReq _ := None; decode_mobileDeviceReq _ := None
|}.
#[local] Instance no_api : ApiJson := {|
  json_Encode _ := inr ""; json_jsonb _ := ANil; decode_createDatabaseReq _ := None; decode_createDrillReq _ := None;
  cursor_Marshal _ := inr ""; cursor_Unmarshal _ := inl (ErrNew "")
|}.
Notation demo_sign_in := (sign_in (env:=demo_env) demo_throttle (24 * 3600 * second) noopService silent false (fun _ _ => mret true) ∅ id id
  (fun _ => mret true) ∅).

Lemma second_factor_required_witness :
  map (fun s => se_MFAPending (ser_session s)) (sql_select (fun s => bool_decide (se_UserID (ser_session s) = 2%N)) (sessions (auth_db (w_db ann_login)))) = [true] /\
  (mfa_wall 2 ∅ (w_db ann_login) \/
   exists w1 w2 code, rtc demo_sign_in (world mfa_db) w1 /\ second_step (env:=demo_env) (24 * 3600 * second) code w1 w2 /\
     rtc demo_sign_in w2 ann_login /\ redeems (env:=demo_env) 2 (TrimSpace code) (w_db w1)).
Proof.
  split; [vm_compute; reflexivity|].
  apply (second_factor_required (env:=demo_env) demo_throttle (24 * 3600 * second) noopService silent false (fun _ _ => mret true) ∅ id id
    (fun _ => mret true) ∅ demo_outside 2 ∅ (world mfa_db) ann_login).
  - split; [by exists ann_mfa|]. split; [apply map_Forall_singleton; reflexivity|]. split; apply map_Forall_empty.
  - apply rtc_once, si_first.
    exact (ff_login _ _ _ _ _ _ _ _ _ _ _ (world mfa_db) (web None) (Some (mkLoginForm " Ann@Example.com" "correct horse" ""))).
Defined.

(** ** What the handlers let through *)

Definition mallory_form : LoginForm := mkLoginForm "bob@example.com" "mallory's password" "".
(** Mallory signs up with Bob's address, which she cannot read mail of. *)
Definition squatted : World DB :=
  (signupSubmit (env:=demo_env) (24 * 3600 * second) noopService silent false (fun _ _ => mret true) ∅ id
     (web None) (Some mallory_form) (world empty_db)).2.

(** a squatted address.  Someone signs up with another's address and
    never confirms it.  When the owner of the address signs in with a
    provider that vouches for it, without any fault, findOrCreateOAuthUser
    hands out that unconfirmed account, and the password of whoever made it
    still opens a session of the same user afterwards. *)
Theorem squatted_account_shared :
  exists (env : Env) bob usr w1 w2,
    fault_free /\
    map_to_list (users (account_db (w_db squatted))) = [(bob, usr)] /\ u_EmailVerified usr = false /\
    findOrCreateOAuthUser (env:=env) noopService false ∅ "bob@example.com" true squatted = (Ret (bob, false), w1) /\
    map_to_list (users (account_db (w_db w1))) = [(bob, usr)] /\
    (exists cookie, loginSubmit (env:=env) demo_throttle (24 * 3600 * second) (fun s => s) (web None) (Some mallory_form) w1 =
       (Ret (mkAnswer (Redirect "/dashboard") (SetCookie cookie)), w2) /\
       option_map (fun s => (se_UserID (ser_session s), se_MFAPending (ser_session s))) (find_session cookie (w_db w2)) =
         Some (bob, false)).
Proof.
  exists demo_env. do 4 eexists. split; [done|]. split; [vm_compute; reflexivity|]. split; [reflexivity|].
  split; [vm_compute; reflexivity|]. split; [vm_compute; reflexivity|].
  eexists. split; [vm_compute; reflexivity|]. vm_compute. reflexivity.
Qed.

(** A staff address is promoted before anybody read mail sent to it. *)
Lemma signup_promotes_unconfirmed :
  (fun r => (u_Email r.2, u_IsStaff r.2, u_EmailVerified r.2)) <$> map_to_list (users (account_db (w_db
    (signupSubmit (env:=demo_env) (24 * 3600 * second) noopService silent false (fun _ _ => mret true) {["bob@example.com"]} id
       (web None) (Some mallory_form) (world empty_db)).2))) = [("bob@example.com", true, false)].
Proof. vm_compute. reflexivity. Qed.

(** safeNext keeps what starts with one slash, a backslash after it included. *)
Lemma safeNext_keeps next : safeNext next = "" \/ (safeNext next = next /\ HasPrefix next "/" = true /\ HasPrefix next "//" = false).
Proof.
  unfold safeNext. destruct (bool_decide (next = "")); [by left|]. destruct (HasPrefix next "/"); [|by left].
  destruct (HasPrefix next "//"); [by left|]. by right.
Qed.
Lemma safeNext_backslash : redirectTarget (safeNext "/\evil.example") = "/\evil.example".
Proof. reflexivity. Qed.
