(* ===== verification/ReportFacts.v ===== *)
(** What the reports keep: the calendar behind their windows, and what a
    window and a page show. *)
From S2P Require Import Prelude Crypto Effects Schema Encoding Path Time AuditLog Plans Rbac AccountStore DrillStore Assertions Runner Steps Demo Http AuthStore Web RateLimit.
From S2P Require Import Cipher Signer EvidenceStore Evidence Scheduler Targets TargetFacts Compliance Reports.
From Stdlib Require Import Ascii ZifyBool.

(** ** The calendar *)

(** Day of the era of a year of the era and a month counted from March. *)
Definition doe_of (yoe mp : Z) : Z := yoe * 365 + yoe / 4 - yoe / 100 + (153 * mp + 2) / 5.
Definition civil_check (yoe mp : Z) : bool :=
  let doe := doe_of yoe mp in
  let yoe' := (doe - doe / 1460 + doe / 36524 - doe / 146096) / 365 in
  let doy := doe - (365 * yoe' + yoe' / 4 - yoe' / 100) in
  let mp' := (5 * doy + 2) / 153 in
  (0 <=? doe) && (doe <? 146097) && (yoe' =? yoe) && (mp' =? mp) && (doy - (153 * mp' + 2) / 5 =? 0).
Lemma civil_checked : forallb (fun y => forallb (fun m => civil_check (Z.of_nat y) (Z.of_nat m)) (seq 0 12)) (seq 0 400) = true.
Proof. vm_compute. reflexivity. Qed.
Lemma civil_check_ok yoe mp : 0 <= yoe < 400 -> 0 <= mp < 12 -> civil_check yoe mp = true.
Proof.
  intros Hy Hm. pose proof civil_checked as H. rewrite forallb_forall in H. specialize (H (Z.to_nat yoe)).
  rewrite forallb_forall in H. specialize (H ltac:(apply in_seq; lia) (Z.to_nat mp)).
  rewrite !Z2Nat.id in H by lia. apply H, in_seq. lia.
Qed.

(** The first day of a month is the first day of that month. *)
Lemma civil_days y m : 1 <= m <= 12 -> civil (days_of_civil y m 1) = (y, m, 1).
Proof.
  intros Hm. unfold civil, days_of_civil.
  set (y' := if m <=? 2 then y - 1 else y). set (mp := if 2 <? m then m - 3 else m + 9).
  assert (0 <= mp < 12) as Hmp by (subst mp; destruct (2 <? m) eqn:E; lia).
  pose proof (Z.mod_pos_bound y' 400 ltac:(lia)) as Hyoe.
  pose proof (civil_check_ok (y' mod 400) mp Hyoe Hmp) as Hc. unfold civil_check in Hc.
  rewrite !andb_true_iff in Hc. destruct Hc as [[[[H1 H2] H3] H4] H5].
  apply Z.leb_le in H1. apply Z.ltb_lt in H2. apply Z.eqb_eq in H3, H4, H5.
  replace (y' / 400 * 146097 + (y' mod 400 * 365 + y' mod 400 / 4 - y' mod 400 / 100 + ((153 * mp + 2) / 5 + 1 - 1)) - 719468 + 719468)
    with (doe_of (y' mod 400) mp + y' / 400 * 146097) by (unfold doe_of; lia).
  rewrite Z.div_add, Z.mod_add, (Z.div_small _ 146097), (Z.mod_small _ 146097) by lia.
  rewrite H3 in *. rewrite H4 in *. rewrite H5, Z.add_0_l.
  assert ((if mp <? 10 then mp + 3 else mp - 9) = m) as -> by (subst mp; destruct (2 <? m) eqn:E; destruct (_ <? 10) eqn:E2; lia).
  f_equal. f_equal. pose proof (Z.div_mod y' 400 ltac:(lia)). subst y'. destruct (m <=? 2); lia.
Qed.

Lemma month_of_start k : month_of (month_start k) = k.
Proof.
  unfold month_of, month_start. rewrite Z.div_mul by done. rewrite Z.div_mul by done.
  pose proof (Z.mod_pos_bound k 12 ltac:(lia)). rewrite civil_days by lia.
  pose proof (Z.div_mod k 12 ltac:(lia)). lia.
Qed.

Lemma monthsAgo_month now months : month_of (monthsAgoUTC now months) = month_of now - months.
Proof. apply month_of_start. Qed.

(** ** The monthly report *)

Lemma sum_filter_keys {A} (key : A -> Z) (ks : list Z) (l : list A) :
  NoDup ks -> (forall x, x ∈ l -> key x ∈ ks) ->
  foldr Z.add 0 ((fun k => len (filter (fun x => key x = k) l)) <$> ks) = len l.
Proof.
  revert l. induction ks as [|k ks IH]; intros l Hn Hl.
  - destruct l as [|x l]; [done|]. by specialize (Hl x ltac:(left)); apply not_elem_of_nil in Hl.
  - apply NoDup_cons in Hn as [Hk Hn]. simpl.
    rewrite (list_fmap_ext _ (fun k' => len (filter (fun x => key x = k') (filter (fun x => key x <> k) l)))).
    + rewrite IH; [|done|].
      * unfold len. rewrite <- Nat2Z.inj_add. f_equal. clear. induction l as [|x l IH]; [done|].
        rewrite !filter_cons. destruct (decide (key x = k)), (decide (key x <> k)); simpl; [done|lia|lia|done].
      * intros x [Hx Hi]%list_elem_of_filter. specialize (Hl x Hi). apply elem_of_cons in Hl as [?|?]; done.
    + intros i k' Hk'. f_equal. rewrite list_filter_filter. apply list_filter_iff. intros x. split; [|tauto].
      intros ->. split; [done|]. intros ->. apply Hk. by eapply list_elem_of_lookup_2.
Qed.
Lemma StronglySorted_impl {A} (R R' : relation A) l :
  (forall x y, R x y -> R' x y) -> StronglySorted R l -> StronglySorted R' l.
Proof. intros Hi. induction 1; constructor; [done|]. eapply Forall_impl; [eassumption|]. intros y. apply Hi. Qed.
Lemma with_status_le s s' l : s <> s' -> len (with_status s l) + len (with_status s' l) <= len l.
Proof.
  intros Hs. unfold with_status, len. induction l as [|d l IH]; [done|]. rewrite !filter_cons. simpl length.
  destruct (decide (d_Status d = s)), (decide (d_Status d = s')); simpl length; [congruence|lia..].
Qed.

(** what the monthly report counts.  When MonthlyStats answers, its rows
    are of distinct months in rising order; every drill of the account
    created since the start of the window is counted in exactly one row, that
    of its own month, which starts at the month's first instant; and no row
    counts more outcomes than drills. *)
Theorem monthly_stats_partition `{env : Env} a since w l w' :
  MonthlyStats a since w = (Ret l, w') ->
  sum ms_Total l = len (since_of a since (w_db w)) /\
  NoDup (month_of ∘ Month <$> l) /\ StronglySorted Z.le (month_of ∘ Month <$> l) /\
  (forall m, m ∈ l -> Month m = month_start (month_of (Month m)) /\
     ms_Total m = len (filter (fun d => month_of (d_CreatedAt d) = month_of (Month m)) (since_of a since (w_db w))) /\
     0 < ms_Total m /\ ms_Succeeded m + ms_Failed m <= ms_Total m).
Proof.
  unfold MonthlyStats. intros [-> _]%query_ret. cbv zeta. set (L := since_of a since (w_db w)).
  set (ks := order_by Z.leb (remove_dups ((fun d => month_of (d_CreatedAt d)) <$> L))).
  assert (NoDup ks) as Hn by (unfold ks; rewrite order_by_Permutation; apply NoDup_remove_dups).
  assert (forall k, k ∈ ks <-> exists d, d ∈ L /\ month_of (d_CreatedAt d) = k) as Hks.
  { intros k. unfold ks. rewrite elem_of_order_by, elem_of_remove_dups, list_elem_of_fmap. naive_solver. }
  assert (month_of ∘ Month <$> (month_row L <$> ks) = ks) as Hm.
  { rewrite <- list_fmap_compose. rewrite <- (list_fmap_id ks) at 2. apply list_fmap_ext. intros i k _. simpl. apply month_of_start. }
  split; [|split; [by rewrite Hm|split; [rewrite Hm|]]].
  - unfold sum. rewrite <- list_fmap_compose. etransitivity; [|apply (sum_filter_keys (fun d => month_of (d_CreatedAt d)) ks L Hn)].
    + done.
    + intros d Hd. apply Hks. by exists d.
  - apply (StronglySorted_impl (le_rel Z.leb)); [intros x y; unfold le_rel; lia|].
    assert (Transitive (le_rel Z.leb)) by (intros x y z; unfold le_rel; lia).
    assert (Total (le_rel Z.leb)) by (intros x y; unfold le_rel; lia).
    unfold ks, order_by. apply StronglySorted_merge_sort; apply _.
  - intros m (k & -> & Hk)%list_elem_of_fmap. simpl. rewrite month_of_start. split; [done|]. split; [done|].
    apply Hks in Hk as (d & Hd & Hk). split; [|by apply with_status_le].
    assert (d ∈ filter (fun d => month_of (d_CreatedAt d) = k) L) as Hin by by apply list_elem_of_filter.
    unfold len. destruct (filter _ L); [by apply not_elem_of_nil in Hin|simpl; lia].
Qed.

(** ** Concrete pages *)

Definition report_drill (id : uuid) (created : time) : Drill :=
  mkDrill id 10 1 2 StatusSucceeded (Some created) (Some (created + 60 * ns)) None None None None created.
(** 24 May 2026, noon, and a drill on the 10th of each month since February. *)
Definition may_24 : time := (days_of_civil 2026 5 24 * 86400 + 43200) * ns.
Definition monthly_drills : gmap uuid Drill :=
  list_to_map ((fun k => (Z.to_N (30 + k), report_drill (Z.to_N (30 + k)) ((days_of_civil 2026 k 10 * 86400) * ns))) <$> [2; 3; 4; 5]).
Definition report_db : DB := ops_db{{ drill_db -> drills := monthly_drills }}.
Definition may_env : Env := {|
  env_fault _ := FOk; env_now _ := may_24; env_uuid n := N.of_nat n; env_inet s := Some s; env_jsonb s := Some s
|}.

Lemma monthly_stats_partition_witness :
  exists l, (MonthlyStats (env := may_env) 1 (monthsAgoUTC may_24 3) (world report_db)).1 = Ret l /\ sum ms_Total l = 4.
Proof.
  destruct (MonthlyStats (env := may_env) 1 (monthsAgoUTC may_24 3) (world report_db)) as [o w'] eqn:E.
  pose proof E as E'. vm_compute in E'. injection E' as <- _. eexists. split; [reflexivity|].
  destruct (monthly_stats_partition (env := may_env) _ _ _ _ _ E) as [H _]. rewrite H. vm_compute. reflexivity.
Defined.

(** the reports page and the teams.  A member on no team of an account
    whose only database belongs to the team "ops" cannot open it: the
    database page answers 404 and the list of databases is empty.  The
    reports page names the database all the same, with its drills. *)
Theorem report_shows_other_teams :
  exists (env : Env) who w view w1 w2 w3 w4,
    fault_free /\
    databaseScope (env := env) who w = (Ret (mkScope false []), w1) /\
    targetDetail (env := env) who (uuid_String 10%N) w = (Ret (HTTPError StatusNotFound), w2) /\
    targetsList (env := env) who w = (Ret (Render StatusOK "TargetsPage", []), w3) /\
    reports (env := env) who w = (Ret (inr view), w4) /\
    (fun d => (ds_TargetID d, ds_Name d, ds_Total d)) <$> rv_Databases view = [(10%N, t_Name demo_target, 4)].
Proof.
  exists may_env, demo_member, (world report_db). do 5 eexists. split; [done|].
  split; [vm_compute; reflexivity|]. split; [vm_compute; reflexivity|]. split; [vm_compute; reflexivity|].
  split; [vm_compute; reflexivity|]. reflexivity.
Qed.

(** The three-month window of an account that does not pay shows four
    months: the three before the current one, and the current one so far. *)
Lemma three_months_are_four :
  exists (env : Env) who w view w1,
    fault_free /\ IsPaidAccount (acct who) = false /\
    reports (env := env) who w = (Ret (inr view), w1) /\
    WindowMonths view = 3 /\ (fun m => month_of (Month m) - month_of may_24) <$> Months view = [-3; -2; -1; 0].
Proof.
  exists may_env, (mkWho (demo_account{{ a_Plan := "trial" }}) (user demo_member) (membership demo_member) "10.0.0.9" "curl"), (world report_db). do 2 eexists. split; [done|].
  split; [vm_compute; reflexivity|]. split; [vm_compute; reflexivity|]. split; vm_compute; reflexivity.
Qed.
