(* ===== verification/MemberFacts.v ===== *)
(** What the member pages and the notifications keep: an address that bounced
    is not mailed again, every notifier is told; and where ownership, the
    alert channels and the alert addresses escape. *)
From S2P Require Import Prelude Crypto Effects Schema Encoding AuditLog Plans Rbac AccountStore DrillStore Assertions Runner Steps Demo Http AuthStore Web Billing Net AccountFacts Webhooks Notify Members.
From Stdlib Require Import Ascii.

(** ** Ownership *)

(** Ann owns account 1, Bob administers it. *)
Definition bob : User := mkUser 3 "bob@example.com" true "" false false None None 0 None.
Definition bob_db : DB :=
  demo_db{{ account_db -> users ::= insert 3%N bob;
            account_db -> memberships := {[ (1%N, 2%N) := mkMembership 1 2 RoleOwner 0; (1%N, 3%N) := mkMembership 1 3 RoleAdmin 0 ]} }}.
Definition bob_who : Who :=
  mkWho demo_account (auth_user bob) (Some (mkMembership 1 3 RoleAdmin 0)) "203.0.113.7" "curl".

(** an admin takes the account over.  memberTransferOwnership is for the
    owner alone and refuses the admin, but memberUpdate, which the role
    matrix opens to admins, takes the role "owner" for any member: without
    any fault an admin makes himself an owner and then removes the owner who
    was there before. *)
Theorem admin_takes_ownership :
  exists (env : Env) who w w1 w2,
    fault_free /\
    membership who = Some (mkMembership 1 3 RoleAdmin 0) /\ Allowed RoleAdmin ActionMemberWrite = true /\
    memberTransferOwnership (env:=env) who (uuid_String 3%N) w = (Ret (HTTPError StatusForbidden), w) /\
    memberUpdate (env:=env) who (uuid_String 3%N) (Some "owner") w = (Ret (Redirect "/account"), w1) /\
    memberRemove (env:=env) who (uuid_String 2%N) w1 = (Ret (Redirect "/account"), w2) /\
    map_to_list (m_Role <$> memberships (account_db (w_db w))) ≡ₚ [((1%N, 2%N), RoleOwner); ((1%N, 3%N), RoleAdmin)] /\
    map_to_list (m_Role <$> memberships (account_db (w_db w2))) = [((1%N, 3%N), RoleOwner)].
Proof.
  exists demo_env, bob_who, (world bob_db). do 2 eexists. split; [done|]. split; [done|]. split; [done|].
  split; [vm_compute; reflexivity|]. split; [vm_compute; reflexivity|]. split; [vm_compute; reflexivity|].
  split; [|vm_compute; reflexivity].
  vm_compute. first [reflexivity | apply Permutation_swap].
Qed.

(** ** Bounced addresses *)

Section suppression.
Context `{env : Env} (provider : nat -> Message -> error + unit).

Definition suppression_list (db : DB) : list Suppression := email_suppressions (mail_db db).
Definition blocked (addr : string) (db : DB) : Prop := suppressed addr db = true.

Lemma blocked_spec addr db : blocked addr db <-> exists s, s ∈ suppression_list db /\ citext_eq (su_email s) addr = true.
Proof.
  unfold blocked, suppressed. rewrite existsb_exists. split; intros (s & Hs & He); exists s; split; try done; by apply list_elem_of_In.
Qed.
Lemma citext_trans a b c : citext_eq a b = true -> citext_eq b c = true -> citext_eq a c = true.
Proof. unfold citext_eq. rewrite !bool_decide_eq_true. congruence. Qed.
Lemma citext_sym a b : citext_eq a b = true -> citext_eq b a = true.
Proof. unfold citext_eq. rewrite !bool_decide_eq_true. congruence. Qed.
Lemma citext_refl a : citext_eq a a = true.
Proof. unfold citext_eq. by rewrite bool_decide_eq_true. Qed.

Lemma upsert_keeps addr addr' reason detail now l :
  (exists s, s ∈ l /\ citext_eq (su_email s) addr = true) ->
  exists s, s ∈ upsert_suppression addr' reason detail now l /\ citext_eq (su_email s) addr = true.
Proof.
  intros (s & Hs & He). unfold upsert_suppression. destruct (existsb _ l).
  - destruct (citext_eq (su_email s) addr') eqn:E.
    + exists (mkSuppression (su_email s) reason detail now). split; [|done]. apply list_elem_of_fmap. exists s. by rewrite E.
    + exists s. split; [|done]. apply list_elem_of_fmap. exists s. by rewrite E.
  - exists s. split; [by right|done].
Qed.
Lemma upsert_adds addr reason detail now l :
  exists s, s ∈ upsert_suppression addr reason detail now l /\ citext_eq (su_email s) addr = true.
Proof.
  unfold upsert_suppression. destruct (existsb _ l) eqn:E.
  - apply existsb_exists in E as (s & Hs & He). exists (mkSuppression (su_email s) reason detail now). split; [|done].
    apply list_elem_of_fmap. exists s. rewrite He. split; [done|by apply list_elem_of_In].
  - eexists. split; [left|apply citext_refl].
Qed.

Lemma list_set f db : suppression_list (db{{ mail_db -> email_suppressions ::= f }}) = f (suppression_list db).
Proof. by destruct db as [? ? ? ? ? ? ? ? []]. Qed.
Lemma blocked_Suppress addr addr' reason detail : preserves (blocked addr) (Suppress addr' reason detail).
Proof. apply preserves_update. intros now db. rewrite !blocked_spec, list_set. apply upsert_keeps. Qed.
Lemma frame_Send m : frame suppression_list (Send provider m).
Proof. unfold Send, isSuppressed, sender_send. frame_steps. apply frame_exec. intros t n [? ? ? ? ? ? ? ? []] db' x Heq. by injection Heq as <- _. Qed.
Lemma blocked_frame {A} addr (m : GO A) : frame suppression_list m -> preserves (blocked addr) m.
Proof.
  intros Hf w. rewrite !blocked_spec. by rewrite Hf.
Qed.
Lemma blocked_bounce addr secret token p : preserves (blocked addr) (postmarkBounce secret token p).
Proof.
  unfold postmarkBounce. destruct (bool_decide _); [apply preserves_ret|]. destruct (negb _); [apply preserves_ret|].
  destruct p as [p|]; [|apply preserves_ret]. cbv zeta. destruct (bool_decide _); [apply preserves_ret|].
  unfold or_else. apply preserves_bind; [apply preserves_try, blocked_Suppress|intros []; apply preserves_ret].
Qed.

(** Anything the program does after a bounce: mail, more bounces, and
    whatever leaves the suppression list alone. *)
Inductive after_bounce (w : World DB) : World DB -> Prop :=
| ab_send m : after_bounce w (Send provider m w).2
| ab_bounce secret token p : after_bounce w (postmarkBounce secret token p w).2
| ab_other {A} (m : GO A) : frame suppression_list m -> after_bounce w (m w).2.

(** a bounced address is not mailed again.  Once the Postmark webhook
    answered a bounce or complaint with 200, then whatever mail is sent,
    whatever else bounces, whatever else the program does and whatever fails,
    a message to that address in any spelling of its case is never handed to
    the provider; when nothing fails the caller learns ErrSuppressed. *)
Theorem suppressed_never_mailed secret token p w w1 w2 m o w3 :
  postmarkBounce secret token (Some p) w = (Ret (Text StatusOK ""), w1) ->
  rtc after_bounce w1 w2 ->
  citext_eq (TrimSpace (ToLower (pp_Email p))) (To_ m) = true ->
  Send provider m w2 = (o, w3) ->
  w_trace w3 = w_trace w2 /\ o <> Ret tt /\ (fault_free -> o = Fail ErrSuppressed).
Proof.
  intros Hb Hr Hm Hs.
  assert (blocked (To_ m) (w_db w1)) as H1.
  { unfold postmarkBounce in Hb. destruct (bool_decide _); [done|]. destruct (negb _); [done|]. cbv zeta in Hb.
    destruct (bool_decide _); [done|]. unfold or_else in Hb. apply bind_ret in Hb as ([e|[]] & w' & Hb & H2); [done|].
    injection H2 as <-. apply try_ret, update_ret in Hb. rewrite Hb, blocked_spec, list_set.
    destruct (upsert_adds (TrimSpace (ToLower (pp_Email p)))
      (let reason := if bool_decide (pp_Type p = "") then pp_RecordType p else pp_Type p in
       if bool_decide (reason = "") then "unknown" else reason)
      (nullif_empty (pp_Description p)) (sql_now w) (suppression_list (w_db w))) as (s & Hs' & He).
    exists s. split; [exact Hs'|by eapply citext_trans]. }
  assert (blocked (To_ m) (w_db w2)) as H2.
  { clear -Hr H1. induction Hr as [w|w w' w'' Hs _ IH]; [done|]. apply IH. revert H1.
    destruct Hs; [apply blocked_frame, frame_Send|apply blocked_bounce|by apply blocked_frame]. }
  unfold Send, mbind, M_bind in Hs.
  pose proof (query_ok (fun (_ : Z) db => suppressed (To_ m) db) w2) as Hq.
  pose proof (exec_spec (fun now (_ : N) s => inr (s, suppressed (To_ m) s)) w2) as (Ht & _ & _ & Ho).
  unfold isSuppressed, query in *. destruct (exec _ w2) as [[b|e|] w'] eqn:E; cbn [fst snd] in *.
  - apply exec_ret in E as [[= _ <-] _]. rewrite H2 in Hs. injection Hs as <- <-. done.
  - injection Hs as <- <-. split; [done|]. split; [done|]. intros Hff. specialize (Hq (Hff _)). congruence.
  - injection Hs as <- <-. split; [done|]. split; [done|]. intros Hff. specialize (Hq (Hff _)). congruence.
Qed.
End suppression.

Definition bounce (email : string) : PostmarkPayload := mkPostmarkPayload "Bounce" "HardBounce" email "".
Definition bounced : World DB := (postmarkBounce (env:=demo_env) "secret" "secret" (Some (bounce "Ann@Example.com ")) (world demo_db)).2.
Definition to_ann : Message := WelcomeMessage "ANN@example.com" "Acme".

Lemma suppressed_never_mailed_witness :
  Send (env:=demo_env) (fun _ _ => inr tt) to_ann bounced = (Fail ErrSuppressed, (Send (env:=demo_env) (fun _ _ => inr tt) to_ann bounced).2) /\
  w_trace (Send (env:=demo_env) (fun _ _ => inr tt) to_ann bounced).2 = [].
Proof.
  destruct (Send (env:=demo_env) (fun _ _ => inr tt) to_ann bounced) as [o w3] eqn:E.
  destruct (suppressed_never_mailed (env:=demo_env) (fun _ _ => inr tt) "secret" "secret" (bounce "Ann@Example.com ") (world demo_db) bounced bounced
    to_ann o w3) as (Ht & _ & Ho).
  - apply injective_projections; [vm_compute; reflexivity|reflexivity].
  - apply rtc_refl.
  - vm_compute. reflexivity.
  - exact E.
  - rewrite Ho by done. split; [reflexivity|]. cbn [snd]. rewrite Ht. vm_compute. reflexivity.
Defined.

(** ** Alert channels *)

Definition owner_who : Who :=
  mkWho demo_account (mkAuthUser 2 "ann@example.com" true false false 0) (Some (mkMembership 1 2 RoleOwner 0)) "203.0.113.7" "curl".
Definition slack_db : DB :=
  demo_db{{ hook_db -> account_alert_channels := {[ 1%N := mkChannels "https://hooks.slack.com/services/T0" "" ]} }}.

(** A read that fails reads as no channels: saving a PagerDuty key erases the
    Slack address, and the page says "saved". *)
Lemma alert_channel_lost :
  let w := alertChannelsSave (env:=fault_at 0 (FErr false)) owner_who (Some (mkAlertForm "" "" "" "key-1")) (world slack_db) in
  w.1 = Ret (Redirect "/account?alerts=saved") /\
  account_alert_channels (hook_db (w_db w.2)) !! 1%N = Some (mkChannels "" "key-1").
Proof. split; vm_compute; reflexivity. Qed.

Definition metadata_net : Network := {|
  new_request _ := None; resolve _ _ := ["169.254.169.254:443"]; connects _ _ := true; respond _ _ := inr 200; location _ _ _ := None
|}.
Definition failed_drill : Drill := mkDrill 30 10 1 2 Schema.StatusFailed (Some 0) (Some 0) (Some "restore") None None None 0.

(** alerts go where webhooks may not.  The settings page takes any https
    address as the Slack channel.  When a drill fails, the notifier connects
    to the address it resolves to - here the metadata service of the cloud,
    inside the network - while the dialer of the webhook worker refuses the
    same address. *)
Theorem alert_reaches_inside :
  exists (env : Env) who url net w w1 w2 body,
    fault_free /\
    alertChannelsSave (env:=env) who (Some (mkAlertForm "" url "" "")) w = (Ret (Redirect "/account?alerts=saved"), w1) /\
    AlertNotifyDrill (env:=env) net failed_drill EventFailed "" w1 = (Ret tt, w2) /\
    w_trace w2 = [ExtCall "http" ["169.254.169.254:443"; "POST"; url; body]] /\
    (forall n first, exists e, dial net true n (resolve net n url) first = inl e).
Proof.
  exists demo_env, owner_who, "https://metadata.example/latest", metadata_net, (world demo_db). do 3 eexists. split; [done|].
  split; [vm_compute; reflexivity|]. split; [vm_compute; reflexivity|]. split; [reflexivity|].
  intros n first. eexists. vm_compute. reflexivity.
Qed.
