(* ===== verification/HeartbeatFacts.v ===== *)
(** What internal/heartbeat keeps: every monitor row follows an abstract
    monitor, the sweeper flips exactly the overdue ones, once. *)
From S2P Require Import Prelude Crypto Effects Schema Encoding Time AuditLog Plans Demo AccountFacts Http Heartbeat.
From Stdlib Require Import Ascii.

(** ** The abstract monitor *)

Inductive phase : Type :=
| Watch (due : time)   (* expects a check-in by [due] *)
| Alarm                (* down *)
| Suspended            (* paused *)
| Gone                 (* deleted *)
| Stuck.               (* active without a deadline: no row of the program *)

Inductive signal : Type :=
| SPing (token kind : string) | SSweep | SPause (acct id : uuid) | SResume (acct id : uuid)
| SDelete (acct id : uuid) | SOther.

(** What identifies a monitor and never changes. *)
Record config : Type := mkConfig { c_id : uuid; c_acct : uuid; c_token : string; c_period : Z; c_grace : Z }.

(** Its transitions; any signal may also leave it alone. *)
Inductive mon_step (c : config) : signal -> phase -> phase -> Prop :=
| m_stutter e s : mon_step c e s s
| m_ok now s : s <> Gone -> mon_step c (SPing (c_token c) KindPing) s (Watch (now + c_period c * ns))
| m_fail s : s <> Gone -> mon_step c (SPing (c_token c) KindFail) s Alarm
| m_overdue due now : due + c_grace c * ns < now -> mon_step c SSweep (Watch due) Alarm
| m_pause s : s <> Gone -> mon_step c (SPause (c_acct c) (c_id c)) s Suspended
| m_resume now s : s <> Gone -> mon_step c (SResume (c_acct c) (c_id c)) s (Watch (now + c_period c * ns))
| m_delete s : mon_step c (SDelete (c_acct c) (c_id c)) s Gone.

Inductive mon_trace (c : config) : list signal -> phase -> phase -> Prop :=
| t_nil s : mon_trace c [] s s
| t_cons e es s1 s2 s3 : mon_step c e s1 s2 -> mon_trace c es s2 s3 -> mon_trace c (e :: es) s1 s3.

(** ** The row as an abstract monitor *)

Definition phase_of (r : HeartbeatRow) : phase :=
  let h := hr_heartbeat r in
  if negb (live_monitor r) then Gone
  else if bool_decide (h_Status h = StatusPaused) then Suspended
  else if bool_decide (h_Status h = StatusDown) then Alarm
  else match h_ExpectedBy h with Some e => Watch e | None => Stuck end.
Definition config_of (r : HeartbeatRow) : config :=
  let h := hr_heartbeat r in
  mkConfig (h_ID h) (h_AccountID h) (h_PingToken h) (h_PeriodSeconds h) (h_GraceSeconds h).

Definition monitors (db : DB) : gmap uuid HeartbeatRow := heartbeats (monitor_db db).
Definition monitors_wf (db : DB) : Prop :=
  (forall k r, monitors db !! k = Some r -> h_ID (hr_heartbeat r) = k) /\
  (forall k1 k2 r1 r2, monitors db !! k1 = Some r1 -> monitors db !! k2 = Some r2 ->
     h_PingToken (hr_heartbeat r1) = h_PingToken (hr_heartbeat r2) -> k1 = k2).

(** Every monitor made one step of its own machine. *)
Definition all_step (e : signal) (db db' : DB) : Prop :=
  monitors_wf db' /\
  forall k r, monitors db !! k = Some r ->
    exists r', monitors db' !! k = Some r' /\ config_of r' = config_of r /\
      mon_step (config_of r) e (phase_of r) (phase_of r').

Lemma all_step_same e db db' : monitors_wf db -> monitors db' = monitors db -> all_step e db db'.
Proof.
  intros Hwf Heq. split; [unfold monitors_wf; by rewrite Heq|]. intros k r Hk. rewrite Heq.
  exists r. split; [done|]. split; [done|constructor].
Qed.

(** An update of the rows that keeps what identifies them. *)
Lemma all_step_map e db db' (g : uuid -> HeartbeatRow -> HeartbeatRow) :
  monitors_wf db -> (forall k, monitors db' !! k = g k <$> monitors db !! k) ->
  (forall k r, monitors db !! k = Some r -> config_of (g k r) = config_of r /\
     mon_step (config_of r) e (phase_of r) (phase_of (g k r))) ->
  all_step e db db'.
Proof.
  intros [Hk Hu] Heq Hg.
  assert (forall k r', monitors db' !! k = Some r' -> exists r, monitors db !! k = Some r /\ config_of r' = config_of r) as Hb.
  { intros k r'. rewrite Heq. intros (r & Hr & ->)%fmap_Some. exists r. split; [done|]. by apply Hg. }
  split; [split|].
  - intros k r' (r & Hr & Hc)%Hb. rewrite <- (Hk _ _ Hr). by injection Hc.
  - intros k1 k2 r1' r2' (r1 & H1 & Hc1)%Hb (r2 & H2 & Hc2)%Hb Ht.
    apply (Hu _ _ r1 r2 H1 H2). injection Hc1 as _ _ Ht1 _ _. injection Hc2 as _ _ Ht2 _ _. congruence.
  - intros k r Hr. exists (g k r). split; [by rewrite Heq, Hr|]. by apply Hg.
Qed.

Lemma all_step_alter e db db' f id r :
  monitors_wf db -> monitors db' = alter f id (monitors db) -> monitors db !! id = Some r ->
  config_of (f r) = config_of r -> mon_step (config_of r) e (phase_of r) (phase_of (f r)) -> all_step e db db'.
Proof.
  intros Hwf Heq Hr Hc Hs. apply (all_step_map _ _ _ (fun k => if decide (id = k) then f else fun x => x) Hwf).
  - intros k. rewrite Heq, lookup_alter. case_decide; [by subst|]. by destruct (monitors db !! k).
  - intros k r' Hk. case_decide; [subst k; rewrite Hr in Hk; injection Hk as <-; done|]. split; [done|constructor].
Qed.

Lemma lookup_monitors_update p f db k :
  monitors (db{{ monitor_db -> heartbeats ::= sql_update p f }}) !! k = (fun r => if p r then f r else r) <$> monitors db !! k.
Proof. destruct db as [? ? ? ? [] ? ?]. apply lookup_sql_update. Qed.

Section steps.
Context `{env : Env} `{uuids : UuidLib} `{rand : Rand}.

(** The store operations with the signals they give. *)
Inductive store_op : signal -> World DB -> World DB -> Prop :=
| op_ping token kind ip ua w : store_op (SPing token kind) w (RecordPing token kind ip ua w).2
| op_sweep w : store_op SSweep w (MarkOverdueDown w).2
| op_pause a i w : store_op (SPause a i) w (Pause a i w).2
| op_resume a i w : store_op (SResume a i) w (Resume a i w).2
| op_delete a i w : store_op (SDelete a i) w (Delete a i w).2
| op_create h w : store_op SOther w (Create h w).2
| op_prune d w : store_op SOther w (PrunePings d w).2.

Lemma exec1_step e a i f w :
  monitors_wf (w_db w) ->
  (forall now r, h_ID (hr_heartbeat r) = i -> h_AccountID (hr_heartbeat r) = a -> live_monitor r = true ->
     config_of (f now r) = config_of r /\ mon_step (config_of r) e (phase_of r) (phase_of (f now r))) ->
  all_step e (w_db w) (w_db (exec1 a i f w).2).
Proof.
  intros Hwf Hf. unfold exec1. rewrite bind_db by (intros n w'; by destruct (n =? 0)%nat).
  match goal with |- context [update_n ?g w] => destruct (update_n_cases g w) as [->| ->] end;
    [by apply all_step_same|]. cbv beta zeta. simpl fst.
  eapply (all_step_map e _ _ (fun _ => _)); [done|intros k; apply lookup_monitors_update|].
  intros k r Hk. cbv beta. destruct (bool_decide _ && _ && _) eqn:E; [|split; [done|constructor]].
  rewrite !andb_true_iff, !bool_decide_eq_true in E. destruct E as [[<- <-] Hl]. by apply Hf.
Qed.

Lemma config_of_pinged st rearm now r :
  config_of r{{ hr_heartbeat ::= pinged st rearm now }} = config_of r.
Proof. destruct r as [[] ?]. by destruct rearm. Qed.

Lemma phase_pinged st rearm now r :
  live_monitor r = true ->
  phase_of r{{ hr_heartbeat ::= pinged st rearm now }} =
    (if bool_decide (st = StatusPaused) then Suspended else if bool_decide (st = StatusDown) then Alarm
     else if rearm then Watch (now + h_PeriodSeconds (hr_heartbeat r) * ns) else phase_of r{{ hr_heartbeat ::= pinged st false now }}).
Proof. destruct r as [[] d]. unfold phase_of, live_monitor. simpl. intros ->. simpl. destruct rearm; [done|]. by repeat case_bool_decide. Qed.

Lemma live_not_gone r : live_monitor r = true -> phase_of r <> Gone.
Proof. unfold phase_of. intros ->. simpl. repeat case_match; done. Qed.

Lemma insert_ping_ret id kind ip ua w x w' :
  insert_ping id kind ip ua w = (Ret x, w') -> monitors (w_db w') = monitors (w_db w).
Proof.
  intros [H _]%exec_ret. cbv beta in H. destruct (heartbeat_pings _ !! _); [done|]. injection H as <- _.
  by destruct (w_db w) as [? ? ? ? [] ? ?].
Qed.

Lemma set_heartbeat_ret id f w h w' :
  set_heartbeat id f w = (Ret h, w') ->
  monitors (w_db w') = alter (fun r => r{{ hr_heartbeat ::= f (sql_now w) }}) id (monitors (w_db w)).
Proof.
  intros [H _]%exec_ret. cbv beta in H. destruct (heartbeats _ !! _); [|done]. injection H as <- _.
  by destruct (w_db w) as [? ? ? ? [] ? ?].
Qed.

Lemma RecordPing_step token kind ip ua w :
  monitors_wf (w_db w) -> all_step (SPing token kind) (w_db w) (w_db (RecordPing token kind ip ua w).2).
Proof.
  intros Hwf. unfold RecordPing. destruct (negb (validKind kind)) eqn:Ek; [by apply all_step_same|].
  match goal with |- context [tx ?b] => destruct (tx_cases b w) as [->|(w0 & a & w2 & Hdb & H & ->)] end;
    [by apply all_step_same|].
  apply bind_ret in H as (h & w1 & Hq & H). ret_inv.
  all: apply fmap_Some in H1 as (r & Hr & ->); apply head_select_Some in Hr as [[Htok Hl]%andb_true_iff [k Hk]];
    apply bool_decide_eq_true in Htok; rewrite Hdb in *;
    pose proof (proj1 Hwf _ _ Hk) as Hid; simpl in Hid.
  - apply all_step_same; [done|]. by rewrite (insert_ping_ret _ _ _ _ _ _ _ H0), Hq.
  - match goal with Hs : set_heartbeat _ _ _ = _ |- _ => apply set_heartbeat_ret in Hs as Hm end.
    rewrite (insert_ping_ret _ _ _ _ _ _ _ H0), Hq, Hid in Hm.
    apply (all_step_alter _ _ _ _ _ r Hwf Hm Hk); [apply config_of_pinged|]. rewrite phase_pinged by done.
    unfold validKind in Ek. rewrite negb_false_iff, !orb_true_iff, !bool_decide_eq_true in Ek.
    rewrite <- Htok. change (h_PingToken (hr_heartbeat r)) with (c_token (config_of r)).
    pose proof (live_not_gone r Hl).
    destruct Ek as [[->| ->]| ->]; [by apply m_ok|done|by apply m_fail].
Qed.

Lemma MarkOverdueDown_step w :
  monitors_wf (w_db w) -> all_step SSweep (w_db w) (w_db (MarkOverdueDown w).2).
Proof.
  intros Hwf. unfold MarkOverdueDown.
  match goal with |- context [exec ?f w] => destruct (exec_cases f w) as [->|[l Heq]]; [by apply all_step_same|] end.
  cbv zeta in Heq. apply inr_pair in Heq as [Heq _]. rewrite <- Heq.
  eapply (all_step_map _ _ _ (fun _ => _) Hwf); [intros k; apply lookup_monitors_update|].
  intros k r Hk. cbv beta. destruct (lapsing _ _ r) eqn:E; [|split; [done|constructor]].
  split; [by destruct r as [[] ?]|]. unfold lapsing in E. cbv zeta in E.
  destruct (accounts _ !! _); [|done]. destruct (h_ExpectedBy (hr_heartbeat r)) as [due|] eqn:Ed; [|done].
  rewrite !andb_true_iff, orb_true_iff, !bool_decide_eq_true in E. destruct E as [[[[Hl _] Hst] Hdue%Z.ltb_lt] _].
  assert (phase_of r = Watch due) as ->.
  { unfold phase_of. rewrite Hl, Ed. simpl. by destruct Hst as [->| ->]. }
  assert (phase_of r{{ hr_heartbeat -> h_Status := StatusDown }} = Alarm) as ->.
  { unfold phase_of. destruct r as [[] d]. unfold live_monitor in *. simpl in *. by rewrite Hl. }
  by eapply m_overdue.
Qed.

Lemma Create_step h w : monitors_wf (w_db w) -> all_step SOther (w_db w) (w_db (Create h w).2).
Proof.
  intros Hwf. unfold Create, newToken.
  match goal with |- context [(?m ≫= _) w] => assert (forall o w1, m w = (o, w1) -> w_db w1 = w_db w) as Ht end.
  { intros o w1. unfold must_rand, rand_Read, try, panic, mbind, M_bind, mret, M_ret. destruct (rand_bytes _ _); simpl; by intros [= _ <-]. }
  unfold mbind at 1, M_bind at 1. destruct ((must_rand 18 ≫= _) w) as [[tok|e|] w1] eqn:E; simpl; specialize (Ht _ _ eq_refl);
    [|by apply all_step_same; rewrite ?Ht..].
  match goal with |- context [insert_heartbeat ?x w1] => generalize x; intros h' end.
  rewrite <- Ht. rewrite <- Ht in Hwf. unfold insert_heartbeat.
  match goal with |- context [exec ?f w1] => destruct (exec_cases f w1) as [->|[x Heq]]; [by apply all_step_same|] end.
  cbv beta zeta in Heq. repeat case_match; try discriminate Heq. apply inr_pair in Heq as [Heq _]. rewrite <- Heq.
  match goal with |- context [mkHeartbeatRow ?x None] => set (new := mkHeartbeatRow x None); set (id := env_uuid (w_tick w1)) end.
  assert (monitors (w_db w1){{ monitor_db -> heartbeats ::= <[ id := new ]> }} = <[ id := new ]> (monitors (w_db w1))) as Hm
    by (by destruct (w_db w1) as [? ? ? ? [] ? ?]).
  match goal with Hx : heartbeats (monitor_db (w_db w1)) !! _ = None |- _ => rename Hx into Hnone end.
  match goal with Hx : sql_exists _ _ = false |- _ => rewrite sql_exists_false in Hx; rename Hx into Hfresh end.
  destruct Hwf as [Hk Hu].
  assert (forall k r, monitors (w_db w1) !! k = Some r -> h_PingToken (hr_heartbeat r) <> h_PingToken (hr_heartbeat new)) as Hf.
  { intros k r Hr. specialize (Hfresh _ _ Hr). rewrite bool_decide_eq_false in Hfresh. by destruct h'. }
  split; [split|].
  - intros k r. rewrite Hm, lookup_insert. case_decide; [intros [= <-]|apply Hk]. subst k. by destruct h'.
  - intros k1 k2 r1 r2. rewrite Hm, !lookup_insert. repeat case_decide; subst; try naive_solver.
  - intros k r Hr. exists r. rewrite Hm, lookup_insert_ne by (intros <-; unfold monitors, id in *; congruence).
    split; [done|]. split; [done|constructor].
Qed.

Inductive store_trace : list signal -> World DB -> World DB -> Prop :=
| st_nil w : store_trace [] w w
| st_cons e es w1 w2 w3 : store_op e w1 w2 -> store_trace es w2 w3 -> store_trace (e :: es) w1 w3.

Lemma PrunePings_monitors d w : monitors (w_db (PrunePings d w).2) = monitors (w_db w).
Proof.
  unfold PrunePings, mbind, M_bind, time_Now.
  match goal with |- context [update_n ?g ?w] => destruct (update_n_cases g w) as [->| ->] end; [done|].
  simpl. by destruct (w_db w) as [? ? ? ? [] ? ?].
Qed.

Lemma store_op_step e w w' : monitors_wf (w_db w) -> store_op e w w' -> all_step e (w_db w) (w_db w').
Proof.
  intros Hwf Hop. destruct Hop as [token kind ip ua v|v|a i v|a i v|a i v|h v|d v].
  - by apply RecordPing_step.
  - by apply MarkOverdueDown_step.
  - apply exec1_step; [done|]. intros now r <- <- Hl. split; [by destruct r as [[] ?]|].
    change (h_ID (hr_heartbeat r)) with (c_id (config_of r)). change (h_AccountID (hr_heartbeat r)) with (c_acct (config_of r)).
    assert (phase_of r{{ hr_heartbeat -> h_Status := StatusPaused; hr_heartbeat -> h_ExpectedBy := None }} = Suspended) as ->
      by (unfold phase_of, live_monitor in *; destruct r as [[] d]; simpl in *; by rewrite Hl).
    by apply m_pause, live_not_gone.
  - apply exec1_step; [done|]. intros now r <- <- Hl. split; [by destruct r as [[] ?]|].
    change (h_ID (hr_heartbeat r)) with (c_id (config_of r)). change (h_AccountID (hr_heartbeat r)) with (c_acct (config_of r)).
    assert (phase_of r{{ hr_heartbeat ::= fun h => h{{ h_Status := StatusNew; h_ExpectedBy := Some (now + h_PeriodSeconds h * ns) }} }}
      = Watch (now + c_period (config_of r) * ns)) as ->
      by (unfold phase_of, live_monitor in *; destruct r as [[] d]; simpl in *; by rewrite Hl).
    by apply m_resume, live_not_gone.
  - apply exec1_step; [done|]. intros now r <- <- Hl. split; [by destruct r as [[] ?]|].
    change (h_ID (hr_heartbeat r)) with (c_id (config_of r)). change (h_AccountID (hr_heartbeat r)) with (c_acct (config_of r)).
    assert (phase_of r{{ hr_deleted_at := Some now }} = Gone) as -> by (by destruct r as [[] d]). apply m_delete.
  - by apply Create_step.
  - apply all_step_same; [done|apply PrunePings_monitors].
Qed.

Lemma store_op_wf e w w' : monitors_wf (w_db w) -> store_op e w w' -> monitors_wf (w_db w').
Proof. intros Hwf Hop. by destruct (store_op_step e w w' Hwf Hop). Qed.

Lemma monitor_refines_aux es w w' k r :
  monitors_wf (w_db w) -> store_trace es w w' -> monitors (w_db w) !! k = Some r ->
  exists r', monitors (w_db w') !! k = Some r' /\ config_of r' = config_of r /\
    mon_trace (config_of r) es (phase_of r) (phase_of r') /\
    (phase_of r <> Stuck -> phase_of r' <> Stuck) /\ monitors_wf (w_db w').
Proof.
  intros Hwf Ht. revert r Hwf. induction Ht as [w|e es w1 w2 w3 Hop _ IH]; intros r Hwf Hr.
  { exists r. split; [done|]. split; [done|]. split; [constructor|done]. }
  destruct (store_op_step _ _ _ Hwf Hop) as [Hwf2 Hall]. destruct (Hall _ _ Hr) as (r2 & Hr2 & Hc2 & Hs2).
  destruct (IH r2 Hwf2 Hr2) as (r3 & Hr3 & Hc3 & Ht3 & Hst3 & Hwf3). rewrite Hc2 in *.
  exists r3. split; [done|]. split; [congruence|]. split; [by econstructor|]. split; [|done].
  intros Hns. apply Hst3. by destruct Hs2.
Qed.


(** ** The sweep *)

Lemma lapsing_phase now db r :
  lapsing now db r = true -> exists due, phase_of r = Watch due /\ due + c_grace (config_of r) * ns < now.
Proof.
  unfold lapsing. cbv zeta. destruct (accounts _ !! _); [|done].
  destruct (h_ExpectedBy (hr_heartbeat r)) as [due|] eqn:Ed; [|done].
  rewrite !andb_true_iff, orb_true_iff, !bool_decide_eq_true, Z.ltb_lt. intros [[[[Hl _] Hst] Hdue] _].
  exists due. split; [|done]. unfold phase_of. rewrite Hl, Ed. simpl. by destruct Hst as [->| ->].
Qed.

(** Neither a ping of the token nor a resume. *)
Definition quiet (c : config) (e : signal) : Prop :=
  match e with SPing t _ => t <> c_token c | SResume a i => a <> c_acct c \/ i <> c_id c | _ => True end.

Lemma quiet_trace c es s s' :
  Forall (quiet c) es -> (forall d, s <> Watch d) -> mon_trace c es s s' -> forall d, s' <> Watch d.
Proof.
  intros Hq Hs Ht. revert Hq Hs. induction Ht as [s|e es s1 s2 s3 Hstep _ IH]; [done|].
  intros [Hq Hqs]%Forall_cons Hs. apply IH; [done|]. destruct Hstep; simpl in *; try done; naive_solver.
Qed.

(** a sweep reports exactly the overdue monitors, and an outage once.
    MarkOverdueDown returns the monitors that are active past deadline plus
    grace in a live account off an ended trial, and no others; and until a
    monitor it returned is pinged or resumed, no later sweep, whatever else
    happens, returns it again. *)
Theorem sweep_alerts_once w l w1 :
  monitors_wf (w_db w) -> MarkOverdueDown w = (Ret l, w1) ->
  (forall k, (exists h, h ∈ l /\ h_ID h = k) <->
     exists r, monitors (w_db w) !! k = Some r /\ lapsing (sql_now w) (w_db w) r = true) /\
  (forall es w2 l2 w3 h r, h ∈ l -> monitors (w_db w) !! h_ID h = Some r -> Forall (quiet (config_of r)) es ->
     store_trace es w1 w2 -> MarkOverdueDown w2 = (Ret l2, w3) -> forall h2, h2 ∈ l2 -> h_ID h2 <> h_ID h).
Proof.
  intros Hwf Hm.
  assert (forall w l w1, monitors_wf (w_db w) -> MarkOverdueDown w = (Ret l, w1) ->
    forall k, (exists h, h ∈ l /\ h_ID h = k) <->
     exists r, monitors (w_db w) !! k = Some r /\ lapsing (sql_now w) (w_db w) r = true) as Hl.
  { clear. intros w l w1 Hwf [H _]%exec_ret. cbv beta zeta in H. apply inr_pair in H as [_ <-]. intros k. split.
    - intros (h & (r & -> & [Hp [k' Hk]]%elem_of_sql_select)%list_elem_of_fmap & <-).
      exists r. split; [|done]. rewrite <- (proj1 Hwf _ _ Hk) in Hk. by destruct r as [[] ?].
    - intros (r & Hr & Hp). eexists. split; [apply list_elem_of_fmap; exists r; split; [reflexivity|];
        apply elem_of_sql_select; split; [done|by exists k]|]. rewrite <- (proj1 Hwf _ _ Hr). by destruct r as [[] ?]. }
  split; [by apply (Hl _ _ _ Hwf Hm)|].
  intros es w2 l2 w3 h r Hh Hr Hq Ht Hm2 h2 Hh2 Heq.
  pose proof (f_equal snd Hm) as Hw1. simpl in Hw1. subst w1.
  destruct (MarkOverdueDown_step w Hwf) as [Hwf1 Hall]. destruct (Hall _ _ Hr) as (r1 & Hr1 & Hc1 & _).
  assert (forall d, phase_of r1 <> Watch d) as Hnw.
  { destruct (proj1 (Hl _ _ _ Hwf Hm (h_ID h))) as (r0 & Hr0 & Hlap); [by exists h|]. rewrite Hr in Hr0. injection Hr0 as <-.
    pose proof Hm as [Hex _]%exec_ret. cbv beta zeta in Hex. apply inr_pair in Hex as [Hdb _].
    rewrite <- Hdb, lookup_monitors_update, Hr in Hr1. simpl in Hr1. rewrite Hlap in Hr1. injection Hr1 as <-.
    intros d. unfold phase_of. destruct r as [[] dd]. unfold live_monitor. simpl. by case_bool_decide. }
  destruct (monitor_refines_aux es _ w2 (h_ID h) r1 Hwf1 Ht Hr1) as (r2 & Hr2 & _ & Htr & _ & Hwf2).
  rewrite Hc1 in Htr.
  destruct (proj1 (Hl _ _ _ Hwf2 Hm2 (h_ID h))) as (r3 & Hr3 & Hlap3); [by exists h2|].
  rewrite Hr2 in Hr3. injection Hr3 as <-. apply lapsing_phase in Hlap3 as (due & Hp & _).
  by destruct (quiet_trace _ _ _ _ Hq Hnw Htr due).
Qed.
End steps.

(** A monitor of the demo account that was due long ago. *)
Definition late_monitor : Heartbeat :=
  mkHeartbeat 60 1 2 "nightly" "nightly" "tok" 3600 300 StatusUp (Some (1700000000 * ns)) (Some (1700003600 * ns)) 0.
Definition late_db : DB := demo_db{{ monitor_db -> heartbeats := {[ 60%N := mkHeartbeatRow late_monitor None ]} }}.

Lemma late_db_wf : monitors_wf late_db.
Proof.
  unfold monitors_wf.
  change (monitors late_db) with ({[ 60%N := mkHeartbeatRow late_monitor None ]} : gmap uuid HeartbeatRow).
  setoid_rewrite lookup_singleton_Some. split; [by intros k r [<- <-]|]. by intros k1 k2 r1 r2 [<- _] [<- _].
Qed.


Lemma sweep_alerts_once_witness :
  match (MarkOverdueDown (env:=demo_env) (MarkOverdueDown (env:=demo_env) (world late_db)).2).1 with
  | Ret l2 => Forall (fun h2 => h_ID h2 <> 60%N) l2 | _ => True end.
Proof.
  set (w1 := (MarkOverdueDown (env:=demo_env) (world late_db)).2).
  destruct (MarkOverdueDown (env:=demo_env) w1) as [[l2|e|] w3] eqn:H2; simpl; [|exact I..].
  apply Forall_forall. intros h2 Hh2.
  assert (MarkOverdueDown (env:=demo_env) (world late_db) = (Ret [late_monitor{{ h_Status := StatusDown }}], w1)) as H1
    by (vm_compute; reflexivity).
  refine (proj2 (sweep_alerts_once (env:=demo_env) (world late_db) _ w1 late_db_wf H1) [] w1 l2 w3
    late_monitor{{ h_Status := StatusDown }} (mkHeartbeatRow late_monitor None) _ _ _ _ H2 h2 Hh2).
  - left.
  - reflexivity.
  - apply Forall_nil_2.
  - constructor.
Defined.

(** The sweeper's trial test is not the scheduler's: an account comped to
    unlimited while its trial lapsed counts as active for drills, yet its
    overdue monitors are never turned down. *)
Lemma unlimited_account_never_alerted :
  exists (env : Env) (w w' : World DB) r a,
    monitors (w_db w) !! 60%N = Some r /\ accounts (account_db (w_db w)) !! h_AccountID (hr_heartbeat r) = Some a /\
    Overdue (hr_heartbeat r) (sql_now w) = true /\ TrialLapsed (sql_now w) (acr_account a) = false /\
    MarkOverdueDown (env:=env) w = (Ret [], w').
Proof.
  exists demo_env, (world late_db{{ account_db -> accounts := {[ 1%N :=
    mkAccountRow (mkAccount 1 "Acme" "acme" None PlanTrial 0 (Some (1700000000 * ns)) None true) None None None None ]} }}).
  eexists _, (mkHeartbeatRow late_monitor None), _.
  split; [reflexivity|]. split; [reflexivity|]. split; [reflexivity|]. split; [reflexivity|].
  vm_compute. reflexivity.
Qed.
