(* ===== verification/EvidenceFacts.v ===== *)
(** Properties of the evidence component: evidence stays readable and
    verifiable across key rotation, re-wrapping and clean-ups, shredding is
    final, and the published verifier agrees with the service. *)
From S2P Require Import Prelude Crypto Aes Effects Schema Encoding Path Time Cipher Signer EvidenceStore Evidence DrillStore Steps Demo AccountFacts.

(** ** Sealing and opening *)

Definition dek_of (c : Cipher) (a : uuid) (wrapped : string) : option string :=
  first_open (active c :: retired c) a wrapped.

Section cipher_facts.
Context `{env : Env} `{rand : Rand} `{rand_ok : !RandOk}.
Implicit Types (c : Cipher) (a : uuid).

Lemma openAAD_seal k nonce text aad :
  String.length nonce = GCM.NonceSize -> openAAD k (nonce +:+ GCM.Seal k nonce text aad) aad = inr text.
Proof.
  intros Hn. unfold openAAD. rewrite length_append, Hn.
  rewrite (proj2 (Nat.ltb_ge _ _)) by lia.
  rewrite (Nat.add_comm GCM.NonceSize), Nat.add_sub, <- Hn, substring_app_l, substring_app_r. by rewrite Open_Seal.
Qed.

Lemma sealAAD_ret k text aad w b w' :
  sealAAD k text aad w = (Ret b, w') -> openAAD k b aad = inr text /\ w_db w' = w_db w.
Proof.
  unfold sealAAD. intros (nonce & w1 & [Hdb Hn]%rand_Read_ret & [= <- <-])%bind_ret.
  split; [|done]. by apply openAAD_seal, (rand_length (w_tick w)).
Qed.

Lemma preserves_sealAAD I k text aad : preserves I (sealAAD k text aad).
Proof. unfold sealAAD. preserve. Qed.

Lemma dek_active c a wrapped raw : openAAD (active c) wrapped (uuid_bytes a) = inr raw -> dek_of c a wrapped = Some raw.
Proof. unfold dek_of. simpl. by intros ->. Qed.
Lemma dek_retired c a wrapped e :
  openAAD (active c) wrapped (uuid_bytes a) = inl e -> dek_of c a wrapped = first_open (retired c) a wrapped.
Proof. unfold dek_of. simpl. by intros ->. Qed.

Lemma classify_poison c a wrapped : classify c a wrapped = ClassPoison <-> dek_of c a wrapped = None.
Proof.
  unfold classify. destruct (openAAD (active c) wrapped _) as [e|raw] eqn:E.
  - rewrite (dek_retired c a wrapped e E). by destruct (first_open _ _ _).
  - by rewrite (dek_active c a wrapped raw E).
Qed.

(** ** What keeps one piece of evidence alive *)

(** Account [a]'s DEK is [raw], file [key] holds [blob] in the view of the
    store, drill [d] has signature record [rec]. *)
Context `{ed : Ed25519} `{store : EvidenceStore} `{store_ok : !EvidenceStoreOk store}.

Record kept (c : Cipher) (d : uuid) (a : uuid) (key raw blob : string) (rec : SignatureRecord) (db : DB) : Prop := mkKept {
  kept_dek : exists wrapped, account_evidence_keys (evidence_db db) !! a = Some wrapped /\ dek_of c a wrapped = Some raw;
  kept_file : st_view db key = Some blob;
  kept_sig : evidence_signatures (evidence_db db) !! d = Some rec
}.

Section keeping.
Context (c : Cipher) (d a : uuid) (key raw blob : string) (rec : SignatureRecord).
Notation K := (kept c d a key raw blob rec).

(** A row for [b] that does no harm to [a]'s key. *)
Definition good_row (b : uuid) (wrapped : string) : Prop := b = a -> dek_of c a wrapped = Some raw.

Lemma kept_row db b wrapped : K db -> account_evidence_keys (evidence_db db) !! b = Some wrapped -> good_row b wrapped.
Proof. intros [(w0 & Hw & Hd) _ _] Hb ->. by simplify_eq. Qed.

Lemma kept_keys db f :
  K db -> (forall wrapped, account_evidence_keys (evidence_db db) !! a = Some wrapped ->
     exists wrapped', f (account_evidence_keys (evidence_db db)) !! a = Some wrapped' /\
       (dek_of c a wrapped = Some raw -> dek_of c a wrapped' = Some raw)) ->
  K (db{{ evidence_db -> account_evidence_keys ::= f }}).
Proof.
  intros [(w0 & Hw & Hd) Hf Hs] Hk. destruct (Hk _ Hw) as (w1 & H1 & H2). split.
  - exists w1. split; [by destruct db|by apply H2].
  - rewrite <- Hf. by apply (f_equal (fun v => v key)), st_view_files.
  - by destruct db.
Qed.

Lemma kept_set_wrapped b wrapped : good_row b wrapped -> preserves K (set_wrapped b wrapped).
Proof.
  intros Hg. apply preserves_update. intros t db HK. apply kept_keys; [done|].
  intros w0 Hw. rewrite lookup_alter. case_decide as Hb; [subst b|by eauto]. rewrite Hw. exists wrapped. split; [done|]. auto.
Qed.

Lemma kept_unwrap b wrapped : good_row b wrapped -> preserves K (unwrapDEK c b wrapped).
Proof.
  intros Hg. unfold unwrapDEK. destruct (openAAD (active c) wrapped _) as [e|raw'] eqn:E; [|apply preserves_ret].
  destruct (first_open (retired c) b wrapped) as [raw'|] eqn:Ef; [|apply preserves_fail].
  eapply preserves_bind_ret; [apply preserves_try, preserves_sealAAD| |].
  - intros w r w' _ Hr.
    instantiate (1 := fun r => match r with inr s => openAAD (active c) s (uuid_bytes b) = inr raw' | inl _ => True end).
    destruct r as [|s]; [done|]. apply try_ret in Hr. by apply sealAAD_ret in Hr as [Hr _].
  - intros r Hr. apply preserves_bind; [|intros; apply preserves_ret]. destruct r as [|s]; [apply preserves_ret|].
    apply preserves_ignore, kept_set_wrapped. intros ->.
    rewrite (dek_active c a s raw' Hr). specialize (Hg eq_refl). by rewrite (dek_retired c a wrapped e E), Ef in Hg.
Qed.

Lemma kept_insert_dek b wrapped : preserves K (insert_dek b wrapped).
Proof.
  apply preserves_exec. intros t u db db' x HK Heq. repeat case_match; simplify_eq; [done|].
  apply kept_keys; [done|]. intros w0 Hw. rewrite lookup_insert_ne by congruence. eauto.
Qed.

Lemma kept_mint b : preserves K (mintDEK c b).
Proof.
  unfold mintDEK. apply preserves_bind; [preserve|intros r].
  apply preserves_bind; [apply preserves_sealAAD|intros wrapped].
  apply preserves_bind; [apply kept_insert_dek|intros; apply preserves_query_row].
Qed.

Lemma loaded_good b w w0 w' : K (w_db w) -> loadWrappedDEK b w = (Ret w0, w') -> good_row b w0.
Proof. intros HK [H _]%query_row_ret. by eapply kept_row. Qed.

Lemma kept_accountDEK b create : preserves K (accountDEK c b create).
Proof.
  unfold accountDEK.
  eapply (preserves_bind_ret K _ _ (fun r => match r with inr w0 => good_row b w0 | inl _ => True end));
    [apply preserves_try, preserves_query_row| |].
  { intros w [e|w0] w' HK Hr; [done|]. apply try_ret in Hr. by eapply loaded_good. }
  intros r Hr.
  eapply (preserves_bind_ret K _ _ (good_row b)).
  - destruct r as [e|w0]; [|apply preserves_ret]. destruct (errors_Is _ _); [|apply preserves_fail].
    destruct create; [apply kept_mint|apply preserves_fail].
  - intros w w0 w' HK. destruct r as [e|w1]; [|by intros [= <- _]]. destruct (errors_Is _ _); [|done].
    destruct create; [|done]. unfold mintDEK. intros (x & w1 & Hx & H)%bind_ret.
    pose proof (preserves_rand_Read K 32 w HK) as HK1. rewrite Hx in HK1.
    apply bind_ret in H as (s & w2 & Hs & H). pose proof (preserves_sealAAD K (active c) x (uuid_bytes b) w1 HK1) as HK2.
    rewrite Hs in HK2. apply bind_ret in H as (u & w3 & Hi & H). eapply loaded_good; [|exact H].
    pose proof (kept_insert_dek b s w2 HK2) as HK3. by rewrite Hi in HK3.
  - intros w0 Hg. apply preserves_bind; [by apply kept_unwrap|]. intros; apply preserves_lift.
Qed.

Lemma kept_Encrypt b pdf : preserves K (Encrypt c b pdf).
Proof. apply preserves_bind; [apply kept_accountDEK|intros; apply preserves_sealAAD]. Qed.
Lemma kept_Decrypt b x : preserves K (Decrypt c b x).
Proof. apply preserves_bind; [apply kept_accountDEK|intros; apply preserves_lift]. Qed.

Lemma kept_rewrap rows n m :
  (forall b wrapped, (b, wrapped) ∈ rows -> good_row b wrapped) -> preserves K (rewrap_rows c rows n m).
Proof.
  revert n m. induction rows as [|[b wrapped] rows IH]; intros n m Hg; simpl; [apply preserves_ret|].
  assert (forall n m, preserves K (rewrap_rows c rows n m)) as HI by (intros; apply IH; intros; apply Hg; by right).
  pose proof (Hg b wrapped ltac:(left)) as Hb. unfold classify.
  destruct (openAAD (active c) wrapped _) as [e|raw'] eqn:E; [|apply HI].
  destruct (first_open (retired c) b wrapped) as [raw'|] eqn:Ef; [|apply HI].
  eapply (preserves_bind_ret K _ _ (fun s => openAAD (active c) s (uuid_bytes b) = inr raw'));
    [apply preserves_sealAAD|intros ? ? ? _ Hs; by apply sealAAD_ret in Hs as [Hs _]|].
  intros s Hs. apply preserves_bind; [|intros; apply HI]. apply kept_set_wrapped. intros ->.
  rewrite (dek_active c a s raw' Hs). specialize (Hb eq_refl). by rewrite (dek_retired c a wrapped e E), Ef in Hb.
Qed.

Lemma rows_good w rows w' : K (w_db w) -> wrapped_rows w = (Ret rows, w') ->
  forall b wrapped, (b, wrapped) ∈ rows -> good_row b wrapped.
Proof.
  intros HK [-> _]%query_ret b wrapped Hin%elem_of_map_to_list. by eapply kept_row.
Qed.

Lemma kept_RewrapAll : preserves K (RewrapAll c).
Proof.
  eapply preserves_bind_ret; [apply preserves_query| |].
  - intros w rows w' HK Hr. exact (rows_good w rows w' HK Hr).
  - intros rows Hg. by apply kept_rewrap.
Qed.

Lemma kept_Shred b : b <> a -> preserves K (ShredAccount b).
Proof.
  intros Hb. apply preserves_update. intros t db HK. apply kept_keys; [done|].
  intros w0 Hw. rewrite lookup_delete_ne by done. eauto.
Qed.

Lemma audit_poison rows acc b :
  b ∈ ka_Poison (foldl (audit_row c) acc rows) <->
  b ∈ ka_Poison acc \/ exists wrapped, (b, wrapped) ∈ rows /\ dek_of c b wrapped = None.
Proof.
  revert acc. induction rows as [|[b' wrapped] rows IH]; intros acc; simpl.
  - split; [by left|]. intros [?|(? & []%not_elem_of_nil & _)]. done.
  - rewrite IH. unfold audit_row at 1. simpl.
    pose proof (classify_poison c b' wrapped) as Hc.
    assert (ka_Poison (audit_row c acc (b', wrapped)) =
      ka_Poison acc ++ (if decide (dek_of c b' wrapped = None) then [b'] else [])) as Hk.
    { unfold audit_row. simpl. destruct (classify c b' wrapped) eqn:E; destruct acc; simpl; case_decide as Hd;
        rewrite ?app_nil_r; try done; rewrite <- Hc in Hd; congruence. }
    unfold audit_row in Hk. simpl in Hk. rewrite Hk, elem_of_app. setoid_rewrite elem_of_cons. case_decide.
    + rewrite list_elem_of_singleton. naive_solver.
    + rewrite elem_of_nil. naive_solver.
Qed.

Lemma kept_ShredPoison : preserves K (ShredPoison c).
Proof.
  unfold ShredPoison.
  eapply (preserves_bind_ret K _ _ (fun au => a ∉ ka_Poison au)).
  - unfold Audit. apply preserves_bind; [apply preserves_query|intros; apply preserves_ret].
  - intros w au w' HK. unfold Audit. intros (rows & w1 & Hr & [= <- _])%bind_ret.
    intros [H|(wrapped & Hin & Hd)]%audit_poison; [by apply not_elem_of_nil in H|].
    pose proof (rows_good w rows w1 HK Hr a wrapped Hin eq_refl). congruence.
  - intros au Ha. apply preserves_bind; [|intros; apply preserves_ret].
    induction (ka_Poison au) as [|b l IH]; simpl; [apply preserves_ret|].
    apply not_elem_of_cons in Ha as [Hb Ha]. apply preserves_bind; [by apply kept_Shred|intros; by apply IH].
Qed.

(** *** Files and signatures *)

Lemma kept_Put id content : key <> st_key id -> preserves K (st_Put id content).
Proof.
  intros Hk w [Hd Hf Hs]. split.
  - assert (account_evidence_keys (evidence_db (w_db (st_Put id content w).2)) = account_evidence_keys (evidence_db (w_db w)))
      as -> by (apply (Put_frame (fun db => account_evidence_keys (evidence_db db))); by intros f [? ? ? ? ? ? ? []]). done.
  - by rewrite Put_others.
  - assert (evidence_signatures (evidence_db (w_db (st_Put id content w).2)) = evidence_signatures (evidence_db (w_db w)))
      as -> by (apply (Put_frame (fun db => evidence_signatures (evidence_db db))); by intros f [? ? ? ? ? ? ? []]). done.
Qed.
Lemma kept_Delete key' : key <> key' -> preserves K (st_Delete key').
Proof.
  intros Hk w [Hd Hf Hs]. split.
  - assert (account_evidence_keys (evidence_db (w_db (st_Delete key' w).2)) = account_evidence_keys (evidence_db (w_db w)))
      as -> by (apply (Delete_frame (fun db => account_evidence_keys (evidence_db db))); by intros f [? ? ? ? ? ? ? []]). done.
  - by rewrite Delete_others.
  - assert (evidence_signatures (evidence_db (w_db (st_Delete key' w).2)) = evidence_signatures (evidence_db (w_db w)))
      as -> by (apply (Delete_frame (fun db => evidence_signatures (evidence_db db))); by intros f [? ? ? ? ? ? ? []]). done.
Qed.

Lemma kept_sigs db f :
  K db -> f (evidence_signatures (evidence_db db)) !! d = Some rec -> K (db{{ evidence_db -> evidence_signatures ::= f }}).
Proof.
  intros [Hd Hf Hs] Hr. split; [by destruct db as [? ? ? ? ? ? ? []]| |by destruct db as [? ? ? ? ? ? ? []]].
  rewrite <- Hf. apply (f_equal (fun v => v key)), st_view_files. by destruct db as [? ? ? ? ? ? ? []].
Qed.

Lemma kept_ReadAll k : preserves K (st_ReadAll k).
Proof. intros w HK. by rewrite ReadAll_view. Qed.
End keeping.
End cipher_facts.

(** ** The service *)

Section service_facts.
Context `{env : Env} `{uuids : UuidLib} `{uuid_ok : !UuidOk} `{uuid_name : !UuidName} `{rand : Rand} `{rand_ok : !RandOk}.
Context `{ed : Ed25519} `{ed_ok : !Ed25519Ok} `{store : EvidenceStore} `{store_ok : !EvidenceStoreOk store}.
Implicit Types (c : Cipher) (a d : uuid).

(** A signer as NewSigner builds it: the active key is a verification key. *)
Definition signer_ok (s : Signer) : Prop :=
  sn_publicKeyID s = keyID (ed_Public (sn_priv s)) /\
  sn_verifyKeys s !! sn_publicKeyID s = Some (ed_Public (sn_priv s)).

Lemma uuid_String_inj d d' : uuid_String d = uuid_String d' -> d = d'.
Proof. intros H. pose proof (uuid_Parse_String d) as H1. rewrite H, uuid_Parse_String in H1. congruence. Qed.

Definition evidence_key (d : uuid) : string := st_key (uuid_String d).
Lemma evidence_key_inj d d' : evidence_key d = evidence_key d' -> d = d'.
Proof.
  intros H. apply uuid_String_inj, (st_key_inj (EvidenceStoreOk := store_ok)); [..|done];
    intros Hin%list_elem_of_In; by apply uuid_String_name in Hin.
Qed.

Section keeping.
Context (signer : Signer) (retention : Z) (c : Cipher) (d a : uuid) (key raw blob : string) (rec : SignatureRecord).
Notation K := (kept c d a key raw blob rec).

Lemma kept_Finalize d' b pdf : key = evidence_key d -> d' <> d -> preserves K (Finalize signer c retention d' b pdf).
Proof.
  intros -> Hd. unfold Finalize. apply preserves_bind; [apply preserves_now|intros now].
  apply preserves_bind; [apply preserves_wrap_err, kept_Encrypt|intros x].
  apply preserves_bind; [apply kept_Put; by intros Hk%evidence_key_inj|intros k].
  apply preserves_bind; [|intros; apply preserves_ret]. apply preserves_wrap_err, preserves_exec.
  intros t u db db' y HK Heq. case_match; simplify_eq. apply kept_sigs; [done|].
  rewrite lookup_insert_ne by done. apply HK.
Qed.

(** The clean-up leaves a drill alone that is not due and whose file no other
    drill names. *)
Lemma kept_Purge w :
  sql_now w <= RetainUntil rec ->
  (forall d' dr, drills (drill_db (w_db w)) !! d' = Some dr -> d' <> d -> d_EvidencePath dr <> Some key) ->
  K (w_db w) -> K (w_db (PurgeExpired w).2).
Proof.
  intros Hnow Hpath HK. unfold PurgeExpired, mbind, M_bind.
  pose proof (preserves_query K expired w HK) as HK1. destruct (query expired w) as [[l|e|] w1] eqn:E; [|done..].
  simpl in HK1. apply query_ret in E as [-> _].
  assert (forall e, e ∈ expired (sql_now w) (w_db w) -> preserves K (purge_one e)) as Hone.
  { intros [id p] Hin. unfold expired in Hin. apply list_elem_of_omap in Hin as ([id' rc] & Hm & Hx).
    apply elem_of_map_to_list in Hm. destruct (drills (drill_db (w_db w)) !! id') as [dr|] eqn:Hdr; [|done]. simpl in Hx.
    destruct (Z.ltb_spec (RetainUntil rc) (sql_now w)); [|done]. injection Hx as <- <-.
    assert (id' <> d) as Hne by (intros ->; rewrite (kept_sig _ _ _ _ _ _ _ _ HK) in Hm; simplify_eq; lia).
    unfold purge_one. simpl. apply preserves_bind.
    - destruct (d_EvidencePath dr) as [path|] eqn:Ep; [|apply preserves_ret].
      case_bool_decide; [apply preserves_ret|]. apply preserves_wrap_err, kept_Delete.
      intros <-. by apply (Hpath _ _ Hdr).
    - intros _. apply preserves_update. intros t db HK'. apply kept_sigs; [done|].
      rewrite lookup_delete_ne by done. apply HK'. }
  assert (preserves K (for_each (expired (sql_now w) (w_db w)) purge_one)) as Hall.
  { induction (expired (sql_now w) (w_db w)) as [|e l IH]; simpl; [apply preserves_ret|].
    apply preserves_bind; [apply Hone; by left|]. intros _. apply IH. intros e' He'. apply Hone. by right. }
  specialize (Hall w1 HK1). by destruct (for_each _ purge_one w1) as [[]].
Qed.

Lemma kept_Verify d' b k : preserves K (ServiceVerify signer c d' b k).
Proof.
  unfold ServiceVerify, GetSignature.
  apply preserves_bind; [apply preserves_try, preserves_no_rows_as, preserves_query_row|intros [e|rc]].
  { destruct (errors_Is _ _); [apply preserves_ret|apply preserves_fail]. }
  cbv zeta. destruct (VerificationKey _ _); [|apply preserves_ret].
  apply preserves_bind; [apply preserves_try, kept_ReadAll|intros [e|bl]]; [apply preserves_ret|].
  apply preserves_bind; [apply preserves_try, kept_Decrypt|intros [e|pdf]]; [apply preserves_ret|].
  destruct (Signer.Verify _ _ _); apply preserves_ret.
Qed.
Lemma kept_Read b k : preserves K (Read c b k).
Proof. apply preserves_bind; [apply kept_ReadAll|intros; apply kept_Decrypt]. Qed.
End keeping.

(** One step of the life of the evidence system, under the configured keys
    [c]: any call of the service or the cipher, whatever fails in it; adding
    a fresh master key that opens no stored DEK and retiring the old one; and
    dropping the retired keys once no DEK needs them.  Excluded are only what
    ends the life of drill [d]'s evidence on purpose: regenerating it,
    shredding its account, and purging it past its retention. *)
Inductive ev_step (d a : uuid) (until : time) : Cipher * World DB -> Cipher * World DB -> Prop :=
| ev_finalize s ret d' b pdf c w : d' <> d -> ev_step d a until (c, w) (c, (Finalize s c ret d' b pdf w).2)
| ev_encrypt b pdf c w : ev_step d a until (c, w) (c, (Encrypt c b pdf w).2)
| ev_decrypt b x c w : ev_step d a until (c, w) (c, (Decrypt c b x w).2)
| ev_verify s d' b k c w : ev_step d a until (c, w) (c, (ServiceVerify s c d' b k w).2)
| ev_read b k c w : ev_step d a until (c, w) (c, (Read c b k w).2)
| ev_rewrap c w : ev_step d a until (c, w) (c, (RewrapAll c w).2)
| ev_shred_poison c w : ev_step d a until (c, w) (c, (ShredPoison c w).2)
| ev_shred b c w : b <> a -> ev_step d a until (c, w) (c, (ShredAccountEvidence b w).2)
| ev_purge c w :
    sql_now w <= until ->
    (forall d' dr, drills (drill_db (w_db w)) !! d' = Some dr -> d' <> d -> d_EvidencePath dr <> Some (evidence_key d)) ->
    ev_step d a until (c, w) (c, (PurgeExpired w).2)
| ev_rotate k eph c w :
    (forall b wrapped, account_evidence_keys (evidence_db (w_db w)) !! b = Some wrapped ->
       exists e, openAAD k wrapped (uuid_bytes b) = inl e) ->
    ev_step d a until (c, w) (mkCipher k (active c :: retired c) eph, w)
| ev_retire eph c w :
    (forall b wrapped, account_evidence_keys (evidence_db (w_db w)) !! b = Some wrapped ->
       classify c b wrapped <> ClassRetired) ->
    ev_step d a until (c, w) (mkCipher (active c) [] eph, w).

Lemma ev_step_kept d a raw blob rec x y :
  ev_step d a (RetainUntil rec) x y -> kept x.1 d a (evidence_key d) raw blob rec (w_db x.2) ->
  kept y.1 d a (evidence_key d) raw blob rec (w_db y.2).
Proof.
  intros Hs. destruct Hs as [s ret d' b pdf c w Hd|b pdf c w|b x0 c w|s d' b k c w|b k c w|c w|c w|b c w Hb|c w Hnow Hp
    |k eph c w Hk|eph c w Hk]; simpl; intros HK.
  - by apply kept_Finalize.
  - by apply kept_Encrypt.
  - by apply kept_Decrypt.
  - by apply kept_Verify.
  - by apply kept_Read.
  - by apply kept_RewrapAll.
  - by apply kept_ShredPoison.
  - by apply kept_Shred.
  - by apply kept_Purge.
  - destruct HK as [(w0 & Hw & Hd) Hf Hsig]. split; [|done..]. exists w0. split; [done|].
    destruct (Hk _ _ Hw) as [e He]. unfold dek_of. simpl. by rewrite He.
  - destruct HK as [(w0 & Hw & Hd) Hf Hsig]. split; [|done..]. exists w0. split; [done|].
    specialize (Hk _ _ Hw). unfold classify in Hk. unfold dek_of in *. simpl in *.
    destruct (openAAD (active c) w0 _); [|done]. rewrite Hd in Hk. done.
Qed.

(** *** What Finalize leaves behind *)

Definition row_of a db : option string := account_evidence_keys (evidence_db db) !! a.

Lemma loaded_row a w wr w' : loadWrappedDEK a w = (Ret wr, w') -> row_of a (w_db w') = Some wr.
Proof. by intros [H ->]%query_row_ret. Qed.

Lemma unwrap_ret c a wr w raw w' :
  row_of a (w_db w) = Some wr -> unwrapDEK c a wr w = (Ret raw, w') ->
  exists wr', row_of a (w_db w') = Some wr' /\ dek_of c a wr' = Some raw.
Proof.
  intros Hrow. unfold unwrapDEK. destruct (openAAD (active c) wr _) as [e|raw'] eqn:E.
  2:{ intros [= <- <-]. exists wr. split; [done|]. by apply dek_active. }
  destruct (first_open (retired c) a wr) as [raw'|] eqn:Ef; [|done].
  intros (r & w1 & Hr & H)%bind_ret. apply bind_ret in H as (u & w2 & Hu & [= <- <-]).
  assert (row_of a (w_db w1) = Some wr) as Hrow1.
  { pose proof (preserves_try _ _ (preserves_sealAAD (fun db => row_of a db = Some wr) (active c) raw' (uuid_bytes a)) w Hrow) as H.
    by rewrite Hr in H. }
  assert (forall w0, row_of a (w_db w0) = Some wr -> exists wr', row_of a (w_db w0) = Some wr' /\ dek_of c a wr' = Some raw')
    as Hold by (intros w0 H0; exists wr; by rewrite (dek_retired c a wr e E)).
  destruct r as [e'|s]; [injection Hu as <- <-; by apply Hold|]. apply try_ret in Hr as [Hs _]%sealAAD_ret.
  assert (forall db, row_of a db = Some wr ->
    row_of a (db{{ evidence_db -> account_evidence_keys ::= alter (fun _ => s) a }}) = Some s) as Halt.
  { unfold row_of. intros [? ? ? ? ? ? ? []] H0. simpl in *. by rewrite lookup_alter_eq, H0. }
  assert (w_db w2 = w_db (set_wrapped a s w1).2) as Hw2.
  { unfold ignore, try, mbind, M_bind in Hu. destruct (set_wrapped a s w1) as [[[]|e2|] w9]; simpl in Hu;
      [by injection Hu as <- <-|by injection Hu as <- <-|discriminate]. }
  rewrite Hw2. unfold set_wrapped.
  destruct (update_cases (fun _ db => db{{ evidence_db -> account_evidence_keys ::= alter (fun _ => s) a }}) w1) as [->| ->];
    [by apply Hold|exists s; split; [by apply Halt|by apply dek_active]].
Qed.

Lemma accountDEK_ret c a create w raw w' :
  accountDEK c a create w = (Ret raw, w') ->
  (exists wr, row_of a (w_db w') = Some wr /\ dek_of c a wr = Some raw) /\ newAEAD raw = inr raw.
Proof.
  unfold accountDEK. intros (r & w1 & Hr & H)%bind_ret. apply bind_ret in H as (wr & w2 & Hwr & H).
  apply bind_ret in H as (raw0 & w3 & Hu & Hl).
  assert (newAEAD raw0 = inr raw /\ w' = w3) as [Hn ->] by (destruct (newAEAD raw0); [done|by injection Hl as <- <-]).
  assert (raw0 = raw) as -> by (unfold newAEAD in Hn; case_bool_decide; congruence).
  split; [|done]. eapply unwrap_ret; [|exact Hu]. destruct r as [e|w0].
  - destruct (errors_Is _ _); [|done]. destruct create; [|done].
    unfold mintDEK in Hwr. do 3 (apply bind_ret in Hwr as (? & ? & _ & Hwr)). by eapply loaded_row.
  - injection Hwr as <- <-. apply try_ret in Hr. by eapply loaded_row.
Qed.
(** Signing at microseconds survives the database. *)
Lemma micros_idem t : micros (micros t) = micros t.
Proof. unfold micros. by rewrite Z.div_mul. Qed.

Lemma Verify_Sign s pdf t : Signer.Verify (ed_Public (sn_priv s)) pdf (Sign s pdf t) = None.
Proof.
  unfold Signer.Verify, Sign. cbn [Algorithm PDFSHA256 Value SignedAt].
  rewrite !bool_decide_eq_true_2 by done. cbn [negb]. by rewrite StdEncoding_Decode_Encode, ed_Verify_Sign.
Qed.

Lemma Finalize_kept s c ret d a pdf w key w' :
  signer_ok s -> Finalize s c ret d a pdf w = (Ret key, w') ->
  key = evidence_key d /\ exists raw blob t,
    kept c d a key raw blob (mkSignatureRecord (Sign s pdf (micros t)) (micros (micros t + ret))) (w_db w') /\
    newAEAD raw = inr raw /\ open raw blob = inr pdf.
Proof.
  intros Hs. unfold Finalize. intros (t & w1 & _ & H)%bind_ret.
  apply bind_ret in H as (blob & w2 & Henc%wrap_err_ret & H). apply bind_ret in H as (k & w3 & Hput & H).
  apply bind_ret in H as (u & w4 & Hsig%wrap_err_ret & [= <- <-]).
  unfold Encrypt in Henc. apply bind_ret in Henc as (raw & w5 & Hdek & Hseal).
  apply accountDEK_ret in Hdek as [(wr & Hrow & Hd) Hn]. apply sealAAD_ret in Hseal as [Hopen Hdb].
  pose proof (Put_ret _ _ _ _ _ Hput) as [-> Hview]. split; [done|].
  exists raw, blob, t. split; [|done].
  apply exec_ret in Hsig as [Hsig _]. destruct (drills _ !! d); [|done]. apply inr_pair in Hsig as [<- _].
  assert (account_evidence_keys (evidence_db (w_db w3)) = account_evidence_keys (evidence_db (w_db w2))) as Hk.
  { pose proof (Put_frame (fun db => account_evidence_keys (evidence_db db)) (uuid_String d) blob
      (fun f db => ltac:(by destruct db as [? ? ? ? ? ? ? []])) w2) as Hf. by rewrite Hput in Hf. }
  split.
  - exists wr. unfold row_of in Hrow. rewrite <- Hdb, <- Hk in Hrow. split; [by destruct (w_db w3) as [? ? ? ? ? ? ? []]|done].
  - rewrite <- Hview. apply (f_equal (fun v => v (st_key (uuid_String d)))), st_view_files.
    by destruct (w_db w3) as [? ? ? ? ? ? ? []].
  - destruct (w_db w3) as [? ? ? ? ? ? ? []]. simpl. rewrite lookup_insert_eq. unfold Sign. by rewrite micros_idem.
Qed.

(** *** Reading it back when nothing fails *)

Lemma accountDEK_calm c a w wr raw :
  calm_from (w_tick w) -> row_of a (w_db w) = Some wr -> dek_of c a wr = Some raw -> newAEAD raw = inr raw ->
  exists w', accountDEK c a false w = (Ret raw, w').
Proof.
  intros Hc Hrow Hd Hn. unfold accountDEK, try at 1.
  assert (loadWrappedDEK a w = (Ret wr, tick w)) as Hl.
  { apply query_row_some; [by apply Hc|done]. }
  unfold mbind, M_bind. rewrite Hl. simpl. unfold unwrapDEK.
  destruct (openAAD (active c) wr _) as [e|r] eqn:E.
  2:{ rewrite (dek_active c a wr r E) in Hd. injection Hd as <-. simpl. rewrite Hn. by eexists. }
  rewrite (dek_retired c a wr e E) in Hd. rewrite Hd.
  unfold try, sealAAD, rand_Read, lift, mbind, M_bind. simpl.
  destruct (rand_bytes _ _) as [e'|nonce]; simpl; [rewrite Hn; by eexists|].
  unfold ignore, try, mbind, M_bind, set_wrapped, update, exec. simpl. rewrite Hc by (simpl; lia). simpl. rewrite Hn. by eexists.
Qed.

Lemma Decrypt_calm c d a key raw blob rec pdf w :
  calm_from (w_tick w) -> kept c d a key raw blob rec (w_db w) -> newAEAD raw = inr raw -> open raw blob = inr pdf ->
  exists w', Decrypt c a blob w = (Ret pdf, w').
Proof.
  intros Hc [(wr & Hrow & Hd) _ _] Hn Ho. destruct (accountDEK_calm c a w wr raw Hc Hrow Hd Hn) as [w' Hw'].
  exists w'. unfold Decrypt, mbind, M_bind. rewrite Hw', Ho. done.
Qed.

Lemma ReadAll_calm c d a key raw blob rec w :
  calm_from (w_tick w) -> kept c d a key raw blob rec (w_db w) ->
  exists w', st_ReadAll key w = (Ret blob, w') /\ calm_from (w_tick w') /\ kept c d a key raw blob rec (w_db w').
Proof.
  intros Hc HK. destruct (ReadAll_ok key w blob Hc (kept_file _ _ _ _ _ _ _ _ HK)) as (w' & Hr & Hdb & Ht).
  exists w'. split; [done|]. split; [|by rewrite Hdb]. intros m Hm. apply Hc. lia.
Qed.

Lemma ev_steps_kept d a raw blob rec x y :
  rtc (ev_step d a (RetainUntil rec)) x y -> kept x.1 d a (evidence_key d) raw blob rec (w_db x.2) ->
  kept y.1 d a (evidence_key d) raw blob rec (w_db y.2).
Proof. intros Hxy. induction Hxy as [|x y z Hst _ IH]; [done|]. intros Hx. by eapply IH, ev_step_kept. Qed.

Lemma Verify_calm s s2 c d a key raw blob pdf t until w :
  calm_from (w_tick w) -> kept c d a key raw blob (mkSignatureRecord (Sign s pdf t) until) (w_db w) ->
  newAEAD raw = inr raw -> open raw blob = inr pdf ->
  VerificationKey s2 (sn_publicKeyID s) = Some (ed_Public (sn_priv s)) ->
  (ServiceVerify s2 c d a key w).1 = Ret (mkVerifyResult true true "" (sn_publicKeyID s) t until).
Proof.
  intros Hc HK Hn Ho Hvk. unfold ServiceVerify, GetSignature, no_rows_as.
  assert (query_row (fun _ db => evidence_signatures (evidence_db db) !! d) w
          = (Ret (mkSignatureRecord (Sign s pdf t) until), tick w)) as Hq
    by (apply query_row_some; [by apply Hc|exact (kept_sig _ _ _ _ _ _ _ _ HK)]).
  assert (calm_from (w_tick (tick w))) as Hct by (intros m Hm; apply Hc; simpl in Hm; lia).
  destruct (ReadAll_calm _ _ _ _ _ _ _ (tick w) Hct HK) as (w5 & Hr5 & Hc5 & HK5).
  destruct (Decrypt_calm _ _ _ _ _ _ _ _ _ Hc5 HK5 Hn Ho) as [w6 Hdec6].
  unfold try, mbind, M_bind. rewrite Hq. simpl. rewrite Hvk, Hr5, Hdec6, Verify_Sign. done.
Qed.

(** C6: evidence outlives everything but its own end.  After Finalize
    returned a key for a drill, let any calls of the service follow, with any
    failures: other drills' evidence, reads, re-verification, a master-key
    rotation, lazy or eager re-wrapping, shredding of dead keys and of other
    accounts, the retention clean-up before this drill's time, and dropping
    the retired keys once none is needed.  From any moment at which nothing
    fails any more, Read gives back the very bytes signed, and Verify, under
    any signer that still holds the signing key's public half, finds them
    valid, with the retention promised at signing. *)
Theorem evidence_survives s c ret d a pdf w key w1 :
  signer_ok s -> Finalize s c ret d a pdf w = (Ret key, w1) ->
  exists t, let until := micros (micros t + ret) in
  forall c2 w2 s2, rtc (ev_step d a until) (c, w1) (c2, w2) -> calm_from (w_tick w2) ->
    VerificationKey s2 (sn_publicKeyID s) = Some (ed_Public (sn_priv s)) ->
    (Read c2 a key w2).1 = Ret pdf /\
    (ServiceVerify s2 c2 d a key w2).1
    = Ret (mkVerifyResult true true "" (sn_publicKeyID s) (micros t) until).
Proof.
  intros Hs Hf. destruct (Finalize_kept _ _ _ _ _ _ _ _ _ Hs Hf) as (-> & raw & blob & t & HK & Hn & Ho).
  exists t. intros ? c2 w2 s2 Hsteps Hc Hvk.
  pose proof (ev_steps_kept _ _ _ _ (mkSignatureRecord (Sign s pdf (micros t)) until) _ _ Hsteps HK) as HK2.
  simpl in HK2. split; [|by eapply Verify_calm].
  destruct (ReadAll_calm _ _ _ _ _ _ _ _ Hc HK2) as (w3 & Hr & Hc3 & HK3).
  destruct (Decrypt_calm _ _ _ _ _ _ _ _ _ Hc3 HK3 Hn Ho) as [w4 Hdec].
  unfold Read, mbind, M_bind. by rewrite Hr, Hdec.
Qed.
End service_facts.

(** ** Re-wrapping *)

Section rewrap_facts.
Context `{env : Env} `{rand : Rand} `{rand_ok : !RandOk}.
Implicit Types (c : Cipher) (a : uuid).

Notation keys db := (account_evidence_keys (evidence_db db)).

Lemma keys_set b s (db : DB) :
  keys (db{{ evidence_db -> account_evidence_keys ::= alter (fun _ => s) b }}) = alter (fun _ => s) b (keys db).
Proof. by destruct db as [? ? ? ? ? ? ? []]. Qed.

#[local] Instance KeyClass_eq_dec : EqDecision KeyClass.
Proof. solve_decision. Defined.
Definition count_class c k (rows : list (uuid * string)) : nat := length (filter (fun row => classify c row.1 row.2 = k) rows).
(** Everything but the wrapped keys. *)
Definition sans_keys (db : DB) : DB := db{{ evidence_db -> account_evidence_keys := ∅ }}.

Lemma frame_rewrap_rows c rows n m : frame sans_keys (rewrap_rows c rows n m).
Proof.
  revert n m. induction rows as [|[b wr] rows IH]; intros n m; cbn [rewrap_rows]; [apply frame_ret|].
  destruct (classify c b wr); [apply IH| |apply IH]. apply frame_bind; [|intros s; apply frame_bind; [|intros _; apply IH]].
  - apply frame_bind; [|intros; apply frame_ret]. intros w. unfold rand_Read. by destruct (rand_bytes _ _).
  - apply frame_exec. intros t u db db' x [= <- _]. by destruct db as [? ? ? ? ? ? ? []].
Qed.

(** The pass over the rows not yet handled. *)
Lemma rewrap_rows_ret c rows n m w r w' :
  NoDup rows.*1 -> (forall b wrapped, (b, wrapped) ∈ rows -> keys (w_db w) !! b = Some wrapped) ->
  rewrap_rows c rows n m w = (Ret r, w') ->
  r = (n + count_class c ClassRetired rows, m + count_class c ClassPoison rows)%nat /\
  (forall b, b ∉ rows.*1 -> keys (w_db w') !! b = keys (w_db w) !! b) /\
  (forall b wrapped, (b, wrapped) ∈ rows -> exists wrapped', keys (w_db w') !! b = Some wrapped' /\
     classify c b wrapped' <> ClassRetired /\ dek_of c b wrapped' = dek_of c b wrapped /\
     (classify c b wrapped <> ClassRetired -> wrapped' = wrapped)).
Proof.
  revert n m w. induction rows as [|[b0 w0] rows IH]; intros n m w Hnd Hrows Hr.
  { injection Hr as <- <-. split; [cbn; f_equal; lia|]. split; [done|]. by intros b wr Hin%not_elem_of_nil. }
  simpl in Hnd. apply NoDup_cons in Hnd as [Hb0 Hnd].
  pose proof (Hrows b0 w0 ltac:(left)) as H0.
  assert (forall n m w1, rewrap_rows c rows n m w1 = (Ret r, w') ->
    (forall b, b <> b0 -> keys (w_db w1) !! b = keys (w_db w) !! b) ->
    (exists w2, keys (w_db w1) !! b0 = Some w2 /\ classify c b0 w2 <> ClassRetired /\ dek_of c b0 w2 = dek_of c b0 w0 /\
       (classify c b0 w0 <> ClassRetired -> w2 = w0)) ->
    r = (n + count_class c ClassRetired rows, m + count_class c ClassPoison rows)%nat /\
    (forall b, b ∉ b0 :: rows.*1 -> keys (w_db w') !! b = keys (w_db w) !! b) /\
    (forall b wrapped, (b, wrapped) ∈ (b0, w0) :: rows -> exists wrapped', keys (w_db w') !! b = Some wrapped' /\
      classify c b wrapped' <> ClassRetired /\ dek_of c b wrapped' = dek_of c b wrapped /\
      (classify c b wrapped <> ClassRetired -> wrapped' = wrapped))) as Hgo.
  { intros n1 m1 w1 Hr1 Hsame (w2 & Hw2 & Hk2).
    destruct (IH n1 m1 w1 Hnd) as (Hcount & Ho & Hi); [|done|].
    { intros b wr Hin. assert (b <> b0) by (intros ->; apply Hb0; apply list_elem_of_fmap; by exists (b0, wr)).
      rewrite Hsame by done. apply Hrows. by right. }
    split; [done|]. split.
    - intros b [Hne Hb]%not_elem_of_cons. rewrite Ho by done. by apply Hsame.
    - intros b wr [[= -> ->]|Hin]%elem_of_cons; [|by apply Hi]. exists w2. by rewrite Ho. }
  cbn [rewrap_rows] in Hr. unfold count_class in *. rewrite !filter_cons. cbn [fst snd].
  destruct (classify c b0 w0) eqn:Ec; cbn [decide_rel]; repeat case_decide; try congruence; cbn [length] in *.
  - apply (Hgo n m w); [done..|]. exists w0. by rewrite Ec.
  - apply bind_ret in Hr as (s & w1 & Hs & Hr). apply sealAAD_ret in Hs as [Ho Hdb1]. simpl in Ho.
    apply bind_ret in Hr as (u & w2 & Hset & Hr). apply update_ret in Hset as Hdb2.
    apply (f_equal (fun db => keys db)) in Hdb2. rewrite keys_set, Hdb1 in Hdb2.
    destruct (Hgo (S n) m w2) as [-> Hrest]; [done| | |split; [f_equal; lia|done]].
    + intros b Hb. by rewrite Hdb2, lookup_alter_ne.
    + exists s. rewrite Hdb2, lookup_alter_eq, H0. split; [done|]. unfold classify at 1. rewrite Ho. split; [done|].
      split; [|done]. unfold classify in Ec. destruct (openAAD (active c) w0 (uuid_bytes b0)) as [e|raw] eqn:E; [|done].
      destruct (first_open (retired c) b0 w0) as [raw|] eqn:Ef; [|done].
      rewrite (dek_active c b0 s raw Ho). by rewrite (dek_retired c b0 w0 e E), Ef.
  - destruct (Hgo n (S m) w) as [-> Hrest]; [done..| |split; [f_equal; lia|done]]. exists w0. by rewrite Ec.
Qed.

(** C13: RewrapAll completes a rotation.  When it returns, every stored DEK
    is still there and unwraps to what it did before, none needs a retired
    key any more, and so the retired keys can be dropped without losing any
    DEK.  Every row it did not have to re-wrap, the unreadable ones among
    them, is byte for byte what it was, nothing else in the database changed,
    and the two figures it reports are those of the re-wrapped and of the
    unreadable rows. *)
Theorem rewrap_completes c w r w' :
  RewrapAll c w = (Ret r, w') ->
  sans_keys (w_db w') = sans_keys (w_db w) /\ dom (keys (w_db w')) = dom (keys (w_db w)) /\
  (forall b wrapped, keys (w_db w) !! b = Some wrapped ->
    exists wrapped', keys (w_db w') !! b = Some wrapped' /\ classify c b wrapped' <> ClassRetired /\
      dek_of c b wrapped' = dek_of c b wrapped /\
      (forall raw eph, dek_of c b wrapped = Some raw -> dek_of (mkCipher (active c) [] eph) b wrapped' = Some raw) /\
      (classify c b wrapped <> ClassRetired -> wrapped' = wrapped)) /\
  r = (count_class c ClassRetired (map_to_list (keys (w_db w))), count_class c ClassPoison (map_to_list (keys (w_db w)))).
Proof.
  intros H. assert (sans_keys (w_db w') = sans_keys (w_db w)) as Hrest.
  { assert (frame sans_keys (RewrapAll c)) as Hf by (apply frame_bind; [apply frame_query|intros; apply frame_rewrap_rows]).
    specialize (Hf w). by rewrite H in Hf. }
  split; [done|]. unfold RewrapAll in H. apply bind_ret in H as (rows & w1 & [-> Hdb]%query_ret & Hr).
  apply rewrap_rows_ret in Hr as (-> & Hout & Hin); [|apply NoDup_fst_map_to_list|].
  2:{ intros b wr Hb%elem_of_map_to_list. by rewrite Hdb. }
  rewrite Hdb in Hout. split; [|split; [|done]].
  - apply set_eq. intros b. rewrite !elem_of_dom. destruct (keys (w_db w) !! b) as [wr|] eqn:E.
    + destruct (Hin b wr) as (wr' & -> & _); [by apply elem_of_map_to_list|]. split; eauto.
    + rewrite Hout, E; [done|]. intros ([b' wr] & -> & Hb%elem_of_map_to_list)%list_elem_of_fmap. simpl in E. congruence.
  - intros b wr Hb. destruct (Hin b wr) as (wr' & H1 & H2 & H3 & H4); [by apply elem_of_map_to_list|].
    exists wr'. do 3 (split; [done|]). split; [|done]. intros raw eph Hraw. rewrite Hraw in H3.
    unfold classify in H2. unfold dek_of in *. simpl in *. destruct (openAAD (active c) wr' _); [by rewrite H3 in H2|done].
Qed.
End rewrap_facts.

(** ** The S3 bucket that is not there *)

Section s3_facts.
Context `{env : Env} `{bucket : Bucket} (s : S3Store).

(** a bucket that answers 404 takes evidence without keeping it.  The
    404 that means "already gone" to a delete also answers a PUT into a
    missing bucket: Put reports success and returns a key, nothing is
    stored, and ReadAll of that key succeeds with an empty file. *)
Theorem s3_put_404_lost id content w :
  calm_from (w_tick w) ->
  (forall req auth files, exists body, bk_serve req auth files = ((404, body), files)) ->
  exists w', S3Put s id content w = (Ret (id +:+ ".pdf"), w') /\ w_db w' = w_db w /\
    exists w2, S3ReadAll s (id +:+ ".pdf") w' = (Ret "", w2).
Proof.
  intros Hc H404.
  assert (forall req hash w, calm_from (w_tick w) -> exists w', do_ s req hash w = (Ret "", w') /\ w_db w' = w_db w /\
    calm_from (w_tick w')) as Hdo.
  { intros req hash w0 Hc0. unfold do_, wrap_err, try, mbind, M_bind, time_Now, exec. simpl.
    rewrite Hc0 by lia. destruct (H404 req (signV4 req hash (s3_accessKey s) (s3_secretKey s) (s3_region s) "s3"
      (env_now (w_tick w0))) (evidence_files (evidence_db (w_db w0)))) as [body ->]. simpl. eexists. split; [reflexivity|].
    split; [by destruct (w_db w0) as [? ? ? ? ? ? ? []]|]. intros m Hm. apply Hc0. simpl in Hm. lia. }
  unfold S3Put, S3ReadAll.
  destruct (Hdo (object_request s "PUT" (id +:+ ".pdf") content (sha256Hex content)) (sha256Hex content) w Hc)
    as (w1 & Hp & Hdb & Hc1).
  exists w1. unfold mbind, M_bind. rewrite Hp. split; [done|]. split; [done|].
  destruct (Hdo (object_request s "GET" (id +:+ ".pdf") "" emptyPayloadHash) emptyPayloadHash w1 Hc1) as (w2 & Hg & _).
  by exists w2.
Qed.
End s3_facts.

(** ** The signer's key set and the stand-alone verifier *)

Section signer_facts.
Context `{env : Env} `{ed : Ed25519} `{files : KeyFiles}.

(** More fuel than the document is long changes nothing. *)
Lemma add_keys_fuel rest keys n m :
  (forall doc block rest, pem_Decode doc = Some (block, rest) -> (String.length rest < String.length doc)%nat) ->
  (String.length rest < n)%nat -> (String.length rest < m)%nat -> add_keys n rest keys = add_keys m rest keys.
Proof.
  intros Hdec. revert m rest keys. induction n as [|n IH]; intros [|m] rest keys Hn Hm; [lia..|]. simpl.
  destruct (pem_Decode rest) as [[block rest']|] eqn:E; [|done]. apply Hdec in E.
  destruct (ParsePKIXPublicKey block) as [|[pub|]]; [done| |done]. apply IH; lia.
Qed.

Lemma add_keys_incl n rest keys keys' id pub :
  add_keys n rest keys = inr keys' -> keys !! id = Some pub -> (forall p, keyID p = id -> p = pub) -> keys' !! id = Some pub.
Proof.
  revert rest keys. induction n as [|n IH]; intros rest keys; simpl; [by intros [= <-]|].
  destruct (pem_Decode rest) as [[block rest']|]; [|by intros [= <-]].
  destruct (ParsePKIXPublicKey block) as [|[p|]]; [done| |done]. intros Ha Hk Hu.
  apply IH in Ha; [done| |done]. destruct (decide (keyID p = id)) as [<-|]; [by rewrite (Hu p), lookup_insert_eq|].
  by rewrite lookup_insert_ne.
Qed.

(** C14: the stand-alone verifier agrees with the server.  dokaz-verify exits
    0 exactly when the first key of the PEM file is the one the signature
    names and the service's own Verify accepts the PDF under it. *)
Theorem verifier_agrees pdf sig bare pubPEM :
  main pdf (Some sig) bare pubPEM = 0 <->
  exists pub, parsePublicKey pubPEM = inr pub /\ keyID pub = PublicKeyID sig /\ Signer.Verify pub pdf sig = None.
Proof.
  unfold main, parseSignature. destruct (parsePublicKey pubPEM) as [e|pub]; [split; [done|by intros (? & [=] & _)]|].
  unfold verify, Signer.Verify. case_bool_decide as Hid; simpl; [|split; [done|]; intros (p & [= <-] & H & _); congruence].
  assert (forall P, (exists p, @inr error string pub = inr p /\ P p) <-> P pub) as Hex
    by (intros P; split; [by intros (p & [= <-] & H)|by exists pub]).
  rewrite Hex. destruct (bool_decide (Algorithm sig = "ed25519")); simpl; [|by split; [|intros []]].
  case_bool_decide; simpl; [|by split; [|intros []]].
  destruct (StdEncoding_Decode (Value sig)) as [raw|]; [|by split; [|intros []]].
  fold (signedMessage (hex_EncodeToString (sha256 pdf)) (SignedAt sig)).
  destruct (ed_Verify _ _ _); simpl; by split; [|intros []].
Qed.
End signer_facts.

(** ** Concrete instances *)

(** A signature scheme in which a keyed hash signs. *)
#[global] Instance demo_ed : Ed25519 := {|
  ed_GenerateKey _ := inr "k"; ed_Public k := k; ed_Sign k m := sha256 (k +:+ m);
  ed_Verify p m s := bool_decide (s = sha256 (p +:+ m))
|}.
#[global] Instance demo_ed_ok : Ed25519Ok.
Proof. constructor. intros k m. by apply bool_decide_eq_true_2. Qed.
#[global] Instance demo_rand_ok : RandOk.
Proof. constructor. intros t n b [= <-]. by rewrite length_of_bytes, repeat_length. Qed.
#[global] Instance demo_uuid_name : UuidName.
Proof.
  constructor. intros [|p]; simpl; [by intros [[=]|[]]|]. induction p as [p IH|p IH|]; simpl; intros [[=]|H]; auto.
Qed.

Definition demo_signer : Signer := mkSigner "k" (keyID "k") false {[ keyID "k" := "k" ]}.
Definition master (n : Z) : string := of_bytes (repeat n 32).
Definition demo_cipher : Cipher := mkCipher (master 1) [] false.
Definition evidence_db0 : DB :=
  demo_db{{ drill_db -> drills :=
    {[ 5%N := mkDrill 5 10 1 2 StatusRunning None None None None None None 0 ]} }}.

Lemma demo_signer_ok : signer_ok demo_signer.
Proof. split; [reflexivity|apply lookup_singleton_eq]. Qed.

#[local] Existing Instance demo_env.
#[local] Instance demo_store : EvidenceStore := LocalStore "/ev".

#[local] Definition vr_at (o : outcome VerifyResult) : Z := match o with Ret r => vr_SignedAt r | _ => 0 end.

Lemma evidence_survives_witness :
  exists t, t = 1800000000 * ns /\
  (ServiceVerify demo_signer demo_cipher 5 1 "/ev/101.pdf"
     (RewrapAll demo_cipher (Finalize demo_signer demo_cipher DefaultRetention 5 1 "%PDF" (world evidence_db0)).2).2).1
  = Ret (mkVerifyResult true true "" (keyID "k") t (t + DefaultRetention)).
Proof.
  assert (Finalize demo_signer demo_cipher DefaultRetention 5 1 "%PDF" (world evidence_db0)
    = (Ret "/ev/101.pdf", (Finalize demo_signer demo_cipher DefaultRetention 5 1 "%PDF" (world evidence_db0)).2)) as HF
    by (vm_compute; reflexivity).
  destruct (evidence_survives demo_signer demo_cipher DefaultRetention 5 1 "%PDF" (world evidence_db0) "/ev/101.pdf" _
              demo_signer_ok HF) as (t & H).
  destruct (H demo_cipher (RewrapAll demo_cipher (Finalize demo_signer demo_cipher DefaultRetention 5 1 "%PDF" (world evidence_db0)).2).2
              demo_signer) as [_ Hv]; [apply rtc_once, ev_rewrap|intros m _; reflexivity|apply lookup_singleton_eq|].
  assert (micros t = 1800000000 * ns) as Ht.
  { assert (forall o : outcome VerifyResult, vr_at o = 1800000000 * ns -> o = Ret (mkVerifyResult true true "" (sn_publicKeyID demo_signer)
        (micros t) (micros (micros t + DefaultRetention))) -> micros t = 1800000000 * ns) as Hx by (intros o <- ->; reflexivity).
    eapply Hx; [|exact Hv]. vm_compute. reflexivity. }
  exists (micros t). split; [exact Ht|]. rewrite Hv, Ht. reflexivity.
Defined.

(** Account 1's DEK is still wrapped by the previous master key. *)
Definition rotated : Cipher := mkCipher (master 2) [master 1] false.
Definition rewrap_db : DB :=
  demo_db{{ evidence_db -> account_evidence_keys :=
    {[ 1%N := of_bytes (repeat 9 12) +:+ GCM.Seal (master 1) (of_bytes (repeat 9 12)) (master 7) (uuid_bytes 1) ]} }}.

Lemma rewrap_completes_witness :
  exists wrapped', account_evidence_keys (evidence_db (w_db (RewrapAll rotated (world rewrap_db)).2)) !! 1%N = Some wrapped' /\
    dek_of (mkCipher (master 2) [] false) 1 wrapped' = Some (master 7).
Proof.
  assert (RewrapAll rotated (world rewrap_db) = (Ret (1, 0)%nat, (RewrapAll rotated (world rewrap_db)).2)) as HR
    by (vm_compute; reflexivity).
  destruct (rewrap_completes rotated (world rewrap_db) (1, 0)%nat _ HR) as (_ & _ & Hrows & _).
  destruct (Hrows 1%N _ (lookup_singleton_eq _ _)) as (wr' & H1 & _ & _ & H2 & _).
  exists wr'. split; [exact H1|]. apply (H2 (master 7) false). vm_compute. reflexivity.
Defined.

#[local] Instance no_bucket : Bucket := {| bk_serve _ _ files := ((404, "NoSuchBucket"), files) |}.
Lemma s3_put_404_lost_witness :
  exists w', S3Put (NewS3Store "evidence" "eu-west-1" "" "AK" "SK") "101" "secret" (world evidence_db0)
             = (Ret "101.pdf", w') /\ w_db w' = evidence_db0.
Proof.
  destruct (s3_put_404_lost (NewS3Store "evidence" "eu-west-1" "" "AK" "SK") "101" "secret" (world evidence_db0))
    as (w' & H1 & H2 & _).
  - intros m _. reflexivity.
  - intros req auth files. by exists "NoSuchBucket".
  - exists w'. split; [exact H1|exact H2].
Defined.
