(* ===== verification/ToolsFacts.v ===== *)
(** What the operator's commands keep: evidence-keys never loses a data key a
    configured master key can open; and what a configuration lets pass. *)
From S2P Require Import Prelude Crypto Aes Effects Schema Encoding Plans AccountStore Cipher Signer V1 Config Tools Demo AccountFacts AuthStore EvidenceFacts.
From Stdlib Require Import Ascii.

(** ** The master keys of an environment *)

Section keys_.
Context `{env : Env} `{uuids : UuidLib} `{rand : Rand} `{rand_ok : !RandOk}.

Lemma loadMasterKey_configured b64 name w w0 k w1 :
  b64 <> "" -> loadMasterKey b64 name w0 = (Ret (k, false), w1) -> loadMasterKey b64 name w = (Ret (k, false), w).
Proof.
  intros Hne. unfold loadMasterKey. rewrite bool_decide_eq_false_2 by done. repeat case_match; try done.
  unfold mbind, M_bind, lift. destruct (newAEAD _); [done|]. by intros [= -> _].
Qed.
Lemma loadMasterKey_eph b64 name w k e w' : b64 <> "" -> loadMasterKey b64 name w = (Ret (k, e), w') -> e = false.
Proof.
  intros Hne. unfold loadMasterKey. rewrite bool_decide_eq_false_2 by done. repeat case_match; try done.
  unfold mbind, M_bind, lift. destruct (newAEAD _); [done|]. by intros [= _ <- _].
Qed.
Lemma load_retired_configured keys : forall i w w0 l w1,
  load_retired keys i w0 = (Ret l, w1) -> load_retired keys i w = (Ret l, w).
Proof.
  induction keys as [|b keys IH]; intros i w w0 l w1; simpl; [by intros [= <- _]|].
  case_bool_decide as Hb; [apply IH|]. intros ([k e] & w2 & H1 & (l' & w3 & H2 & H3)%bind_ret)%bind_ret. injection H3 as <- _.
  pose proof (loadMasterKey_eph _ _ _ _ _ _ Hb H1) as ->. apply (loadMasterKey_configured _ _ w) in H1; [|done].
  unfold mbind, M_bind at 1. rewrite H1. unfold mbind, M_bind. by rewrite (IH _ w _ _ _ H2).
Qed.
(** A cipher that is not ephemeral depends on its keys alone. *)
Lemma NewCipher_configured key retired w w0 c w1 :
  NewCipher key retired w0 = (Ret c, w1) -> ephemeral c = false -> NewCipher key retired w = (Ret c, w).
Proof.
  unfold NewCipher. intros ([k e] & w2 & H1 & (l & w3 & H2 & H3)%bind_ret)%bind_ret He. injection H3 as <- _. simpl in He. subst e.
  assert (key <> "") as Hne.
  { intros ->. unfold loadMasterKey in H1. simpl in H1. by apply bind_ret in H1 as (x & w4 & _ & (y & w5 & _ & [=])%bind_ret). }
  unfold mbind, M_bind at 1. rewrite (loadMasterKey_configured _ _ w _ _ _ Hne H1).
  unfold mbind, M_bind. by rewrite (load_retired_configured _ _ w _ _ _ H2).
Qed.

(** Without a key the cipher is ephemeral. *)
Lemma NewCipher_no_key retired w c w1 : NewCipher "" retired w = (Ret c, w1) -> ephemeral c = true.
Proof.
  unfold NewCipher. intros ([k e] & w2 & H1 & (l & w3 & _ & H3)%bind_ret)%bind_ret. injection H3 as <- _. unfold loadMasterKey in H1.
  simpl in H1. by apply bind_ret in H1 as (x & w4 & _ & (y & w5 & _ & [= _ <- _])%bind_ret).
Qed.

(** ** One account's data key *)

Context (c : Cipher) (a : uuid) (raw : string).
Definition dek_kept (db : DB) : Prop :=
  exists wrapped, account_evidence_keys (evidence_db db) !! a = Some wrapped /\ dek_of c a wrapped = Some raw.

Lemma dek_kept_alter f b db :
  (b = a -> forall wrapped, dek_of c a wrapped = Some raw -> dek_of c a (f wrapped) = Some raw) ->
  dek_kept db -> dek_kept (db{{ evidence_db -> account_evidence_keys ::= alter f b }}).
Proof.
  intros Hf (w0 & Hw & Hd). unfold dek_kept. replace (account_evidence_keys _) with (alter f b (account_evidence_keys (evidence_db db)))
    by (by destruct db as [? ? ? ? ? ? ? [] ?]).
  destruct (decide (b = a)) as [->|Hne]; [rewrite lookup_alter_eq, Hw|rewrite lookup_alter_ne by done]; eauto.
Qed.
Lemma dek_kept_delete b db : b <> a -> dek_kept db -> dek_kept (db{{ evidence_db -> account_evidence_keys ::= delete b }}).
Proof.
  intros Hb (w0 & Hw & Hd). exists w0. split; [|done].
  replace (account_evidence_keys _) with (delete b (account_evidence_keys (evidence_db db))) by (by destruct db as [? ? ? ? ? ? ? [] ?]).
  by rewrite lookup_delete_ne.
Qed.

Lemma dek_kept_rewrap rows n m :
  (forall wrapped, (a, wrapped) ∈ rows -> dek_of c a wrapped = Some raw) -> preserves dek_kept (rewrap_rows c rows n m).
Proof.
  revert n m. induction rows as [|[b wrapped] rows IH]; intros n m Hg; simpl; [apply preserves_ret|].
  assert (forall n m, preserves dek_kept (rewrap_rows c rows n m)) as HI by (intros; apply IH; intros; apply Hg; by right).
  unfold classify. destruct (openAAD (active c) wrapped _) as [e|raw'] eqn:E; [|apply HI].
  destruct (first_open (retired c) b wrapped) as [raw'|] eqn:Ef; [|apply HI].
  eapply (preserves_bind_ret dek_kept _ _ (fun s => openAAD (active c) s (uuid_bytes b) = inr raw'));
    [apply preserves_sealAAD|intros ? ? ? _ Hs; by apply sealAAD_ret in Hs as [Hs _]|].
  intros s Hs. apply preserves_bind; [|intros; apply HI]. apply preserves_update. intros t db HK. apply dek_kept_alter; [|done].
  intros -> _ _. rewrite (dek_active c a s raw' Hs). specialize (Hg wrapped ltac:(left)). by rewrite (dek_retired c a wrapped e E), Ef in Hg.
Qed.
Lemma dek_kept_RewrapAll : preserves dek_kept (RewrapAll c).
Proof.
  eapply (preserves_bind_ret dek_kept _ _ (fun rows => forall wrapped, (a, wrapped) ∈ rows -> dek_of c a wrapped = Some raw));
    [apply preserves_query| |].
  - intros w rows w' (w0 & Hw & Hd) [-> _]%query_ret wrapped Hin%elem_of_map_to_list. by simplify_eq.
  - intros rows Hg. by apply dek_kept_rewrap.
Qed.
Lemma dek_kept_ShredPoison : preserves dek_kept (ShredPoison c).
Proof.
  eapply (preserves_bind_ret dek_kept _ _ (fun au => a ∉ ka_Poison au)).
  - unfold Audit. apply preserves_bind; [apply preserves_query|intros; apply preserves_ret].
  - intros w au w' (w0 & Hw & Hd). unfold Audit. intros (rows & w1 & [-> _]%query_ret & [= <- _])%bind_ret.
    intros [H|(wrapped & Hin%elem_of_map_to_list & Hn)]%audit_poison; [by apply not_elem_of_nil in H|]. by simplify_eq.
  - intros au Ha. apply preserves_bind; [|intros; apply preserves_ret].
    induction (ka_Poison au) as [|b l IH]; simpl; [apply preserves_ret|].
    apply not_elem_of_cons in Ha as [Hb Ha]. apply preserves_bind; [|intros; by apply IH].
    apply preserves_update. intros t db. by apply dek_kept_delete.
Qed.
End keys_.

(** ** The command *)

(** Everything but the wrapped data keys. *)
Definition forget_keys (db : DB) : DB := db{{ evidence_db -> account_evidence_keys := ∅ }}.

Section command.
Context `{env : Env} `{uuids : UuidLib} `{rand : Rand} `{rand_ok : !RandOk}.
Context (Getenv : string -> string) (pool_New : string -> option error).
Notation tool := (evidence_keys Getenv pool_New).
Notation configured := (NewCipher (Getenv "EVIDENCE_ENCRYPTION_KEY") (splitCSV (Getenv "EVIDENCE_ENCRYPTION_KEYS_RETIRED"))).

Lemma frame_sealAAD {B} (proj : DB -> B) k text aad : frame proj (sealAAD k text aad).
Proof. unfold sealAAD. apply frame_bind; [intros w; unfold rand_Read; by destruct (rand_bytes _ _)|intros; apply frame_ret]. Qed.
Lemma frame_NewCipher {B} (proj : DB -> B) k l : frame proj (NewCipher k l).
Proof.
  assert (forall b n, frame proj (loadMasterKey b n)) as Hl.
  { intros b n. unfold loadMasterKey. case_match.
    - apply frame_bind; [intros w; unfold rand_Read; by destruct (rand_bytes _ _)|intros x].
      apply frame_bind; [apply frame_lift|intros; apply frame_ret].
    - repeat case_match; try apply frame_fail. apply frame_bind; [apply frame_lift|intros; apply frame_ret]. }
  unfold NewCipher. apply frame_bind; [apply Hl|intros [a e]]. apply frame_bind; [|intros; apply frame_ret].
  generalize O. induction l as [|b l IH]; intros i; simpl; [apply frame_ret|]. case_match; [apply IH|].
  apply frame_bind; [apply Hl|intros [x y]]. apply frame_bind; [apply IH|intros; apply frame_ret].
Qed.
Lemma frame_Audit {B} (proj : DB -> B) c : frame proj (Audit c).
Proof. unfold Audit. apply frame_bind; [apply frame_query|intros; apply frame_ret]. Qed.
Lemma forget_RewrapAll c : frame forget_keys (RewrapAll c).
Proof.
  unfold RewrapAll. apply frame_bind; [apply frame_query|intros rows]. generalize O at 1. generalize O.
  induction rows as [|[b wr] rows IH]; intros n m; simpl; [apply frame_ret|]. case_match; try apply IH.
  apply frame_bind; [apply frame_sealAAD|intros s]. apply frame_bind; [|intros; apply IH].
  apply frame_exec. intros t u db db' x [= <- _]. by destruct db as [? ? ? ? ? ? ? [] ?].
Qed.
Lemma forget_ShredPoison c : frame forget_keys (ShredPoison c).
Proof.
  unfold ShredPoison. apply frame_bind; [apply frame_Audit|intros au]. apply frame_bind; [|intros; apply frame_ret].
  apply frame_for_each. intros b. apply frame_exec. intros t u db db' x [= <- _]. by destruct db as [? ? ? ? ? ? ? [] ?].
Qed.

(** What a property of the database needs to survive any run of the tool:
    to survive what the two writing commands do with the configured cipher. *)
Lemma tool_preserves (I : DB -> Prop) args w :
  I (w_db w) ->
  (forall c, ephemeral c = false -> (exists w0 w1, configured w0 = (Ret c, w1)) ->
     hd "" args = "rewrap" -> preserves I (RewrapAll c)) ->
  (forall c, ephemeral c = false -> (exists w0 w1, configured w0 = (Ret c, w1)) ->
     (exists flags, flag_Parse {[ "yes" := mkFlag true "false" ]} (tl args) = inr flags /\ bool_flag flags "yes" = true) ->
     hd "" args = "shred-poison" -> preserves I (ShredPoison c)) ->
  I (w_db (tool args w).2).
Proof.
  intros HI Hr Hs. destruct args as [|cmd rest]; [done|]. simpl in Hr, Hs. unfold evidence_keys.
  destruct (flag_Parse _ rest) as [code|flags] eqn:Ef; [done|]. case_bool_decide; [done|]. case_match; [done|].
  unfold or_die, mbind, M_bind at 1. unfold try at 1.
  pose proof (frame_NewCipher id (Getenv "EVIDENCE_ENCRYPTION_KEY") (splitCSV (Getenv "EVIDENCE_ENCRYPTION_KEYS_RETIRED")) w) as Hf.
  destruct (configured w) as [[c|e|] w1] eqn:Ec; unfold id in Hf; simpl in Hf; [|by (simpl; rewrite Hf)..].
  destruct (ephemeral c) eqn:Ee; [by simpl; rewrite Hf|].
  assert (exists w0 w1, configured w0 = (Ret c, w1)) as Hc by eauto.
  assert (forall (A : Type) (m : GO A) k, preserves I m -> (forall x, preserves I (k x)) -> preserves I (or_die m k)) as Hor.
  { intros A m k Hm Hk. apply preserves_bind; [by apply preserves_try|]. intros [e|x]; [apply preserves_ret|apply Hk]. }
  assert (forall {A} (m : GO A), frame id m -> preserves I m) as Hid by (intros A m Hm; by apply (frame_preserves id I)).
  assert (preserves I (
    if bool_decide (cmd = "verify") then verify_command c
    else if bool_decide (cmd = "rewrap") then rewrap_command c
    else if bool_decide (cmd = "shred-poison") then shred_command (bool_flag flags "yes") c else usage)) as Hp; [|apply Hp; by rewrite Hf].
  case_bool_decide; [apply Hor; [apply Hid, frame_Audit|intros; apply preserves_ret]|].
  case_bool_decide; [apply Hor; [by apply Hr|intros []; apply preserves_ret]|].
  case_bool_decide; [|apply preserves_ret]. apply Hor; [apply Hid, frame_Audit|intros au].
  case_bool_decide; [apply preserves_ret|]. destruct (bool_flag flags "yes") eqn:Ey; [|apply preserves_ret].
  apply Hor; [apply Hs; eauto|intros; apply preserves_ret].
Qed.

(** C16: evidence-keys loses nothing.  Whatever the arguments, the
    environment and the faults, a run of the tool - also one that is killed
    half way - changes nothing but wrapped data keys, and a data key that one
    of the configured master keys opens is still stored, and still opens to
    the same bytes, afterwards.  Without a configured master key, and without
    rewrap or shred-poison with its confirmation, nothing changes at all. *)
Theorem evidence_keys_safe args w :
  let after := w_db (tool args w).2 in
  forget_keys after = forget_keys (w_db w) /\
  (forall c w0 w1 a raw, configured w0 = (Ret c, w1) -> ephemeral c = false -> dek_kept c a raw (w_db w) -> dek_kept c a raw after) /\
  (Getenv "EVIDENCE_ENCRYPTION_KEY" = "" \/
   hd "" args <> "rewrap" /\
     (hd "" args = "shred-poison" -> forall flags, flag_Parse {[ "yes" := mkFlag true "false" ]} (tl args) = inr flags ->
        bool_flag flags "yes" = false) ->
   after = w_db w).
Proof.
  cbv zeta. split; [|split].
  - apply (tool_preserves (fun db => forget_keys db = forget_keys (w_db w))); [done| |].
    + intros c _ _ _. apply (frame_preserves forget_keys (fun v => v = forget_keys (w_db w))), forget_RewrapAll.
    + intros c _ _ _ _. apply (frame_preserves forget_keys (fun v => v = forget_keys (w_db w))), forget_ShredPoison.
  - intros c w0 w1 a raw Hc He Hk. apply tool_preserves; [done| |].
    + intros c' He' (w2 & w3 & Hc') _. apply (NewCipher_configured _ _ w2) in Hc; [|done]. rewrite Hc in Hc'. injection Hc' as <- _.
      apply dek_kept_RewrapAll.
    + intros c' He' (w2 & w3 & Hc') _ _. apply (NewCipher_configured _ _ w2) in Hc; [|done]. rewrite Hc in Hc'. injection Hc' as <- _.
      apply dek_kept_ShredPoison.
  - intros H. apply (tool_preserves (fun db => db = w_db w)); [done| |].
    + intros c He (w0 & w1 & Hc) Hcmd. destruct H as [Hno|[Hno _]]; [|done]. rewrite Hno in Hc.
      apply NewCipher_no_key in Hc. congruence.
    + intros c He (w0 & w1 & Hc) (flags & Hf & Hy) Hcmd. destruct H as [Hno|[_ Hno]].
      * rewrite Hno in Hc. apply NewCipher_no_key in Hc. congruence.
      * specialize (Hno Hcmd flags Hf). congruence.
Qed.
End command.

(** ** A rotation at the console *)

(** The environment of [rotated]: the second master key is active, the first
    one retired. *)
Definition rotated_env (name : string) : string :=
  if bool_decide (name = "DATABASE_URL") then "postgres://db"
  else if bool_decide (name = "EVIDENCE_ENCRYPTION_KEY") then StdEncoding_Encode (master 2)
  else if bool_decide (name = "EVIDENCE_ENCRYPTION_KEYS_RETIRED") then StdEncoding_Encode (master 1) +:+ "," else "".

#[local] Existing Instance demo_env.
Lemma rotated_configured :
  NewCipher (rotated_env "EVIDENCE_ENCRYPTION_KEY") (splitCSV (rotated_env "EVIDENCE_ENCRYPTION_KEYS_RETIRED")) (world rewrap_db)
  = (Ret rotated, world rewrap_db).
Proof. vm_compute. reflexivity. Qed.

Lemma evidence_keys_safe_witness :
  forget_keys (w_db (evidence_keys rotated_env (fun _ => None) ["rewrap"] (world rewrap_db)).2) = forget_keys rewrap_db /\
  dek_kept rotated 1 (master 7) (w_db (evidence_keys rotated_env (fun _ => None) ["rewrap"] (world rewrap_db)).2) /\
  w_db (evidence_keys rotated_env (fun _ => None) ["shred-poison"; "--yes=false"] (world rewrap_db)).2 = rewrap_db.
Proof.
  destruct (evidence_keys_safe rotated_env (fun _ => None) ["rewrap"] (world rewrap_db)) as (H1 & H2 & _).
  destruct (evidence_keys_safe rotated_env (fun _ => None) ["shred-poison"; "--yes=false"] (world rewrap_db)) as (_ & _ & H3).
  split; [exact H1|]. split.
  - apply (H2 rotated (world rewrap_db) (world rewrap_db) 1%N (master 7) rotated_configured eq_refl).
    eexists. split; [apply lookup_singleton_eq|]. vm_compute. reflexivity.
  - apply H3. right. split; [discriminate|]. intros _ flags Hf. vm_compute in Hf. injection Hf as <-. reflexivity.
Defined.

(** ** The configuration *)

(** SESSION_IDLE_HOURS is not checked: zero, a negative number or one whose
    nanoseconds overflow gives a server on which no session is ever alive. *)
Definition idle_env (h name : string) : string :=
  if bool_decide (name = "DATABASE_URL") then "postgres://db" else if bool_decide (name = "SESSION_IDLE_HOURS") then h else "".
Lemma idle_hours_unchecked h :
  h ∈ ["0"; "-1"; "2562048"] ->
  exists c, Load (idle_env h) = inr c /\ forall now s, ser_last_seen_at s <= now -> alive (IdleTimeout c) now s = false.
Proof.
  intros Hh. repeat apply elem_of_cons in Hh as [->|Hh]; [..|by apply not_elem_of_nil in Hh].
  all: eexists; split; [vm_compute; reflexivity|].
  all: intros now s Hs; unfold alive; apply andb_false_iff; right; apply Z.ltb_ge; simpl; lia.
Qed.
(** The addresses of STAFF_EMAILS are compared as they are stored: trimmed and
    in lower case. *)
Lemma staff_emails_normal Getenv c e : Load Getenv = inr c -> e ∈ StaffEmails c -> exists part, e = TrimSpace (ToLower part) /\ e <> "".
Proof.
  intros HL He. assert (StaffEmails c = parseList (Getenv "STAFF_EMAILS")) as Hs.
  { unfold Load in HL. repeat case_match; try done; by injection HL as <-. }
  rewrite Hs in He. unfold parseList in He. case_bool_decide; [by apply not_elem_of_nil in He|].
  apply list_elem_of_filter in He as [Hne (part & -> & _)%list_elem_of_fmap]. by exists part.
Qed.
