(* ===== verification/AdminFacts.v ===== *)
(** What the staff panel keeps: an impersonation undone leaves no trace on the
    session, and regenerated evidence verifies. *)
From S2P Require Import Prelude Crypto Effects Schema Encoding Path Time AuditLog Plans Rbac AccountStore DrillStore Assertions Runner Steps Demo Http Billing AuthStore RateLimit Web.
From S2P Require Import Cipher Signer EvidenceStore Evidence Scheduler Targets TargetFacts Compliance Pdf Notify Login Admin EvidenceFacts.
From Stdlib Require Import Ascii.

(** ** Impersonation *)

Section impersonation.
Context `{env : Env} `{rand : Rand}.

Notation sess w := (sessions (auth_db (w_db w))).
Lemma update_sessions_ret p f w n w' : update_sessions p f w = (Ret n, w') ->
  w_db w' = (w_db w){{ auth_db -> sessions ::= sql_update p f }} /\ n = sql_count p (sess w).
Proof. unfold update_sessions, update_n. intros [H _]%exec_ret. by injection H as <- <-. Qed.
Lemma set_sessions (f g : gmap uuid SessionRow -> gmap uuid SessionRow) (db : DB) :
  (db{{ auth_db -> sessions ::= f }}){{ auth_db -> sessions ::= g }} = db{{ auth_db -> sessions ::= g ∘ f }}.
Proof. by destruct db as [? ? ? [] ? ? ? ? ?]. Qed.

Lemma upd_sessions f g (db : DB) : f (sessions (auth_db db)) = g (sessions (auth_db db)) -> db{{ auth_db -> sessions ::= f }} = db{{ auth_db -> sessions ::= g }}.
Proof. destruct db as [? ? ? [] ? ? ? ? ?]. simpl. by intros ->. Qed.

(** What the two store calls do to the sessions of a cookie. *)
Lemma StartImpersonation_ret c staff target w w1 : StartImpersonation (Some c) staff target w = (Ret tt, w1) ->
  w_db w1 = (w_db w){{ auth_db -> sessions ::= sql_update (fun s => of_cookie c s && bool_decide (se_ImpersonatorID (ser_session s) = None))
      (fun s => s{{ ser_session -> se_UserID := target; ser_session -> se_ImpersonatorID := Some staff; ser_current_account_id := None }}) }} /\
  exists id s, sess w !! id = Some s /\ of_cookie c s.
Proof.
  unfold StartImpersonation. intros (n & x & [E ->]%update_sessions_ret & H)%bind_ret.
  destruct (Nat.eqb_spec (sql_count (fun s => of_cookie c s && bool_decide (se_ImpersonatorID (ser_session s) = None)) (sess w)) 0) as [|Hn]; [done|].
  injection H as ->. split; [done|]. rewrite sql_count_zero in Hn. apply dec_stable. intros Hno. apply Hn. intros id s Hs.
  destruct (of_cookie c s) eqn:Hc; [|done]. exfalso. apply Hno. exists id, s. by rewrite Hc.
Qed.
Lemma StopImpersonation_ret c w w1 : StopImpersonation (Some c) w = (Ret tt, w1) ->
  w_db w1 = (w_db w){{ auth_db -> sessions ::= sql_update (fun s => of_cookie c s && negb (bool_decide (se_ImpersonatorID (ser_session s) = None)))
      (fun s => s{{ ser_session ::= fun x => x{{ se_UserID := default (se_UserID x) (se_ImpersonatorID x); se_ImpersonatorID := None }};
                    ser_current_account_id := None }}) }}.
Proof.
  unfold StopImpersonation. intros (n & x & [E ->]%update_sessions_ret & H)%bind_ret. case_match; [done|]. by injection H as ->.
Qed.

Section session.
Context (c : string) (staff target : uuid) (w w1 : World DB).
Context (Hown : forall id s, sess w !! id = Some s -> of_cookie c s -> se_UserID (ser_session s) = staff /\ se_ImpersonatorID (ser_session s) = None).
Context (Hstart : StartImpersonation (Some c) staff target w = (Ret tt, w1)).

Lemma impersonation_mid :
  (forall id s, sess w1 !! id = Some s -> of_cookie c s -> se_UserID (ser_session s) = target /\ se_ImpersonatorID (ser_session s) = Some staff) /\
  exists id s, sess w1 !! id = Some s /\ of_cookie c s.
Proof.
  apply StartImpersonation_ret in Hstart as [E (id0 & s0 & E0 & Hc0)]. rewrite E. simpl. split.
  - intros id s. rewrite lookup_sql_update_Some. intros (s1 & E1 & ->). destruct (of_cookie c s1 && _) eqn:Ec; [intros _; by split|].
    intros Hc. destruct (Hown id s1 E1 Hc) as [_ Hn]. rewrite bool_decide_eq_true_2 in Ec by done. by destruct (of_cookie c s1).
  - destruct (Hown id0 s0 E0 Hc0) as [_ Hn]. eexists id0, _. split; [apply lookup_sql_update_Some; by exists s0|].
    rewrite bool_decide_eq_true_2 by done. destruct (of_cookie c s0) eqn:E1; [|done]. simpl. destruct s0. exact (Is_true_true_2 _ E1).
Qed.
Lemma impersonation_undone :
  (w_db w1){{ auth_db -> sessions ::= sql_update (fun s => of_cookie c s && negb (bool_decide (se_ImpersonatorID (ser_session s) = None)))
      (fun s => s{{ ser_session ::= fun x => x{{ se_UserID := default (se_UserID x) (se_ImpersonatorID x); se_ImpersonatorID := None }};
                    ser_current_account_id := None }}) }}
  = (w_db w){{ auth_db -> sessions ::= sql_update (of_cookie c) (fun s => s{{ ser_current_account_id := None }}) }}.
Proof.
  apply StartImpersonation_ret in Hstart as [-> _]. rewrite set_sessions. apply upd_sessions, map_eq. intros id. simpl. rewrite !lookup_sql_update.
  destruct (sess w !! id) as [s|] eqn:E0; [|done]. simpl. f_equal. unfold of_cookie.
  destruct (bool_decide (ser_token_hash s = hashToken c)) eqn:Ec; cbn [andb]; [|by rewrite Ec].
  destruct (Hown id s E0 ltac:(by unfold of_cookie; rewrite Ec)) as [Hu Hn].
  destruct s as [[] ? ? ?]. simpl in *. subst. rewrite (bool_decide_eq_true_2 (None = None)) by done. simpl. by rewrite Ec.
Qed.
End session.

Lemma no_second_impersonation c staff target staff' target' w :
  (forall id s, sess w !! id = Some s -> of_cookie c s -> se_UserID (ser_session s) = target /\ se_ImpersonatorID (ser_session s) = Some staff) ->
  (StartImpersonation (Some c) staff' target' w).1 <> Ret tt.
Proof.
  intros Hmid Hr. destruct (StartImpersonation (Some c) staff' target' w) as [o x3] eqn:E3. simpl in Hr. subst o.
  unfold StartImpersonation in E3. apply bind_ret in E3 as (n & x4 & [_ ->]%update_sessions_ret & E3).
  rewrite (proj2 (sql_count_zero _ _)) in E3; [done|]. intros id s Hs. destruct (of_cookie c s) eqn:Ec; [|done].
  destruct (Hmid id s Hs) as [_ ->]; [by rewrite Ec|done].
Qed.
End impersonation.

(** ** Regenerated evidence *)

Section regen.
Context `{env : Env} `{uuids : UuidLib} `{uuid_ok : !UuidOk} `{uuid_name : !UuidName} `{rand : Rand} `{rand_ok : !RandOk} `{json : JsonLib}.
Context `{ed : Ed25519} `{ed_ok : !Ed25519Ok} `{store : EvidenceStore} `{store_ok : !EvidenceStoreOk store}.

Lemma frame_rand_Read {B} (proj : DB -> B) n : frame proj (rand_Read n).
Proof. intros w. unfold rand_Read. by destruct (rand_bytes _ _). Qed.
Hint Resolve frame_rand_Read : dokas.
(** Storing evidence only writes the evidence tables. *)
Lemma frame_Encrypt {B} (proj : DB -> B) c a pdf :
  (forall f db, proj (db{{ evidence_db -> account_evidence_keys ::= f }}) = proj db) -> frame proj (Encrypt c a pdf).
Proof.
  intros Hp. unfold Encrypt, accountDEK, mintDEK, loadWrappedDEK, unwrapDEK, sealAAD, insert_dek, set_wrapped.
  frame_steps; auto with dokas.
  all: apply frame_exec; intros ? ? db ? ? Heq; repeat case_match; try discriminate Heq; injection Heq as <- _; try done; apply Hp.
Qed.
Lemma frame_Finalize {B} (proj : DB -> B) s c ret d a pdf :
  (forall f db, proj (db{{ evidence_db -> account_evidence_keys ::= f }}) = proj db) ->
  (forall id blob, frame proj (st_Put id blob)) ->
  (forall f db, proj (db{{ evidence_db -> evidence_signatures ::= f }}) = proj db) ->
  frame proj (Finalize s c ret d a pdf).
Proof.
  intros H1 H2 H3. unfold Finalize. apply frame_bind; [auto with dokas|intros now].
  apply frame_bind; [by apply frame_wrap, frame_Encrypt|intros blob]. apply frame_bind; [done|intros key].
  apply frame_bind; [|auto with dokas]. apply frame_wrap, frame_exec.
  intros ? ? db ? ? Heq; repeat case_match; try discriminate Heq; injection Heq as <- _; apply H3.
Qed.
Lemma or_else_ret {A R} (m : GO A) (bad : error -> R) (k : A -> GO R) w r w' :
  or_else m bad k w = (Ret r, w') ->
  (exists e, m w = (Fail e, w') /\ r = bad e) \/ (exists a w1, m w = (Ret a, w1) /\ k a w1 = (Ret r, w')).
Proof.
  unfold or_else, try, mbind, M_bind. destruct (m w) as [[a|e|] w1]; [|intros [= <- <-]; left; by exists e|done].
  intros H. right. by exists a, w1.
Qed.
Lemma or_zero_db {A} (z : A) (m : GO A) w a w' : frame (fun db => db) m -> or_zero z m w = (Ret a, w') -> w_db w' = w_db w.
Proof.
  intros Hm H. assert (frame (fun db => db) (or_zero z m)) as Hf by (unfold or_zero; frame_steps). specialize (Hf w). by rewrite H in Hf.
Qed.

(** When nothing fails any more, a page that only reads gets its values. *)
Definition quiet {A} (m : GO A) : Prop := forall w, calm_from (w_tick w) ->
  exists o w', m w = (o, w') /\ o <> Crash /\ w_db w' = w_db w /\ calm_from (w_tick w').
Lemma calm_tick (w : World DB) : calm_from (w_tick w) -> calm_from (w_tick (tick w)).
Proof. intros Hc m Hm. apply Hc. simpl in Hm. lia. Qed.
Lemma quiet_query {A} (f : Z -> DB -> A) : quiet (query f).
Proof. intros w Hc. rewrite query_ok by by apply Hc. eexists _, _. split; [done|]. split; [done|]. split; [done|by apply calm_tick]. Qed.
Lemma quiet_query_row {A} (f : Z -> DB -> option A) : quiet (query_row f).
Proof.
  intros w Hc. unfold query_row, exec. rewrite Hc by done. destruct (f _ _); (eexists _, _; split; [done|]); (split; [done|]); (split; [done|exact (calm_tick w Hc)]).
Qed.
Lemma quiet_no_rows {A} e (m : GO A) : quiet m -> quiet (no_rows_as e m).
Proof.
  intros Hm w Hc. destruct (Hm w Hc) as (o & w' & E & Ho & Hd & Ht). unfold no_rows_as, try, mbind, M_bind. rewrite E.
  destruct o; [| |done]; (eexists _, _; split; [done|]); by split_and!.
Qed.
Lemma or_zero_quiet {A} (z : A) (m : GO A) w : quiet m -> calm_from (w_tick w) ->
  exists a w', or_zero z m w = (Ret a, w') /\ w_db w' = w_db w /\ calm_from (w_tick w').
Proof.
  intros Hm Hc. destruct (Hm w Hc) as (o & w' & E & Ho & Hd & Ht). unfold or_zero, try, mbind, M_bind. rewrite E.
  destruct o as [a|e|]; [exists a, w'|exists z, w'|done]; done.
Qed.

(** Drill [d] of account [a] has the verifiable evidence [blob] on record. *)
Definition healed c d a raw blob rec (db : DB) : Prop :=
  kept c d a (evidence_key d) raw blob rec db /\
  exists dr, drills (drill_db db) !! d = Some dr /\ d_ID dr = d /\ d_AccountID dr = a /\ d_EvidencePath dr = Some (evidence_key d).

Lemma MarkEvidence_heals c d a raw blob rec dr w u w' :
  kept c d a (evidence_key d) raw blob rec (w_db w) -> drills (drill_db (w_db w)) !! d = Some dr -> d_ID dr = d -> d_AccountID dr = a ->
  MarkEvidence d (evidence_key d) w = (Ret u, w') -> healed c d a raw blob rec (w_db w').
Proof.
  intros HK Hd Hi Ha H. unfold MarkEvidence, update_drill in H. apply update_ret in H. split.
  - destruct HK as [Hk Hf Hs]. rewrite H. split; [by destruct (w_db w)| |by destruct (w_db w)].
    rewrite <- Hf. apply (f_equal (fun v => v _)), st_view_files. by destruct (w_db w).
  - rewrite H. exists (dr{{ d_EvidencePath := Some (evidence_key d) }}). split; [|by destruct dr].
    destruct (w_db w) as [[] ? ? ? ? ? ? ? ?]. simpl in *. by rewrite lookup_alter_eq, Hd.
Qed.
Lemma healed_audit c d a raw blob rec q u act k i md : preserves (healed c d a raw blob rec) (audit_req q None u act k i md).
Proof.
  apply preserves_ignore. intros w [[Hk Hf Hs] Hd].
  assert (forall (B : Type) (proj : DB -> B), (forall f db, proj (db{{ audit_events ::= f }}) = proj db) ->
    proj (w_db (Record_ (EventLit None u act k i (wr_ip q) (wr_agent q) md) w).2) = proj (w_db w)) as Hp
    by (intros B proj Hp; by apply frame_Record).
  split; [split|].
  - rewrite (Hp _ (fun db => account_evidence_keys (evidence_db db))) by by intros f []. done.
  - rewrite <- Hf. apply (f_equal (fun v => v _)), st_view_files, (Hp _ (fun db => evidence_files (evidence_db db))). by intros f [].
  - rewrite (Hp _ (fun db => evidence_signatures (evidence_db db))) by by intros f []. done.
  - rewrite (Hp _ (fun db => drills (drill_db db))) by by intros f []. done.
Qed.

(** C32: regenerated evidence verifies.  When the staff panel answered that a
    drill's evidence was regenerated, then from any moment on at which nothing
    fails its detail page shows the evidence signed and valid. *)
Theorem regen_heals signer cipher ret render q staff idParam w url w1 :
  signer_ok signer ->
  (forall id d, drills (drill_db (w_db w)) !! id = Some d -> d_ID d = id) ->
  adminEvidenceRegen signer cipher ret render q staff idParam w = (Ret (Redirect url), w1) ->
  calm_from (w_tick w1) ->
  exists v w2, adminDrillDetail signer cipher idParam w1 = (Ret (inr v), w2) /\
    vr_Signed (adv_Verify v) = true /\ vr_Valid (adv_Verify v) = true /\ vr_PublicKeyID (adv_Verify v) = sn_publicKeyID signer.
Proof.
  intros Hs Hid H Hc. unfold adminEvidenceRegen, parse_id in H. unfold adminDrillDetail, parse_id.
  destruct (uuid_Parse idParam) as [|d]; [done|].
  apply or_else_ret in H as [(e & _ & ?)|(dr & v1 & Hdr & H)]; [done|]. unfold GetDrillByID in Hdr.
  apply no_rows_as_ret, query_row_ret in Hdr as [Hdr E1]. pose proof (Hid _ _ Hdr) as Hdid. subst d.
  apply bind_ret in H as (target & v2 & H2%or_zero_db & H); [|unfold GetTargetByID; frame_steps].
  apply bind_ret in H as (steps & v3 & H3%or_zero_db & H); [|unfold ListSteps; frame_steps].
  apply bind_ret in H as (ars & v4 & H4%or_zero_db & H); [|unfold ListAssertions; frame_steps].
  apply bind_ret in H as (operator & v5 & H5%or_zero_db & H); [|unfold CreatorEmail; frame_steps].
  apply bind_ret in H as (now & v6 & [-> ->]%now_ret & H).
  destruct (render _ _ _ _ _ _) as [|pdf]; [done|].
  apply or_else_ret in H as [(e & _ & ?)|(key & v7 & Hf & H)]; [done|].
  apply or_else_ret in H as [(e & _ & ?)|(u & v8 & Hm & H)]; [done|].
  apply bind_ret in H as (u2 & v9 & Ha & [= <- <-]).
  assert (drills (drill_db (w_db v7)) !! d_ID dr = Some dr) as Hdr7.
  { pose proof (frame_Finalize drill_db signer cipher ret (d_ID dr) (d_AccountID dr) pdf ltac:(by intros f []) ltac:(intros id b; apply Put_frame; by intros f []) ltac:(by intros f [])
      (tick v5)) as Hfr. rewrite Hf in Hfr. cbn [snd] in Hfr. rewrite Hfr. simpl. by rewrite H5, H4, H3, H2, E1. }
  destruct (Finalize_kept _ _ _ _ _ _ _ _ _ Hs Hf) as (-> & raw & blob & t & HK & Hn & Ho).
  pose proof (MarkEvidence_heals _ _ _ _ _ _ _ _ _ _ HK Hdr7 eq_refl eq_refl Hm) as Hh.
  pose proof (healed_audit cipher (d_ID dr) (d_AccountID dr) raw blob _ q (Some (au_ID staff)) "staff.evidence_regenerated" "drill" (uuid_String (d_ID dr)) [] v8 Hh) as Hh2.
  rewrite Ha in Hh2. cbn [snd] in Hh2. clear Hh Hm Hf. destruct Hh2 as [HK2 (dr2 & Hd2 & Hi2 & Ha2 & He2)].
  unfold or_else at 1, try at 1, mbind at 1, M_bind at 1. unfold GetDrillByID.
  rewrite (query_row_ok _ _ _ dr2) by (done || by apply Hc). cbn [snd fst].
  apply calm_tick in Hc. change (w_db v9) with (w_db (tick v9)) in HK2. revert Hc HK2. generalize (tick v9) as x. intros x Hc HK2.
  destruct (or_zero_quiet zero_target (GetTargetByID (d_TargetID dr2)) x ltac:(apply quiet_no_rows, quiet_query_row) Hc) as (tg & x1 & R1 & E1' & Hc1).
  destruct (or_zero_quiet [] (ListSteps (d_ID dr2)) x1 ltac:(apply quiet_query) Hc1) as (st & x2 & R2 & E2' & Hc2).
  destruct (or_zero_quiet [] (ListAssertions (d_ID dr2)) x2 ltac:(apply quiet_query) Hc2) as (ar & x3 & R3 & E3' & Hc3).
  rewrite <- E1', <- E2', <- E3' in HK2 || (rewrite <- E1' in HK2; rewrite <- E2' in HK2; rewrite <- E3' in HK2).
  pose proof (Verify_calm _ signer cipher _ _ _ _ _ _ _ _ _ Hc3 HK2 Hn Ho (proj2 Hs)) as Hv.
  unfold mbind, M_bind. rewrite R1, R2, R3. unfold has_evidence. rewrite He2.
  assert (evidence_key (d_ID dr) <> "") as Hne.
  { apply (st_key_nonempty (EvidenceStoreOk := store_ok)). intros Hin%list_elem_of_In. by apply uuid_String_name in Hin. }
  rewrite bool_decide_eq_false_2 by done. rewrite Hi2, Ha2. unfold or_zero, try, mbind, M_bind.
  destruct (ServiceVerify _ _ _ _ _ x3) as [o x4]. cbn [fst] in Hv. subst o. cbn. by eexists _, _.
Qed.
End regen.

(** *** The handlers of an impersonation *)

Section handlers.
Context `{env : Env} `{uuids : UuidLib} `{rand : Rand} `{json : JsonLib}.
Notation sess w := (sessions (auth_db (w_db w))).
Notation sans_audit db := (db{{ audit_events := [] }}).

Lemma frame_audit q a u act k i md : frame (fun db : DB => sans_audit db) (audit_req q a u act k i md).
Proof. apply frame_ignore, frame_Record. by intros f []. Qed.

(** What a successful start was asked for, and the store call behind it. *)
Lemma adminImpersonate_ret q staff idParam form w w1 :
  adminImpersonate q staff idParam form w = (Ret (Redirect "/dashboard"), w1) ->
  exists target reason w', uuid_Parse idParam = inr target /\ form = Some reason /\
    (3 <= String.length (TrimSpace reason))%nat /\ target <> au_ID staff /\
    StartImpersonation (wr_cookie q) (au_ID staff) target w = (Ret tt, w') /\ sans_audit (w_db w1) = sans_audit (w_db w').
Proof.
  unfold adminImpersonate, parse_id. destruct (uuid_Parse idParam) as [|target]; [done|]. destruct form as [reason|]; [|done].
  cbv zeta. destruct (Nat.ltb_spec (String.length (TrimSpace reason)) 3); [done|]. case_bool_decide; [done|].
  intros [(e & _ & ?)|([] & w' & Hs & Hk)]%or_else_ret; [done|]. exists target, reason, w'. do 5 (split; [done|]).
  apply bind_ret in Hk as (x & w2 & Ha & [= <-]). pose proof (frame_audit q None (Some (au_ID staff)) "staff.impersonation_started" "user" (uuid_String target)
    [("reason", AString (TrimSpace reason))] w') as Hf. by rewrite Ha in Hf.
Qed.
Lemma impersonateStop_ret q w w1 :
  impersonateStop q w = (Ret (Redirect "/admin"), w1) ->
  exists w', StopImpersonation (wr_cookie q) w = (Ret tt, w') /\ sans_audit (w_db w1) = sans_audit (w_db w').
Proof.
  unfold impersonateStop. destruct (cx_impersonation _) as [imp|]; [|done].
  intros [(e & _ & ?)|([] & w' & Hs & H)]%or_else_ret; [done|]. exists w'. split; [done|].
  apply bind_ret in H as (x & w2 & Ha & [= <-]).
  pose proof (frame_audit q None (Some (StaffUserID imp)) "staff.impersonation_stopped" "" "" [] w') as Hf. by rewrite Ha in Hf.
Qed.
Lemma sans_audit_sessions (db db' : DB) f : sans_audit db = sans_audit db' ->
  sans_audit (db{{ auth_db -> sessions ::= f }}) = sans_audit (db'{{ auth_db -> sessions ::= f }}).
Proof. destruct db, db'. simpl. by intros [= -> -> -> -> -> -> -> ->]. Qed.
Lemma sans_audit_sess (db db' : DB) : sans_audit db = sans_audit db' -> sessions (auth_db db) = sessions (auth_db db').
Proof. intros H. exact (f_equal (fun db => sessions (auth_db db)) H). Qed.

(** C31: an impersonation and its end.  When the panel lets staff member
    [staff], whose session the cookie names, impersonate a user, and later
    [impersonateStop] ends it, then the user was another one than himself and
    a reason was given; in between the session acts as that user and carries
    the id of the staff member, and no second impersonation can be started on
    it; and afterwards the database is the one from before except for the
    audit trail and that the session has no current account: it is the staff
    member's again and no other session changed. *)
Theorem impersonation_roundtrip q q2 staff idParam form c w w1 w2 :
  wr_cookie q = Some c -> wr_cookie q2 = Some c ->
  (forall id s, sess w !! id = Some s -> of_cookie c s ->
     se_UserID (ser_session s) = au_ID staff /\ se_ImpersonatorID (ser_session s) = None) ->
  adminImpersonate q staff idParam form w = (Ret (Redirect "/dashboard"), w1) ->
  impersonateStop q2 w1 = (Ret (Redirect "/admin"), w2) ->
  (exists target reason, uuid_Parse idParam = inr target /\ target <> au_ID staff /\
     form = Some reason /\ (3 <= String.length (TrimSpace reason))%nat /\
     (exists id s, sess w1 !! id = Some s /\ of_cookie c s) /\
     forall id s, sess w1 !! id = Some s -> of_cookie c s ->
       se_UserID (ser_session s) = target /\ se_ImpersonatorID (ser_session s) = Some (au_ID staff)) /\
  (forall staff' idParam' form', (adminImpersonate q staff' idParam' form' w1).1 <> Ret (Redirect "/dashboard")) /\
  sans_audit (w_db w2)
  = sans_audit ((w_db w){{ auth_db -> sessions ::= sql_update (of_cookie c) (fun s => s{{ ser_current_account_id := None }}) }}).
Proof.
  intros Hq Hq2 Hown (target & reason & v1 & Hp & Hf & Hlen & Hne & Hstart & E1)%adminImpersonate_ret H2.
  apply impersonateStop_ret in H2 as (v2 & Hstop & E2). rewrite Hq in Hstart. rewrite Hq2 in Hstop.
  pose proof (sans_audit_sess _ _ E1) as Es.
  destruct (impersonation_mid c (au_ID staff) target w v1 Hown Hstart) as [Hmid Hsome].
  split; [|split].
  - exists target, reason. do 4 (split; [done|]). split; [by rewrite Es|]. intros id s. rewrite Es. apply Hmid.
  - intros staff' idParam' form' Hr. destruct (adminImpersonate q staff' idParam' form' w1) as [o x] eqn:E. simpl in Hr. subst o.
    apply adminImpersonate_ret in E as (target' & _ & x' & _ & _ & _ & _ & Hst & _). rewrite Hq in Hst.
    apply (no_second_impersonation c (au_ID staff) target (au_ID staff') target' w1); [|by rewrite Hst].
    intros id s. rewrite Es. apply Hmid.
  - rewrite E2. apply StopImpersonation_ret in Hstop. rewrite Hstop.
    rewrite (sans_audit_sessions _ _ _ E1). by rewrite (impersonation_undone c (au_ID staff) target w v1 Hown Hstart).
Qed.
End handlers.

(** ** Concrete runs *)

Lemma pair_of_fst {A B} (p : A * B) a : p.1 = a -> p = (a, p.2).
Proof. destruct p. by intros <-. Qed.
Definition staff_session : SessionRow := mkSessionRow (mkSession 50 2 0 (2 ^ 62) None false None) (hashToken "c") 0 (Some 1%N).
Definition staff_db : DB := demo_db{{ auth_db -> sessions := {[ 50%N := staff_session ]} }}.
#[local] Existing Instance demo_env.
#[local] Instance demo_dir : EvidenceStore := LocalStore "/ev".
Definition print_pdf (_ : Drill) (_ : Target) (_ : list Step) (_ : list AssertionResult) (_ : string) (_ : time) : error + string := inr "%PDF".
Definition staff_user : AuthUser := mkAuthUser 2 "ann@example.com" true true false 0.
Definition staff_req : WebReq := mkWebReq background (Some "c") "10.0.0.9" "curl".
Definition acting_req : WebReq := mkWebReq (background{{ cx_impersonation := Some (mkImpersonation 2 "ann@example.com") }}) (Some "c") "10.0.0.9" "curl".

Lemma impersonation_roundtrip_witness :
  let w1 := (adminImpersonate staff_req staff_user "11" (Some "ticket 7") (world staff_db)).2 in
  (fun s => se_UserID (ser_session s)) <$> sessions (auth_db (w_db w1)) !! 50%N = Some 3%N /\
  (w_db (impersonateStop acting_req w1).2){{ audit_events := [] }}
  = staff_db{{ auth_db -> sessions ::= sql_update (of_cookie "c") (fun s => s{{ ser_current_account_id := None }}) }}.
Proof.
  cbv zeta. split; [vm_compute; reflexivity|].
  destruct (impersonation_roundtrip staff_req acting_req staff_user "11" (Some "ticket 7") "c" (world staff_db)
    (adminImpersonate staff_req staff_user "11" (Some "ticket 7") (world staff_db)).2
    (impersonateStop acting_req (adminImpersonate staff_req staff_user "11" (Some "ticket 7") (world staff_db)).2).2)
    as (_ & _ & H); [reflexivity|reflexivity| | | |exact H].
  - intros id s Hs _. change (sessions (auth_db (w_db (world staff_db)))) with ({[ 50%N := staff_session ]} : gmap uuid SessionRow) in Hs.
    by apply lookup_singleton_Some in Hs as [<- <-].
  - apply pair_of_fst. vm_compute. reflexivity.
  - apply pair_of_fst. vm_compute. reflexivity.
Defined.
Lemma regen_heals_witness :
  exists v w2, adminDrillDetail demo_signer demo_cipher "101"
    (adminEvidenceRegen demo_signer demo_cipher DefaultRetention print_pdf staff_req staff_user "101" (world evidence_db0)).2 = (Ret (inr v), w2)
  /\ vr_Valid (adv_Verify v) = true.
Proof.
  destruct (regen_heals demo_signer demo_cipher DefaultRetention print_pdf staff_req staff_user "101" (world evidence_db0) "/admin/drills/101"
    (adminEvidenceRegen demo_signer demo_cipher DefaultRetention print_pdf staff_req staff_user "101" (world evidence_db0)).2
    demo_signer_ok) as (v & w2 & Hv & _ & Hvalid & _).
  - intros id d Hd. change (drills (drill_db (w_db (world evidence_db0)))) with
      ({[ 5%N := mkDrill 5 10 1 2 StatusRunning None None None None None None 0 ]} : gmap uuid Drill) in Hd.
    by apply lookup_singleton_Some in Hd as [<- <-].
  - apply pair_of_fst. vm_compute. reflexivity.
  - intros m _. reflexivity.
  - exists v, w2. split; [exact Hv|exact Hvalid].
Defined.
