(* ===== verification/Pipeline.v ===== *)
(** The pipeline as a system: River runs pending jobs one at a time, retries
    the ones that fail or crash, and handlers enqueue new drills; the
    theorems hold for every environment, i.e. every schedule of faults. *)
From S2P Require Import Prelude Crypto Effects Schema AuditLog DrillStore Assertions Runner Steps Demo.

(** ** What the drill tables promise *)

(** The drill exists and its evidence file is recorded. *)
Definition evidenced (s : DrillDB) (id : uuid) : Prop :=
  exists d p, drills s !! id = Some d /\ d_EvidencePath d = Some p /\ p <> "".

Definition has_status (s : DrillDB) (id : uuid) (st : Status) : Prop :=
  exists d, drills s !! id = Some d /\ d_Status d = st.

Record Inv (s : DrillDB) : Prop := mkInv {
  inv_succeeded : forall id, has_status s id StatusSucceeded -> evidenced s id;
  inv_report    : forall id st, drill_steps s !! (id, StepReport) = Some st ->
                    s_Status st = StatusSucceeded -> evidenced s id;
  inv_teardown  : forall n j id, river_jobs s !! n = Some j -> j_Args j = TeardownArgs id "" ->
                    evidenced s id
}.

(** The changes the pipeline makes to the drill tables; the drills of [X] are
    the ones a teardown that read them earlier may mark succeeded. *)
Record Step_ok (X : uuid -> Prop) (s s' : DrillDB) : Prop := mkStep_ok {
  ok_exists    : forall id, is_Some (drills s !! id) -> is_Some (drills s' !! id);
  ok_evidenced : forall id, evidenced s id -> evidenced s' id;
  ok_failed    : forall id, ~ X id -> has_status s id StatusFailed -> has_status s' id StatusFailed;
  ok_succeeded : forall id, has_status s' id StatusSucceeded ->
                   has_status s id StatusSucceeded \/ evidenced s' id;
  ok_report    : forall id st, drill_steps s' !! (id, StepReport) = Some st -> s_Status st = StatusSucceeded ->
                   evidenced s' id \/
                   exists st', drill_steps s !! (id, StepReport) = Some st' /\ s_Status st' = StatusSucceeded;
  ok_teardown  : forall n j id, river_jobs s' !! n = Some j -> j_Args j = TeardownArgs id "" ->
                   evidenced s' id \/
                   exists n' j', river_jobs s !! n' = Some j' /\ j_Args j' = TeardownArgs id ""
}.

#[global] Instance Step_ok_PreOrder X : PreOrder (Step_ok X).
Proof.
  split.
  - intros s. split; eauto 10.
  - intros s1 s2 s3 [X1 E1 F1 S1 R1 T1] [X2 E2 F2 S2 R2 T2]. split; auto.
    + intros id H. destruct (S2 id H) as [H2|H2]; [|by right].
      destruct (S1 id H2); eauto.
    + intros id st H Hst. destruct (R2 id st H Hst) as [|(st' & Hl & Hs)]; [by left|].
      destruct (R1 id st' Hl Hs); eauto.
    + intros n j id H Hj. destruct (T2 n j id H Hj) as [|(n' & j' & Hl & Hs)]; [by left|].
      destruct (T1 n' j' id Hl Hs); eauto.
Qed.

Lemma Step_ok_Inv X s s' : Inv s -> Step_ok X s s' -> Inv s'.
Proof.
  intros [IS IR IT] [Y E F S R T]. split.
  - intros id H. destruct (S id H); eauto.
  - intros id st H Hst. destruct (R id st H Hst) as [|(st' & Hl & Hs)]; eauto.
  - intros n j id H Hj. destruct (T n j id H Hj) as [|(n' & j' & Hl & Hs)]; eauto.
Qed.

(** The same on the whole database. *)
Definition Keeps (X : uuid -> Prop) (db db' : DB) : Prop := Step_ok X (drill_db db) (drill_db db').
#[global] Instance Keeps_PreOrder X : PreOrder (Keeps X).
Proof. split; [intros db; unfold Keeps; reflexivity|intros ???; unfold Keeps; apply transitivity]. Qed.
Lemma Keeps_weaken (X Y : uuid -> Prop) db db' : (forall id, X id -> Y id) -> Keeps X db db' -> Keeps Y db db'.
Proof. intros H [Ex E F S R T]. split; auto. Qed.

Definition InvDB (db : DB) : Prop := Inv (drill_db db).
Definition EvDB (id : uuid) (db : DB) : Prop := evidenced (drill_db db) id.
Definition ExDB (id : uuid) (db : DB) : Prop := is_Some (drills (drill_db db) !! id).

#[global] Instance InvDB_stable X : Stable InvDB (Keeps X).
Proof. intros s s'. apply Step_ok_Inv. Qed.
#[global] Instance ExDB_stable X id : Stable (ExDB id) (Keeps X).
Proof. intros s s' H HG. by apply (ok_exists _ _ _ HG). Qed.
#[global] Instance EvDB_stable X id : Stable (EvDB id) (Keeps X).
Proof. intros s s' H HG. by apply (ok_evidenced _ _ _ HG). Qed.

(** ** The statements *)

(** A change to one drill row. *)
Lemma Step_ok_alter_drill X s id (f : Drill -> Drill) :
  (forall d, drills s !! id = Some d ->
     (forall p, d_EvidencePath d = Some p -> p <> "" -> exists p', d_EvidencePath (f d) = Some p' /\ p' <> "") /\
     (~ X id -> d_Status d = StatusFailed -> d_Status (f d) = StatusFailed) /\
     (d_Status (f d) = StatusSucceeded -> d_Status d = StatusSucceeded \/
        exists p', d_EvidencePath (f d) = Some p' /\ p' <> "")) ->
  Step_ok X s s{{ drills ::= alter f id }}.
Proof.
  intros Hf.
  assert (forall i d, drills s !! i = Some d ->
            drills s{{ drills ::= alter f id }} !! i = Some (if decide (i = id) then f d else d)) as Hl.
  { intros i d Hi. destruct s; simpl in *. case_decide; subst.
    - by rewrite lookup_alter_eq, Hi.
    - by rewrite lookup_alter_ne by congruence. }
  assert (forall i d', drills s{{ drills ::= alter f id }} !! i = Some d' ->
            exists d, drills s !! i = Some d /\ d' = (if decide (i = id) then f d else d)) as Hr.
  { intros i d' Hi. destruct s; simpl in *. case_decide; subst.
    - rewrite lookup_alter_eq, fmap_Some in Hi. naive_solver.
    - rewrite lookup_alter_ne in Hi by congruence. eauto. }
  assert (drill_steps s{{ drills ::= alter f id }} = drill_steps s /\
          river_jobs s{{ drills ::= alter f id }} = river_jobs s) as [Hs Hj] by by destruct s.
  split; try (rewrite ?Hs, ?Hj; by eauto).
  - intros i [d Hd]. rewrite (Hl i d Hd). eauto.
  - intros i (d & p & Hd & Hp & Hne). destruct (Hl i d Hd) as [].
    destruct (decide (i = id)) as [->|Hi].
    + destruct (Hf d Hd) as (H1 & _). destruct (H1 p Hp Hne) as (p' & ? & ?).
      exists (f d), p'. split; [|done]. rewrite (Hl id d Hd). by rewrite decide_True.
    + exists d, p. split; [|done]. rewrite (Hl i d Hd). by rewrite decide_False.
  - intros i HX (d & Hd & Hst). exists (if decide (i = id) then f d else d).
    split; [by apply Hl|]. case_decide; subst; [|done]. by apply (Hf d Hd).
  - intros i (d' & Hd' & Hst). destruct (Hr i d' Hd') as (d & Hd & ->).
    case_decide; subst.
    + destruct (Hf d Hd) as (_ & _ & H3). destruct (H3 Hst) as [H|(p' & ? & ?)].
      * left. by exists d.
      * right. exists (f d), p'. split; [done|done].
    + left. by exists d.
Qed.

Lemma Step_ok_same X s s' :
  drills s' = drills s -> drill_steps s' = drill_steps s -> river_jobs s' = river_jobs s -> Step_ok X s s'.
Proof.
  intros Hd Hs Hj. split; unfold evidenced, has_status in *; rewrite ?Hd, ?Hs, ?Hj in *; eauto 10.
Qed.

(** A change to one step row. *)
Lemma Step_ok_alter_step X s id name (f : Step -> Step) :
  (name = StepReport -> forall st, drill_steps s !! (id, name) = Some st ->
     s_Status (f st) = StatusSucceeded -> s_Status st = StatusSucceeded \/ evidenced s id) ->
  Step_ok X s s{{ drill_steps ::= alter f (id, name) }}.
Proof.
  intros Hf. destruct s as [ts tas ds ss ars iks js sq]; simpl in *.
  split; unfold evidenced, has_status in *; simpl in *; eauto 10.
  intros i st Hl Hst. destruct (decide ((id, name) = (i, StepReport))) as [[= -> ->]|Hne].
  - rewrite lookup_alter_eq, fmap_Some in Hl. destruct Hl as (st0 & Hl & ->).
    destruct (Hf eq_refl st0 Hl Hst); eauto.
  - rewrite lookup_alter_ne in Hl by done. eauto.
Qed.

(** A new job. *)
Lemma Step_ok_insert_job X s n j sq :
  (forall id, j_Args j = TeardownArgs id "" -> evidenced s id) ->
  Step_ok X s s{{ river_jobs ::= <[ n := j ]>; river_seq := sq }}.
Proof.
  intros Hj. destruct s as [ts tas ds ss ars iks js sq0]; simpl in *.
  split; unfold evidenced, has_status in *; simpl in *; eauto 10.
  intros n' j' id Hl Ha. destruct (decide (n = n')) as [->|Hne].
  - rewrite lookup_insert_eq in Hl. simplify_eq. eauto.
  - rewrite lookup_insert_ne in Hl by done. eauto.
Qed.

(** A new row in a table keyed by a key that was free. *)
Lemma Step_ok_new_drill X s id d :
  drills s !! id = None -> d_Status d <> StatusSucceeded -> Step_ok X s s{{ drills ::= <[ id := d ]> }}.
Proof.
  intros Hid Hst. destruct s as [ts tas ds ss ars iks js sq0]; simpl in *.
  split; unfold evidenced, has_status in *; simpl in *; eauto 10.
  - intros i [d' Hl]. rewrite lookup_insert_ne; naive_solver.
  - intros i (d' & p & Hl & ?). exists d', p. rewrite lookup_insert_ne; naive_solver.
  - intros i _ (d' & Hl & ?). exists d'. rewrite lookup_insert_ne; naive_solver.
  - intros i (d' & Hl & ?). destruct (decide (id = i)) as [->|Hne].
    + rewrite lookup_insert_eq in Hl. simplify_eq.
    + rewrite lookup_insert_ne in Hl by done. eauto.
Qed.

Lemma Step_ok_new_step X s id name st :
  drill_steps s !! (id, name) = None -> s_Status st <> StatusSucceeded ->
  Step_ok X s s{{ drill_steps ::= <[ (id, name) := st ]> }}.
Proof.
  intros Hid Hst. destruct s as [ts tas ds ss ars iks js sq0]; simpl in *.
  split; unfold evidenced, has_status in *; simpl in *; eauto 10.
  intros i st' Hl Hs. destruct (decide ((id, name) = (i, StepReport))) as [[= -> ->]|Hne].
  - rewrite lookup_insert_eq in Hl. simplify_eq.
  - rewrite lookup_insert_ne in Hl by done. eauto.
Qed.

Lemma Step_ok_delete_job X s n : Step_ok X s s{{ river_jobs ::= delete n }}.
Proof.
  destruct s as [ts tas ds ss ars iks js sq0]; simpl in *.
  split; unfold evidenced, has_status in *; simpl in *; eauto 10.
  intros n' j' id Hl Ha. apply lookup_delete_Some in Hl as [_ Hl]. eauto.
Qed.

Section statements.
Context `{env : Env} `{uuids : UuidLib} `{json : JsonLib} (X : uuid -> Prop).
Abbreviation G := (Keeps X).
Implicit Types P : DB -> Prop.

Lemma frame_guards {A} P (m : GO A) : frame drill_db m -> guards P G m.
Proof. intros Hf w _. unfold Keeps. rewrite Hf. reflexivity. Qed.

Lemma guards_update_drill P id grd f :
  (forall t db d, P db -> drills (drill_db db) !! id = Some d -> grd d = true ->
   (forall p, d_EvidencePath d = Some p -> p <> "" ->
      exists p', d_EvidencePath (f t d) = Some p' /\ p' <> "") /\
   (~ X id -> d_Status d = StatusFailed -> d_Status (f t d) = StatusFailed) /\
   (d_Status (f t d) = StatusSucceeded -> d_Status d = StatusSucceeded \/
      exists p', d_EvidencePath (f t d) = Some p' /\ p' <> "")) ->
  guards P G (update_drill id grd f).
Proof.
  intros Hf. apply guards_update; [typeclasses eauto|]. intros t db HP. unfold Keeps.
  destruct db as [s adb l au mo ho ke ev nt]; simpl. apply Step_ok_alter_drill. intros d Hd.
  destruct (grd d) eqn:Hg; [by eapply (Hf t (mkDB s adb l au mo ho ke ev nt))|]. naive_solver.
Qed.

Lemma guards_update_step P id name grd f :
  (name = StepReport -> forall t db st, P db -> drill_steps (drill_db db) !! (id, name) = Some st ->
     grd (s_Status st) = true -> s_Status (f t st) = StatusSucceeded ->
     s_Status st = StatusSucceeded \/ evidenced (drill_db db) id) ->
  guards P G (update_step id name grd f).
Proof.
  intros Hf. apply guards_update; [typeclasses eauto|]. intros t db HP. unfold Keeps.
  destruct db as [s adb l au mo ho ke ev nt]; simpl. apply Step_ok_alter_step. intros -> st Hst.
  destruct (grd (s_Status st)) eqn:Hg; [|by left]. by apply (Hf eq_refl t (mkDB s adb l au mo ho ke ev nt)).
Qed.

Lemma guards_Insert P args prio :
  (forall id db, P db -> args = TeardownArgs id "" -> evidenced (drill_db db) id) ->
  guards P G (Insert args prio).
Proof.
  intros Hj. apply guards_update; [typeclasses eauto|]. intros t db HP. unfold Keeps.
  destruct db as [s adb l au mo ho ke ev nt]; simpl.
  apply (Step_ok_insert_job X s _ (mkJob args prio) (N.succ (river_seq s))).
  intros id. simpl. by apply (Hj id (mkDB s adb l au mo ho ke ev nt)).
Qed.

Lemma guards_insert_drill P targetID accountID by_ : guards P G (insert_drill targetID accountID by_).
Proof.
  apply guards_exec; [typeclasses eauto|]. intros t u db db' a _ Heq.
  repeat case_match; simplify_eq. unfold Keeps. destruct db as [s adb l au mo ho ke ev nt]; simpl in *.
  by apply Step_ok_new_drill.
Qed.

Lemma guards_CreateStep P id name i key : guards P G (CreateStepIfMissing id name i key).
Proof.
  apply guards_exec; [typeclasses eauto|]. intros t u db db' a _ Heq.
  repeat case_match; simplify_eq; [reflexivity|]. injection Heq as <- _.
  destruct db as [s adb l au mo ho ke ev nt]. by apply (Step_ok_new_step X s).
Qed.

(** A statement on the other drill tables, or on other components' tables. *)
Lemma guards_exec_same {A} P (f : stmt DB A) :
  (forall t u db db' a, f t u db = inr (db', a) ->
     drills (drill_db db') = drills (drill_db db) /\
     drill_steps (drill_db db') = drill_steps (drill_db db) /\
     river_jobs (drill_db db') = river_jobs (drill_db db)) ->
  guards P G (exec f).
Proof.
  intros Hf. apply guards_exec; [typeclasses eauto|]. intros t u db db' a _ Heq.
  destruct (Hf _ _ _ _ _ Heq) as (?&?&?). by apply Step_ok_same.
Qed.

Lemma guards_Record P e : guards P G (Record_ e).
Proof. apply guards_exec_same. intros t u db db' a Heq. repeat case_match; simplify_eq; by destruct db. Qed.

Lemma guards_RecordAssertion P id k x y b : guards P G (RecordAssertion id k x y b).
Proof.
  apply guards_exec_same. intros t u db db' a Heq. repeat case_match; simplify_eq.
  by destruct db as [[] ? ? ? ? ? ?].
Qed.

Lemma guards_ClearAssertionResults P id : guards P G (ClearAssertionResults id).
Proof. apply guards_exec_same. intros t u db db' a [= <- _]. by destruct db as [[] ? ? ? ? ? ?]. Qed.
End statements.
#[export] Hint Resolve guards_Record guards_RecordAssertion guards_ClearAssertionResults
  guards_insert_drill guards_CreateStep : dokas.

(** ** The workers *)

Section marks.
Context `{env : Env} `{uuids : UuidLib} `{json : JsonLib} (X : uuid -> Prop).
Abbreviation G := (Keeps X).
Implicit Types P : DB -> Prop.



Lemma guards_MarkDrillRunning P id : guards P G (MarkDrillRunning id).
Proof.
  apply guards_update_drill. intros t db d _ _ Hg. simpl.
  destruct d; simpl in *. destruct d_Status; naive_solver.
Qed.
Lemma guards_MarkDrillFailed P id r : guards P G (MarkDrillFailed id r).
Proof. apply guards_update_drill. intros ? ? []; simpl; naive_solver. Qed.
Lemma guards_SetSandboxDB P id n : guards P G (SetSandboxDB id n).
Proof. apply guards_update_drill. intros ? ? []; simpl; naive_solver. Qed.
Lemma guards_SetSourceHash P id n : guards P G (SetSourceHash id n).
Proof. apply guards_update_drill. intros ? ? []; simpl; naive_solver. Qed.
Lemma guards_MarkEvidence P id path : path <> "" -> guards P G (MarkEvidence id path).
Proof. intros Hp. apply guards_update_drill. intros ? ? []; simpl; naive_solver. Qed.

Lemma guards_MarkStepRunning P id name : guards P G (MarkStepRunning id name).
Proof. apply guards_update_step. intros _ t db [] ? ?; simpl; naive_solver. Qed.
Lemma guards_MarkStepFailed P id name r : guards P G (MarkStepFailed id name r).
Proof. apply guards_update_step. intros _ t db [] ? ?; simpl; naive_solver. Qed.
Lemma guards_MarkStepSkipped P id name : guards P G (MarkStepSkipped id name).
Proof. apply guards_update_step. intros _ t db [] ? ?; simpl; naive_solver. Qed.
Lemma guards_SetStepOutput P id name out : guards P G (SetStepOutput id name out).
Proof.
  destruct out; simpl; [apply guards_ret; typeclasses eauto|].
  case_match. apply guards_update_step. intros _ t db [] ? ?; simpl; naive_solver.
Qed.
Lemma guards_MarkStepSucceeded P id name :
  name <> StepReport -> guards P G (MarkStepSucceeded id name).
Proof. intros Hn. by apply guards_update_step. Qed.
Lemma guards_MarkStepSucceeded_report P id :
  (forall db, P db -> EvDB id db) -> guards P G (MarkStepSucceeded id StepReport).
Proof. intros HP. apply guards_update_step. right. by apply HP. Qed.

Lemma guards_Insert_other P args prio :
  (forall id, args <> TeardownArgs id "") -> guards P G (Insert args prio).
Proof. intros Ha. apply guards_Insert. intros id db _ ->. by destruct (Ha id). Qed.
End marks.
#[export] Hint Resolve guards_MarkDrillRunning guards_MarkDrillFailed guards_SetSandboxDB
  guards_SetSourceHash guards_MarkStepRunning guards_MarkStepFailed guards_MarkStepSkipped
  guards_SetStepOutput : dokas.
#[export] Hint Extern 1 (guards _ (Keeps _) (MarkStepSucceeded _ _)) =>
  apply guards_MarkStepSucceeded; discriminate : dokas.
#[export] Hint Extern 1 (guards _ (Keeps _) (Insert _ _)) =>
  apply guards_Insert_other; intros; discriminate : dokas.

Section workers.
Context `{env : Env} `{uuids : UuidLib} `{json : JsonLib} (D : Deps) (HD : DepsOk D) (X : uuid -> Prop).
Abbreviation G := (Keeps X).
Implicit Types P : DB -> Prop.

Lemma guards_GetStep P id n : guards P G (GetStep id n).
Proof. unfold GetStep. guard_steps. Qed.
Lemma guards_GetDrillByID P id : guards P G (GetDrillByID id).
Proof. unfold GetDrillByID. guard_steps. Qed.
Lemma guards_GetTargetByID P id : guards P G (GetTargetByID id).
Proof. unfold GetTargetByID. guard_steps. Qed.
Hint Resolve guards_GetStep guards_GetDrillByID guards_GetTargetByID : dokas.

Lemma guards_alreadyDone P `{!Stable P G} id n : guards P G (alreadyDone id n).
Proof. unfold alreadyDone. guard_steps. Qed.
Lemma guards_lookup P `{!Stable P G} id : guards P G (lookupDrillAndTarget id).
Proof. unfold lookupDrillAndTarget. guard_steps. Qed.
Lemma guards_sandbox P `{!Stable P G} id : guards P G (sandbox D id).
Proof. unfold sandbox. guard_steps. Qed.
Lemma guards_Provision P id : guards P G (Provision (D_Runner D) id).
Proof. apply frame_guards, Provision_frame, HD. Qed.
Lemma guards_Fetch P sb u : guards P G (Fetch (D_Runner D) sb u).
Proof. apply frame_guards, Fetch_frame, HD. Qed.
Lemma guards_Restore P sb u : guards P G (Restore (D_Runner D) sb u).
Proof. apply frame_guards, Restore_frame, HD. Qed.
Lemma guards_Teardown P sb : guards P G (Teardown (D_Runner D) sb).
Proof. apply frame_guards, Teardown_frame, HD. Qed.
Hint Resolve guards_alreadyDone guards_lookup guards_sandbox guards_Provision guards_Fetch
  guards_Restore guards_Teardown : dokas.

Lemma guards_failAndCleanup P `{!Stable P G} id step reason :
  guards P G (failAndCleanup id step reason).
Proof.
  unfold failAndCleanup. guard_steps.
  apply guards_Insert_other. intros i [= _ Hr]. by destruct step.
Qed.
Hint Resolve guards_failAndCleanup : dokas.

Lemma guards_wrap_err {A} P e (m : GO A) : guards P G m -> guards P G (wrap_err e m).
Proof.
  intros Hm w HP. specialize (Hm w HP). unfold wrap_err, try, mbind, M_bind.
  by destruct (m w) as [[a|e'|] w'].
Qed.

Lemma guards_Run P `{!Stable P G} q kind cfg : QuerierOk q -> guards P G (Run q kind cfg).
Proof.
  intros [Hi Hb Hr]. unfold Run, runRowCount, runTableExists, runColumnExists, runNoNulls,
    runSQLQuery, outcome_.
  guard_steps; apply guards_wrap_err, frame_guards; auto.
Qed.

Lemma guards_runAssertions P `{!Stable P G} id sb specs : guards P G (runAssertions D id sb specs).
Proof.
  unfold runAssertions. guard_bind.
  apply (guards_bind_post P G _ _ (fun q _ => QuerierOk q)).
  - apply guards_wrap_err, frame_guards, HD.
  - intros w q w' _. unfold wrap_err, try, mbind, M_bind.
    destruct (D_Connect D (sb_DSN sb) w) as [[q'|e|] w''] eqn:Hc; simpl; intros [= <- <-].
    by eapply Connect_ok.
  - intros q. apply guards_pure. intros Hq. guard_steps. unfold runAssertion. guard_steps.
    by apply guards_wrap_err, guards_Run.
Qed.
Hint Resolve guards_runAssertions : dokas.

Lemma guards_ProvisionWork P `{!Stable P G} id : guards P G (ProvisionWork D id).
Proof. unfold ProvisionWork, provision_chain. guard_steps. Qed.
Lemma guards_FetchWork P `{!Stable P G} id : guards P G (FetchWork D id).
Proof. unfold FetchWork, chainAlreadyFetched. guard_steps. Qed.
Lemma guards_RestoreWork P `{!Stable P G} id p : guards P G (RestoreWork D id p).
Proof. unfold RestoreWork. guard_steps. Qed.
Lemma guards_AssertWork P `{!Stable P G} id : guards P G (AssertWork D id).
Proof. unfold AssertWork, ListTargetAssertions. guard_steps. Qed.

(** *** Report: evidence is recorded before the step is *)

Lemma GetDrillByID_ret id w d w' :
  GetDrillByID id w = (Ret d, w') -> drills (drill_db (w_db w')) !! id = Some d /\ w_db w' = w_db w.
Proof. by intros [H ->]%no_rows_as_ret%query_row_ret. Qed.

Lemma GetStep_ret id n w st w' :
  GetStep id n w = (Ret st, w') -> drill_steps (drill_db (w_db w')) !! (id, n) = Some st /\ w_db w' = w_db w.
Proof. by intros [H ->]%no_rows_as_ret%query_row_ret. Qed.

Lemma lookup_ret id w r w' :
  lookupDrillAndTarget id w = (Ret r, w') -> ExDB id (w_db w').
Proof.
  intros (d & w1 & [H1 _]%GetDrillByID_ret & H2)%bind_ret.
  apply bind_ret in H2 as (t & w2 & [_ H2]%no_rows_as_ret%query_row_ret & [= _ <-]).
  unfold ExDB. rewrite H2. eauto.
Qed.

Lemma MarkEvidence_ret id path w u w' :
  path <> "" -> ExDB id (w_db w) -> MarkEvidence id path w = (Ret u, w') -> EvDB id (w_db w').
Proof.
  intros Hp [d Hd] ->%update_ret. destruct (w_db w) as [[] ? ? ? ? ? ?]; simpl in *.
  unfold EvDB, evidenced; simpl. eexists _, path. rewrite lookup_alter_eq, Hd. simpl.
  split; [done|]. by destruct d.
Qed.

Lemma guards_report_finish id dr pass pdf :
  guards (fun db => InvDB db /\ ExDB id db) G (report_finish D id dr pass pdf).
Proof.
  unfold report_finish.
  apply (guards_bind_post _ G _ _ (fun r _ => forall path, r = inr path -> path <> "")).
  - apply guards_try, frame_guards, Finalize_frame, HD.
  - intros w a w' _. unfold try.
    destruct (D_Finalize D id (d_AccountID dr) pdf w) as [[key|e|] w1] eqn:HF; intros [= <- <-] path [= ->].
    eapply (Finalize_key D HD id (d_AccountID dr) pdf w). by rewrite HF.
  - intros [e|path].
    + eapply guards_weaken; [apply (guards_failAndCleanup (fun _ => True))|]; done || typeclasses eauto.
    + apply guards_pure. intros Hp. specialize (Hp path eq_refl).
      apply (guards_bind_post _ G _ _ (fun _ => EvDB id)).
      * by apply guards_MarkEvidence.
      * intros w a w' [_ Hex]. by apply MarkEvidence_ret.
      * intros _. apply guards_bind; [typeclasses eauto..| |intros _].
        { apply guards_MarkStepSucceeded_report. by intros db [_ ?]. }
        destruct pass; [|guard_steps].
        apply guards_Insert. intros i db [_ ?] [= ->]. done.
Qed.

Lemma guards_ReportWork id : guards InvDB G (ReportWork D id).
Proof.
  unfold ReportWork.
  apply (guards_bind_post _ G _ _ (fun done db => done = true -> EvDB id db)).
  - guard_steps.
  - intros w a w' HI. unfold alreadyDone. intros (st & w1 & H1 & [= <- <-])%bind_ret.
    intros Hd%bool_decide_eq_true_1. apply GetStep_ret in H1 as [H1 Heq].
    unfold EvDB. rewrite Heq in H1 |- *. by eapply (inv_report _ HI).
  - intros [].
    + apply guards_Insert. intros i db [_ Hev] [= ->]. by apply Hev.
    + eapply guards_weaken; [|by intros db [HI _]; exact HI]. guard_bind.
      apply (guards_bind_post _ G _ _ (fun _ => ExDB id)); [guard_steps|intros; by eapply lookup_ret|].
      intros [dr target]. unfold ListSteps, ListAssertions, CreatorEmail.
      do 2 (apply guards_bind; [typeclasses eauto..|by apply guards_query; typeclasses eauto|intros ?]).
      cbv zeta. guard_bind. guard_bind. case_match; [guard_steps|]. apply guards_report_finish.
Qed.

(** *** Teardown: the verdict is written last, from what was read first *)

Definition SameDrills (db db' : DB) : Prop :=
  G db db' /\ drills (drill_db db') = drills (drill_db db).
#[local] Instance SameDrills_PreOrder : PreOrder SameDrills.
Proof.
  split; [by intros db; split; [reflexivity|]|].
  intros db1 db2 db3 [G1 E1] [G2 E2]. split; [by etransitivity|congruence].
Qed.

Lemma frame_SameDrills {A} P (m : GO A) : frame drill_db m -> guards P SameDrills m.
Proof. intros Hf w _. split; [unfold Keeps|]; rewrite Hf; reflexivity. Qed.

Lemma step_SameDrills P id name grd f :
  name <> StepReport -> guards P SameDrills (update_step id name grd f).
Proof.
  intros Hn. apply guards_update; [typeclasses eauto|]. intros t db HP.
  destruct db as [s adb l au mo ho ke ev nt]; split; simpl; [|by destruct s].
  unfold Keeps; simpl. by apply Step_ok_alter_step.
Qed.

Lemma guards_reportUsage dr : guards (fun _ => True) SameDrills (reportUsage D dr).
Proof.
  unfold reportUsage. destruct HD. guard_steps; apply frame_SameDrills; eauto.
Qed.

Lemma guards_teardown_sandbox id dr : guards (fun _ => True) SameDrills (teardown_sandbox D id dr).
Proof.
  unfold teardown_sandbox, sandbox, GetDrillByID, MarkStepFailed, MarkStepSucceeded.
  guard_steps; try (by apply step_SameDrills).
  apply frame_SameDrills, Teardown_frame, HD.
Qed.

Lemma guards_announce_failed P `{!Stable P G} dr id r : guards P G (announce_failed D dr id r).
Proof.
  unfold announce_failed, recordDrillMetric, captureDrill, dispatchWebhook, notifyDrill.
  destruct HD. guard_steps; apply frame_guards; eauto.
Qed.

Lemma guards_announce_completed P `{!Stable P G} dr dr2 id : guards P G (announce_completed D dr dr2 id).
Proof.
  unfold announce_completed, recordDrillMetric, captureDrill, dispatchWebhook, notifyDrill.
  destruct HD. guard_steps; apply frame_guards; eauto.
Qed.
Hint Resolve guards_announce_failed guards_announce_completed : dokas.

(** The job's precondition.  A teardown in flight read the drill as [dr] when
    it began; if it may still overwrite a failure, [X] has the drill. *)
Definition TeardownPre (id : uuid) (reason : string) (db : DB) : Prop :=
  reason = "" -> EvDB id db.
Definition InFlight (id : uuid) (reason : string) (dr : Drill) (db : DB) : Prop :=
  TeardownPre id reason db /\
  (reason = "" -> d_Status dr <> StatusFailed -> X id \/ drills (drill_db db) !! id = Some dr).
Definition AtDrill (id : uuid) (dr : Drill) (db : DB) : Prop :=
  EvDB id db /\ drills (drill_db db) !! id = Some dr.
#[local] Instance TeardownPre_stable id r : Stable (TeardownPre id r) G.
Proof. intros db db' H HG Hr. eapply EvDB_stable; eauto. Qed.
#[local] Instance InFlight_stable id r dr : Stable (InFlight id r dr) SameDrills.
Proof. intros db db' [H1 H2] [HG Hs]. split; [by eapply TeardownPre_stable|]. by rewrite Hs. Qed.

Lemma sub_SameDrills db db' : SameDrills db db' -> G db db'.
Proof. by intros []. Qed.

Lemma guards_any_sub {A} P (m : GO A) : guards (fun _ => True) SameDrills m -> guards P SameDrills m.
Proof. intros H. by eapply guards_weaken. Qed.

Lemma guards_MarkDrillSucceeded id dr :
  X id \/ d_Status dr <> StatusFailed ->
  guards (AtDrill id dr) G (MarkDrillSucceeded id (opt_string (d_EvidencePath dr))).
Proof.
  intros HX. apply guards_update_drill. intros t db d [(d' & p & Hd' & Hp & Hne) Hdr] Hd _.
  assert (d' = dr) as -> by congruence. assert (d = dr) as -> by congruence.
  unfold opt_string. rewrite Hp. destruct dr; simpl in *. naive_solver.
Qed.

Lemma guards_complete id dr :
  d_Status dr <> StatusFailed ->
  guards (InFlight id "" dr) G
    (dr2 ← GetDrillByID id;
     MarkDrillSucceeded id (opt_string (d_EvidencePath dr2));;
     announce_completed D dr dr2 id).
Proof.
  intros Hst.
  apply (guards_bind_gen _ G SameDrills _ _ (fun dr2 db => drills (drill_db db) !! id = Some dr2)); try done.
  - intros ??; apply sub_SameDrills.
  - typeclasses eauto.
  - unfold GetDrillByID. guard_steps.
  - by intros w dr2 w' _ [Hd2 _]%GetDrillByID_ret.
  - intros dr2 w [[Hp HX] Hd].
    assert (X id \/ d_Status dr2 <> StatusFailed) as HX2
      by (destruct (HX eq_refl Hst) as [|Hd']; [by left|right; congruence]).
    refine (guards_bind_any (AtDrill id dr2) G _ _ _ _ w _);
      [by apply guards_MarkDrillSucceeded|intros _; guard_steps|by split; [apply Hp|]].
Qed.

Lemma guards_teardown_rest id r dr : guards (InFlight id r dr) G (teardown_rest D id r dr).
Proof.
  unfold teardown_rest.
  apply (guards_bind_rel _ G SameDrills); [apply sub_SameDrills|typeclasses eauto
    |apply guards_any_sub, guards_reportUsage|intros _].
  apply (guards_bind_rel _ G SameDrills); [apply sub_SameDrills|typeclasses eauto
    |apply guards_any_sub, guards_teardown_sandbox|intros _].
  destruct (decide (r = "")) as [->|Hr].
  - simpl. case_bool_decide as Hst; [|by apply guards_complete].
    eapply guards_weaken with (P := fun _ => True); [guard_steps|done].
  - rewrite bool_decide_eq_false_2 by done. simpl.
    eapply guards_weaken with (P := fun _ => True); [guard_steps|done].
Qed.

Lemma guards_TeardownWork id r :
  guards (fun db => InvDB db /\ TeardownPre id r db) G (TeardownWork D id r).
Proof.
  eapply guards_weaken; [|intros db [_ H]; exact H]. unfold TeardownWork.
  apply (guards_bind_gen _ G SameDrills _ _ (fun dr db => drills (drill_db db) !! id = Some dr)).
  - apply sub_SameDrills.
  - intros db db' H [HG _]. by eapply TeardownPre_stable.
  - unfold GetDrillByID. guard_steps.
  - by intros w dr w' _ [Hd _]%GetDrillByID_ret.
  - intros dr. eapply guards_weaken; [apply guards_teardown_rest|]. intros db [H Hd]. split; [done|]. by right.
Qed.

(** ** Every job, and the producers of jobs *)

Definition JobPre (j : JobArgs) (db : DB) : Prop :=
  match j with TeardownArgs id r => TeardownPre id r db | _ => True end.

Lemma guards_Work j : guards (fun db => InvDB db /\ JobPre j db) G (Work D j).
Proof.
  assert (forall m : GO unit, guards InvDB G m -> guards (fun db => InvDB db /\ True) G m) as Hw
    by (intros m Hm; eapply guards_weaken; [exact Hm|by intros db []]).
  destruct j; simpl; [apply Hw..|apply guards_TeardownWork].
  - apply guards_ProvisionWork; typeclasses eauto.
  - apply guards_FetchWork; typeclasses eauto.
  - apply guards_RestoreWork; typeclasses eauto.
  - apply guards_AssertWork; typeclasses eauto.
  - apply guards_ReportWork.
Qed.

Lemma guards_EnqueueDrill id prio : guards InvDB G (EnqueueDrill id prio).
Proof.
  unfold EnqueueDrill. apply guards_bind; [typeclasses eauto..| |intros _; guard_steps].
  generalize 0. induction AllSteps as [|n l IH]; intros i; simpl; guard_steps.
Qed.

Lemma guards_CreateDrillIdempotent acct by_ target key :
  guards InvDB G (CreateDrillIdempotent acct by_ target key).
Proof.
  unfold CreateDrillIdempotent, insert_idem. guard_steps.
  apply guards_exec_same. intros t u db db' x Heq. repeat case_match; simplify_eq.
  by destruct db as [[] ? ? ? ? ? ?].
Qed.
End workers.

(** ** The system *)

Section system.
Context `{env : Env} `{uuids : UuidLib} `{json : JsonLib} (D : Deps).

(** A teardown in flight: the drill and the reason of its job, and the drill
    as the worker read it first. *)
Definition Flight : Type := uuid * string * Drill.

(** River runs a pending job.  A job that returned nil is removed, unless
    the completion itself is lost; one that failed or crashed stays for a
    retry, or is discarded once its attempts are used up.  Handlers and the
    scheduler create and enqueue drills at any time.  The client runs up to
    eight workers at once: a teardown, whose last write rests on its first
    read, may have any number of other steps in between. *)
Inductive step : World DB * list Flight -> World DB * list Flight -> Prop :=
| step_work n j w ts :
    river_jobs (drill_db (w_db w)) !! n = Some j -> step (w, ts) ((Work D (j_Args j) w).2, ts)
| step_teardown_begin n j id r dr w w' ts :
    river_jobs (drill_db (w_db w)) !! n = Some j -> j_Args j = TeardownArgs id r ->
    GetDrillByID id w = (Ret dr, w') -> step (w, ts) (w', (id, r, dr) :: ts)
| step_teardown_end id r dr w ts1 ts2 :
    step (w, ts1 ++ (id, r, dr) :: ts2) ((teardown_rest D id r dr w).2, ts1 ++ ts2)
| step_remove n w ts :
    step (w, ts) (with_db (w_db w){{ drill_db -> river_jobs ::= delete n }} w, ts)
| step_create acct by_ target key w ts :
    step (w, ts) ((CreateDrillIdempotent acct by_ target key w).2, ts)
| step_enqueue id prio w ts :
    step (w, ts) ((EnqueueDrill id prio w).2, ts).

Definition runs : World DB * list Flight -> World DB * list Flight -> Prop := rtc step.
Definition reachable (w w' : World DB) : Prop := exists ts, runs (w, []) (w', ts).

(** River runs job [n], which is removed when its worker returned nil. *)
Definition run_job (n : N) (w : World DB) : World DB :=
  match river_jobs (drill_db (w_db w)) !! n with
  | None => w
  | Some j =>
      match Work D (j_Args j) w with
      | (Ret _, w') => with_db (w_db w'){{ drill_db -> river_jobs ::= delete n }} w'
      | (_, w') => w'
      end
  end.
(** One pick of the River client: the oldest pending job. *)
Definition work_one (w : World DB) : World DB :=
  match order_by (fun x y => (x.1 <=? y.1)%N) (map_to_list (river_jobs (drill_db (w_db w)))) with
  | [] => w
  | (n, _) :: _ => run_job n w
  end.
Definition drain (n : nat) (w : World DB) : World DB := Nat.iter n work_one w.

(** The teardowns in flight that would still overwrite a failure of the drill. *)
Definition hazard (ts : list Flight) (id : uuid) : Prop :=
  exists dr, (id, "", dr) ∈ ts /\ d_Status dr <> StatusFailed.
End system.

(** Nothing has run yet. *)
Definition fresh (db : DB) : Prop :=
  drills (drill_db db) = ∅ /\ drill_steps (drill_db db) = ∅ /\ river_jobs (drill_db db) = ∅.

Lemma fresh_InvDB db : fresh db -> InvDB db.
Proof.
  intros (Hd & Hs & Hj). split.
  - intros id (d & H & _). by rewrite Hd, lookup_empty in H.
  - intros id st H. by rewrite Hs, lookup_empty in H.
  - intros n j id H. by rewrite Hj, lookup_empty in H.
Qed.

Section system_ok.
Context `{env : Env} `{uuids : UuidLib} `{json : JsonLib} (D : Deps) (HD : DepsOk D).

Record InvSys (σ : World DB * list Flight) : Prop := mkInvSys {
  is_db     : InvDB (w_db σ.1);
  is_flight : forall id dr, (id, "", dr) ∈ σ.2 -> EvDB id (w_db σ.1)
}.

Lemma InvSys_keeps X w w' ts ts' :
  InvSys (w, ts) -> Keeps X (w_db w) (w_db w') -> (forall x, x ∈ ts' -> x ∈ ts) -> InvSys (w', ts').
Proof.
  intros [HI HF] HK Hin. split; simpl in *; [by eapply InvDB_stable|].
  intros id dr Hid. eapply EvDB_stable; [|exact HK]. by eapply HF, Hin.
Qed.

Lemma step_keeps σ σ' : InvSys σ -> step D σ σ' -> Keeps (hazard σ.2) (w_db σ.1) (w_db σ'.1) /\ InvSys σ'.
Proof.
  intros HI Hs.
  assert (forall w w' ts ts' X, InvSys (w, ts) -> (forall x, x ∈ ts' -> x ∈ ts) ->
            Keeps X (w_db w) (w_db w') -> (forall id, X id -> hazard ts id) ->
            Keeps (hazard ts) (w_db w) (w_db w') /\ InvSys (w', ts')) as Hgo.
  { intros w w' ts ts' X Hw Hin HK HX. split; [by eapply Keeps_weaken|by eapply InvSys_keeps]. }
  destruct Hs as [n j w ts Hj|n j id r dr w w' ts Hj Ha Hr|id r dr w ts1 ts2|n w ts|acct by_ target key w ts|id prio w ts]; cbn [fst snd].
  - apply (Hgo w _ ts ts (hazard ts)); [done..| |done]. destruct HI as [HI _]. apply (guards_Work D HD). split; [done|].
    destruct (j_Args j) as [| | | | |i r] eqn:Ha; try done. intros ->. by eapply (inv_teardown _ HI).
  - apply GetDrillByID_ret in Hr as [Hd E]. rewrite E. split; [reflexivity|]. destruct HI as [HI HF]. split; simpl; rewrite E; [done|].
    intros i dr' [Heq|Hin]%elem_of_cons; [simplify_eq|by eapply HF]. by eapply (inv_teardown _ HI).
  - apply (Hgo w _ _ (ts1 ++ ts2) (hazard (ts1 ++ (id, r, dr) :: ts2))); [done| | |done].
    { intros x. rewrite !elem_of_app, elem_of_cons. naive_solver. }
    destruct HI as [HI HF]. apply guards_teardown_rest; [done|]. split.
    + intros ->. apply (HF id dr), elem_of_app. right. left.
    + intros -> Hst. left. exists dr. split; [|done]. apply elem_of_app. right. left.
  - apply (Hgo w _ ts ts (hazard ts)); [done..| |done]. unfold Keeps. simpl.
    destruct (w_db w) as [s adb l au mo ho ke ev nt]; simpl. apply Step_ok_delete_job.
  - apply (Hgo w _ ts ts (hazard ts)); [done..| |done]. destruct HI as [HI _]. by apply guards_CreateDrillIdempotent.
  - apply (Hgo w _ ts ts (hazard ts)); [done..| |done]. destruct HI as [HI _]. by apply guards_EnqueueDrill.
Qed.

Lemma fresh_InvSys w : fresh (w_db w) -> InvSys (w, []).
Proof. intros Hf. split; [by apply fresh_InvDB|]. intros id dr []%elem_of_nil. Qed.

Lemma runs_InvSys σ σ' : InvSys σ -> runs D σ σ' -> InvSys σ'.
Proof. intros HI Hr. induction Hr as [σ|σ1 σ2 σ3 H12 _ IH]; [done|]. by apply IH, (step_keeps σ1). Qed.

(** No teardown begins with a hazard for a drill that already failed. *)
Lemma step_hazard σ σ' id : step D σ σ' -> has_status (drill_db (w_db σ.1)) id StatusFailed ->
  hazard σ'.2 id -> hazard σ.2 id.
Proof.
  intros Hs (d & Hd & Hst) (dr & Hin & Hne). exists dr. split; [|done]. revert Hin.
  destruct Hs as [| n j i r dr' w w' ts Hj Ha Hr|i r dr' w ts1 ts2| | |]; simpl in *; try done.
  - apply GetDrillByID_ret in Hr as [Hd' E]. rewrite E in Hd'.
    intros [Heq|Hin]%elem_of_cons; [simplify_eq; congruence|done].
  - rewrite !elem_of_app, elem_of_cons. naive_solver.
Qed.

Lemma failed_stays σ σ' id : InvSys σ -> runs D σ σ' ->
  has_status (drill_db (w_db σ.1)) id StatusFailed -> ~ hazard σ.2 id -> has_status (drill_db (w_db σ'.1)) id StatusFailed.
Proof.
  intros HI Hr. induction Hr as [σ|σ1 σ2 σ3 H12 _ IH]; [done|]. intros Hst Hz.
  destruct (step_keeps σ1 σ2 HI H12) as [HK HI2]. apply IH; [done|by apply (ok_failed _ _ _ HK)|].
  intros Hz2. by apply Hz, (step_hazard σ1 σ2).
Qed.

Lemma run_job_runs n w ts : runs D (w, ts) (run_job D n w, ts).
Proof.
  unfold run_job. destruct (river_jobs (drill_db (w_db w)) !! n) as [j|] eqn:Hj; [|reflexivity].
  pose proof (step_work D n j w ts Hj) as Hs.
  destruct (Work D (j_Args j) w) as [[[]|e|] w'] eqn:HW; simpl in Hs; [|by apply rtc_once..].
  eapply rtc_l; [exact Hs|]. apply rtc_once, step_remove.
Qed.
Lemma work_one_runs w ts : runs D (w, ts) (work_one D w, ts).
Proof. unfold work_one. destruct (order_by _ _) as [|[n j] l]; [reflexivity|apply run_job_runs]. Qed.

Lemma drain_runs n w ts : runs D (w, ts) (drain D n w, ts).
Proof.
  induction n as [|n IH]; [reflexivity|]. simpl. etransitivity; [exact IH|apply work_one_runs].
Qed.
End system_ok.

(** ** Theorems *)

Section theorems.
Context `{env : Env} `{uuids : UuidLib} `{json : JsonLib} (D : Deps) (HD : DepsOk D).

(** C1: whatever statements fail, whichever processes crash and however
    often River retries a job, a drill that reads "succeeded" has a
    non-empty evidence path on record. *)
Theorem succeeded_has_evidence w w' id d :
  fresh (w_db w) -> reachable D w w' ->
  drills (drill_db (w_db w')) !! id = Some d -> d_Status d = StatusSucceeded ->
  exists path, d_EvidencePath d = Some path /\ path <> "".
Proof.
  intros Hf [ts Hr] Hd Hst. destruct (runs_InvSys D HD (w, []) (w', ts)) as [HI _]; [by apply fresh_InvSys|done|].
  destruct (inv_succeeded _ HI id) as (d' & p & Hd' & Hp); [by exists d|]. naive_solver.
Qed.

(** C3: once a drill reads "failed" no later job, retry or duplicate
    enqueue turns it into anything else, however many teardowns run
    interleaved with the other jobs, unless a teardown without a failure
    reason was already in flight that had read the drill before it failed. *)
Theorem failed_is_final w0 w w' ts ts' id :
  fresh (w_db w0) -> runs D (w0, []) (w, ts) -> runs D (w, ts) (w', ts') ->
  (forall dr, (id, "", dr) ∈ ts -> d_Status dr = StatusFailed) ->
  has_status (drill_db (w_db w)) id StatusFailed ->
  has_status (drill_db (w_db w')) id StatusFailed.
Proof.
  intros Hf H0 H1 Hz Hst. apply (failed_stays D HD (w, ts) (w', ts')); [|done..|].
  - apply (runs_InvSys D HD (w0, [])); [by apply fresh_InvSys|done].
  - intros (dr & Hin & Hne). by apply Hne, Hz.
Qed.
End theorems.

(** ** A drill of the demo database, enqueued and drained *)

Definition demo_start `{env : Env} : World DB :=
  (EnqueueDrill 1002 3 (CreateDrillIdempotent 1 2 10 "k" (world demo_db)).2).2.

Lemma demo_start_runs `{env : Env} D : runs D (world demo_db, []) (demo_start, []).
Proof. eapply rtc_l; [apply step_create|]. apply rtc_once, step_enqueue. Qed.

Lemma demo_drain_runs `{env : Env} D n : runs D (world demo_db, []) (drain D n demo_start, []).
Proof. etransitivity; [apply demo_start_runs|apply drain_runs]. Qed.
Lemma demo_drain_reachable `{env : Env} D n : reachable D (world demo_db) (drain D n demo_start).
Proof. exists []. apply demo_drain_runs. Qed.

Lemma demo_fresh : fresh (w_db (world demo_db)).
Proof. by repeat split. Qed.

Lemma succeeded_has_evidence_witness :
  let s := drill_db (w_db (drain (env:=demo_env) (demo_deps 3) 6 (demo_start (env:=demo_env)))) in
  exists d path, drills s !! 1002%N = Some d /\ d_Status d = StatusSucceeded /\
                 d_EvidencePath d = Some path /\ path <> "".
Proof.
  cbv zeta. eexists.
  edestruct (succeeded_has_evidence (env:=demo_env) (demo_deps 3) (demo_deps_ok 3) (world demo_db)
    (drain (env:=demo_env) (demo_deps 3) 6 (demo_start (env:=demo_env))) 1002)
    as (path & Hp & Hne);
    [apply demo_fresh|apply demo_drain_reachable|vm_compute; reflexivity|reflexivity|].
  exists path. split; [vm_compute; reflexivity|]. split; [reflexivity|]. split; [exact Hp|exact Hne].
Defined.

Lemma failed_is_final_witness :
  has_status (drill_db (w_db (drain (env:=demo_env) (demo_deps 0) 1
    (drain (env:=demo_env) (demo_deps 0) 5 (demo_start (env:=demo_env)))))) 1002 StatusFailed.
Proof.
  apply (failed_is_final (env:=demo_env) (demo_deps 0) (demo_deps_ok 0) (world demo_db)
           (drain (env:=demo_env) (demo_deps 0) 5 (demo_start (env:=demo_env))) _ [] []).
  - apply demo_fresh.
  - apply demo_drain_runs.
  - apply drain_runs.
  - intros dr []%elem_of_nil.
  - eexists. split; vm_compute; reflexivity.
Defined.

(** ** Two teardowns of one drill *)

(** The fetch works once the database it copies is back. *)
Definition rival_runner : Runner := {|
  Provision := Provision demo_runner;
  Fetch sb uri := ext (env:=demo_env) (ExtCall "fetch" [])
    (fun n => if (n <? 46)%nat then inl (ErrNew "unreachable") else inr ("/tmp/dump", "abc123"));
  Restore := Restore demo_runner;
  Rehydrate := Rehydrate demo_runner;
  Teardown := Teardown demo_runner
|}.
Definition rival_deps : Deps :=
  let d := demo_deps 3 in
  mkDeps rival_runner (D_Connect d) (D_Render d) (D_Finalize d) (D_Webhooks d) (D_Metrics d)
    (D_Analytics d) (D_Billing d) (D_Accounts d) (D_Notify d).
Lemma rival_deps_ok : DepsOk rival_deps.
Proof.
  pose proof (demo_deps_ok 3) as [HR ? ? ? ? ? ? ? ?].
  split; try assumption. destruct HR. split; try assumption.
  all: intros; intros w; apply (wp_ext (env:=demo_env) _ _ (fun _ w' => drill_db (w_db w') = drill_db (w_db w)));
    by intros ? ? ->.
Qed.

Section race.
#[local] Existing Instance demo_env.
Definition run (ns : list N) (w : World DB) : World DB := foldl (fun w n => run_job rival_deps n w) w ns.

Lemma run_runs (ns : list N) w ts : runs rival_deps (w, ts) (run ns w, ts).
Proof.
  revert w. induction ns as [|n ns IH]; intros w; [reflexivity|].
  simpl. etransitivity; [apply run_job_runs|apply IH].
Qed.

(** The teardown without a reason begins, the other one runs, it ends. *)
Definition race_start : World DB := run [1; 2; 3; 4; 6; 7; 8]%N (EnqueueDrill 1002 3 demo_start).2.
Definition race_mid : World DB := run [5%N] (GetDrillByID 1002 race_start).2.
Definition race_end : World DB :=
  match GetDrillByID 1002 race_start with
  | (Ret dr, _) => (teardown_rest rival_deps 1002 "" dr race_mid).2
  | _ => race_mid
  end.

Lemma race_start_runs : runs rival_deps (world demo_db, []) (race_start, []).
Proof.
  etransitivity; [apply demo_start_runs|]. eapply rtc_l; [apply (step_enqueue _ 1002 3)|]. apply run_runs.
Qed.
Lemma race_runs : exists fl, runs rival_deps (world demo_db, []) (race_mid, [fl]) /\ step rival_deps (race_mid, [fl]) (race_end, []).
Proof.
  assert (exists dr, (GetDrillByID 1002 race_start).1 = Ret dr) as [dr Hdr] by (eexists; vm_compute; reflexivity).
  unfold race_end, race_mid. destruct (GetDrillByID 1002 race_start) as [o w2] eqn:E. cbn [fst snd] in *. subst o.
  exists (1002%N, "", dr). split; [|apply (step_teardown_end _ _ _ _ _ [] [])].
  etransitivity; [apply race_start_runs|]. eapply rtc_l; [|apply (run_runs [5%N])].
  assert (river_jobs (drill_db (w_db race_start)) !! 9%N = Some (mkJob (TeardownArgs 1002 "") 0)) as Hj by (vm_compute; reflexivity).
  exact (step_teardown_begin _ _ _ _ _ _ _ _ _ Hj eq_refl E).
Qed.

(** The drill was enqueued twice.  The first fetch failed, so that a teardown
    with a reason is pending; the jobs of the second went through, and so is
    one without.  The latter reads the drill, the former marks it failed,
    and the latter then marks it succeeded. *)
Lemma teardown_race :
  exists (w0 w w' : World DB) (fl : Flight),
    fresh (w_db w0) /\ runs rival_deps (w0, []) (w, [fl]) /\ step rival_deps (w, [fl]) (w', []) /\
    has_status (drill_db (w_db w)) 1002 StatusFailed /\ has_status (drill_db (w_db w')) 1002 StatusSucceeded.
Proof.
  destruct race_runs as (fl & H1 & H2). exists (world demo_db), race_mid, race_end, fl.
  split; [apply demo_fresh|]. split; [exact H1|]. split; [exact H2|]. split; (eexists; split; [vm_compute; reflexivity|reflexivity]).
Qed.
End race.

(** C39: the verdict can be lost.  The report worker records its step as
    succeeded before it marks the drill failed; if the process dies in
    between, the retried job takes the already-done path, which enqueues a
    teardown without a failure reason, and the drill with a failed assertion
    ends "succeeded". *)
Theorem failed_assertion_can_succeed :
  exists (env : Env) (D : Deps) (w w' : World DB) (id : uuid),
    DepsOk D /\ fresh (w_db w) /\ reachable (env:=env) D w w' /\
    has_status (drill_db (w_db w')) id StatusSucceeded /\
    exists i r, assertion_results (drill_db (w_db w')) !! i = Some r /\
                ar_DrillID r = id /\ ar_Passed r = false.
Proof.
  exists (fault_at 54 (FCrash false)), (demo_deps 0), (world demo_db).
  exists (drain (env:=fault_at 54 (FCrash false)) (demo_deps 0) 7 (demo_start (env:=fault_at 54 (FCrash false)))), 1002%N.
  split; [apply demo_deps_ok|]. split; [apply demo_fresh|]. split; [apply demo_drain_reachable|].
  split; [eexists; split; vm_compute; reflexivity|].
  eexists 1041%N, _. split; [vm_compute; reflexivity|]. done.
Qed.

(** ** Skipped steps *)

(** The statement that would enqueue the teardown fails twice. *)
Definition flaky_env : Env :=
  demo_env_with (fun k => if (k =? 30)%nat || (k =? 47)%nat then FErr false else FOk).

(** The first fetch and the first restore fail; their retries work. *)
Definition flaky_runner : Runner := {|
  Provision := Provision demo_runner;
  Fetch sb uri := ext (env:=flaky_env) (ExtCall "fetch" [])
    (fun n => if (n =? 25)%nat then inl (ErrNew "unreachable") else inr ("/tmp/dump", "abc123"));
  Restore sb p := ext (env:=flaky_env) (ExtCall "restore" [])
    (fun n => if (n =? 43)%nat then inl (ErrNew "pg_restore: exit 1") else inr ("restored", None));
  Rehydrate := Rehydrate demo_runner;
  Teardown := Teardown demo_runner
|}.
Definition flaky_deps : Deps :=
  let d := demo_deps 3 in
  mkDeps flaky_runner (D_Connect d) (D_Render d) (D_Finalize d) (D_Webhooks d) (D_Metrics d)
    (D_Analytics d) (D_Billing d) (D_Accounts d) (D_Notify d).

Lemma flaky_deps_ok : DepsOk flaky_deps.
Proof.
  pose proof (demo_deps_ok 3) as [HR ? ? ? ? ? ? ? ?].
  split; try assumption. destruct HR. split; try assumption.
  all: intros; intros w; apply (wp_ext (env:=flaky_env) _ _ (fun _ w' => drill_db (w_db w') = drill_db (w_db w)));
    by intros ? ? ->.
Qed.

Definition step_status (w : World DB) (id : uuid) (n : StepName) : option Status :=
  s_Status <$> drill_steps (drill_db (w_db w)) !! (id, n).

(** a step marked skipped says nothing final about the drill.  When the
    fetch fails and the statement that would enqueue the teardown fails too,
    River retries the fetch job although the later steps are already marked
    skipped.  From there the restore step goes from skipped to failed (its
    failure mark has no guard) and on to succeeded, and the drill ends
    succeeded, with evidence, while its assert and report steps, which did
    run, still read skipped. *)
Theorem skipped_is_not_final :
  exists (env : Env) (D : Deps) (w w1 w2 : World DB) (id : uuid),
    DepsOk D /\ fresh (w_db w) /\ reachable (env:=env) D w w1 /\ reachable (env:=env) D w1 w2 /\
    step_status w1 id StepRestore = Some StatusSkipped /\
    step_status w2 id StepRestore = Some StatusSucceeded /\
    step_status w2 id StepAssert = Some StatusSkipped /\
    step_status w2 id StepReport = Some StatusSkipped /\
    has_status (drill_db (w_db w2)) id StatusSucceeded.
Proof.
  exists flaky_env, flaky_deps, (world demo_db).
  exists (drain (env:=flaky_env) flaky_deps 3 (demo_start (env:=flaky_env))).
  exists (drain (env:=flaky_env) flaky_deps 5 (drain (env:=flaky_env) flaky_deps 3 (demo_start (env:=flaky_env)))), 1002%N.
  split; [apply flaky_deps_ok|]. split; [apply demo_fresh|]. split; [apply demo_drain_reachable|].
  split; [exists []; apply drain_runs|]. do 4 (split; [vm_compute; reflexivity|]).
  eexists. split; vm_compute; reflexivity.
Qed.
