(* ===== verification/PipelineLive.v ===== *)
(** A drill that meets no infrastructure fault: whatever the sandbox, the
    assertions and the renderer answer, six jobs take it from "pending" to a
    verdict; when they answer without an error, the verdict is that of the
    target's assertions. *)
From S2P Require Import Prelude Crypto Effects Schema AuditLog DrillStore Assertions Runner Steps Demo Pipeline.

(** ** What the dependencies do *)

(** A name under which the runner finds the sandbox again. *)
Definition ready (D : Deps) (id : uuid) (name : string) : Prop :=
  name <> "" /\ exists sb, Rehydrate (D_Runner D) id name = inr sb.

(** The dependencies answer: an error is an answer, a dead process is not. *)
Record DepsCalm `{Env} (D : Deps) : Prop := mkDepsCalm {
  calm_Provision : forall id, steady (Provision (D_Runner D) id);
  calm_Provision_ready : forall id w sb w',
    Provision (D_Runner D) id w = (Ret sb, w') -> ready D id (sb_Name sb);
  calm_Fetch     : forall sb u, steady (Fetch (D_Runner D) sb u);
  calm_Restore   : forall sb p, steady (Restore (D_Runner D) sb p);
  calm_Teardown  : forall sb, steady (Teardown (D_Runner D) sb);
  calm_Connect   : forall dsn, steady (D_Connect D dsn);
  calm_Querier   : forall dsn w q w', D_Connect D dsn w = (Ret q, w') ->
    (forall s a, steady (QueryInt q s a)) /\ (forall s a, steady (QueryBool q s a)) /\
    (forall s, steady (QueryRows q s));
  calm_Finalize  : forall id a pdf, steady (D_Finalize D id a pdf);
  calm_Webhooks  : forall f id ev m, D_Webhooks D = Some f -> steady (f id ev m);
  calm_Billing   : forall b f c i, D_Billing D = Some (b, f) -> steady (f c i);
  calm_Accounts  : forall f id, D_Accounts D = Some f -> steady (f id);
  calm_Notify    : forall f dr ev r, D_Notify D = Some f -> steady (f dr ev r)
}.

(** They answer without an error: the sandbox is provisioned, the dump
    fetched and restored, the assertions of [L] are ones the sandbox can be
    asked, and the evidence is rendered and stored. *)
Record DepsServe `{Env} `{JsonLib} (D : Deps) (L : list Assertion) : Prop := mkDepsServe {
  serve_Provision : forall id, answers (Provision (D_Runner D) id);
  serve_Fetch     : forall sb u, answers (Fetch (D_Runner D) sb u);
  serve_Restore   : forall sb p w, exists out w', Restore (D_Runner D) sb p w = (Ret (out, None), w');
  serve_Connect   : forall dsn, answers (D_Connect D dsn);
  serve_Run       : forall spec, spec ∈ L -> assertion_kind_check (as_Kind spec) = true /\
    exists cfg, json_Unmarshal (as_Config spec) = inr cfg /\
      forall dsn v q v', D_Connect D dsn v = (Ret q, v') -> answers (Run q (as_Kind spec) cfg);
  serve_Render    : forall dr t st ars op now, exists pdf, D_Render D dr t st ars op now = inr pdf;
  serve_Finalize  : forall id a pdf, answers (D_Finalize D id a pdf)
}.

(** From the [T]-th effect on identifiers are new: no two are equal and no
    result of another drill has one. *)
Definition fresh_ids `{Env} (T : nat) (id : uuid) (m : gmap uuid AssertionResult) : Prop :=
  (forall j k, (T <= j)%nat -> (T <= k)%nat -> env_uuid j = env_uuid k -> j = k) /\
  (forall k i r, (T <= k)%nat -> m !! i = Some r -> ar_DrillID r <> id -> env_uuid k <> i).

(** ** The assertions of a drill and their results *)

(** The assertions of the drill's target, as the worker lists them. *)
Definition specs_of (targetID : uuid) (s : DrillDB) : list Assertion :=
  order_by (oldest_first as_CreatedAt as_ID)
    (sql_select (fun a => bool_decide (as_TargetID a = targetID)) (target_assertions s)).
Definition drill_specs (id : uuid) (s : DrillDB) : list Assertion :=
  match drills s !! id with
  | Some d => match targets s !! d_TargetID d with Some t => specs_of (t_ID (tr_target t)) s | None => [] end
  | None => []
  end.

Abbreviation results := (gmap uuid AssertionResult).
Definition drill_results (id : uuid) (m : results) : list AssertionResult :=
  sql_select (fun r => bool_decide (ar_DrillID r = id)) m.

(** [r] is what running [spec] on a sandbox came to. *)
Definition result_of `{Env} `{JsonLib} (D : Deps) (spec : Assertion) (r : AssertionResult) : Prop :=
  exists cfg dsn v q v' w out w',
    json_Unmarshal (as_Config spec) = inr cfg /\ D_Connect D dsn v = (Ret q, v') /\
    Run q (as_Kind spec) cfg w = (Ret out, w') /\
    ar_Kind r = o_Kind out /\ ar_Expected r = o_Expected out /\ ar_Actual r = o_Actual out /\ ar_Passed r = o_Passed out.

(** The drill's results are those of the assertions [L], one each. *)
Definition Evaluated `{Env} `{JsonLib} (D : Deps) (L : list Assertion) (id : uuid) (m : results) : Prop :=
  exists rs, drill_results id m ≡ₚ rs /\ Forall2 (result_of D) L rs.
Definition AnyResults : results -> Prop := fun _ => True.
Definition AllPassed (id : uuid) (m : results) : Prop :=
  forall i r, m !! i = Some r -> ar_DrillID r = id -> ar_Passed r = true.
Definition SomeFailed (id : uuid) (m : results) : Prop :=
  exists i r, m !! i = Some r /\ ar_DrillID r = id /\ ar_Passed r = false.

(** ** The pictures between the jobs *)

(** Job [j] is the only pending one, the drill is in progress and its target
    has the assertions [L], its steps from the [k]-th on are pending, and the
    assertion results satisfy [A]. *)
Record Core (D : Deps) (L : list Assertion) (id : uuid) (n : N) (j : JobArgs) (k : nat) (sb : bool)
    (A : results -> Prop) (s : DrillDB) : Prop := mkCore {
  c_jobs  : exists p, river_jobs s = {[ n := mkJob j p ]};
  c_seq   : (n < river_seq s)%N;
  c_drill : exists d, drills s !! id = Some d /\
              (d_Status d = StatusPending \/ d_Status d = StatusRunning) /\
              (exists t, targets s !! d_TargetID d = Some t /\ specs_of (t_ID (tr_target t)) s = L) /\
              (sb = true -> ready D id (opt_string (d_SandboxDB d)));
  c_steps : forall name, (k <= StepName_index name)%nat ->
              exists st, drill_steps s !! (id, name) = Some st /\ s_Status st = StatusPending;
  c_ars   : A (assertion_results s)
}.

Lemma Core_weaken D L id n j k k' (sb sb' : bool) (A A' : _ -> Prop) s :
  Core D L id n j k sb A s -> (k <= k')%nat -> (sb' = true -> sb = true) -> (A (assertion_results s) -> A' (assertion_results s)) ->
  Core D L id n j k' sb' A' s.
Proof.
  intros [Hj Hs (d & Hd & Hst & Ht & Hb) Hsteps Ha] Hk Hsb HA. split; eauto.
  - exists d. naive_solver.
  - intros name Hn. apply Hsteps. lia.
Qed.

(** The picture after a worker: its own job is still there, the next one is. *)
Definition After D L (id : uuid) (n : N) (j : JobArgs) (k : nat) sb A (db : DB) : Prop :=
  exists n', Core D L id n' j k sb A (drill_db db){{ river_jobs ::= delete n }}.

(** Only the teardown of a failed drill is pending, for the cause [C]. *)
Record Dead (C : results -> Prop) (id : uuid) (n : N) (j : JobArgs) (s : DrillDB) : Prop := mkDead {
  dead_jobs  : exists p, river_jobs s = {[ n := mkJob j p ]};
  dead_seq   : (n < river_seq s)%N;
  dead_drill : is_Some (drills s !! id);
  dead_cause : C (assertion_results s)
}.
Definition FailPending (C : results -> Prop) (id : uuid) (n : N) (db : DB) : Prop :=
  exists r n', r <> "" /\ Dead C id n' (TeardownArgs id r) (drill_db db){{ river_jobs ::= delete n }}.

Lemma Core_Dead D L id n j k sb (A C : results -> Prop) s : Core D L id n j k sb A s -> C (assertion_results s) -> Dead C id n j s.
Proof. intros [Hj Hs (d & Hd & _) _ _] HC. split; eauto. Qed.

(** The teardown has run: the drill has its verdict. *)
Definition Verdict (Cf Cp : results -> Prop) (id : uuid) (s : DrillDB) : Prop :=
  (has_status s id StatusFailed /\ Cf (assertion_results s)) \/ (has_status s id StatusSucceeded /\ Cp (assertion_results s)).
Definition Ended (Cf Cp : results -> Prop) (id : uuid) (n : N) (s : DrillDB) : Prop :=
  (exists jb, river_jobs s = {[ n := jb ]}) /\ Verdict Cf Cp id s.

Section live.
Context `{env : Env} `{uuids : UuidLib} `{json : JsonLib}.
Context (ff : forall n, env_fault n = FOk).
Context (D : Deps) (HD : DepsOk D) (HC : DepsCalm D) (L : list Assertion) (T : nat) (m0 : results) (id : uuid) (n : N).
Abbreviation total := (Effects.total T).

(** The dependencies answer without an error and identifiers are new. *)
Definition Serving : Prop := DepsServe D L /\ fresh_ids T id m0.
Definition FailCause (m : results) : Prop := Serving -> Evaluated D L id m /\ SomeFailed id m.
Definition PassCause (m : results) : Prop := Evaluated D L id m /\ AllPassed id m.

Abbreviation at_ j k sb A := (fun db => Core D L id n j k sb A (drill_db db)).

Lemma total_mark_step j k sb A name grd f :
  (StepName_index name < k)%nat ->
  total (at_ j k sb A) (update_step id name grd f) (fun _ => at_ j k sb A).
Proof.
  intros Hn. apply total_update; [done|]. intros t [[] adb l] [Hj Hs Hd Hst Ha]; simpl in *.
  split; simpl; try done. intros name' Hk. destruct (Hst name' Hk) as (st & Hl & ?).
  exists st. rewrite lookup_alter_ne; [done|]. intros [=]; subst. lia.
Qed.

Lemma total_mark_drill j k sb A grd f :
  (forall t d, grd d = true -> d_Status d = StatusPending \/ d_Status d = StatusRunning ->
     (d_Status (f t d) = StatusPending \/ d_Status (f t d) = StatusRunning) /\
     d_TargetID (f t d) = d_TargetID d /\
     d_SandboxDB (f t d) = d_SandboxDB d) ->
  total (at_ j k sb A) (update_drill id grd f) (fun _ => at_ j k sb A).
Proof.
  intros Hf. apply total_update; [done|]. intros t [[] adb l] [Hj Hs (d & Hd & Hst & Ht & Hb) Hss Ha].
  simpl in *. split; simpl; try done. rewrite lookup_alter_eq, Hd. eexists. split; [done|].
  destruct (grd d) eqn:Hg; [|done]. destruct (Hf t d Hg Hst) as (H1 & H2 & H3).
  rewrite H2, H3. done.
Qed.

Lemma total_SetSandboxDB j k sb A name :
  ready D id name -> total (at_ j k sb A) (SetSandboxDB id name) (fun _ => at_ j k true A).
Proof.
  intros Hne. apply total_update; [done|]. intros t [[] adb l] [Hj Hs (d & Hd & Hst & Ht & Hb) Hss Ha].
  simpl in *. split; simpl; try done. rewrite lookup_alter_eq, Hd. eexists. split; [done|].
  destruct d; simpl in *. done.
Qed.

Lemma total_Insert j k sb A j' p :
  total (at_ j k sb A) (Insert j' p) (fun _ => After D L id n j' k sb A).
Proof.
  apply total_update; [done|]. intros t [[] adb l] [(p0 & Hj) Hs Hd Hss Ha]; simpl in *.
  exists river_seq. split; simpl; try done; [|lia].
  exists p. rewrite Hj, delete_insert_ne by lia. rewrite delete_singleton_eq.
  apply insert_empty.
Qed.

Lemma total_GetStep j k sb A name :
  (k <= StepName_index name)%nat ->
  total (at_ j k sb A) (GetStep id name) (fun st db => at_ j k sb A db /\ s_Status st = StatusPending).
Proof.
  intros Hk. unfold GetStep. apply (total_query_row ff _ _ (fun st _ => s_Status st = StatusPending)). intros t db HC0.
  destruct (c_steps _ _ _ _ _ _ _ _ _ HC0 name Hk) as (st & ? & ?). eauto.
Qed.

Lemma total_alreadyDone j k sb A name :
  (k <= StepName_index name)%nat ->
  total (at_ j k sb A) (alreadyDone id name) (fun b db => at_ j k sb A db /\ b = false).
Proof.
  intros Hk. unfold alreadyDone. eapply total_bind; [by apply total_GetStep|].
  intros st. apply total_pure. intros Hst. apply total_ret. intros s Hs. split; [done|].
  by rewrite Hst.
Qed.

Lemma total_GetDrill j k sb A :
  total (at_ j k sb A) (GetDrillByID id) (fun d db => at_ j k sb A db /\ drills (drill_db db) !! id = Some d).
Proof.
  unfold GetDrillByID. apply (total_query_row ff _ _ (fun d db => drills (drill_db db) !! id = Some d)).
  intros t db H. destruct (c_drill _ _ _ _ _ _ _ _ _ H) as (d & Hd & _). eauto.
Qed.

Lemma total_sandbox j k A :
  total (at_ j k true A) (sandbox D id) (fun _ => at_ j k true A).
Proof.
  unfold sandbox. eapply total_bind; [apply total_GetDrill|]. intros d w HT [H Hd].
  destruct (c_drill _ _ _ _ _ _ _ _ _ H) as (d' & Hd' & _ & _ & Hsb).
  assert (d' = d) as -> by congruence. destruct (Hsb eq_refl) as [Hne [sb Hr]].
  rewrite bool_decide_eq_false_2 by done. rewrite Hr. simpl. eauto.
Qed.

Lemma total_lookup j k sb A :
  total (at_ j k sb A) (lookupDrillAndTarget id)
    (fun dt db => at_ j k sb A db /\ specs_of (t_ID dt.2) (drill_db db) = L).
Proof.
  unfold lookupDrillAndTarget. eapply total_bind; [apply total_GetDrill|]. intros d.
  eapply total_bind with (Q := fun t db => at_ j k sb A db /\ specs_of (t_ID t) (drill_db db) = L);
    [|intros t; apply total_ret; intros s H; exact H].
  unfold GetTargetByID. eapply total_conseq;
    [apply (total_query_row ff _ _ (fun t db => specs_of (t_ID t) (drill_db db) = L))|intros s H; exact H|by intros a s [[] ?]].
  intros t db [H Hd]. destruct (c_drill _ _ _ _ _ _ _ _ _ H) as (d' & Hd' & _ & (tr & Ht & HL) & _).
  assert (d' = d) as -> by congruence. rewrite Ht. simpl. by eexists.
Qed.
Lemma total_lookup_any j k sb A : total (at_ j k sb A) (lookupDrillAndTarget id) (fun _ => at_ j k sb A).
Proof. eapply total_conseq; [apply total_lookup|intros s H; exact H|by intros a s [H _]]. Qed.

Abbreviation fail_or next k sb A := (fun (_ : unit) db => After D L id n next k sb A db \/ FailPending FailCause id n db).

Lemma total_failed j k sb A step reason :
  (k <= 6)%nat -> ~ Serving -> total (at_ j k sb A) (failAndCleanup id step reason) (fun _ => FailPending FailCause id n).
Proof.
  intros Hk Hns. apply (total_conseq (at_ j 6 false AnyResults) _ _ (fun _ => FailPending FailCause id n)).
  - unfold failAndCleanup. eapply total_bind; [apply total_ignore, total_mark_step|].
    { destruct step; simpl; lia. }
    intros ?. eapply total_bind; [apply total_for_each|].
    { intros later _. apply total_ignore, total_mark_step. destruct later; simpl; lia. }
    intros ?. eapply total_try_bind; [apply total_Insert|].
    intros u. apply total_ret. intros s [n' HA].
    exists (StepName_String step +:+ ": " +:+ reason), n'. split; [by destruct step|].
    eapply Core_Dead; [exact HA|]. by intros HS.
  - intros s H. eapply Core_weaken; [exact H|lia|done|done].
  - done.
Qed.

(** A dependency failed: it does not serve. *)
Lemma total_failAndCleanup j k sb A step reason next k' sb' A' :
  (k <= 6)%nat -> ~ Serving -> total (at_ j k sb A) (failAndCleanup id step reason) (fail_or next k' sb' A').
Proof.
  intros Hk Hns. eapply total_conseq; [by apply total_failed|intros s H; exact H|].
  intros a s H. by right.
Qed.

Lemma total_Insert_next j k sb A j' p :
  total (at_ j k sb A) (Insert j' p) (fail_or j' k sb A).
Proof. eapply total_conseq; [apply total_Insert|intros s H; exact H|]. intros ? s H. by left. Qed.

(** A call into a dependency whose error the worker looks at. *)
Lemma total_try_dep {A'} j k sb A (m : GO A') :
  frame drill_db m -> steady m -> (DepsServe D L -> answers m) ->
  total (at_ j k sb A) (try m) (fun r db => at_ j k sb A db /\ (may m r /\ forall e, r = inl e -> ~ Serving)).
Proof.
  intros Hf Hc Ha. eapply total_conseq; [by apply (total_try_frame drill_db (Core D L id n j k sb A))|intros s H; exact H|].
  intros r s [H Hm]. split; [done|]. split; [done|]. intros e -> [HS _]. by apply (may_not_fail m e Hm), Ha.
Qed.

Lemma total_ProvisionWork j sb A :
  total (at_ j 0 sb A) (ProvisionWork D id) (fail_or (FetchArgs id) 1 true A).
Proof.
  unfold ProvisionWork. eapply total_bind; [apply total_alreadyDone; simpl; lia|].
  intros b. apply total_pure. intros ->.
  eapply total_conseq with (P := at_ j 1 sb A);
    [|intros s H; eapply Core_weaken; eauto; lia|intros a s H; exact H].
  eapply total_bind; [apply total_mark_drill; intros t [] _ Hst; simpl in *; naive_solver|intros ?].
  eapply total_bind; [apply total_mark_step; simpl; lia|intros ?].
  eapply total_bind; [apply total_try_dep; [apply (Provision_frame _ (Runner_ok _ HD))|apply HC|intros []; auto]|].
  intros r. apply total_pure. intros [Hm Hs]. destruct r as [e|sbx].
  { apply total_failAndCleanup; [lia|by eapply Hs]. }
  destruct Hm as (w1 & w2 & Hm).
  eapply total_try_bind; [apply total_SetSandboxDB; by eapply calm_Provision_ready|intros ?].
  eapply total_bind; [apply total_mark_step; simpl; lia|intros ?]. apply total_Insert_next.
Qed.

Lemma total_FetchWork j A :
  total (at_ j 1 true A) (FetchWork D id)
    (fun _ db => (exists p, After D L id n (RestoreArgs id p) 2 true A db) \/ FailPending FailCause id n db).
Proof.
  unfold FetchWork. eapply total_bind; [apply total_alreadyDone; simpl; lia|].
  intros b. apply total_pure. intros ->.
  eapply total_conseq with (P := at_ j 2 true A);
    [|intros s H; eapply Core_weaken; eauto; lia|intros a s H; exact H].
  eapply total_bind; [apply total_mark_step; simpl; lia|intros ?].
  eapply total_bind; [apply total_lookup_any|intros [dr target]].
  eapply total_bind; [apply total_sandbox|intros sb].
  eapply total_bind; [apply total_try_dep; [apply Fetch_frame, HD|apply HC|intros []; auto]|].
  intros r. apply total_pure. intros [_ Hs]. destruct r as [e|[localPath hash]].
  - eapply total_conseq; [apply (total_failed j 2 true A); [lia|by eapply Hs]|intros s H; exact H|].
    intros ? s H. by right.
  - eapply total_bind; [apply total_mark_drill; intros t [] _ Hst; simpl in *; naive_solver|intros ?].
    eapply total_bind; [apply total_mark_step; simpl; lia|intros ?].
    eapply total_conseq; [apply total_Insert|intros s H; exact H|].
    intros ? s H. left. by exists localPath.
Qed.

Lemma total_RestoreWork j p A :
  total (at_ j 2 true A) (RestoreWork D id p) (fail_or (AssertArgs id) 3 true A).
Proof.
  unfold RestoreWork. eapply total_bind; [apply total_alreadyDone; simpl; lia|].
  intros b. apply total_pure. intros ->.
  eapply total_conseq with (P := at_ j 3 true A);
    [|intros s H; eapply Core_weaken; eauto; lia|intros a s H; exact H].
  eapply total_bind; [apply total_mark_step; simpl; lia|intros ?].
  eapply total_bind; [apply total_sandbox|intros sb].
  eapply total_bind; [apply total_try_dep; [apply Restore_frame, HD|apply HC|]|].
  { intros HS w. destruct (serve_Restore _ _ HS sb p w) as (out & w' & E). eauto. }
  intros r. apply total_pure. intros [Hm Hs].
  set (x := match r with inl e => _ | inr _ => _ end).
  assert (forall e, x.2 = Some e -> ~ Serving) as Hx.
  { intros e. subst x. destruct r as [e'|[out o]]; [intros _; by eapply Hs|]. simpl. intros -> [HS _].
    destruct Hm as (w1 & w2 & Hm). destruct (serve_Restore _ _ HS sb p w1) as (out' & w' & E). congruence. }
  destruct x as [output restoreErr].
  eapply total_bind with (Q := fun _ => at_ j 3 true A); [apply total_ignore|intros ?].
  { unfold SetStepOutput. destruct output; [by apply total_ret|].
    destruct (output_snippet _). apply total_mark_step. simpl. lia. }
  destruct restoreErr as [e|]; [apply total_failAndCleanup; [lia|by eapply Hx]|].
  eapply total_bind; [apply total_mark_step; simpl; lia|intros ?]. apply total_Insert_next.
Qed.

(** *** Assert *)

Lemma Core_ars j k sb s f :
  Core D L id n j k sb AnyResults s -> Core D L id n j k sb AnyResults s{{ assertion_results ::= f }}.
Proof. destruct s. intros [Hj Hs Hd Hst Ha]. by split. Qed.
Lemma Core_results j k sb A (A' : results -> Prop) s :
  Core D L id n j k sb A s -> A' (assertion_results s) -> Core D L id n j k sb A' s.
Proof. intros [Hj Hs Hd Hst _]. by split. Qed.

(** The connection's queries come back. *)
Lemma calm_querier dsn w q w' : D_Connect D dsn w = (Ret q, w') ->
  (forall s a, steady (QueryInt q s a)) /\ (forall s a, steady (QueryBool q s a)) /\ (forall s, steady (QueryRows q s)).
Proof. apply HC. Qed.

Lemma steady_Run q kind cfg dsn w w' : D_Connect D dsn w = (Ret q, w') -> steady (Run q kind cfg).
Proof.
  intros (Hi & Hb & Hr)%calm_querier.
  unfold Run, runRowCount, runTableExists, runColumnExists, runNoNulls, runSQLQuery, outcome_. steady_steps ff.
Qed.

Lemma steady_runAssertions sb specs : steady (runAssertions D id sb specs).
Proof.
  unfold runAssertions, ClearAssertionResults. apply steady_bind; [apply (steady_exec ff)|intros ?].
  apply steady_bind_ret; [apply steady_wrap_err, HC|]. intros q w w' Hq%wrap_err_ret.
  unfold runAssertion, RecordAssertion. steady_steps ff. by eapply steady_Run.
Qed.

Lemma frame_Run q kind cfg : QuerierOk q -> frame drill_db (Run q kind cfg).
Proof.
  intros [Hi Hb Hr].
  unfold Run, runRowCount, runTableExists, runColumnExists, runNoNulls, runSQLQuery, outcome_. frame_steps; auto using frame_wrap.
Qed.

Lemma preserves_runAssertions j k sb sbx specs :
  preserves (at_ j k sb AnyResults) (runAssertions D id sbx specs).
Proof.
  unfold runAssertions. apply preserves_bind.
  { apply preserves_update. intros t [s adb l au mo ho ke ev] H. by apply Core_ars. }
  intros _. apply (preserves_bind_ret _ _ _ QuerierOk); [apply preserves_wrap_err, (frame_preserves drill_db (Core D L id n j k sb AnyResults)), HD| |].
  { intros w q w' _ Hq%wrap_err_ret. by eapply Connect_ok. }
  intros q Hq. apply preserves_for_each. intros spec. unfold runAssertion. preserve.
  - by apply preserves_wrap_err, (frame_preserves drill_db (Core D L id n j k sb AnyResults)), frame_Run.
  - apply preserves_exec. intros t u [s adb l au mo ho ke ev] db' a0 H0 Heq. repeat case_match; simplify_eq.
    by apply Core_ars.
Qed.

(** The results a run leaves behind: one row for each assertion. *)
Abbreviation ars w := (assertion_results (drill_db (w_db w))).

Lemma Run_kind q kind cfg w out w' : Run q kind cfg w = (Ret out, w') -> o_Kind out = kind.
Proof.
  unfold Run, runRowCount, runTableExists, runColumnExists, runNoNulls, runSQLQuery, outcome_.
  intros H. repeat (case_bool_decide; [subst kind; ret_inv; done|]). done.
Qed.

Lemma runAssertion_ret q spec w w' dsn v v' :
  D_Connect D dsn v = (Ret q, v') -> runAssertion id q spec w = (Ret tt, w') ->
  exists i r, ars w !! i = None /\ ars w' = <[ i := r ]> (ars w) /\ ar_DrillID r = id /\ result_of D spec r.
Proof.
  intros Hq H. unfold runAssertion in H. destruct (json_Unmarshal (as_Config spec)) as [e|cfg] eqn:Ej; [done|].
  apply bind_ret in H as (out & w1 & Ho%wrap_err_ret & H).
  pose proof (frame_Run q (as_Kind spec) cfg (Connect_ok D HD _ _ _ _ Hq) w) as Hf. rewrite Ho in Hf. cbn [snd] in Hf.
  unfold RecordAssertion in H. apply exec_ret in H as [H _].
  destruct (negb _); [done|]. destruct (drills (drill_db (w_db w1)) !! id); [|done].
  destruct (ars w1 !! env_uuid (w_tick w1)) eqn:Hn; [done|]. injection H as H.
  exists (env_uuid (w_tick w1)), (mkAssertionResult (env_uuid (w_tick w1)) id (o_Kind out) (o_Expected out) (o_Actual out) (o_Passed out) (sql_now w1)).
  rewrite <- Hf. split; [done|]. split; [rewrite <- H; by destruct (w_db w1) as [[] ? ? ? ? ? ? ? ?]|]. split; [done|].
  by exists cfg, dsn, v, q, v', w, out, w1.
Qed.

Lemma drill_results_insert i r m : m !! i = None -> ar_DrillID r = id ->
  drill_results id (<[ i := r ]> m) ≡ₚ r :: drill_results id m.
Proof. intros Hi Hr. unfold drill_results. rewrite sql_select_insert by done. by rewrite bool_decide_eq_true_2. Qed.

Lemma drill_results_cleared m : drill_results id (sql_delete (fun r => bool_decide (ar_DrillID r = id)) m) = [].
Proof.
  destruct (drill_results id _) as [|r l] eqn:E; [done|]. exfalso.
  assert (r ∈ r :: l) as Hin by left. rewrite <- E in Hin. apply elem_of_sql_select in Hin as [Hr [i Hi]].
  apply lookup_sql_delete_Some in Hi as [_ Hi]. congruence.
Qed.

Lemma runs_ret q dsn v v' l : D_Connect D dsn v = (Ret q, v') -> forall w w',
  for_each l (runAssertion id q) w = (Ret tt, w') ->
  exists rs, drill_results id (ars w') ≡ₚ rs ++ drill_results id (ars w) /\ Forall2 (result_of D) l rs.
Proof.
  intros Hq. induction l as [|spec l IH]; intros w w' H; simpl in H.
  - injection H as <-. by exists [].
  - apply bind_ret in H as ([] & w1 & H1 & H2). apply (runAssertion_ret _ _ _ _ _ _ _ Hq) in H1 as (i & r & Hi & E & Hr & Hres).
    destruct (IH _ _ H2) as (rs & Hp & Hf). exists (r :: rs). split; [|by constructor].
    rewrite Hp, E, drill_results_insert by done. symmetry. apply (Permutation_middle rs).
Qed.

Lemma runAssertions_ret sbx w w' : runAssertions D id sbx L w = (Ret tt, w') -> Evaluated D L id (ars w').
Proof.
  unfold runAssertions. intros ([] & w1 & Hc & (q & w2 & Hq%wrap_err_ret & H)%bind_ret)%bind_ret.
  pose proof (Connect_frame D HD (sb_DSN sbx) w1) as Hf. rewrite Hq in Hf. cbn [snd] in Hf.
  apply (runs_ret _ _ _ _ _ Hq) in H as (rs & Hp & Hres). exists rs. split; [|done].
  rewrite Hp, Hf. apply update_ret in Hc. rewrite Hc.
  destruct (w_db w) as [[] ? ? ? ? ? ? ? ?]; simpl. by rewrite drill_results_cleared, app_nil_r.
Qed.

(** None of the rows has an identifier still to come. *)
Definition ids_ahead (w : World DB) : Prop :=
  forall i r k, ars w !! i = Some r -> (w_tick w <= k)%nat -> env_uuid k <> i.

Lemma runs_answer q dsn v v' l : D_Connect D dsn v = (Ret q, v') -> Serving -> (forall spec, spec ∈ l -> spec ∈ L) -> forall w,
  (T <= w_tick w)%nat -> is_Some (drills (drill_db (w_db w)) !! id) -> ids_ahead w ->
  exists w', for_each l (runAssertion id q) w = (Ret tt, w').
Proof.
  intros Hq HS. pose proof HS as [HServe [Hinj _]]. induction l as [|spec l IH]; intros Hl w HT Hd Hids; simpl; [by eexists|].
  destruct (serve_Run _ _ HServe spec (Hl _ ltac:(left))) as (Hk & cfg & Ej & Ha). specialize (Ha _ _ _ _ Hq).
  destruct (Ha w) as (out & w1 & Ho).
  pose proof (frame_Run q (as_Kind spec) cfg (Connect_ok D HD _ _ _ _ Hq) w) as Hf. rewrite Ho in Hf. cbn [snd] in Hf.
  destruct (steady_Run q (as_Kind spec) cfg _ _ _ Hq w) as [_ Ht]. rewrite Ho in Ht. cbn [snd] in Ht.
  destruct Hd as [d Hd]. pose proof (Run_kind _ _ _ _ _ _ Ho) as Hkind.
  set (r := mkAssertionResult (env_uuid (w_tick w1)) id (o_Kind out) (o_Expected out) (o_Actual out) (o_Passed out) (sql_now w1)).
  assert (runAssertion id q spec w = (Ret tt, with_db ((w_db w1){{ drill_db -> assertion_results ::= <[ env_uuid (w_tick w1) := r ]> }}) (tick w1))) as E.
  { unfold runAssertion. rewrite Ej. rewrite (bind_step _ _ _ out w1) by (by apply wrap_err_ok). unfold RecordAssertion. apply exec_ok; [apply ff|].
    assert (ars w1 !! env_uuid (w_tick w1) = None) as Hn.
    { rewrite Hf. destruct (ars w !! env_uuid (w_tick w1)) eqn:Ei; [|done]. by destruct (Hids _ _ (w_tick w1) Ei). }
    rewrite <- Hf in Hd. rewrite <- Hkind in Hk. by rewrite Hk, Hd, Hn. }
  rewrite (bind_step _ _ _ _ _ E). apply IH; [intros ? ?; apply Hl; by right|simpl; lia| |].
  - rewrite <- Hf in Hd. clear -Hd. destruct (w_db w1) as [[] ? ? ? ? ? ? ? ?]; simpl in *. by exists d.
  - intros i r' k Hi Hk2. simpl in Hk2. assert (ars (with_db ((w_db w1){{ drill_db -> assertion_results ::= <[ env_uuid (w_tick w1) := r ]> }}) (tick w1)) = <[ env_uuid (w_tick w1) := r ]> (ars w)) as Em.
    { rewrite <- Hf. clear. by destruct (w_db w1) as [[] ? ? ? ? ? ? ? ?]. }
    rewrite Em in Hi. apply lookup_insert_Some in Hi as [[<- _]|[_ Hi]].
    + intros Eq. apply Hinj in Eq; lia.
    + apply (Hids _ _ k Hi). lia.
Qed.

Lemma runAssertions_answers j k sb sbx w : Serving -> (T <= w_tick w)%nat -> Core D L id n j k sb (eq m0) (drill_db (w_db w)) ->
  exists w', runAssertions D id sbx L w = (Ret tt, w').
Proof.
  intros HS HT H. pose proof HS as [HServe [_ Hnew]]. unfold runAssertions.
  unfold ClearAssertionResults. rewrite (bind_step _ _ _ _ _ (update_ok _ w (ff _))).
  set (w1 := with_db _ _). destruct (serve_Connect _ _ HServe (sb_DSN sbx) w1) as (q & w2 & Hq).
  pose proof (Connect_frame D HD (sb_DSN sbx) w1) as Hf. rewrite Hq in Hf. cbn [snd] in Hf.
  destruct (calm_Connect _ HC (sb_DSN sbx) w1) as [_ Ht]. rewrite Hq in Ht. cbn [snd] in Ht.
  rewrite (bind_step _ _ _ q w2) by (by apply wrap_err_ok).
  apply (runs_answer _ _ _ _ _ Hq HS); [done|simpl in Ht; lia| |].
  - rewrite Hf. destruct (c_drill _ _ _ _ _ _ _ _ _ H) as (d & Hd & _). subst w1.
    destruct (w_db w) as [[] ? ? ? ? ? ? ? ?]; simpl in *. by exists d.
  - intros i r i' Hi Hk. rewrite Hf in Hi. apply (Hnew _ _ r); [simpl in Ht; lia| |].
    + pose proof (c_ars _ _ _ _ _ _ _ _ _ H) as ->. subst w1. destruct (w_db w) as [[] ? ? ? ? ? ? ? ?]; simpl in *.
      by apply lookup_sql_delete_Some in Hi as [Hi _].
    + subst w1. destruct (w_db w) as [[] ? ? ? ? ? ? ? ?]; simpl in *. apply lookup_sql_delete_Some in Hi as [_ Hi].
      by apply bool_decide_eq_false in Hi.
Qed.

Lemma total_runAssertions j k sb sbx :
  total (at_ j k sb (eq m0)) (try (runAssertions D id sbx L))
    (fun r db => match r with inl _ => at_ j k sb AnyResults db /\ ~ Serving | inr _ => at_ j k sb (Evaluated D L id) db end).
Proof.
  intros w HT H. destruct (steady_runAssertions sbx L w) as [Hn Ht].
  pose proof (preserves_runAssertions j k sb sbx L w (Core_results _ _ _ _ AnyResults _ H I)) as Hp.
  unfold try. destruct (runAssertions D id sbx L w) as [[[]|e|] w'] eqn:E; simpl in *; [..|done];
    (eexists _, w'; split; [done|]; split; [|lia]); simpl.
  - eapply Core_results; [exact Hp|]. by eapply runAssertions_ret.
  - split; [exact Hp|]. intros HS. destruct (runAssertions_answers j k sb sbx w HS HT H) as [w2 E2]. congruence.
Qed.

Lemma total_AssertWork j :
  total (at_ j 3 true (eq m0)) (AssertWork D id) (fail_or (ReportArgs id) 4 true (Evaluated D L id)).
Proof.
  unfold AssertWork. eapply total_bind; [apply total_alreadyDone; simpl; lia|].
  intros b. apply total_pure. intros ->.
  eapply total_conseq with (P := at_ j 4 true (eq m0));
    [|intros s H; eapply Core_weaken; eauto; lia|intros a s H; exact H].
  eapply total_bind; [apply total_mark_step; simpl; lia|intros ?].
  eapply total_bind; [apply total_lookup|intros [dr target]].
  apply (total_bind _ _ _ (fun specs db => at_ j 4 true (eq m0) db /\ specs = L)).
  { eapply total_conseq; [by apply total_query|intros s H; exact H|]. by intros l s [[H HL] [t ->]]. }
  intros specs. apply total_pure. intros ->.
  eapply total_bind; [apply total_sandbox|intros sb].
  eapply total_bind; [apply total_runAssertions|].
  intros [e|u]; [apply total_pure; intros Hs; apply total_failAndCleanup; [lia|done]|].
  eapply total_bind; [apply total_mark_step; simpl; lia|intros ?]. apply total_Insert_next.
Qed.

(** *** Report *)

Lemma total_Record (P : DrillDB -> Prop) e :
  total (fun db => P (drill_db db)) (ignore (Record_ e)) (fun _ db => P (drill_db db)).
Proof.
  apply (total_ignore_frame drill_db); [|apply (steady_exec ff)].
  apply frame_Record. by intros f [].
Qed.

Lemma total_dead_mark C j grd f :
  total (fun db => Dead C id n j (drill_db db)) (update_drill id grd f)
    (fun _ db => Dead C id n j (drill_db db)).
Proof.
  apply total_update; [done|]. intros t [[] adb l] [Hj Hs [d Hd] HC']; simpl in *. split; simpl; try done.
  rewrite lookup_alter_eq, Hd. simpl. eauto.
Qed.

Lemma total_dead_Insert C j r p :
  r <> "" ->
  total (fun db => Dead C id n j (drill_db db)) (Insert (TeardownArgs id r) p) (fun _ => FailPending C id n).
Proof.
  intros Hr. apply total_update; [done|]. intros t [[] adb l] [(p0 & Hj) Hs Hd HC']; simpl in *.
  exists r, river_seq. split; [done|]. split; simpl; try done; [|lia].
  exists p. rewrite Hj, delete_insert_ne by lia. rewrite delete_singleton_eq. apply insert_empty.
Qed.

Definition verdict_results (pass : bool) (m : results) : Prop :=
  Evaluated D L id m /\ if pass then AllPassed id m else SomeFailed id m.

Lemma total_report_finish j dr (pass : bool) pdf :
  total (at_ j 5 true (verdict_results pass)) (report_finish D id dr pass pdf)
    (fail_or (TeardownArgs id "") 5 true PassCause).
Proof.
  unfold report_finish.
  eapply total_bind; [apply total_try_dep; [apply Finalize_frame, HD|apply HC|intros []; auto]|].
  intros r. apply total_pure. intros [_ Hs]. destruct r as [e|path]; [apply total_failAndCleanup; [lia|by eapply Hs]|].
  eapply total_bind; [apply total_mark_drill; intros t [] _ Hst; simpl in *; naive_solver|intros ?].
  eapply total_bind; [apply total_mark_step; simpl; lia|intros ?].
  destruct pass; [apply total_Insert_next|].
  apply (total_conseq (fun db => Dead FailCause id n j (drill_db db)) _ _ (fun _ => FailPending FailCause id n));
    [|intros s H; eapply Core_Dead; [exact H|intros _; apply H]|intros ? s H; by right].
  eapply total_bind; [apply total_ignore, total_dead_mark|intros ?].
  eapply total_bind; [apply (total_Record (Dead FailCause id n j))|intros ?].
  by apply total_dead_Insert.
Qed.

Lemma verdict_correct t db :
  verdict (order_by (oldest_first ar_At ar_ID)
    (sql_select (fun r => bool_decide (ar_DrillID r = id)) (assertion_results (drill_db db)))) = t ->
  Evaluated D L id (assertion_results (drill_db db)) -> verdict_results t (assertion_results (drill_db db)).
Proof.
  intros Ht He. split; [done|]. destruct t; unfold verdict in Ht.
  - rewrite forallb_forall in Ht. intros i r Hl Hr.
    apply Ht. apply list_elem_of_In, elem_of_order_by, elem_of_sql_select.
    rewrite bool_decide_eq_true_2 by done. eauto.
  - apply not_true_iff_false in Ht. rewrite forallb_forall in Ht.
    apply dec_stable. intros Hno. apply Ht. intros r Hin%list_elem_of_In%elem_of_order_by%elem_of_sql_select.
    destruct Hin as [Hr%bool_decide_eq_true_1 [i Hi]]. destruct (ar_Passed r) eqn:E; [done|]. exfalso. apply Hno. by exists i, r.
Qed.

Lemma total_ReportWork j :
  total (at_ j 4 true (Evaluated D L id)) (ReportWork D id) (fail_or (TeardownArgs id "") 5 true PassCause).
Proof.
  unfold ReportWork. eapply total_bind; [apply total_alreadyDone; simpl; lia|].
  intros b. apply total_pure. intros ->.
  eapply total_conseq with (P := at_ j 5 true (Evaluated D L id));
    [|intros s H; eapply Core_weaken; eauto; lia|intros a s H; exact H].
  eapply total_bind; [apply total_mark_step; simpl; lia|intros ?].
  eapply total_bind; [apply total_lookup_any|intros [dr target]].
  eapply total_bind; [apply total_query_any; done|intros steps].
  eapply total_bind; [apply total_query; done|intros ars]. cbv zeta.
  eapply total_conseq with (P := at_ j 5 true (verdict_results (verdict ars)));
    [|intros s [H (t & ->)]; eapply Core_results; [exact H|apply verdict_correct; [done|apply H]]
     |intros ? s H; exact H].
  apply (total_bind _ _ _ (fun _ => at_ j 5 true (verdict_results (verdict ars)))).
  { eapply total_conseq; [apply (total_try_preserves (at_ j 5 true (verdict_results (verdict ars))))|intros s H; exact H|by intros r s []].
    - unfold CreatorEmail. preserve.
    - unfold CreatorEmail. steady_steps ff. }
  intros r. eapply total_bind; [apply total_now|intros now].
  case_match eqn:Er; [|apply total_report_finish]. apply total_failAndCleanup; [lia|]. intros [HS _].
  match type of Er with D_Render D ?a ?b ?c ?d ?e ?f = _ => destruct (serve_Render _ _ HS a b c d e f) as [pdf E] end. congruence.
Qed.

(** *** Teardown *)

Section teardown.
Context (P : DrillDB -> Prop).
Context (P_steps : forall s f, P s -> P s{{ drill_steps ::= f }}).
Abbreviation on := (fun db => P (drill_db db)).

Lemma total_reportUsage dr : total on (reportUsage D dr) (fun _ => on).
Proof.
  unfold reportUsage. destruct (D_Billing D) as [[[] f]|] eqn:Hb; try by apply total_ret.
  destruct (D_Accounts D) as [g|] eqn:Ha; [|by apply total_ret].
  eapply total_bind; [apply (total_try_frame drill_db P)|].
  { by eapply Accounts_frame. } { by eapply calm_Accounts. }
  intros [e|acct]; [by apply total_ret; intros s []|]. case_bool_decide; [by apply total_ret; intros s []|].
  eapply total_conseq; [apply (total_ignore_frame drill_db P); [by eapply Billing_frame|by eapply calm_Billing]|by intros s []|done].
Qed.

Lemma total_teardown_sandbox dr : total on (teardown_sandbox D id dr) (fun _ => on).
Proof.
  unfold teardown_sandbox. eapply total_bind with (Q := fun _ => on).
  { case_bool_decide; [by apply total_ret|].
    apply (total_bind _ _ _ (fun _ => on)); [|intros r; by apply total_ret].
    eapply total_conseq; [apply (total_try_preserves on); unfold sandbox, GetDrillByID, no_rows_as; [preserve|steady_steps ff]|done|by intros r s []]. }
  intros sb. eapply total_bind; [apply (total_try_frame drill_db P)|].
  { apply Teardown_frame, HD. } { apply HC. }
  intros r. destruct r; apply total_ignore, total_update; try done; intros t [s adb l au mo ho ke ev] [H _]; by apply P_steps.
Qed.

Lemma total_announce_failed dr r : total on (announce_failed D dr id r) (fun _ => on).
Proof.
  unfold announce_failed, recordDrillMetric, captureDrill, dispatchWebhook, notifyDrill.
  eapply total_bind with (Q := fun _ => on);
    [destruct (D_Metrics D); [by eapply total_ext|by apply total_ret]|intros ?].
  eapply total_bind with (Q := fun _ => on);
    [destruct (D_Analytics D); [by eapply total_ext|by apply total_ret]|intros ?].
  eapply total_bind with (Q := fun _ => on);
    [destruct (D_Webhooks D) eqn:E; [|by apply total_ret]|intros ?].
  { apply (total_ignore_frame drill_db P); [by eapply Webhooks_frame|by eapply calm_Webhooks]. }
  destruct (D_Notify D) eqn:E; [|by apply total_ret].
  apply (total_ignore_frame drill_db P); [by eapply Notify_frame|by eapply calm_Notify].
Qed.

Lemma total_announce_completed dr dr2 : total on (announce_completed D dr dr2 id) (fun _ => on).
Proof.
  unfold announce_completed, recordDrillMetric, captureDrill, dispatchWebhook, notifyDrill.
  eapply total_bind; [apply (total_Record P)|intros ?].
  eapply total_bind with (Q := fun _ => on);
    [destruct (D_Metrics D); [by eapply total_ext|by apply total_ret]|intros ?].
  eapply total_bind with (Q := fun _ => on);
    [destruct (D_Analytics D); [by eapply total_ext|by apply total_ret]|intros ?].
  eapply total_bind with (Q := fun _ => on);
    [destruct (D_Webhooks D) eqn:E; [|by apply total_ret]|intros ?].
  { apply (total_ignore_frame drill_db P); [by eapply Webhooks_frame|by eapply calm_Webhooks]. }
  destruct (D_Notify D) eqn:E; [|by apply total_ret].
  apply (total_ignore_frame drill_db P); [by eapply Notify_frame|by eapply calm_Notify].
Qed.
End teardown.

Lemma total_GetDrill_any (P : DrillDB -> Prop) :
  (forall s, P s -> is_Some (drills s !! id)) ->
  total (fun db => P (drill_db db)) (GetDrillByID id)
    (fun d db => P (drill_db db) /\ drills (drill_db db) !! id = Some d).
Proof.
  intros HP. apply (total_query_row ff _ _ (fun d db => drills (drill_db db) !! id = Some d)).
  intros t s H. destruct (HP _ H) as [d Hd]. eauto.
Qed.

Lemma total_teardown_failed j r Cf Cp :
  r <> "" ->
  total (fun db => Dead Cf id n j (drill_db db)) (TeardownWork D id r) (fun _ db => Ended Cf Cp id n (drill_db db)).
Proof.
  intros Hr. unfold TeardownWork, teardown_rest.
  eapply total_bind; [apply (total_GetDrill_any (Dead Cf id n j)); by intros s []|]. intros dr.
  eapply total_conseq with (P := fun db => Dead Cf id n j (drill_db db));
    [|by intros s []|intros ? s H; exact H].
  eapply total_bind; [apply (total_reportUsage (Dead Cf id n j))|intros ?].
  eapply total_bind; [apply (total_teardown_sandbox (Dead Cf id n j))|intros ?].
  { intros [] f [Hj Hs Hd HC']. by split. }
  rewrite bool_decide_eq_false_2 by done. simpl.
  eapply total_bind; [apply total_ignore|intros ?].
  { apply total_update with (Q := fun db => Ended Cf Cp id n (drill_db db)); [done|].
    intros t [[] adb l] [(p & Hj) Hs [d Hd] HC']; simpl in *. split; simpl; [eauto|].
    left. split; [|done]. unfold has_status; simpl. rewrite lookup_alter_eq, Hd. eexists. split; [done|]. by destruct d. }
  eapply total_bind; [apply (total_Record (Ended Cf Cp id n))|intros ?].
  apply (total_announce_failed (Ended Cf Cp id n)).
Qed.

Lemma total_teardown_passed j sb Cf Cp :
  total (at_ j 5 sb Cp) (TeardownWork D id "") (fun _ db => Ended Cf Cp id n (drill_db db)).
Proof.
  unfold TeardownWork, teardown_rest.
  eapply total_bind; [apply total_GetDrill|]. intros dr.
  set (P := fun s => Core D L id n j 6 sb Cp s /\ drills s !! id = Some dr).
  eapply total_conseq with (P := fun db => P (drill_db db));
    [|intros s [H Hd]; split; [eapply Core_weaken; eauto; lia|done]|intros ? s H; exact H].
  eapply total_bind; [apply (total_reportUsage P)|intros ?].
  eapply total_bind; [apply (total_teardown_sandbox P)|intros ?].
  { intros [] f [[Hj Hs Hd Hst Ha] Hdr]. split; [|done]. split; try done.
    intros name Hk. destruct name; simpl in Hk; lia. }
  simpl. intros w HT [H Hdr]. destruct (c_drill _ _ _ _ _ _ _ _ _ H) as (d & Hd & Hst & _).
  assert (d = dr) as -> by congruence. rewrite bool_decide_eq_false_2 by (destruct Hst; congruence).
  clear Hd; revert w HT H Hdr.
  assert (total (fun db => P (drill_db db))
    (dr2 ← GetDrillByID id;
     MarkDrillSucceeded id (opt_string (d_EvidencePath dr2));;
     announce_completed D dr dr2 id) (fun _ db => Ended Cf Cp id n (drill_db db))) as Hgoal;
    [|intros w HT H Hdr; by apply Hgoal].
  eapply total_bind; [apply (total_GetDrill_any P); intros s [_ ?]; eauto|]. intros dr2.
  eapply total_bind; [apply total_update with (Q := fun db => Ended Cf Cp id n (drill_db db)); [done|]|intros ?].
  - intros t [[] adb l] [[[(p & Hj) _ _ _ Ha] Hd] _]; simpl in *. split; simpl; [eauto|].
    right. split; [|done]. unfold has_status; simpl. rewrite lookup_alter_eq, Hd.
    eexists. split; [done|]. by destruct dr.
  - apply (total_announce_completed (Ended Cf Cp id n)).
Qed.
End live.

(** ** Six jobs *)

(** A drill just enqueued: its provision job is the only pending one. *)
Definition Enqueued (D : Deps) (id : uuid) (s : DrillDB) : Prop :=
  exists n, Core D (drill_specs id s) id n (ProvisionArgs id) 0 false AnyResults s.

Section six_jobs.
Context `{env : Env} `{uuids : UuidLib} `{json : JsonLib}.
Context (ff : forall n, env_fault n = FOk).
Context (D : Deps) (HD : DepsOk D) (HC : DepsCalm D) (L : list Assertion) (T : nat) (m0 : results) (id : uuid).
Abbreviation Cf := (FailCause D L T m0 id).
Abbreviation Cp := (PassCause D L id).

Definition Finished (s : DrillDB) : Prop := river_jobs s = ∅ /\ Verdict Cf Cp id s.

(** Where the drill is after [k] jobs. *)
Definition stage_job (k : nat) (j : JobArgs) : Prop :=
  match k with
  | 0 => j = ProvisionArgs id | 1 => j = FetchArgs id | 2 => exists p, j = RestoreArgs id p
  | 3 => j = AssertArgs id | 4 => j = ReportArgs id | _ => j = TeardownArgs id ""
  end%nat.
Definition stage_results (k : nat) : results -> Prop :=
  if (k <? 4)%nat then eq m0 else if (k <? 5)%nat then Evaluated D L id else Cp.

Definition InProgress (k : nat) (s : DrillDB) : Prop :=
  (exists n j, stage_job k j /\ Core D L id n j k (negb (k =? 0)%nat) (stage_results k) s) \/
  (exists n r, r <> "" /\ Dead Cf id n (TeardownArgs id r) s) \/
  Finished s.

Lemma work_one_single n j p w (Q : World DB -> Prop) :
  river_jobs (drill_db (w_db w)) = {[ n := mkJob j p ]} ->
  (exists u w', Work D j w = (Ret u, w') /\ Q (with_db (w_db w'){{ drill_db -> river_jobs ::= delete n }} w')) ->
  Q (work_one D w).
Proof.
  intros Hj (u & w' & Heq & HQ). unfold work_one. rewrite Hj, map_to_list_singleton.
  change (order_by _ [(n, mkJob j p)]) with [(n, mkJob j p)]. unfold run_job. rewrite Hj, lookup_singleton_eq. cbn [j_Args]. by rewrite Heq.
Qed.

Lemma work_one_empty w : river_jobs (drill_db (w_db w)) = ∅ -> work_one D w = w.
Proof. intros Hj. unfold work_one. by rewrite Hj, map_to_list_empty. Qed.

Abbreviation at_stage k w := ((T <= w_tick w)%nat /\ InProgress k (drill_db (w_db w))).

Lemma dead_step w n r : (T <= w_tick w)%nat ->
  r <> "" -> Dead Cf id n (TeardownArgs id r) (drill_db (w_db w)) ->
  (T <= w_tick (work_one D w))%nat /\ Finished (drill_db (w_db (work_one D w))).
Proof.
  intros HT Hr Hd. destruct (dead_jobs _ _ _ _ _ Hd) as [p Hj].
  apply (work_one_single n (TeardownArgs id r) p w (fun w => (T <= w_tick w)%nat /\ Finished (drill_db (w_db w)))); [done|].
  destruct (total_teardown_failed ff D HD HC T id n _ r Cf Cp Hr w HT Hd) as (u & w' & Heq & [[jb Hje] Hv] & HT').
  exists u, w'. split; [exact Heq|]. split; [exact HT'|]. simpl.
  destruct (w_db w') as [[] ? ? ? ? ? ? ? ?]; simpl in *.
  split; [|done]. simpl. by rewrite Hje, delete_singleton_eq.
Qed.

Lemma stage_step k w : (k < 5)%nat -> at_stage k w -> at_stage (S k) (work_one D w).
Proof.
  intros Hk [HT [(n & j & Hs & H)|[(n & r & Hr & Hd)|[Hf Hv]]]].
  - destruct (c_jobs _ _ _ _ _ _ _ _ _ H) as [p Hj].
    apply (work_one_single n j p w (fun w => at_stage (S k) w)); [done|].
    assert (exists u w' j', Work D j w = (Ret u, w') /\ stage_job (S k) j' /\ (T <= w_tick w')%nat /\
      (After D L id n j' (S k) true (stage_results (S k)) (w_db w') \/ FailPending Cf id n (w_db w')))
      as (u & w' & j' & Heq & Hs' & HT' & HA).
    { destruct k as [|[|[|[|[|]]]]]; try lia; simpl in Hs, H; try subst j.
      - destruct (total_ProvisionWork ff D HD HC L T m0 id n _ _ _ w HT H) as (u & w' & ? & ? & ?). by exists u, w', (FetchArgs id).
      - destruct (total_FetchWork ff D HD HC L T m0 id n _ _ w HT H) as (u & w' & ? & [[q ?]|?] & ?).
        + exists u, w', (RestoreArgs id q). split; [done|]. split; [by exists q|]. split; [done|by left].
        + exists u, w', (RestoreArgs id ""). split; [done|]. split; [by exists ""|]. split; [done|by right].
      - destruct Hs as [q ->].
        destruct (total_RestoreWork ff D HD HC L T m0 id n _ q _ w HT H) as (u & w' & ? & ? & ?). by exists u, w', (AssertArgs id).
      - destruct (total_AssertWork ff D HD HC L T m0 id n _ w HT H) as (u & w' & ? & ? & ?). by exists u, w', (ReportArgs id).
      - destruct (total_ReportWork ff D HD HC L T m0 id n _ w HT H) as (u & w' & ? & ? & ?).
        by exists u, w', (TeardownArgs id ""). }
    exists u, w'. split; [done|]. split; [done|]. simpl. destruct (w_db w') as [s adb l au mo ho ke ev nt]; simpl in *.
    destruct HA as [[n' HA]|(r & n' & Hr & HA)]; [left; by exists n', j'|right; left; by exists n', r].
  - destruct (dead_step w n r HT Hr Hd) as [HT' Hf]. split; [done|]. right; by right.
  - rewrite work_one_empty by done. split; [done|]. right; right. done.
Qed.

Lemma last_step w : at_stage 5 w -> Finished (drill_db (w_db (work_one D w))).
Proof.
  intros [HT [(n & j & Hs & H)|[(n & r & Hr & Hd)|Hf]]].
  - simpl in Hs, H. subst j. destruct (c_jobs _ _ _ _ _ _ _ _ _ H) as [p Hj].
    apply (work_one_single n (TeardownArgs id "") p w (fun w => Finished (drill_db (w_db w)))); [done|].
    destruct (total_teardown_passed ff D HD HC L T id n _ _ Cf Cp w HT H) as (u & w' & Heq & [[jb Hje] Hv] & _).
    exists u, w'. split; [exact Heq|]. simpl. destruct (w_db w') as [[] ? ? ? ? ? ? ? ?]; simpl in *.
    split; [|done]. simpl. by rewrite Hje, delete_singleton_eq.
  - by apply (dead_step w n r HT Hr Hd).
  - by rewrite work_one_empty by apply Hf.
Qed.

Lemma drain_progress k w :
  (k <= 5)%nat -> w_tick w = T -> assertion_results (drill_db (w_db w)) = m0 -> drill_specs id (drill_db (w_db w)) = L ->
  Enqueued D id (drill_db (w_db w)) -> at_stage k (drain D k w).
Proof.
  intros Hk HT Hm HL [n H]. induction k as [|k IH].
  - split; [simpl; lia|]. left. exists n, (ProvisionArgs id). split; [done|]. rewrite HL in H. by eapply Core_results.
  - change (drain D (S k) w) with (work_one D (drain D k w)). apply stage_step; [lia|]. apply IH. lia.
Qed.
End six_jobs.

Section theorem.
Context `{env : Env} `{uuids : UuidLib} `{json : JsonLib}.
Context (ff : forall n, env_fault n = FOk).
Context (D : Deps) (HD : DepsOk D) (HC : DepsCalm D) (id : uuid).

(** The ends of an enqueued drill. *)
Lemma six_jobs_finish w :
  Enqueued D id (drill_db (w_db w)) ->
  let s := drill_db (w_db (drain D 6 w)) in
  let L := drill_specs id (drill_db (w_db w)) in
  river_jobs s = ∅ /\
  ((has_status s id StatusSucceeded /\ Evaluated D L id (assertion_results s) /\ AllPassed id (assertion_results s)) \/
   (has_status s id StatusFailed /\
    (DepsServe D L -> fresh_ids (w_tick w) id (assertion_results (drill_db (w_db w))) ->
     Evaluated D L id (assertion_results s) /\ SomeFailed id (assertion_results s)))).
Proof.
  intros H s L. subst s. change (drain D 6 w) with (work_one D (drain D 5 w)).
  destruct (last_step ff D HD HC L (w_tick w) (assertion_results (drill_db (w_db w))) id (drain D 5 w)) as [Hj Hv].
  - by apply drain_progress; [..|lia|done|done|done|done].
  - split; [done|]. destruct Hv as [[Hs Hc]|[Hs Hc]]; [right|left; by destruct Hc]. split; [done|].
    intros HServe Hids. by apply Hc.
Qed.

(** C4: without infrastructure faults every enqueued drill ends: six jobs
    leave the queue empty and the drill "failed" or "succeeded".  It is
    "succeeded" only when its results are those of its target's assertions,
    one each, and all of them passed.  When the sandbox, the renderer and the
    evidence service answer without an error and the assertions are ones the
    sandbox can be asked, it is "failed" only when the results are those of
    the assertions and one of them did not pass. *)
Theorem drill_finishes w :
  Enqueued D id (drill_db (w_db w)) ->
  let s := drill_db (w_db (drain D 6 w)) in
  let L := drill_specs id (drill_db (w_db w)) in
  river_jobs s = ∅ /\
  ((has_status s id StatusSucceeded /\ Evaluated D L id (assertion_results s) /\ AllPassed id (assertion_results s)) \/
   (has_status s id StatusFailed /\
    (DepsServe D L -> fresh_ids (w_tick w) id (assertion_results (drill_db (w_db w))) ->
     Evaluated D L id (assertion_results s) /\ SomeFailed id (assertion_results s)))).
Proof. apply six_jobs_finish. Qed.
End theorem.

(** ** Witness *)

Lemma demo_deps_calm `{Env} rows : DepsCalm (demo_deps rows).
Proof.
  split; try (by intros; first [apply steady_ret | done]).
  - intros id w sb w' [= <- _]. split; [done|]. by eexists.
  - intros dsn w q w' [= <- <-]. repeat split; intros; apply steady_ret.
Qed.

Lemma demo_enqueued D : Enqueued D 1002 (drill_db (w_db (demo_start (env:=demo_env)))).
Proof.
  exists 1%N. split.
  - exists 3. vm_compute. reflexivity.
  - vm_compute. reflexivity.
  - eexists. split; [vm_compute; reflexivity|]. split; [by left|]. split; [|done].
    eexists. split; vm_compute; reflexivity.
  - intros [] _; eexists; (split; [vm_compute; reflexivity|reflexivity]).
  - done.
Qed.

(** In the demo world everything answers. *)
Lemma demo_deps_serve `{Env} rows L : Forall (fun a => as_Kind a = KindRowCount) L -> DepsServe (demo_deps rows) L.
Proof.
  intros HL. split; try (intros; intros w; by eexists _, w).
  - intros sb p w. by eexists _, w.
  - intros spec Hin. rewrite Forall_forall in HL. rewrite (HL spec Hin). split; [done|].
    eexists. split; [reflexivity|]. intros dsn v q v' [= <- _] w. eexists _, w. vm_compute. reflexivity.
  - intros. by eexists.
Qed.
Lemma demo_fresh_ids T id : @fresh_ids demo_env T id ∅.
Proof. split; [simpl; lia|]. intros k i r _ Hi. by rewrite lookup_empty in Hi. Qed.

(** With three rows the drill passes, with none it fails. *)
Lemma drill_finishes_witness :
  let s rows := drill_db (w_db (drain (env:=demo_env) (demo_deps rows) 6 (demo_start (env:=demo_env)))) in
  river_jobs (s 3) = ∅ /\ has_status (s 3) 1002 StatusSucceeded /\
  has_status (s 0) 1002 StatusFailed /\ SomeFailed 1002 (assertion_results (s 0)).
Proof.
  cbv zeta.
  destruct (drill_finishes (env:=demo_env) (fun _ => eq_refl) (demo_deps 3) (demo_deps_ok 3)
           (demo_deps_calm 3) 1002 (demo_start (env:=demo_env)) (demo_enqueued (demo_deps 3))) as [H3 _].
  destruct (drill_finishes (env:=demo_env) (fun _ => eq_refl) (demo_deps 0) (demo_deps_ok 0)
           (demo_deps_calm 0) 1002 (demo_start (env:=demo_env)) (demo_enqueued (demo_deps 0))) as [_ [(Hs & _)|(Hs & Hv)]].
  - exfalso. destruct Hs as (d & Hd & Hst). vm_compute in Hd. injection Hd as <-. discriminate Hst.
  - split; [exact H3|]. split; [eexists; split; vm_compute; reflexivity|]. split; [exact Hs|].
    apply Hv; [apply demo_deps_serve|apply demo_fresh_ids]. vm_compute. by repeat constructor.
Defined.
