(* ===== verification/Wiring.v ===== *)
(** cmd/server/main.go: how the server puts its parts together, with the two
    clients the other files leave open, Stripe's REST client
    (internal/billing/stripe.go) and the mail provider
    (internal/email/postmark.go).  The pipeline it starts keeps the promises
    the pipeline's theorems assume. *)
From S2P Require Import Prelude Crypto Effects Schema Encoding Net Path Time Http AccountStore DrillStore Assertions Runner Steps Billing AuthStore.
From S2P Require Import Cipher Signer EvidenceStore Evidence Webhooks Heartbeat Scheduler Targets TargetFacts Sandbox SandboxFacts Pdf PdfFacts Config Notify Oauth Fcm Demo AccountFacts EvidenceFacts WebhookFacts LoginFacts ToolsFacts AdminFacts Pipeline PipelineLive.
From Stdlib Require Import Ascii.

(** ** Stripe's REST client *)

(** The libraries and servers behind the clients, at the n-th effect: a
    request to Stripe (path, form and idempotency key) with its status and
    body, the string members of a JSON object, the message of an error body;
    the JSON of a mail and Postmark's answer to it. *)
Class Clients : Type := {
  stripe_http      : nat -> string -> string -> string -> string -> error + (Z * string);
  object_Unmarshal : string -> error + (string -> option string);
  stripe_message   : string -> error + string;
  map_Marshal      : list (string * string) -> error + string;
  postmark_http    : nat -> string -> string -> error + (Z * string)
}.

Section clients.
Context `{env : Env} `{lib : OauthLib} `{clients : Clients}.

Definition stripeErr (body : string) : string :=
  match stripe_message body with
  | inr m => if bool_decide (m = "") then "request failed" else m
  | inl _ => "request failed"
  end.
(** do: the body is read up to a limit. *)
Definition stripe_do (secret path form idempotencyKey : string) : GO (string -> option string) :=
  '(code, body) ← ext (ExtCall "stripe" [secret; path; form; idempotencyKey]) (fun n => stripe_http n secret path form idempotencyKey);
  let body := EvidenceStore.limited (Z.shiftl 1 20) body in
  if 400 <=? code then fail (ErrNew ("stripe: " +:+ path +:+ " " +:+ show_Z code +:+ ": " +:+ stripeErr body)) else
  wrap_err ("stripe: decode " +:+ path +:+ " response") (lift (object_Unmarshal body)).
Definition stripe_post (secret path : string) (form : list (string * string)) (idempotencyKey : string) : GO (string -> option string) :=
  stripe_do secret path (values_Encode form) idempotencyKey.

(** ** The mail provider *)

Definition postmark_payload (from : string) (m : Message) : list (string * string) :=
  [("From", from); ("MessageStream", "outbound"); ("Subject", Subject m); ("TextBody", TextBody m); ("To", To_ m)].
Definition postmark_send (token from : string) (n : nat) (m : Message) : error + unit :=
  match map_Marshal (postmark_payload from m) with
  | inl e => inl e
  | inr payload =>
      match postmark_http n token payload with
      | inl e => inl (ErrWrap "postmark send" e)
      | inr (code, _) => if 400 <=? code then inl (ErrNew ("postmark send: status " +:+ show_Z code)) else inr tt
      end
  end.
(** NewSender: without a token mail is only logged. *)
Definition NewSender (token from : string) : nat -> Message -> error + unit :=
  if bool_decide (token = "") then fun _ _ => inr tt else postmark_send token from.
End clients.

(** ** main *)

Section main.
Context `{env : Env} `{uuids : UuidLib} `{json : JsonLib} `{rand : Rand} `{ed : Ed25519} `{keys : KeyFiles} `{host : Host}.
Context `{machines : Machines} `{bucket : Bucket} `{fpdf : Fpdf} `{lib : OauthLib} `{firebase : Firebase} `{clients : Clients}.
Context (Unmarshal : string -> error + any) (Marshal : any -> error + string) (MarshalEvent : EventPayload -> error + string).
Context (fly_Marshal : CreateInput -> error + string) (fly_Unmarshal : string -> error + FlyMachine).
Context (net : Network) (pgx_Connect : string -> GO Querier) (sampleDump : string).
Context (cfg : Config.Config).

Definition drill_runner : Runner :=
  if negb (bool_decide (FlyAPIToken cfg = "")) && negb (bool_decide (FlyAppName cfg = ""))
  then FlyMachineRunner fly_Marshal fly_Unmarshal (FlyAppName cfg) (FlyAPIToken cfg) (FlyRegion cfg) (FlyPostgresImage cfg) (FlySandboxDBPassword cfg)
  else LocalRunner (DatabaseURL cfg).

Definition billing_customers : Service :=
  New (stripe_post (StripeSecretKey cfg))
    (Billing.mkConfig (StripeSecretKey cfg) (StripeWebhookSecret cfg) (StripePriceStarter cfg) (StripePricePro cfg)
       (StripePriceScale cfg) (StripeMeterEvent cfg)).

Definition mailer_send : Message -> GO unit := Send (NewSender (PostmarkToken cfg) (EmailFrom cfg)).

(** [st]: the access token the sender holds. *)
Definition push_sender (fcm : option FCMSender) (st : Access) (tokens : list string) (n : Notification) : GO unit :=
  match fcm with Some s => fcm_sender s st tokens n | None => mret tt end.

Definition heartbeat_notifier (fcm : option FCMSender) (st : Access) : Heartbeat -> string -> GO unit :=
  MultiNotify [Some (MailNotify mailer_send (BaseURL cfg)); Some (PushNotify (push_sender fcm st)); Some (AlertNotify net)].
Definition drill_notifier (fcm : option FCMSender) (st : Access) : Drill -> string -> string -> GO unit :=
  MultiNotifyDrill [Some (PushNotifyDrill (push_sender fcm st)); Some (AlertNotifyDrill net);
                    Some (MailNotifyDrill mailer_send (BaseURL cfg))].

Definition evidence_store : EvidenceStore :=
  if bool_decide (EvidenceS3Bucket cfg = "") then LocalStore (EvidenceDir cfg)
  else S3 (NewS3Store (EvidenceS3Bucket cfg) (EvidenceS3Region cfg) (EvidenceS3Endpoint cfg)
             (EvidenceS3AccessKeyID cfg) (EvidenceS3SecretAccessKey cfg)).

(** The call of report.Render; the renderer does not panic. *)
Definition render_report (dr : Drill) (t : Target) (steps : list Step) (ars : list AssertionResult) (operator : string) (now : time) : error + string :=
  default (inl (ErrNew "panic")) (Render_ Unmarshal Marshal (mkData dr t steps ars operator now)).

Definition pipeline_deps (fcm : option FCMSender) (st : Access) (signer : Signer) (cipher : Cipher) : Steps.Deps := {|
  D_Runner := drill_runner;
  D_Connect := pgx_Connect;
  D_Render := render_report;
  D_Finalize := Finalize (store:=evidence_store) signer cipher DefaultRetention;
  D_Webhooks := Some (Dispatch MarshalEvent);
  D_Metrics := true;
  D_Analytics := true;
  D_Billing := Some (Enabled billing_customers, ReportUsage billing_customers);
  D_Accounts := Some GetAccount;
  D_Notify := Some (drill_notifier fcm st)
|}.

(** From the loaded configuration to the registered workers; any error ends
    the process.  Migrations and the database pool come before. *)
Definition start : GO Steps.Deps :=
  os_MkdirAll;;
  _ ← MaterializeSample (SourceDir cfg) sampleDump;
  fcm ← NewFCMSender (FirebaseServiceAccount cfg);
  signer ← NewSignerWithVerificationKeys (EvidenceSigningKey cfg) (EvidenceVerificationKeys cfg);
  cipher ← NewCipher (EvidenceEncryptionKey cfg) (EvidenceEncryptionKeysRetired cfg);
  mret (pipeline_deps fcm no_access signer cipher).

(** The worker of webhook deliveries: private addresses are blocked in
    production only. *)
Definition deliver_worker : uuid -> GO unit := DeliverWork net (IsProduction cfg) true.
End main.

(** ** The server keeps the pipeline's promises *)

Section frames.
Context `{env : Env} `{uuids : UuidLib} `{json : JsonLib} `{lib : OauthLib} `{firebase : Firebase} `{clients : Clients}.
Notation drill_frame m := (frame drill_db m).

Lemma frame_stripe_post secret path form key : drill_frame (stripe_post secret path form key).
Proof. unfold stripe_post, stripe_do, wrap_err. frame_steps. Qed.
#[local] Hint Resolve frame_stripe_post : dokas.
Lemma frame_ReportUsage secret c customer id : drill_frame (ReportUsage (New (stripe_post secret) c) customer id).
Proof.
  unfold New. case_bool_decide; cbn; [|unfold stripe_ReportUsage]; frame_steps.
Qed.
Lemma frame_Dispatch (MarshalEvent : EventPayload -> error + string) id ev m : drill_frame (Dispatch MarshalEvent id ev m).
Proof.
  unfold Dispatch, ListEnabledEndpoints, MarshalPayload, send_one, CreateDelivery, InsertJob, wrap_err. frame_steps; frame_stmt.
Qed.
Lemma frame_Send_drills token from m : drill_frame (Send (NewSender token from) m).
Proof. unfold Send, isSuppressed, sender_send. frame_steps. frame_stmt. Qed.
Lemma frame_MailNotifyDrill send baseURL dr ev r : (forall m, drill_frame (send m)) -> drill_frame (MailNotifyDrill send baseURL dr ev r).
Proof. intros Hs. unfold MailNotifyDrill, GetAccount, GetTarget, ownerEmail, ListMembers. frame_steps; by try apply Hs. Qed.
Lemma frame_rsa_sign s digest : drill_frame (rsa_sign s digest).
Proof. intros w. unfold rsa_sign, lift. by destruct (rsa_Sign _ _ _). Qed.
Lemma frame_exchange url bearer body : drill_frame (exchange_http url bearer body).
Proof. unfold exchange_http. frame_steps. Qed.
#[local] Hint Resolve frame_rsa_sign frame_exchange : dokas.
Lemma frame_accessToken s st : drill_frame (accessToken s st).
Proof. unfold accessToken, signJWT. frame_steps. Qed.
Lemma frame_send_all s access tokens n : forall e, drill_frame (send_all s access tokens n e).
Proof. induction tokens as [|t l IH]; intros e; cbn; [frame_steps|]. unfold sendOne. frame_steps; apply IH. Qed.
Lemma frame_fcm_sender s st tokens n : drill_frame (fcm_sender s st tokens n).
Proof. unfold fcm_sender, fcm_Send. frame_steps; first [apply frame_accessToken|apply frame_send_all]. Qed.
Lemma frame_PushNotifyDrill push dr ev r : (forall t n, drill_frame (push t n)) -> drill_frame (PushNotifyDrill push dr ev r).
Proof. intros Hp. unfold PushNotifyDrill, TokensForAccount. frame_steps. Qed.
Lemma frame_alert_post net url body : drill_frame (alert_post net url body).
Proof. unfold alert_post. frame_steps. apply frame_client_do. Qed.
#[local] Hint Resolve frame_alert_post : dokas.
Lemma frame_AlertNotifyDrill net dr ev r : drill_frame (AlertNotifyDrill net dr ev r).
Proof. unfold AlertNotifyDrill, Get, slack, pagerDuty. frame_steps. Qed.
Lemma frame_notify_drills l dr ev r e :
  Forall (fun n => match n with Some f => drill_frame (f dr ev r) | None => True end) l -> drill_frame (notify_drills l dr ev r e).
Proof. intros H. revert e. induction H as [|[f|] l Hf _ IH]; intros e; cbn; [frame_steps| |done]. frame_steps. Qed.
End frames.

(** Where nothing fails, every call the server makes comes back. *)
Section calm.
Context `{env : Env} `{uuids : UuidLib} `{json : JsonLib} `{rand : Rand} `{ed : Ed25519} `{host : Host} `{machines : Machines} `{bucket : Bucket}.
Context `{lib : OauthLib} `{firebase : Firebase} `{clients : Clients}.
Context (ff : forall n, env_fault n = FOk).

Lemma steady_stripe_post secret path form key : steady (stripe_post secret path form key).
Proof. unfold stripe_post, stripe_do. steady_steps ff. Qed.
#[local] Hint Resolve steady_stripe_post : dokas.
Lemma steady_ReportUsage secret c customer id : steady (ReportUsage (New (stripe_post secret) c) customer id).
Proof. unfold New. case_bool_decide; cbn; [|unfold stripe_ReportUsage]; steady_steps ff. Qed.
Lemma steady_Dispatch (MarshalEvent : EventPayload -> error + string) id ev m : steady (Dispatch MarshalEvent id ev m).
Proof. unfold Dispatch, ListEnabledEndpoints, MarshalPayload, send_one, CreateDelivery, InsertJob. steady_steps ff. Qed.

(** *** The notifiers *)
Lemma steady_Send token from m : steady (Send (NewSender token from) m).
Proof. unfold Send, isSuppressed, sender_send. steady_steps ff. Qed.
Lemma steady_MailNotifyDrill send baseURL dr ev r : (forall m, steady (send m)) -> steady (MailNotifyDrill send baseURL dr ev r).
Proof. intros Hs. unfold MailNotifyDrill, GetAccount, GetTarget, ownerEmail, ListMembers. steady_steps ff; apply Hs. Qed.
Lemma steady_rsa_sign s digest : steady (rsa_sign s digest).
Proof. apply steady_answer. Qed.
#[local] Hint Resolve steady_rsa_sign : dokas.
Lemma steady_accessToken s st : steady (accessToken s st).
Proof. unfold accessToken, signJWT, exchange_http. steady_steps ff. Qed.
Lemma steady_send_all s access tokens n : forall e, steady (send_all s access tokens n e).
Proof. induction tokens as [|t l IH]; intros e; cbn; [apply steady_ret|]. unfold sendOne, exchange_http. steady_steps ff; apply IH. Qed.
#[local] Hint Resolve steady_accessToken steady_send_all : dokas.
Lemma steady_push fcm st tokens n : steady (push_sender fcm st tokens n).
Proof. destruct fcm; cbn; [unfold fcm_sender, fcm_Send|]; steady_steps ff. Qed.
Lemma steady_PushNotifyDrill push dr ev r : (forall t n, steady (push t n)) -> steady (PushNotifyDrill push dr ev r).
Proof. intros Hp. unfold PushNotifyDrill, TokensForAccount. steady_steps ff. Qed.
Lemma steady_client_do net block call n : forall method withBody url, steady (client_do net block call n method withBody url).
Proof.
  induction n as [|n IH]; intros method withBody url w; cbn [client_do];
    (destruct (dial _ _ _ _ _) as [e|address]; [split; [done|simpl; lia]|]); apply (steady_bind _ _ (steady_ext ff _ _));
    intros [code loc]; destruct (redirect _ _) as [[]|], loc as [[]|]; try apply steady_ret; try apply steady_fail; apply IH.
Qed.
#[local] Hint Resolve steady_client_do : dokas.
Lemma steady_AlertNotifyDrill net dr ev r : steady (AlertNotifyDrill net dr ev r).
Proof. unfold AlertNotifyDrill, Get, slack, pagerDuty, alert_post. steady_steps ff. Qed.
Lemma steady_notify_drills l dr ev r e :
  Forall (fun n => match n with Some f => steady (f dr ev r) | None => True end) l -> steady (notify_drills l dr ev r e).
Proof. intros H. revert e. induction H as [|[f|] l Hf _ IH]; intros e; cbn; [steady_steps ff| |done]. steady_steps ff; apply IH. Qed.

(** *** The evidence service *)
Lemma steady_Encrypt c a pdf : steady (Encrypt c a pdf).
Proof.
  unfold Encrypt, accountDEK, mintDEK, loadWrappedDEK, unwrapDEK, sealAAD, seal, insert_dek, set_wrapped, rand_Read.
  steady_steps ff; apply steady_answer.
Qed.
Lemma steady_evidence_Put cfg id blob : steady (st_Put (EvidenceStore:=evidence_store cfg) id blob).
Proof.
  unfold evidence_store. case_bool_decide; cbn; [unfold LocalPut, os_MkdirAll, os_WriteFile|unfold S3Put, do_]; steady_steps ff.
Qed.
#[local] Hint Resolve steady_Encrypt steady_evidence_Put : dokas.
Lemma steady_Finalize cfg signer cipher ret id a pdf : steady (Finalize (store:=evidence_store cfg) signer cipher ret id a pdf).
Proof.
  unfold Finalize, upsert_signature. steady_steps ff.
Qed.

(** *** The runners *)
Lemma steady_Stat path : steady (os_Stat path). Proof. apply steady_answer. Qed.
Lemma steady_Abs path : steady (Abs_ path). Proof. apply steady_answer. Qed.
Lemma steady_Open path : steady (os_Open path). Proof. apply steady_answer. Qed.
Lemma steady_Copy path : steady (io_Copy path). Proof. apply steady_answer. Qed.
Lemma steady_Entries path : steady (os_Entries path). Proof. apply steady_answer. Qed.
Lemma steady_LookPath tool : steady (LookPath tool). Proof. apply steady_answer. Qed.
#[local] Hint Resolve steady_Stat steady_Abs steady_Open steady_Copy steady_Entries steady_LookPath : dokas.
Lemma steady_read_files dir names : steady (read_files dir names).
Proof. induction names as [|n l IH]; cbn; [apply steady_ret|]. unfold read_file. steady_steps ff; apply IH. Qed.
#[local] Hint Resolve steady_read_files : dokas.
Lemma steady_fetchDump uri : steady (fetchDump uri).
Proof. unfold fetchDump, hashDump, read_file. steady_steps ff. Qed.
Lemma steady_restoreDump dsn path : steady (restoreDump dsn path).
Proof. unfold restoreDump, detectDumpFormat, runDumpCmd, CombinedOutput. cbv zeta. steady_steps ff. Qed.
Lemma steady_execAdmin dsn sql : steady (execAdmin dsn sql).
Proof. unfold execAdmin. steady_steps ff. Qed.
#[local] Hint Resolve steady_fetchDump steady_restoreDump steady_execAdmin : dokas.

Context (fly_Marshal : CreateInput -> error + string) (fly_Unmarshal : string -> error + FlyMachine).
Lemma steady_backoff : steady backoff.
Proof. intros w. unfold backoff. destruct (fly_Done _); simpl; (split; [done|lia]). Qed.
#[local] Hint Resolve steady_backoff : dokas.
Lemma steady_fly_retry token method path body wants n : forall e, steady (fly_retry fly_Unmarshal token n e method path body wants).
Proof. induction n as [|n IH]; intros e; cbn; [apply steady_fail|]. unfold doOnce. steady_steps ff; apply IH. Qed.
#[local] Hint Resolve steady_fly_retry : dokas.
Lemma steady_fly_do token method path body wants : steady (fly_do fly_Unmarshal token method path body wants).
Proof. unfold fly_do, doOnce. steady_steps ff. Qed.
#[local] Hint Resolve steady_fly_do : dokas.

(** Fly's API names the machine it created. *)
Definition machines_named : Prop :=
  forall n url body code payload, fly_http n "POST" url body = inr (code, payload) -> code < 400 ->
  let payload := String.substring 0 (Z.to_nat (Z.shiftl 1 20)) payload in
  payload <> "" /\ forall m, fly_Unmarshal payload = inr m -> fm_ID m <> "".
Context (Hnamed : machines_named).

Lemma doOnce_named token path body w m w' :
  doOnce fly_Unmarshal token "POST" path body true w = (Ret (Done m), w') -> fm_ID m <> "".
Proof.
  unfold doOnce, settle. intros (resp & w1 & Hr & H)%bind_ret. unfold try, ext in Hr. rewrite ff in Hr.
  assert (resp = fly_http (w_tick w) "POST" (fly_base +:+ path) body) as ->
    by (destruct (fly_http _ _ _ _); simpl in Hr; by injection Hr as <- _).
  destruct (fly_http _ _ _ _) as [e|[code payload]] eqn:E; [done|]. cbv zeta in H.
  rewrite (bool_decide_eq_false_2 ("POST" = "DELETE")), andb_false_r in H by done.
  destruct (_ || _); [done|]. destruct (Z.leb_spec 400 code); [done|].
  destruct (Hnamed _ _ _ _ _ E ltac:(lia)) as [Hne Hm]. rewrite bool_decide_eq_false_2 in H by exact Hne. cbn [andb negb] in H.
  destruct (fly_Unmarshal _) as [|m1] eqn:Em; [done|]. injection H as <- _. by apply Hm.
Qed.
Lemma fly_retry_named token path body n : forall e w m w',
  fly_retry fly_Unmarshal token n e "POST" path body true w = (Ret m, w') -> fm_ID m <> "".
Proof.
  induction n as [|n IH]; intros e w m w' H; cbn in H; [done|].
  apply bind_ret in H as (u & w1 & _ & (a & w2 & Ha & H)%bind_ret). destruct a as [m'|e'|e']; [|by eapply IH|done].
  injection H as <- _. by eapply doOnce_named.
Qed.
Lemma fly_do_named token path body w m w' : fly_do fly_Unmarshal token "POST" path body true w = (Ret m, w') -> fm_ID m <> "".
Proof.
  unfold fly_do. intros (a & w2 & Ha & H)%bind_ret. destruct a as [m'|e'|e']; [|by eapply fly_retry_named|done].
  injection H as <- _. by eapply doOnce_named.
Qed.

(** A provisioned sandbox is found again by its name. *)
Lemma local_Provision_ready dsn id w sb w' : local_Provision dsn id w = (Ret sb, w') ->
  sb_Name sb <> "" /\ exists sb', local_Rehydrate dsn id (sb_Name sb) = inr sb'.
Proof.
  unfold local_Provision, local_Rehydrate. cbv zeta. intros (u & w1 & _ & (u2 & w2 & _ & H)%bind_ret)%bind_ret.
  destruct (swapDatabase dsn (sandbox_name id)) as [e|dsn'] eqn:E.
  - by apply bind_ret in H as (u3 & w3 & _ & H).
  - injection H as <- _. simpl. rewrite E. split; [done|]. by eexists.
Qed.
Lemma drill_runner_ready cfg id w sb w' : Provision (drill_runner fly_Marshal fly_Unmarshal cfg) id w = (Ret sb, w') ->
  sb_Name sb <> "" /\ exists sb', Rehydrate (drill_runner fly_Marshal fly_Unmarshal cfg) id (sb_Name sb) = inr sb'.
Proof.
  unfold drill_runner. destruct (_ && _); cbn; [|apply local_Provision_ready].
  unfold fly_Provision, CreateMachine. intros (m & w1 & Hm%wrap_err_ret & H)%bind_ret.
  destruct (fly_Marshal _) as [|body]; [done|]. apply fly_do_named in Hm. apply bind_ret in H as (x & w2 & _ & H).
  destruct x as [e|u]; [by apply bind_ret in H as (u3 & w3 & _ & H)|]. injection H as <- _. split; [done|]. by eexists.
Qed.
Lemma steady_Provision cfg id : steady (Provision (drill_runner fly_Marshal fly_Unmarshal cfg) id).
Proof.
  unfold drill_runner. destruct (_ && _); cbn; [unfold fly_Provision, CreateMachine, WaitStarted, Destroy|unfold local_Provision]; steady_steps ff.
Qed.
Lemma steady_Teardown cfg sb : steady (Teardown (drill_runner fly_Marshal fly_Unmarshal cfg) sb).
Proof.
  unfold drill_runner. destruct (_ && _); cbn; [unfold fly_Teardown, Destroy|unfold local_Teardown]; steady_steps ff.
Qed.

(** The driver comes back too. *)
Definition driver_calm (pgx_Connect : string -> GO Querier) : Prop :=
  (forall dsn, steady (pgx_Connect dsn)) /\
  forall dsn w q w', pgx_Connect dsn w = (Ret q, w') ->
    (forall s a, steady (QueryInt q s a)) /\ (forall s a, steady (QueryBool q s a)) /\ (forall s, steady (QueryRows q s)).

Lemma pipeline_deps_calm `{fpdf : Fpdf} Unmarshal Marshal MarshalEvent net pgx_Connect cfg fcm st signer cipher :
  driver_calm pgx_Connect ->
  DepsCalm (pipeline_deps Unmarshal Marshal MarshalEvent fly_Marshal fly_Unmarshal net pgx_Connect cfg fcm st signer cipher).
Proof.
  intros [Hc Hq].
  assert (forall sb u, steady (Fetch (drill_runner fly_Marshal fly_Unmarshal cfg) sb u)) as Hf
    by (intros sb u; unfold drill_runner; destruct (_ && _); apply steady_fetchDump).
  assert (forall sb u, steady (Restore (drill_runner fly_Marshal fly_Unmarshal cfg) sb u)) as Hr
    by (intros sb u; unfold drill_runner; destruct (_ && _); apply steady_restoreDump).
  split; cbn [D_Runner D_Connect D_Finalize D_Webhooks D_Billing D_Accounts D_Notify pipeline_deps]; try done.
  - apply steady_Provision.
  - intros id w sb w'. apply drill_runner_ready.
  - apply steady_Teardown.
  - intros id a pdf. apply steady_Finalize.
  - intros f id ev m [= <-]. apply steady_Dispatch.
  - intros b f c i [= <- <-]. apply steady_ReportUsage.
  - intros f id [= <-]. unfold GetAccount. steady_steps ff.
  - intros f dr ev r [= <-]. apply steady_notify_drills. rewrite !Forall_cons. split; [|split; [|split; [|by constructor]]].
    + apply steady_PushNotifyDrill. intros t n. apply steady_push.
    + apply steady_AlertNotifyDrill.
    + apply steady_MailNotifyDrill. intros m. apply steady_Send.
Qed.
End calm.

Section theorems.
Context `{env : Env} `{uuids : UuidLib} `{uuid_name : !UuidName} `{json : JsonLib} `{rand : Rand} `{ed : Ed25519} `{keys : KeyFiles} `{host : Host}.
Context `{machines : Machines} `{bucket : Bucket} `{fpdf : Fpdf} `{lib : OauthLib} `{firebase : Firebase} `{clients : Clients}.
Context (Unmarshal : string -> error + any) (Marshal : any -> error + string) (MarshalEvent : EventPayload -> error + string).
Context (fly_Marshal : CreateInput -> error + string) (fly_Unmarshal : string -> error + FlyMachine).
Context (net : Network) (pgx_Connect : string -> GO Querier) (sampleDump : string).

Lemma drill_runner_ok cfg : RunnerOk (drill_runner fly_Marshal fly_Unmarshal cfg).
Proof. unfold drill_runner. destruct (_ && _); [apply FlyMachineRunner_ok|apply LocalRunner_ok]. Qed.
Lemma frame_S3Put s id blob : frame drill_db (S3Put s id blob).
Proof.
  unfold S3Put, do_. frame_steps. apply frame_exec. intros t n db db' x Heq.
  destruct (bk_serve _ _ _) as [resp files]. injection Heq as <- _. by destruct db.
Qed.
Lemma frame_evidence_Put cfg id blob : frame drill_db (st_Put (EvidenceStore:=evidence_store cfg) id blob).
Proof.
  unfold evidence_store. case_bool_decide; cbn; [|apply frame_S3Put]. apply frame_LocalPut. by intros f [].
Qed.
Lemma evidence_Put_key cfg (id : uuid) blob w key w' :
  st_Put (EvidenceStore:=evidence_store cfg) (uuid_String id) blob w = (Ret key, w') -> key <> "".
Proof.
  unfold evidence_store. case_bool_decide; cbn.
  - intros H1. destruct (Put_ret (EvidenceStoreOk:=LocalStore_ok (EvidenceDir cfg)) _ _ _ _ _ H1) as [-> _].
    apply (st_key_nonempty (EvidenceStoreOk:=LocalStore_ok (EvidenceDir cfg))).
    intros Hin%list_elem_of_In. by apply uuid_String_name in Hin.
  - intros H1. unfold S3Put in H1. ret_inv. by destruct (uuid_String id).
Qed.
Lemma Finalize_key_nonempty cfg signer cipher ret id a pdf w key :
  (Finalize (store:=evidence_store cfg) signer cipher ret id a pdf w).1 = Ret key -> key <> "".
Proof.
  destruct (Finalize _ _ _ _ _ _ w) as [o w'] eqn:E. cbn. intros ->. unfold Finalize in E. ret_inv. subst.
  by eapply evidence_Put_key.
Qed.

Abbreviation server_start cfg :=
  (start Unmarshal Marshal MarshalEvent fly_Marshal fly_Unmarshal net pgx_Connect sampleDump cfg).

(** What the server starts with is the bundle of its configuration. *)
Lemma start_ret cfg w D w' : server_start cfg w = (Ret D, w') -> exists fcm signer cipher,
  D = pipeline_deps Unmarshal Marshal MarshalEvent fly_Marshal fly_Unmarshal net pgx_Connect cfg fcm no_access signer cipher.
Proof. intros H. unfold start in H. ret_inv. by eexists _, _, _. Qed.

Context (Hf : forall dsn, frame drill_db (pgx_Connect dsn)).
Context (Hq : forall dsn w1 q w2, pgx_Connect dsn w1 = (Ret q, w2) -> QuerierOk q).

(** Neither runner, no notifier, not the billing client, the webhook
    dispatcher or the evidence service writes the drill tables, and stored
    evidence has a key; of the PostgreSQL driver alone this is assumed. *)
Lemma pipeline_deps_ok cfg fcm st signer cipher :
  DepsOk (pipeline_deps Unmarshal Marshal MarshalEvent fly_Marshal fly_Unmarshal net pgx_Connect cfg fcm st signer cipher).
Proof.
  split; cbn [D_Runner D_Connect D_Finalize D_Webhooks D_Billing D_Accounts D_Notify pipeline_deps].
  - apply drill_runner_ok.
  - done.
  - intros dsn v q v'. apply Hq.
  - intros id acct pdf. apply frame_Finalize; [by intros f []|apply frame_evidence_Put|by intros f []].
  - intros id acct pdf v key. apply Finalize_key_nonempty.
  - intros f id ev m [= <-]. apply frame_Dispatch.
  - intros b f c i [= <- <-]. apply frame_ReportUsage.
  - intros f id [= <-]. unfold GetAccount. frame_steps.
  - intros f dr ev r [= <-]. apply frame_notify_drills. repeat constructor.
    + apply frame_PushNotifyDrill. intros t n. unfold push_sender. destruct fcm; [apply frame_fcm_sender|frame_steps].
    + apply frame_AlertNotifyDrill.
    + apply frame_MailNotifyDrill. intros m. apply frame_Send_drills.
Qed.

End theorems.

(** ** A server *)

#[local] Existing Instance demo_env.
#[local] Existing Instance dump_host.
#[local] Instance quiet_machines : Machines := demo_machines [] id no_answers.
#[local] Instance no_keys : KeyFiles := {|
  pem_Decode _ := None; pem_Encode _ := inr ""; ParsePKCS8PrivateKey _ := inr None; ParsePKIXPublicKey _ := inr None;
  MarshalPKIXPublicKey s := inr s
|}.
#[local] Instance no_objects : Bucket := {| bk_serve _ _ files := ((404, "NoSuchBucket"), files) |}.
#[local] Instance no_firebase : Firebase := {|
  sa_Unmarshal _ := inl ErrConn; sa_ReadFile _ _ := inl ErrConn; pem_block _ := None; ParsePKCS1 _ := inl ErrConn;
  ParsePKCS8_RSA _ := inl ErrConn; rsa_Sign _ _ _ := inl ErrConn; json_String s := s; message_JSON _ _ := "";
  access_Decode _ := inl ErrConn; fcm_http _ _ _ _ := inl ErrConn
|}.
#[local] Instance no_clients : Clients := {|
  stripe_http _ _ _ _ _ := inl ErrConn; object_Unmarshal _ := inl ErrConn; stripe_message _ := inl ErrConn;
  map_Marshal _ := inr "{}"; postmark_http _ _ _ := inl ErrConn
|}.
Definition dev_config : Config.Config := from_environment (idle_env "") dev_session_key 0.
Definition dev_start : GO Steps.Deps :=
  start (fun _ => inl ErrConn) (fun _ => inl ErrConn) (fun _ => inr "{}") (fun _ => inr "{}") (fun _ => inl ErrConn)
    demo_net (fun _ => mret (demo_querier 3)) "" dev_config.
