(* ===== verification/Views.v ===== *)
(** internal/web/templates: what the pages compute of the values the handlers
    pass them - labels, badges, durations and the figures of the pricing page -
    and what the page behind a share link says of a drill's evidence.  The
    markup around them is generated and not modelled. *)
From S2P Require Import Prelude Crypto Effects Schema Encoding Path Time Http Plans Rbac AccountStore DrillStore Assertions AuthStore.
From S2P Require Import Cipher Signer EvidenceStore Evidence Heartbeat ApiKey ShareLink Scheduler RateLimit Pdf Targets Share Reports Members Demo AccountFacts EvidenceFacts.
From Stdlib Require Import Ascii.

Definition dash : string := "—".
Definition ternary (cond : bool) (a b : string) : string := if cond then a else b.
Definition orDefault (v def : string) : string := if bool_decide (v = "") then def else v.
Definition orDash (s : string) : string := orDefault s dash.
Definition plural (n : Z) (unit_ : string) : string := show_Z n +:+ " " +:+ unit_ +:+ (if n =? 1 then "" else "s").

(** ** A drill (drills.templ) *)

Definition errOrDash (e : option string) : string := match e with Some e => orDash e | None => dash end.
Definition view_duration (start end_ : option time) : string :=
  match start, end_ with
  | None, _ => dash
  | _, None => "running…"
  | Some s, Some e => Duration_String (duration_Round (Sub e s) 1000000)
  end.
Definition shortID (s : string) : string := if (8 <=? String.length s)%nat then String.substring 0 8 s else s.
Fixpoint firstFailedStep (steps : list Step) : option Step :=
  match steps with
  | [] => None
  | s :: l => if bool_decide (s_Status s = StatusFailed) then Some s else firstFailedStep l
  end.
Fixpoint firstStepErr (steps : list Step) : string :=
  match steps with
  | [] => ""
  | s :: l =>
      let e := default "" (s_Error s) in
      if bool_decide (s_Status s = StatusFailed) && negb (bool_decide (e = "")) then e else firstStepErr l
  end.

Definition hint_nulls : string := "an assertion found NULLs in a column that was expected to be non-null. Either the dump captured a schema-vs-data mismatch, or the column now permits NULLs — inspect the referenced column in the source before the next drill.".
Definition hint_exists : string := "an expected table or column was missing from the restored dump. The most common cause is a schema-migration deploy that didn't run in the environment producing the backup — verify the source database's schema and re-run.".
Definition hint_relation : string := "the assertion couldn't find the referenced table. If table_exists passed but this failed, it's a schema-qualification issue — this Dokaz release schema-qualifies to public automatically; re-run the drill. Otherwise the table was dropped, renamed, or lives in a non-public schema.".
Definition hint_rows : string := "the restored row count was below the expected minimum. Either the backup is stale (produced before recent inserts) or a truncate/DROP ran between backup and drill — check the backup job's timing.".
Definition hint_restore : string := "pg_restore refused the dump. Check the captured restore log below — the last few lines usually identify a version mismatch, a corrupted archive header, or a missing role/extension in the sandbox.".
Definition hint_source : string := "the source dump was not readable at the path this database is configured with. Confirm the file still exists, that the path is inside the configured backups directory, and that Dokaz's user can read it.".
Definition hint_timeout : string := "the step took longer than its budget. For provision, retry once — Fly Machine cold-starts occasionally exceed the timeout. For restore, the dump may be larger than your plan allows; check the size below.".
Definition failureHint (s : Step) : string :=
  match s_Error s with
  | None => ""
  | Some e =>
      let has := Contains (ToLower e) in
      if has "no_nulls" || (has "null" && has "column") then hint_nulls
      else if has "table_exists" || has "column_exists" then hint_exists
      else if has "does not exist" && (has "relation" || has "42p01") then hint_relation
      else if has "row_count" then hint_rows
      else if has "pg_restore" || has "psql" then hint_restore
      else if has "no such file" || has "not found" || has "permission denied" then hint_source
      else if has "timeout" || has "context deadline" then hint_timeout
      else ""
  end.

Definition padded2 (n : Z) : string := (if (0 <=? n) && (n <? 10) then "0" else "") +:+ show_Z n.
(** The conversions to int and to float64 of whole minutes and seconds agree
    for durations of a minute to some fifty days. *)
Definition evidenceDuration (start end_ : option time) : string :=
  match start, end_ with
  | None, _ => dash
  | _, None => "running…"
  | Some s, Some e =>
      let d := Sub e s in
      if d <? AuthStore.second then Duration_String (duration_Round d 1000000)
      else if d <? 60 * AuthStore.second then Duration_String (duration_Round d 100000000)
      else
        let mins := d / (60 * AuthStore.second) in
        show_Z mins +:+ "m " +:+ padded2 (d / AuthStore.second - mins * 60) +:+ "s"
  end.
Fixpoint rowCountFromAssertions (ars : list AssertionResult) : string :=
  match ars with
  | [] => dash
  | a :: l =>
      if bool_decide (ar_Kind a = "row_count") && ar_Passed a && negb (bool_decide (ar_Actual a = ""))
      then ar_Actual a else rowCountFromAssertions l
  end.
Definition assertionScore (ars : list AssertionResult) : string :=
  match ars with
  | [] => dash
  | _ => show_Z (Z.of_nat (length (filter (fun a => ar_Passed a = true) ars))) +:+ " / " +:+ show_Z (Z.of_nat (length ars))
  end.
Definition evidenceLabel (d : Drill) (v : VerifyResult) : string :=
  if bool_decide (default "" (d_EvidencePath d) = "") then
    if bool_decide (d_Status d = StatusFailed) then "Withheld" else "Pending"
  else if vr_Signed v && vr_Valid v then "Signed"
  else if vr_Signed v && negb (vr_Valid v) then "Invalid"
  else "Signed".

(** ** Monitors (heartbeats.templ) *)

Definition effectiveStatus (now : time) (h : Heartbeat) : string := if Overdue h now then StatusDown else h_Status h.
Definition lastPing (h : Heartbeat) : string := match h_LastPingAt h with Some t => FormatRFC3339 t | None => "never" end.
Definition nextDue (h : Heartbeat) : string :=
  if bool_decide (h_Status h = StatusPaused) then dash else
  match h_ExpectedBy h with Some t => FormatRFC3339 t | None => dash end.
Definition pingURL (baseURL token action : string) : string :=
  baseURL +:+ "/ping/" +:+ token +:+ (if bool_decide (action = "") then "" else "/" +:+ action).
Definition curlExample (baseURL token : string) : string := "curl -fsS " +:+ pingURL baseURL token "".
Definition humanizeSeconds (secs : Z) : string :=
  if secs =? 0 then "none"
  else if Z.rem secs 86400 =? 0 then plural (Z.quot secs 86400) "day"
  else if Z.rem secs 3600 =? 0 then plural (Z.quot secs 3600) "hour"
  else if Z.rem secs 60 =? 0 then plural (Z.quot secs 60) "minute"
  else Duration_String (secs * AuthStore.second).

(** ** The account (layout.templ, account.templ, apikeys.templ, ...) *)

Definition navActive (current href : string) : bool :=
  if bool_decide (href = "/") then bool_decide (current = "/")
  else bool_decide (current = href) || HasPrefix current (href +:+ "/").
Definition trialBannerText (now : time) (a : Account) : string :=
  let days := TrialDaysLeft now a in
  if days =? 0 then "Less than a day left in your free trial."
  else if days =? 1 then "1 day left in your free trial."
  else show_Z days +:+ " days left in your free trial.".
Definition paymentIssue (a : option Account) : bool :=
  match a ≫= a_SubscriptionStatus with
  | None => false
  | Some s => bool_decide (s ∈ ["past_due"; "unpaid"; "incomplete"; "incomplete_expired"])
  end.
Definition paymentIssueText (a : option Account) : string :=
  match a ≫= a_SubscriptionStatus with
  | None => "your last payment did not go through."
  | Some s =>
      if bool_decide (s = "past_due") then "your last payment did not go through."
      else if bool_decide (s = "unpaid") then "your subscription has unpaid invoices."
      else if bool_decide (s = "incomplete") || bool_decide (s = "incomplete_expired") then "your subscription setup did not complete."
      else "your subscription needs attention."
  end.
Definition trialEndedText (a : option Account) : string :=
  if bool_decide (default "" (a ≫= a_StripeCustomerID) = "") then "Your free trial has ended."
  else "Your subscription has ended and your data is in the 7-day grace window.".
Definition slackPlaceholder (configured : bool) : string :=
  if configured then "Leave blank to keep the current webhook" else "https://hooks.slack.com/services/T000/B000/XXXX".
Definition pdPlaceholder (configured : bool) : string :=
  if configured then "Leave blank to keep the current key" else "PagerDuty Events API v2 integration key".
Definition yesNo (b : bool) : string := if b then "yes" else "no".
Definition lastUsed (t : option time) : string :=
  match t with
  | None => "never"
  | Some t => FormatDate t +:+ " " +:+ String.substring 11 5 (FormatRFC3339 t) +:+ " UTC"
  end.
Definition scopeSummary (k : Key) : string :=
  if (length (k_Scopes k) =? length AllScopes)%nat then "Full access"
  else if bool_decide (k_Scopes k = []) then dash
  else if negb (HasScope k ScopeDatabasesWrite || HasScope k ScopeDrillsWrite) then "Read-only"
  else String.concat ", " (k_Scopes k).
Definition signupHref (next : string) : string := if bool_decide (next = "") then "/signup" else "/signup?next=" +:+ next.
Definition loginHref (next : string) : string := if bool_decide (next = "") then "/login" else "/login?next=" +:+ next.
Definition changelogHref (u : string) : string :=
  if HasPrefix u "http://" || HasPrefix u "https://" then u else "https://github.com/PreShotCome/Dokas/blob/main/" +:+ u.
(** byte by byte: the secret is base32 *)
Fixpoint group_chars (i : nat) (l : list ascii) : list ascii :=
  match l with
  | [] => []
  | c :: l' => (if (0 <? i)%nat && (i mod 4 =? 0)%nat then [" "%char; c] else [c]) ++ group_chars (S i) l'
  end.
Definition groupSecret (s : string) : string := unchars (group_chars 0 (chars s)).
Definition memberOnTeam (t : TeamView) (userID : uuid) : bool := existsb (fun m => bool_decide (m.1 = userID)) (tv_Members t).
Definition statusCode (code : option Z) : string := match code with Some c => show_Z c | None => dash end.
Definition shareStatusLabel (now : time) (l : Link) : string :=
  match l_RevokedAt l with
  | Some t => "revoked " +:+ FormatDate t
  | None => (if Active l now then "active · expires " else "expired ") +:+ FormatDate (l_ExpiresAt l)
  end.
Definition allOK (components : list (string * bool)) : bool := forallb snd components.

(** ** Plans and schedules (plan.templ, pricing.templ, targets.templ) *)

Definition planLimitCount (limit : Z) (resource : string) : string :=
  let n := String.length resource in
  show_Z limit +:+ " " +:+
  (if (limit =? 1) && (1 <? n)%nat && bool_decide (String.get (n - 1) resource = Some "s"%char)
   then String.substring 0 (n - 1) resource else resource).
Definition pricingTagline (plan : string) : string :=
  if bool_decide (plan = "starter") then "For a single team getting an audit off the ground"
  else if bool_decide (plan = "pro") then "For the engineering org running a growing production fleet"
  else if bool_decide (plan = "scale") then "For high-volume infrastructure at fleet scale" else "".
Definition limitText (n : Z) (singular : string) : string :=
  if n =? Unlimited then "Unlimited " +:+ singular +:+ "s"
  else if n =? 1 then "1 " +:+ singular else show_Z n +:+ " " +:+ singular +:+ "s".
Definition drillBudgetLine (drillsPerDay dbCap : Z) (headroomPhrase : string) : string :=
  let per_day := show_Z drillsPerDay +:+ " drills/day" in
  if dbCap <=? 0 then per_day else
  let headroom := drillsPerDay - dbCap in
  let line := per_day +:+ " — daily verification of " +:+ show_Z dbCap +:+ " databases" in
  if headroom <=? 0 then line else line +:+ " plus " +:+ show_Z headroom +:+ " spare for " +:+ headroomPhrase.
Definition tb : Z := 1024 * gb.
Definition dumpSizeLabel (n : Z) : string :=
  if (tb <=? n) && (Z.rem n tb =? 0) then show_Z (Z.quot n tb) +:+ " TB" else show_Z (Z.quot n gb) +:+ " GB".
Definition pricingFeatures (plan : string) (limits : Limits) : list string :=
  let drills := drillBudgetLine (DrillsPerDay limits) (Databases limits) in
  let dumps := "Restore dumps up to " +:+ dumpSizeLabel (MaxDumpBytes limits) in
  if bool_decide (plan = "starter") then
    [limitText (Heartbeats limits) "backup check-in"; drills "migrations and re-drills"; dumps;
     show_Z (APIKeys limits) +:+ " API keys · " +:+ show_Z (Plans.Webhooks limits) +:+ " webhooks";
     "Standard drill queue"; "Slack · PagerDuty · email alerts"; "Email support (next business day)"]
  else if bool_decide (plan = "pro") then
    [limitText (Heartbeats limits) "backup check-in"; drills "CI-triggered drills and incident replays"; dumps +:+ " (10× Starter)";
     "Unlimited API keys & webhooks"; "Priority drill queue — jumps Starter jobs"; "Custom assertion library across all databases";
     "Priority email support (same-day)"]
  else if bool_decide (plan = "scale") then
    ["Unlimited backup check-ins"; drills "migrations, incident replays, and CI-triggered drills at fleet scale"; dumps;
     "Unlimited API keys & webhooks"; "Top-priority drill queue — never waits behind smaller tiers";
     "Extended raw restore logs (30 days) for post-mortem review"; "Quarterly evidence bundle export for auditors";
     "Deployment region selection (roadmap)"; "SSO / SAML (roadmap)"; "Dedicated support channel + named contact"]
  else [].
Definition readinessClasses (tone : string) : string :=
  if bool_decide (tone = "green") then "bg-emerald-100 text-emerald-800 dark:bg-emerald-900/40 dark:text-emerald-300"
  else if bool_decide (tone = "amber") then "bg-amber-100 text-amber-800 dark:bg-amber-900/40 dark:text-amber-300"
  else "bg-red-100 text-red-800 dark:bg-red-900/40 dark:text-red-300".
Definition cadenceValue (c : string) : string := if bool_decide (c = "") then "off" else c.
Definition cadenceLabel (c : string) : string :=
  if bool_decide (c = "monthly") then "Monthly" else if bool_decide (c = "weekly") then "Weekly"
  else if bool_decide (c = "daily") then "Daily" else if bool_decide (c = "hourly") then "Hourly" else "Off — manual drills only".
Definition cadenceAdverb (c : string) : string :=
  if bool_decide (c = "monthly") then "every month" else if bool_decide (c = "weekly") then "every week"
  else if bool_decide (c = "daily") then "every day" else if bool_decide (c = "hourly") then "every hour" else "".

(** ** Reports (reports.templ) *)

Definition reportMax (months : list MonthlyStat) : Z := foldl (fun m s => if m <? ms_Total s then ms_Total s else m) 1 months.
Definition reportPassRate (succeeded failed : Z) : string :=
  let done := succeeded + failed in
  if done =? 0 then dash else show_Z (Z.quot (succeeded * 100) done) +:+ "%".
Definition reportLastDrill (t : option time) : string := match t with Some t => FormatDate t | None => "never" end.
Definition countDrilledDatabases (dbs : list DatabaseStat) : Z := Z.of_nat (length (filter (fun d => 0 < ds_Total d) dbs)).

(** ** Facts *)

Section shared_page.
Context `{env : Env} `{rand : Rand} `{ed : Ed25519} (dir : string) (signer : Signer) (cipher : Cipher).
#[local] Instance page_store : EvidenceStore := LocalStore dir.
Definition stored (db : DB) : gmap string string := evidence_files (evidence_db db).

(** Nothing is read under the empty key, so nothing verifies. *)
Lemma verify_empty_key d a w v w' :
  stored (w_db w) !! "" = None -> ServiceVerify signer cipher d a "" w = (Ret v, w') -> vr_Valid v = false.
Proof.
  intros Hn H. unfold ServiceVerify in H. ret_step.
  assert (w_db w0 = w_db w) as Hdb.
  { assert (frame (fun db => db) (try (GetSignature d))) as Hf by (unfold GetSignature; frame_steps).
    specialize (Hf w). by rewrite H0 in Hf. }
  destruct a0 as [e|rec]; [by ret_inv|]. ret_step; [|by ret_inv].
  ret_step. destruct a0 as [e|blob]; [by ret_inv|]. exfalso. unfold try in H1. cbn in H1.
  destruct (LocalReadAll "" w0) as [[b|e|] w2] eqn:E; [|done..]. unfold LocalReadAll in E. apply exec_ret in E as [E _].
  cbv beta in E. unfold stored in Hn. rewrite Hdb, Hn in E. done.
Qed.
Definition signatures (db : DB) : gmap uuid SignatureRecord := evidence_signatures (evidence_db db).
(** What the verdict says of the signature. *)
Lemma verify_signed d a key w v w' :
  ServiceVerify signer cipher d a key w = (Ret v, w') ->
  (vr_Signed v = true -> is_Some (signatures (w_db w) !! d)) /\
  (env_fault (w_tick w) = FOk -> is_Some (signatures (w_db w) !! d) -> vr_Signed v = true).
Proof.
  intros H. unfold ServiceVerify in H. apply bind_ret in H as (r & w1 & Hr & H). destruct r as [e|rec].
  - split; [by destruct (errors_Is e _); [injection H as <- <-|]|]. intros Hf [rec Hrec]. exfalso.
    unfold GetSignature in Hr. by rewrite (try_ok _ w rec (tick w)) in Hr by by apply query_row_ok.
  - apply try_ret, no_rows_as_ret, query_row_ret in Hr as [Hrec _]. split; [by eexists|]. intros _ _. by ret_inv.
Qed.
Lemma frame_Resolve {B} (proj : DB -> B) token :
  (forall f db, proj (db{{ key_db -> drill_share_links ::= f }}) = proj db) -> frame proj (ShareLink.Resolve token).
Proof. intros Hp. unfold ShareLink.Resolve. frame_steps. apply frame_exec. intros t u db db' x Heq. repeat case_match; simplify_eq; try done; injection Heq as <- _; apply Hp. Qed.
Lemma frame_result {A B} (proj : DB -> B) (m : GO A) w a w' : frame proj m -> m w = (Ret a, w') -> proj (w_db w') = proj (w_db w).
Proof. intros Hf E. specialize (Hf w). by rewrite E in Hf. Qed.

(** The page's verdict is the one of an empty key, or none. *)
Lemma shared_verdict token w dr t v w' : sharePage signer cipher token w = (Ret (Shared dr t v), w') ->
  exists a o w4 w5, ServiceVerify signer cipher (d_ID dr) a "" w4 = (o, w5) /\
    stored (w_db w4) = stored (w_db w) /\ signatures (w_db w4) = signatures (w_db w) /\
    match o with Ret v' => v = v' | Fail _ => v = no_verdict | Crash => False end.
Proof.
  intros H. unfold sharePage in H. ret_inv; try done.
  pose (both := fun db => (stored db, signatures db)).
  apply (frame_result both) in H1, H2, H3, H4; [|unfold ListAssertions, ListSteps, GetTarget, GetDrill; frame_steps..].
  apply (frame_result both) in H0; [|apply frame_try, frame_Resolve; by intros f []].
  rewrite H0 in H1. rewrite H1 in H2. rewrite H2 in H3. rewrite H3 in H4. injection H4 as Hs Hg.
  unfold try in H5. destruct (ServiceVerify _ _ _ _ "" _) as [o w5] eqn:E. exists (l_AccountID l), o.
  eexists _, w5. split; [exact E|]. split; [exact Hs|]. split; [exact Hg|]. destruct o; [injection H5 as <- _|injection H5 as <- _|]; done.
Qed.

(** C40: the page behind a share link verifies the evidence under an empty
    key, so it never calls it valid.  Without faults an auditor reads Invalid
    for every drill whose evidence is signed, however intact it is, and Signed
    for one whose evidence has no signature; with faults, a drill whose
    signature could not be read reads Signed as well, and Invalid is said of
    signed evidence only. *)
Theorem share_page_misreports token w dr t v w' :
  stored (w_db w) !! "" = None -> sharePage signer cipher token w = (Ret (Shared dr t v), w') ->
  default "" (d_EvidencePath dr) <> "" ->
  vr_Valid v = false /\
  (evidenceLabel dr v = "Signed" \/ evidenceLabel dr v = "Invalid" /\ is_Some (signatures (w_db w) !! d_ID dr)) /\
  (fault_free -> evidenceLabel dr v = if signatures (w_db w) !! d_ID dr then "Invalid" else "Signed").
Proof.
  intros Hn H Hp. destruct (shared_verdict _ _ _ _ _ _ H) as (a & o & w4 & w5 & E & Hs & Hg & Ho).
  assert (vr_Valid v = false) as Hv.
  { destruct o as [v'|e|]; [subst v'|by subst|done]. eapply verify_empty_key; [|exact E]. by rewrite Hs. }
  assert (evidenceLabel dr v = if vr_Signed v then "Invalid" else "Signed") as Hl.
  { unfold evidenceLabel. rewrite bool_decide_eq_false_2 by done. rewrite Hv. by destruct (vr_Signed v). }
  rewrite Hl. split; [done|]. rewrite <- Hg. destruct o as [v'|e|]; [subst v'| |done].
  - destruct (verify_signed _ _ _ _ _ _ E) as [H1 H2]. split.
    + destruct (vr_Signed v); [right; by auto|by left].
    + intros ff. destruct (signatures (w_db w4) !! d_ID dr) eqn:Er; [by rewrite H2 by (by auto)|].
      destruct (vr_Signed v); [by destruct H1|done].
  - subst v. split; [by left|]. intros ff. destruct (signatures (w_db w4) !! d_ID dr) as [rec|] eqn:Er; [|done]. exfalso.
    unfold ServiceVerify, GetSignature in E. unfold mbind at 1, M_bind at 1 in E.
    rewrite (try_ok _ w4 rec (tick w4)) in E by (by apply query_row_ok).
    destruct (VerificationKey _ _); [|done]. unfold mbind, M_bind, try in E. destruct (st_ReadAll _ _) as [[blob|?|] w6]; [|done..].
    destruct (Decrypt _ _ _ _) as [[pdf|?|] w7]; [|done..]. by destruct (Signer.Verify _ _ _).
Qed.
End shared_page.

#[local] Existing Instance demo_env.
#[local] Instance demo_page_store : EvidenceStore := LocalStore "/ev".
Definition shared_token : string := "sh_token".
(** A drill with a signed report, and a link to it. *)
Definition shared_db : DB :=
  (w_db (Finalize demo_signer demo_cipher DefaultRetention 5 1 "%PDF" (world evidence_db0)).2){{
    drill_db -> drills := {[ 5%N := mkDrill 5 10 1 2 StatusSucceeded None None None (Some "/ev/101.pdf") None None 0 ]};
    key_db -> drill_share_links :=
      {[ 70%N := mkLinkRow (mkLink 70 5 1 2 "sh_" "" (2000000000 * ns) None None 0 0) (sha256 shared_token) ]} }}.
Definition shared_page (o : outcome shared * World DB) : option (string * bool) :=
  match o.1 with Ret (Shared dr _ v) => Some (evidenceLabel dr v, vr_Valid v) | _ => None end.
Lemma share_page_misreports_witness :
  shared_page (sharePage demo_signer demo_cipher shared_token (world shared_db)) = Some ("Invalid", false) /\
  (match (ServiceVerify demo_signer demo_cipher 5 1 "/ev/101.pdf" (world shared_db)).1 with Ret v => vr_Valid v | _ => false end) = true.
Proof.
  assert (shared_page (sharePage demo_signer demo_cipher shared_token (world shared_db)) = Some ("Invalid", false)) as Hp
    by (vm_compute; reflexivity).
  split; [|vm_compute; reflexivity].
  destruct (sharePage demo_signer demo_cipher shared_token (world shared_db)) as [[[r|dr t v]|e|] w'] eqn:E; try discriminate Hp.
  assert (d_EvidencePath dr = Some "/ev/101.pdf") as Hpath.
  { apply (f_equal (fun r => match r.1 with Ret (Shared dr _ _) => d_EvidencePath dr | _ => None end)) in E. simpl in E.
    rewrite <- E. vm_compute. reflexivity. }
  destruct (share_page_misreports "/ev" demo_signer demo_cipher shared_token (world shared_db) dr t v w'
    ltac:(vm_compute; reflexivity) E ltac:(by rewrite Hpath)) as [Hv _].
  change (Some (evidenceLabel dr v, vr_Valid v) = Some ("Invalid", false)). injection Hp as Hl _. rewrite Hl, Hv. reflexivity.
Defined.

(** A key whose scopes leave out the two write scopes is listed as read-only,
    the scope that erases the account notwithstanding; five scopes of the six
    read as full access, whichever they are. *)
Lemma scope_summary_misleads k :
  (k_Scopes k = [ScopeAccountDelete] -> scopeSummary k = "Read-only" /\ HasScope k ScopeAccountDelete = true) /\
  (k_Scopes k = [ScopeDatabasesRead; ScopeDrillsRead; ScopeDrillsWrite; ScopeHeartbeatsRead; ScopeAccountDelete] ->
   scopeSummary k = "Full access" /\ HasScope k ScopeDatabasesWrite = false).
Proof. split; intros E; unfold scopeSummary, HasScope; rewrite E; by vm_compute. Qed.

(** The pricing page prints the caps the handlers enforce, and says unlimited
    of API keys and webhooks only where nothing is capped. *)
Lemma pricing_keeps_its_word plan n :
  "Unlimited API keys & webhooks" ∈ pricingFeatures plan (LimitsFor plan) ->
  AtLimit n (APIKeys (LimitsFor plan)) = false /\ AtLimit n (Plans.Webhooks (LimitsFor plan)) = false.
Proof.
  unfold pricingFeatures. repeat case_bool_decide; subst; intros Hin; [|by split..|by apply not_elem_of_nil in Hin].
  match type of Hin with ?P => assert (bool_decide P = false) as Hf by (vm_compute; reflexivity); apply bool_decide_eq_false in Hf end. done.
Qed.
