(* ===== verification/RouterFacts.v ===== *)
(** What the router guarantees whatever the handlers behind it do: no page
    request reaches a handler that changes an account's data without a live
    session, a role of the role table that permits it, and the CSRF token. *)
From S2P Require Import Prelude Crypto Effects Schema Encoding Net Path Time Http Plans Rbac AccountStore AccountFacts Assertions Steps Demo Billing AuthStore RateLimit Web.
From S2P Require Import Cipher Signer EvidenceStore Evidence Webhooks Heartbeat ApiKey MobileAuth Targets V1 Notify Members Login Oauth Admin Mobile Router AuthFacts TargetFacts EvidenceFacts LoginFacts.
From Stdlib Require Import Ascii.

(** ** The middlewares in continuation-passing style *)

(** What the session bookkeeping of a request leaves alone: everything but
    the sessions. *)
Definition but_sessions (db : DB) : DB := db{{ auth_db -> sessions := ∅ }}.

Section middlewares.
Context `{env : Env} `{uuids : UuidLib} {R : Type} (idleTimeout : Z).

Lemma bind_assoc {A B C} (m : GO A) (f : A -> GO B) (k : B -> GO C) w :
  ((m ≫= f) ≫= k) w = (m ≫= fun a => f a ≫= k) w.
Proof. unfold mbind, M_bind. by destruct (m w) as [[a|e|] w']. Qed.
Lemma bind_ext {A B} (m : GO A) (f g : A -> GO B) w :
  (forall a w, f a w = g a w) -> (m ≫= f) w = (m ≫= g) w.
Proof. intros H. unfold mbind, M_bind. destruct (m w) as [[a|e|] w']; auto. Qed.

Lemma LoadUser_bind cookie (next : ReqCtx -> GO ReqCtx) (next' : ReqCtx -> GO R) (k : ReqCtx -> GO R) ctx w :
  (forall c w, next' c w = (next c ≫= k) w) ->
  LoadUser idleTimeout cookie next' ctx w = (LoadUser idleTimeout cookie next ctx ≫= k) w.
Proof.
  intros Hn. unfold LoadUser. rewrite bind_assoc. apply bind_ext. intros [e|[u sess]] w1; [apply Hn|].
  destruct (se_MFAPending sess); [apply Hn|]. destruct (se_ImpersonatorID sess); [|apply Hn].
  rewrite bind_assoc. apply bind_ext. intros [e|staff] w2; apply Hn.
Qed.

Lemma LoadCurrentAccount_bind cookie (k : ReqCtx -> GO R) ctx w :
  LoadCurrentAccount cookie k ctx w = (LoadCurrentAccount cookie mret ctx ≫= k) w.
Proof.
  unfold LoadCurrentAccount. destruct (cx_user ctx) as [u|]; [|done].
  do 3 (rewrite bind_assoc; apply bind_ext; intros ? ?; cbv beta zeta).
  case_bool_decide; [done|].
  do 2 (rewrite bind_assoc; apply bind_ext; intros ? ?; cbv beta zeta).
  by repeat case_match.
Qed.

Lemma frame_LoadUser cookie next ctx :
  (forall c, frame but_sessions (next c)) -> frame but_sessions (LoadUser (R:=R) idleTimeout cookie next ctx).
Proof.
  intros Hn. unfold LoadUser. apply frame_bind.
  - apply frame_try. destruct cookie; unfold Lookup, loadUser; frame_steps. unfold slide. apply frame_exec.
    intros now n db db' x Heq. cbv zeta in Heq. destruct (head _); [|done]. injection Heq as <- _. by destruct db.
  - intros [e|[u sess]]; [auto|]. destruct (se_MFAPending sess); [auto|]. destruct (se_ImpersonatorID sess); [|auto].
    apply frame_bind; [unfold loadUser; frame_steps|]. intros [e|staff]; auto.
Qed.

Lemma frame_LoadCurrentAccount cookie ctx : frame but_sessions (LoadCurrentAccount cookie mret ctx).
Proof.
  unfold LoadCurrentAccount, CurrentAccountID, GetMembership, ListAccountsForUser, GetAccount.
  frame_steps; repeat (apply frame_bind || case_match || intros); frame_steps.
  all: unfold SetCurrentAccount; destruct cookie; frame_steps.
  all: frame_stmt.
Qed.
End middlewares.

(** ** The route table *)

(** The POST routes any signed-in user, or anyone at all, may use: they are
    about the caller's own session, or carry their own credential. *)
Definition self_service : list (list seg) :=
  [ [Lit "metrics"]; [Lit "webhooks"; Lit "postmark"; Param]; [Lit "webhooks"; Lit "stripe"]; [Lit "ping"; Param]; [Lit "ping"; Param; Param];
    [Lit "verify"]; [Lit "logout"]; [Lit "invitations"; Param; Lit "accept"]; [Lit "login"]; [Lit "signup"]; [Lit "login"; Lit "mfa"];
    [Lit "login"; Lit "magic"]; [Lit "impersonate"; Lit "stop"]; [Lit "account"; Lit "switch"]; [Lit "verify-email"; Lit "resend"];
    [Lit "account"; Lit "mfa"; Lit "enable"]; [Lit "account"; Lit "mfa"; Lit "disable"];
    [Lit "admin"; Lit "users"; Param; Lit "impersonate"]; [Lit "admin"; Lit "drills"; Param; Lit "replay"];
    [Lit "admin"; Lit "drills"; Param; Lit "regen-evidence"]; [Lit "admin"; Lit "accounts"; Param; Lit "refund"] ].
Definition matches (path : list (list ascii)) (pat : list seg) : bool := match match_pattern pat path with Some _ => true | None => false end.
(** A path of the account's pages: not of a mounted subtree, not exempt from
    the CSRF check, and not one of the above. *)
Definition account_page (path : string) : bool :=
  let segs := path_segments path in
  negb (existsb (matches segs) self_service) && negb (isExempt csrf_exempt path)
  && match segs with m :: _ => negb (bool_decide (unchars m ∈ ["v1"; "mobile"; "static"])) | [] => true end.

(** What the router and its guards answer in a handler's place: the sign-in
    redirect, 403, 404, 405, 429, and 402 where the trial is over. *)
Definition refusals : list Page :=
  [to_login; forbidden; not_found; PResponse (HTTPError 405); PResponse (HTTPError StatusTooManyRequests);
   PResponse (Render StatusPaymentRequired "TrialEnded")].

Ltac in_refusals := unfold refusals; repeat first [apply list_elem_of_here | apply list_elem_of_further].

#[global] Instance seg_eq_dec : EqDecision seg.
Proof. solve_decision. Defined.

Definition writing (g : Group) : bool := match g with Acting a _ => is_write a | _ => false end.

Section router.
Context `{env : Env} `{uuids : UuidLib} `{rand : Rand} `{json : JsonLib} `{api : ApiJson} `{mobile : MobileJson} `{argon : Argon2} `{host : Host}.
Context `{ed : Ed25519} `{store : EvidenceStore} `{keyfiles : KeyFiles} `{urls : UrlLib} `{lib : OauthLib} `{disp : Dispatcher} `{notif : Notifier}.
Context (h : Deps).

(** Every POST route is for a role that may write, or in the list above. *)
Lemma routes_classified :
  forallb (fun r => negb (method_ok r "POST") || writing (pt_Group r) || bool_decide (pt_Pattern r ∈ self_service)) (routes h) = true.
Proof. vm_compute. reflexivity. Qed.

Lemma find_route_some rs wrong method path r ps :
  find_route rs wrong method path = inr (r, ps) -> r ∈ rs /\ method_ok r method = true /\ match_pattern (pt_Pattern r) path = Some ps.
Proof.
  revert wrong. induction rs as [|r0 rs IH]; intros wrong; [done|]. simpl. destruct (match_pattern (pt_Pattern r0) path) eqn:Em.
  - destruct (method_ok r0 method) eqn:Ek; [intros [= -> ->]; split; [left|done]|].
    intros (Hr & H)%IH. split; [by right|done].
  - intros (Hr & H)%IH. split; [by right|done].
Qed.

Lemma account_page_route q r ps :
  pr_Method q = "POST" -> account_page (pr_Path q) = true ->
  find_route (routes h) false (pr_Method q) (path_segments (pr_Path q)) = inr (r, ps) ->
  exists a trial, pt_Group r = Acting a trial /\ is_write a = true.
Proof.
  intros -> Hp (Hr & Hk & Hm)%find_route_some.
  pose proof routes_classified as Hc. rewrite forallb_forall in Hc. specialize (Hc r (proj1 (list_elem_of_In _ _) Hr)).
  rewrite Hk in Hc. simpl in Hc. apply orb_true_iff in Hc as [Hw|Hs%bool_decide_eq_true].
  - destruct (pt_Group r); try done. eauto.
  - exfalso. unfold account_page in Hp. rewrite !andb_true_iff, !negb_true_iff in Hp. destruct Hp as [[Hself _] _].
    rewrite <- not_true_iff_false, existsb_exists in Hself. apply Hself.
    exists (pt_Pattern r). split; [by apply list_elem_of_In|]. unfold matches. by rewrite Hm.
Qed.

(** ** The guards *)

Hypothesis limiter_quiet : forall key w, w_db (dp_appAllow h key w).2 = w_db w.

(** What a role's page demands of the context. *)
Definition permitted (a : Action) (trial : bool) (ctx : ReqCtx) : Prop :=
  exists u acc m, cx_user ctx = Some u /\ cx_account ctx = Some acc /\ cx_membership ctx = Some m /\ Rbac.Allowed (m_Role m) a = true /\
    (trial = true -> exists n, TrialLapsed (env_now n) acc = false).
(** A run that changed nothing and answered one of the refusals, if it did. *)
Definition refused (w : World DB) (run : outcome Page * World DB) : Prop :=
  w_db run.2 = w_db w /\ forall p, run.1 = Ret p -> p ∈ refusals.

Lemma refused_ret p w : p ∈ refusals -> refused w (Ret p, w).
Proof. intros Hp. split; [done|]. by intros p' [= <-]. Qed.

Lemma guard_acting a trial q next ctx w :
  refused w (guard h (Acting a trial) q next ctx w) \/ permitted a trial ctx.
Proof.
  unfold guard, in_account, RequireUser, RequireAccount.
  destruct (cx_user ctx) as [u|] eqn:Eu; [|left; apply refused_ret; left].
  destruct (cx_account ctx) as [acc|] eqn:Ea; [|left; apply refused_ret; right; left].
  unfold rate_limited. pose proof (limiter_quiet (accountKey q ctx) w) as Hq.
  unfold mbind, M_bind. destruct (dp_appAllow h (accountKey q ctx) w) as [[[]|e|] w1]; simpl in Hq.
  2: left; split; [done|]; intros p [= <-]; in_refusals.
  2, 3: by left; split.
  unfold RequireAction, Authorize. destruct (cx_membership ctx) as [m|] eqn:Em.
  2: left; split; [done|]; intros p [= <-]; in_refusals.
  destruct (Rbac.Allowed (m_Role m) a) eqn:El; [|left; split; [done|]; intros p [= <-]; in_refusals].
  destruct trial; [|right; exists u, acc, m; by rewrite Eu, Ea, Em].
  unfold requireUnlapsedTrial. rewrite Ea. unfold mbind, M_bind, time_Now. cbv iota beta.
  destruct (TrialLapsed (env_now (w_tick w1)) acc) eqn:Et.
  - left. split; [done|]. intros p [= <-]. in_refusals.
  - right. exists u, acc, m. rewrite Eu, Ea, Em. eauto 10.
Qed.

Lemma route_account_page q ctx w :
  pr_Method q = "POST" -> account_page (pr_Path q) = true ->
  refused w (route h q ctx w) \/
  exists r ps a trial, find_route (routes h) false (pr_Method q) (path_segments (pr_Path q)) = inr (r, ps) /\
    pt_Group r = Acting a trial /\ is_write a = true /\ permitted a trial ctx.
Proof.
  intros Hpost Hp. unfold route. pose proof Hp as Hmount. unfold account_page in Hmount. rewrite andb_true_iff in Hmount.
  destruct Hmount as [_ Hmount]. destruct (path_segments (pr_Path q)) as [|m rest] eqn:Es.
  { left. apply refused_ret. in_refusals. }
  apply negb_true_iff, bool_decide_eq_false in Hmount.
  rewrite !bool_decide_eq_false_2 by (intros E; apply Hmount; rewrite E; set_solver). cbn [andb].
  destruct (find_route _ _ _ _) as [wrong|[r ps]] eqn:Ef.
  { left. destruct wrong; apply refused_ret; in_refusals. }
  rewrite <- Es in Ef. pose proof Ef as Ef'. apply account_page_route in Ef as (a & trial & Hg & Ha); [|done..].
  rewrite Hg. destruct (guard_acting a trial q (pt_Handler r q ps) ctx w) as [H|H]; [by left|right].
  exists r, ps, a, trial. by rewrite <- ?Es.
Qed.

(** The table's entry a request was let through to, for the session's user
    and the account the request acts for. *)
Definition let_through (w : World DB) (q : PageReq) : Prop :=
  exists u row id r m pt ps a trial t,
    vouched (dp_idleTimeout h) (w_db w) (env_now (w_tick w)) (pr_session q) u row /\
    accounts (account_db (w_db w)) !! id = Some r /\ live_account r = true /\
    memberships (account_db (w_db w)) !! (id, au_ID u) = Some m /\
    find_route (routes h) false (pr_Method q) (path_segments (pr_Path q)) = inr (pt, ps) /\ pt_Group pt = Acting a trial /\
    Rbac.Allowed (m_Role m) a = true /\ is_write a = true /\
    (trial = true -> exists n, TrialLapsed (env_now n) (acr_account r) = false) /\
    pr_csrf q = Some t /\ t <> "" /\ pr_form q FieldName = t.

(** C2: access to the account's pages.  Whatever fails on the way, a POST to
    a page of the account - any that is not about the caller's own session -
    either changes nothing in the database beyond the session rows and is
    answered, if at all, by one of the router's refusals, or: its cookie
    names a live session past its second factor, of a user who is a member of
    a live account in a role the role table lets perform a writing action,
    the one the table lists in front of the page's handler; the account's
    trial is not over, where the page asks for that; and the submitted token
    is the one of the CSRF cookie. *)
Theorem account_pages_guarded q w o w' :
  pr_Method q = "POST" -> account_page (pr_Path q) = true -> Router h q w = (o, w') ->
  (but_sessions (w_db w') = but_sessions (w_db w) /\ forall p, o = Ret p -> p.1 ∈ refusals) \/ let_through w q.
Proof.
  intros Hpost Hp HR. unfold Router in HR.
  set (k := fun ctx => csrf_Middleware csrf_exempt (pr_csrf q) (pr_Method q) (pr_Path q) (pr_form q FieldName) forbidden (route h q ctx)) in HR.
  rewrite (LoadUser_bind (dp_idleTimeout h) (pr_session q) (LoadCurrentAccount (pr_session q) mret)
    (LoadCurrentAccount (pr_session q) k) k background w (LoadCurrentAccount_bind (pr_session q) k)) in HR.
  pose proof (frame_LoadUser (dp_idleTimeout h) (pr_session q) (LoadCurrentAccount (pr_session q) mret) background
    (frame_LoadCurrentAccount _) w) as Hf.
  unfold mbind, M_bind at 1 in HR. destruct (LoadUser _ _ _ _ w) as [[ctx|e|] w1] eqn:E.
  2, 3: left; injection HR as <- <-; by split.
  subst k. cbv beta in HR.
  apply request_context_ret in E as [Hu Ha]. simpl in Hf.
  assert (isExempt csrf_exempt (pr_Path q) = false) as Hex.
  { unfold account_page in Hp. rewrite !andb_true_iff, !negb_true_iff in Hp. tauto. }
  destruct (csrf_gate csrf_exempt (pr_csrf q) (pr_Method q) (pr_Path q) (pr_form q FieldName) forbidden (route h q ctx))
    as [(t & Hc & Hne & Hsub)|Hno]; [by rewrite Hpost|done| |].
  2: { left. specialize (Hno w1). rewrite HR in Hno. destruct Hno as [Hdb Hans]. simpl in Hdb. rewrite Hdb. split; [done|].
       intros p ->. rewrite (Hans p eq_refl). in_refusals. }
  unfold csrf_Middleware in HR. rewrite Hex, Hpost, Hc, Hsub in HR. cbn [default] in HR.
  rewrite (bool_decide_eq_false_2 (t = "")) in HR by done. unfold mbind, M_bind, mret, M_ret in HR.
  rewrite (bool_decide_eq_false_2 (t = "")), (bool_decide_eq_true_2 (t = t)) in HR by done. cbn [isUnsafe andb negb orb] in HR.
  change (isUnsafe "POST") with true in HR. cbn [andb negb orb] in HR.
  destruct (route_account_page q ctx w1 Hpost Hp) as [[Hdb Hans]|(pt & ps & a & trial & Hm & Hg & Hw & (u & acc & m & E1 & E2 & E3 & Hal & Ht))].
  - left. destruct (route h q ctx w1) as [[p|e|] w2]; injection HR as <- <-; simpl in Hdb; rewrite Hdb; (split; [done|]); [|done..].
    intros p' [= <-]. by apply Hans.
  - right. destruct (Hu _ E1) as (row & Hv). destruct (Ha _ E2) as (u' & id & r & m' & E1' & E3' & Hr & Hl & Hac & Hmem). simplify_eq.
    exists u, row, id, r, m, pt, ps, a, trial, (pr_form q FieldName). by repeat split.
Qed.
End router.

(** ** A concrete server *)

#[local] Existing Instance demo_env.
#[local] Existing Instance demo_host.
#[local] Instance demo_dir : EvidenceStore := LocalStore "/ev".
#[local] Instance no_keyfiles : KeyFiles := {|
  pem_Decode _ := None; pem_Encode _ := inr ""; ParsePKCS8PrivateKey _ := inr None; ParsePKIXPublicKey _ := inr None;
  MarshalPKIXPublicKey s := inr s
|}.
#[local] Instance no_urls : UrlLib := {| url_Parse _ := inl (ErrNew "parse") |}.
#[local] Instance no_dispatcher : Dispatcher := {| d_Dispatch := None |}.
#[local] Instance no_notifier : Notifier := {| n_Notify := None |}.
#[local] Instance no_api : ApiJson := {|
  json_Encode _ := inr ""; json_jsonb _ := ANil; decode_createDatabaseReq _ := None; decode_createDrillReq _ := None;
  cursor_Marshal _ := inr ""; cursor_Unmarshal _ := inl (ErrNew "")
|}.
#[local] Instance no_phone : MobileJson := {|
  decode_mobileLoginReq _ := None; decode_mobileMFAVerifyReq _ := None; decode_mobileDeviceReq _ := None
|}.
Definition open_limiter (_ : string) : GO bool := mret true.
Definition demo_deps : Deps := {|
  dp_idleTimeout := idle; dp_absoluteMaxAge := idle; dp_throttle := demo_throttle; dp_signer := demo_signer; dp_cipher := demo_cipher;
  dp_retention := DefaultRetention; dp_grace := 0; dp_billing := noopService; dp_staff_billing := noop_staff; dp_Send _ := mret tt;
  dp_analytics := false; dp_flags_Enabled _ _ := mret true; dp_staffEmails := ∅; dp_oauth := ∅; dp_sourceDir := "/srv/backups";
  dp_sampleDump := ""; dp_baseURL := "https://dokaz.example"; dp_postmarkToken := ""; dp_metricsToken := "";
  dp_authAllow := open_limiter; dp_appAllow := open_limiter; dp_v1Allow := open_limiter; dp_pingAllow := open_limiter;
  dp_magicAllow := open_limiter; dp_openAPIDoc := "{}"; dp_absoluteURL := id; dp_QueryEscape := id;
  dp_render _ _ _ _ _ _ := inr "%PDF"; dp_stripe_unmarshal _ := inl (ErrNew "eof"); dp_postmark_decode _ := None;
  dp_jsonb _ := ANil; dp_EncodeIndent _ := ""; dp_format_avg _ := ""; dp_MarshalIndent _ := ""; dp_wrapped _ := None;
  dp_bare _ := inl (ErrNew "eof")
|}.
Definition post_request (path token : string) : PageReq := {|
  pr_Method := "POST"; pr_Path := path; pr_session := Some "c1"; pr_csrf := Some "t"; pr_flow := mkFlow None None None;
  pr_form k := if bool_decide (k = FieldName) then token else ""; pr_form_values _ := []; pr_query _ := ""; pr_upload := None;
  pr_Authorization := ""; pr_IdempotencyKey := ""; pr_StripeSignature := ""; pr_Body := inr ""; pr_IP := "10.0.0.9"; pr_UserAgent := "curl"
|}.

(** The owner's form is answered by its handler only with the token. *)
Lemma account_pages_guarded_witness :
  exists o w', Router demo_deps (post_request "/heartbeats" "t") (world session_db) = (o, w') /\
  ((but_sessions (w_db w') = but_sessions session_db /\ forall p, o = Ret p -> p.1 ∈ refusals)
   \/ let_through demo_deps (world session_db) (post_request "/heartbeats" "t")).
Proof.
  destruct (Router demo_deps (post_request "/heartbeats" "t") (world session_db)) as [o w'] eqn:E. exists o, w'. split; [done|].
  apply (account_pages_guarded demo_deps (fun key w => eq_refl) (post_request "/heartbeats" "t") (world session_db) o w' eq_refl eq_refl E).
Defined.
Example wrong_token_refused :
  (Router demo_deps (post_request "/heartbeats" "x") (world session_db)).1 = Ret (forbidden, None) /\
  (Router demo_deps (post_request "/heartbeats" "t") (world session_db)).1 <> Ret (forbidden, None).
Proof. split; [vm_compute; reflexivity|vm_compute; discriminate]. Qed.
