(* ===== verification/ComplianceFacts.v ===== *)
(** Properties of account deletion, retention and export: an erasure is
    complete and confined to its account, refuses live accounts, resumes after
    a failure, and is blocked by any heartbeat row; a sweep removes what has
    outlived its window and nothing else; an export shows one account only. *)
From S2P Require Import Prelude Crypto Effects Schema Encoding Time Http AuditLog DrillStore AccountStore AuthStore Web Cipher Signer EvidenceStore Evidence Heartbeat Compliance TeamFacts Demo.

(** ** What the database holds for an account *)

Section own.
Context {K : Type} `{Countable K} {R : Type}.
Implicit Types (m : gmap K R).

Definition own (P : K -> R -> bool) m : gmap K R := filter (fun kr => P kr.1 kr.2 = true) m.

Lemma own_delete P p m : (forall k r, m !! k = Some r -> P k r = true -> p r = false) -> own P (sql_delete p m) = own P m.
Proof.
  intros Hp. apply map_eq. intros k. apply option_eq. intros r. unfold own.
  rewrite !map_lookup_filter_Some, lookup_sql_delete_Some. simpl. naive_solver.
Qed.
Lemma own_delete_all P p m : (forall k r, m !! k = Some r -> P k r = true -> p r = true) -> own P (sql_delete p m) = ∅.
Proof.
  intros Hp. apply map_empty. intros k. apply eq_None_not_Some. intros [r Hr]. unfold own in Hr.
  rewrite map_lookup_filter_Some, lookup_sql_delete_Some in Hr. simpl in Hr.
  destruct Hr as [[Hr Hf] HP]. rewrite (Hp _ _ Hr HP) in Hf. done.
Qed.
Lemma own_filter P (Q : K * R -> Prop) `{!forall x, Decision (Q x)} m :
  (forall k r, m !! k = Some r -> P k r = true -> Q (k, r)) -> own P (filter Q m) = own P m.
Proof.
  intros Hp. apply map_eq. intros k. apply option_eq. intros r. unfold own.
  rewrite !map_lookup_filter_Some. simpl. naive_solver.
Qed.
Lemma own_filter_all P (Q : K * R -> Prop) `{!forall x, Decision (Q x)} m :
  (forall k r, m !! k = Some r -> P k r = true -> ~ Q (k, r)) -> own P (filter Q m) = ∅.
Proof.
  intros Hp. apply map_empty. intros k. apply eq_None_not_Some. intros [r Hr]. unfold own in Hr.
  rewrite !map_lookup_filter_Some in Hr. simpl in Hr. naive_solver.
Qed.
Lemma own_fmap P (f : R -> R) m :
  (forall k r, P k (f r) = P k r) -> (forall k r, m !! k = Some r -> P k r = true -> f r = r) -> own P (f <$> m) = own P m.
Proof.
  intros HP Hf. apply map_eq. intros k. apply option_eq. intros r. unfold own.
  rewrite !map_lookup_filter_Some, lookup_fmap, fmap_Some. simpl. split.
  - intros [(r0 & Hr0 & ->) Ht]. rewrite HP in Ht. by rewrite (Hf _ _ Hr0 Ht).
  - intros [Hr Ht]. split; [|done]. exists r. by rewrite (Hf _ _ Hr Ht).
Qed.
Lemma own_ext P Q m : (forall k r, m !! k = Some r -> P k r = Q k r) -> own P m = own Q m.
Proof.
  intros HP. apply map_eq. intros k. apply option_eq. intros r. unfold own.
  rewrite !map_lookup_filter_Some. simpl. split; intros [Hr Ht]; [rewrite <- (HP _ _ Hr)|rewrite (HP _ _ Hr)]; done.
Qed.
Lemma own_none P m : (forall k r, m !! k = Some r -> P k r = false) -> own P m = ∅.
Proof.
  intros HP. apply map_empty. intros k. apply eq_None_not_Some. intros [r Hr]. unfold own in Hr.
  rewrite map_lookup_filter_Some in Hr. simpl in Hr. destruct Hr as [Hr Ht]. by rewrite (HP _ _ Hr) in Ht.
Qed.
End own.

(** Every row that belongs to one account, directly or through the row it
    hangs from; the sessions that have it current, the audit events that name it. *)
Record AccountRows : Type := mkAccountRows {
  ro_account : option AccountRow; ro_members : gmap (uuid * uuid) Membership; ro_invitations : gmap uuid Invitation;
  ro_teams : gmap uuid TeamRow; ro_team_members : gset (uuid * uuid);
  ro_targets : gmap uuid TargetRow; ro_assertions : gmap uuid Assertion; ro_drills : gmap uuid Drill;
  ro_steps : gmap (uuid * StepName) Step; ro_results : gmap uuid AssertionResult;
  ro_idempotency : gmap (uuid * string * string) IdemRow;
  ro_heartbeats : gmap uuid HeartbeatRow; ro_pings : gmap uuid Ping;
  ro_endpoints : gmap uuid EndpointRow; ro_deliveries : gmap uuid DeliveryRow; ro_channels : option Channels;
  ro_devices : gmap uuid Device;
  ro_api_keys : gmap uuid KeyRow; ro_mobile_tokens : gmap uuid MobileTokenRow; ro_challenges : gmap uuid Challenge;
  ro_links : gmap uuid LinkRow; ro_stored : gmap (uuid * string) StoredResponse;
  ro_evidence_key : option string; ro_signatures : gmap uuid SignatureRecord;
  ro_sessions : gmap uuid SessionRow; ro_audit : list AuditEvent
}.

Definition heartbeat_of (a : uuid) (db : DB) (id : uuid) : bool :=
  match heartbeats (monitor_db db) !! id with Some r => bool_decide (h_AccountID (hr_heartbeat r) = a) | None => false end.

Definition rows_of (a : uuid) (db : DB) : AccountRows := mkAccountRows
  (accounts (account_db db) !! a)
  (own (fun _ m => bool_decide (m_AccountID m = a)) (memberships (account_db db)))
  (own (fun _ i => bool_decide (i_AccountID i = a)) (invitations (account_db db)))
  (own (fun _ r => bool_decide (tm_AccountID (tmr_team r) = a)) (teams (account_db db)))
  (filter (fun tu => team_gone a db tu.1 = true) (team_memberships (account_db db)))
  (own (fun _ r => bool_decide (t_AccountID (tr_target r) = a)) (targets (drill_db db)))
  (own (fun _ r => target_gone a db (as_TargetID r)) (target_assertions (drill_db db)))
  (own (fun _ d => bool_decide (d_AccountID d = a)) (drills (drill_db db)))
  (own (fun _ s => own_drill a db (s_DrillID s)) (drill_steps (drill_db db)))
  (own (fun _ r => own_drill a db (ar_DrillID r)) (assertion_results (drill_db db)))
  (own (fun k _ => bool_decide (k.1.1 = a)) (idempotency_keys (drill_db db)))
  (own (fun _ r => bool_decide (h_AccountID (hr_heartbeat r) = a)) (heartbeats (monitor_db db)))
  (own (fun _ p => heartbeat_of a db (p_heartbeat_id p)) (heartbeat_pings (monitor_db db)))
  (own (fun _ r => bool_decide (e_Account (er_endpoint r) = a)) (webhook_endpoints (hook_db db)))
  (own (fun _ r => bool_decide (dl_AccountID (dr_delivery r) = a)) (webhook_deliveries (hook_db db)))
  (account_alert_channels (hook_db db) !! a)
  (own (fun _ d => bool_decide (dv_AccountID d = a)) (user_fcm_tokens (hook_db db)))
  (own (fun _ r => bool_decide (k_AccountID (kr_key r) = a)) (api_keys (key_db db)))
  (own (fun _ r => bool_decide (mt_AccountID (mtr_token r) = a)) (mobile_auth_tokens (key_db db)))
  (own (fun _ c => bool_decide (ch_AccountID c = a)) (mobile_mfa_challenges (key_db db)))
  (own (fun _ r => bool_decide (l_AccountID (lr_link r) = a)) (drill_share_links (key_db db)))
  (own (fun k _ => bool_decide (k.1 = a)) (api_idempotency (key_db db)))
  (account_evidence_keys (evidence_db db) !! a)
  (own (fun k _ => own_drill a db k) (evidence_signatures (evidence_db db)))
  (own (fun _ s => bool_decide (ser_current_account_id s = Some a)) (sessions (auth_db db)))
  (filter (fun e => ev_AccountID e = Some a) (audit_events db)).

Definition no_rows : AccountRows :=
  mkAccountRows None ∅ ∅ ∅ ∅ ∅ ∅ ∅ ∅ ∅ ∅ ∅ ∅ ∅ ∅ None ∅ ∅ ∅ ∅ ∅ ∅ None ∅ ∅ [].

(** The references between rows stay inside one account. *)
Record refs_inside (db : DB) : Prop := {
  ri_drill : forall id d, drills (drill_db db) !! id = Some d ->
    exists t, targets (drill_db db) !! d_TargetID d = Some t /\ t_AccountID (tr_target t) = d_AccountID d;
  ri_delivery : forall id r, webhook_deliveries (hook_db db) !! id = Some r ->
    exists e, webhook_endpoints (hook_db db) !! dl_EndpointID (dr_delivery r) = Some e /\
              e_Account (er_endpoint e) = dl_AccountID (dr_delivery r);
  ri_link : forall id r, drill_share_links (key_db db) !! id = Some r ->
    exists d, drills (drill_db db) !! l_DrillID (lr_link r) = Some d /\ d_AccountID d = l_AccountID (lr_link r);
  ri_team : forall id r tm, targets (drill_db db) !! id = Some r -> t_TeamID (tr_target r) = Some tm ->
    exists t, teams (account_db db) !! tm = Some t /\ tm_AccountID (tmr_team t) = t_AccountID (tr_target r)
}.

(** ** The cascade *)

Section cascade_facts.
Context (a : uuid) (db : DB) (Href : refs_inside db).

Lemma cascade_target_gone b id : target_gone b (cascade a db) id = negb (bool_decide (b = a)) && target_gone b db id.
Proof.
  unfold target_gone. change (targets (drill_db (cascade a db))) with
    ((fun r => r{{ tr_target -> t_TeamID ::= unless (team_gone a db) }})
       <$> sql_delete (fun r => bool_decide (t_AccountID (tr_target r) = a)) (targets (drill_db db))).
  rewrite lookup_fmap. unfold sql_delete. rewrite map_lookup_filter.
  destruct (targets (drill_db db) !! id) as [r|]; simpl; [|by rewrite andb_false_r].
  case_guard; simpl; repeat case_bool_decide; simplify_eq/=; congruence.
Qed.

Lemma drill_gone_own id : drill_gone a db id = own_drill a db id.
Proof.
  unfold drill_gone, own_drill, target_gone. destruct (drills (drill_db db) !! id) as [d|] eqn:E; [|done].
  destruct (ri_drill db Href _ _ E) as (t & -> & ->). apply orb_diag.
Qed.

Lemma cascade_own_drill b id : own_drill b (cascade a db) id = negb (bool_decide (b = a)) && own_drill b db id.
Proof.
  unfold own_drill. change (drills (drill_db (cascade a db))) with
    (sql_delete (fun d => bool_decide (d_AccountID d = a) || target_gone a db (d_TargetID d)) (drills (drill_db db))).
  unfold sql_delete. rewrite map_lookup_filter.
  destruct (drills (drill_db db) !! id) as [d|] eqn:E; simpl; [|by rewrite andb_false_r].
  pose proof (drill_gone_own id) as Hg. unfold drill_gone, own_drill in Hg. rewrite E in Hg.
  case_guard; simpl; [|]; revert Hg; repeat case_bool_decide; simplify_eq/=; try congruence; try done.
Qed.

Lemma cascade_team_gone b id : team_gone b (cascade a db) id = negb (bool_decide (b = a)) && team_gone b db id.
Proof.
  unfold team_gone. change (teams (account_db (cascade a db))) with
    (sql_delete (fun r => bool_decide (tm_AccountID (tmr_team r) = a)) (teams (account_db db))).
  unfold sql_delete. rewrite map_lookup_filter.
  destruct (teams (account_db db) !! id) as [r|]; simpl; [|by rewrite andb_false_r].
  case_guard; simpl; repeat case_bool_decide; simplify_eq/=; congruence.
Qed.

Lemma two_accounts (x b : uuid) : b <> a -> bool_decide (x = b) = true -> bool_decide (x = a) = false.
Proof. intros Hb ->%bool_decide_eq_true. by apply bool_decide_eq_false. Qed.

(** Nothing of the account is left once its last heartbeat is gone. *)
Lemma cascade_erases : heartbeats_left a db = false -> rows_of a (cascade a db) = no_rows.
Proof.
  intros Hhb. unfold heartbeats_left in Hhb. rewrite sql_exists_false in Hhb. unfold rows_of, no_rows. f_equal.
  all: try (apply own_delete_all; done).
  - apply lookup_delete_eq.
  - apply set_eq. intros [tm u]. rewrite elem_of_filter, cascade_team_gone. rewrite bool_decide_true by done. set_solver.
  - apply own_none. intros k r Hr. apply bool_decide_eq_false. intros Ha.
    change (targets (drill_db (cascade a db))) with ((fun r => r{{ tr_target -> t_TeamID ::= unless (team_gone a db) }})
       <$> sql_delete (fun r => bool_decide (t_AccountID (tr_target r) = a)) (targets (drill_db db))) in Hr.
    apply lookup_fmap_Some in Hr as (r0 & <- & [_ Hf]%lookup_sql_delete_Some). simpl in Ha. by rewrite bool_decide_true in Hf.
  - apply own_none. intros k r _. rewrite cascade_target_gone. by rewrite bool_decide_true.
  - apply own_delete_all. intros k d _ ->. done.
  - apply own_none. intros k r _. rewrite cascade_own_drill. by rewrite bool_decide_true.
  - apply own_none. intros k r _. rewrite cascade_own_drill. by rewrite bool_decide_true.
  - apply own_filter_all. intros k r _ Hk%bool_decide_eq_true. tauto.
  - apply own_none. intros k r Hr. by apply Hhb in Hr.
  - apply own_none. intros k r _. unfold heartbeat_of. change (monitor_db (cascade a db)) with (monitor_db db).
    destruct (heartbeats _ !! _) as [h|] eqn:E; [|done]. by eapply Hhb.
  - apply own_delete_all. intros k r _ ->. done.
  - apply lookup_delete_eq.
  - apply own_delete_all. intros k r _ ->. done.
  - apply own_filter_all. intros k r _ Hk%bool_decide_eq_true. tauto.
  - apply lookup_delete_eq.
  - apply own_none. intros k r _. rewrite cascade_own_drill. by rewrite bool_decide_true.
  - apply own_none. intros k r Hr. apply bool_decide_eq_false. intros Ha.
    change (sessions (auth_db (cascade a db))) with
      ((fun s => s{{ ser_current_account_id ::= unless (fun id => bool_decide (id = a)) }}) <$> sessions (auth_db db)) in Hr.
    apply lookup_fmap_Some in Hr as (r0 & <- & _). simpl in Ha. unfold unless in Ha. repeat case_match; simplify_eq.
    by rewrite bool_decide_true in *.
  - change (audit_events (cascade a db)) with
      (map (fun e => e{{ ev_AccountID ::= unless (fun id => bool_decide (id = a)) }}) (audit_events db)).
    induction (audit_events db) as [|e l IH]; [done|]. simpl. rewrite filter_cons_False; [done|]. simpl.
    destruct e as [? ? [c|] ? ? ? ? ? ? ?]; simpl; [|done]. case_bool_decide; [done|congruence].
Qed.

(** And no other account loses a row. *)
Lemma cascade_confined b : b <> a -> rows_of b (cascade a db) = rows_of b db.
Proof.
  intros Hb. unfold rows_of. f_equal.
  all: try (apply own_delete; intros k r _; apply two_accounts; done).
  - by apply lookup_delete_ne.
  - apply set_eq. intros [tm u]. rewrite !elem_of_filter, cascade_team_gone, bool_decide_false by done. simpl.
    change (team_memberships (account_db (cascade a db))) with (filter (fun tu => team_gone a db tu.1 = false) (team_memberships (account_db db))).
    rewrite elem_of_filter. simpl. unfold team_gone. destruct (teams _ !! tm) as [t|]; [|naive_solver].
    rewrite bool_decide_eq_true, bool_decide_eq_false. naive_solver.
  - change (targets (drill_db (cascade a db))) with ((fun r => r{{ tr_target -> t_TeamID ::= unless (team_gone a db) }})
       <$> sql_delete (fun r => bool_decide (t_AccountID (tr_target r) = a)) (targets (drill_db db))).
    rewrite own_fmap; [apply own_delete; intros k r _; by apply two_accounts|done|].
    intros k r Hr%lookup_sql_delete_Some Ho%bool_decide_eq_true. destruct Hr as [Hr _].
    destruct r as [t del]; simpl in *. f_equal. destruct t; simpl in *. f_equal.
    destruct t_TeamID as [tm|]; [|done]. simpl. destruct (ri_team db Href _ _ tm Hr eq_refl) as (tr & Htr & Hta).
    unfold team_gone. rewrite Htr, Hta. simpl. by rewrite bool_decide_false by congruence.
  - etransitivity; [apply (own_ext _ (fun _ r => target_gone b db (as_TargetID r)))|].
    + intros k r _. by rewrite cascade_target_gone, bool_decide_false.
    + apply own_delete. intros k r _. unfold target_gone. case_match; [|done]. by apply two_accounts.
  - apply own_delete. intros k d Hd Ho. pose proof (drill_gone_own k) as Hg. unfold drill_gone, own_drill in Hg. rewrite Hd in Hg.
    rewrite Hg. by apply two_accounts with b.
  - etransitivity; [apply (own_ext _ (fun _ s => own_drill b db (s_DrillID s)))|].
    + intros k r _. by rewrite cascade_own_drill, bool_decide_false.
    + apply own_delete. intros k r _. rewrite drill_gone_own. unfold own_drill. case_match; [|done]. by apply two_accounts.
  - etransitivity; [apply (own_ext _ (fun _ s => own_drill b db (ar_DrillID s)))|].
    + intros k r _. by rewrite cascade_own_drill, bool_decide_false.
    + apply own_delete. intros k r _. rewrite drill_gone_own. unfold own_drill. case_match; [|done]. by apply two_accounts.
  - apply own_filter. intros k r _ Hk%bool_decide_eq_true. simpl. congruence.
  - apply own_delete. intros k r Hr Ho. rewrite (two_accounts _ b) by done. unfold endpoint_gone.
    destruct (ri_delivery db Href _ _ Hr) as (e & -> & ->). by apply two_accounts with b.
  - by apply lookup_delete_ne.
  - apply own_delete. intros k r Hr Ho. rewrite (two_accounts _ b) by done. rewrite drill_gone_own. unfold own_drill.
    destruct (ri_link db Href _ _ Hr) as (e & -> & ->). by apply two_accounts with b.
  - apply own_filter. intros k r _ Hk%bool_decide_eq_true. simpl. congruence.
  - by apply lookup_delete_ne.
  - etransitivity; [apply (own_ext _ (fun k _ => own_drill b db k))|].
    + intros k r _. by rewrite cascade_own_drill, bool_decide_false.
    + apply own_filter. intros k r _. simpl. rewrite drill_gone_own. unfold own_drill. case_match; [|done]. by apply two_accounts.
  - apply own_fmap.
    + intros k r. apply bool_decide_ext. destruct r as [? ? ? [c|]]; simpl; [|done]. case_bool_decide; [|done]. naive_solver.
    + intros k r _ Ho%bool_decide_eq_true. destruct r; simpl in *. f_equal. subst. simpl. by rewrite bool_decide_false.
  - change (audit_events (cascade a db)) with
      (map (fun e => e{{ ev_AccountID ::= unless (fun id => bool_decide (id = a)) }}) (audit_events db)).
    induction (audit_events db) as [|e l IH]; [done|]. simpl. rewrite !filter_cons. simpl.
    assert (ev_AccountID e = Some b -> unless (fun id => bool_decide (id = a)) (ev_AccountID e) = Some b) as H1
      by (intros ->; simpl; by rewrite bool_decide_false).
    assert (unless (fun id => bool_decide (id = a)) (ev_AccountID e) = Some b -> ev_AccountID e = Some b) as H2
      by (unfold unless; repeat case_match; naive_solver).
    destruct (decide (ev_AccountID e = Some b)) as [Ho|Ho]; [rewrite decide_True by auto|rewrite decide_False by auto; exact IH].
    f_equal; [|exact IH]. destruct e; simpl in *. f_equal. by rewrite (H1 Ho), Ho.
Qed.
End cascade_facts.

(** ** Hard deletion *)

(** Everything but the evidence files. *)
Definition sans_files (db : DB) : DB := db{{ evidence_db -> evidence_files := ∅ }}.
Lemma sans_rows b db : rows_of b (sans_files db) = rows_of b db.
Proof. done. Qed.
Lemma sans_refs db : refs_inside (sans_files db) <-> refs_inside db.
Proof. split; intros []; by constructor. Qed.
Definition shred_key (a : uuid) (db : DB) : DB := db{{ evidence_db -> account_evidence_keys ::= delete a }}.
Lemma shred_refs a db : refs_inside (shred_key a db) <-> refs_inside db.
Proof. split; intros []; by constructor. Qed.
Lemma shred_rows a b db : b <> a -> rows_of b (shred_key a db) = rows_of b db.
Proof. intros Hb. unfold rows_of. f_equal. by apply lookup_delete_ne. Qed.

Section purge.
Context `{env : Env} `{uuids : UuidLib} `{store : EvidenceStore} `{store_ok : !EvidenceStoreOk store}.
Implicit Types (a b : uuid).

Lemma frame_sans {B} (proj : DB -> B) key :
  (forall db, proj (sans_files db) = proj db) -> frame proj (DeleteKey key).
Proof. intros Hp. apply Delete_frame. intros f db. by rewrite <- Hp, <- (Hp db). Qed.

Definition shred_paths (paths : list string) : GO unit :=
  for_each paths (fun path => wrap_err ("shred evidence " +:+ path) (DeleteKey path)).

Lemma frame_shred_paths {B} (proj : DB -> B) paths :
  (forall db, proj (sans_files db) = proj db) -> frame proj (shred_paths paths).
Proof.
  intros Hp. apply frame_for_each. intros path. unfold wrap_err.
  apply frame_bind; [by apply frame_try, frame_sans|intros []; [apply frame_fail|apply frame_ret]].
Qed.

Lemma shred_paths_others paths w key :
  key ∉ paths -> st_view (w_db (shred_paths paths w).2) key = st_view (w_db w) key.
Proof.
  unfold shred_paths. revert w. induction paths as [|p l IH]; intros w Hk; [done|].
  apply not_elem_of_cons in Hk as [Hp Hl]. simpl. unfold mbind, M_bind.
  assert (st_view (w_db (wrap_err ("shred evidence " +:+ p) (DeleteKey p) w).2) key = st_view (w_db w) key) as H1.
  { unfold wrap_err, mbind, M_bind, try, DeleteKey. pose proof (Delete_others p w key Hp) as Hd.
    by destruct (st_Delete p w) as [[[]|e|] w1]. }
  destruct (wrap_err _ _ w) as [[[]|e|] w1]; simpl in *; [|done..]. by rewrite IH, H1.
Qed.

Lemma shred_paths_ret paths w w' key :
  shred_paths paths w = (Ret tt, w') -> key ∈ paths -> st_view (w_db w') key = None.
Proof.
  unfold shred_paths. revert w. induction paths as [|p l IH]; intros w H Hk; [by apply not_elem_of_nil in Hk|].
  simpl in H. apply bind_ret in H as ([] & w1 & Hd%wrap_err_ret & H).
  destruct (decide (key ∈ l)) as [Hl|Hl]; [by eapply IH|]. apply elem_of_cons in Hk as [->|]; [|done].
  pose proof (shred_paths_others l w1 p Hl) as Ho. unfold shred_paths in Ho. rewrite H in Ho. simpl in Ho. rewrite Ho.
  by eapply Delete_ret.
Qed.

Lemma shred_paths_ok paths w : calm_from (w_tick w) ->
  exists w', shred_paths paths w = (Ret tt, w') /\ (w_tick w <= w_tick w')%nat.
Proof.
  unfold shred_paths. revert w. induction paths as [|p l IH]; intros w Hc; simpl; [by eexists|].
  destruct (Delete_ok p w Hc) as (w1 & Hd & Ht).
  destruct (IH w1) as (w2 & H2 & Ht2); [intros m Hm; apply Hc; lia|]. exists w2. split; [|lia].
  rewrite (bind_ok _ _ w tt w1 (Ret tt, w2)); [done| |done].
  unfold wrap_err, mbind, M_bind, try, DeleteKey. by rewrite Hd.
Qed.

(** Soft-deleted, and past the grace window. *)
Definition eligible (now : time) (r : AccountRow) : Prop :=
  acr_deleted_at r <> None /\ forall t, acr_purge_after r = Some t -> t <= now.

Lemma in_grace_ret o w (b : bool) w' : in_grace o w = (Ret b, w') ->
  w_db w' = w_db w /\ (b = true -> exists t, o = Some t) /\ (b = false -> forall t, o = Some t -> t <= env_now (w_tick w)).
Proof.
  destruct o as [t|]; simpl.
  - intros (now & w1 & [-> ->]%now_ret & [= <- <-])%bind_ret. split; [done|]. split; [eauto|].
    intros Hlt%Z.ltb_ge t' [= <-]. done.
  - by intros [= <- <-].
Qed.

(** The closing audit event names no account. *)
Lemma closing_event (e : Event) w : e_AccountID e = None ->
  exists l, w_db (ignore (Record_ e) w).2 = (w_db w){{ audit_events := l }} /\
    forall b, filter (fun ev => ev_AccountID ev = Some b) l = filter (fun ev => ev_AccountID ev = Some b) (audit_events (w_db w)).
Proof.
  intros He. assert (w_db (ignore (Record_ e) w).2 = w_db (Record_ e w).2) as ->
    by (unfold ignore, try, mbind, M_bind; by destruct (Record_ e w) as [[]]).
  unfold Record_. match goal with |- context [exec ?f w] => pose proof (exec_cases f w) as Hc; set (db' := w_db (exec f w).2) in * end.
  clearbody db'. destruct Hc as [->|(x & Hx)]; [exists (audit_events (w_db w)); split; [by destruct (w_db w)|done]|].
  rewrite He in Hx. destruct (if bool_decide _ then _ else _) as [ip|]; [|done]. apply inr_pair in Hx as [Hx _].
  eexists (audit_events (w_db w) ++ [mkAuditEvent _ _ _ _ _ _ _ _ _ _]). split; [rewrite <- Hx; reflexivity|].
  intros b. rewrite filter_app, filter_cons_False by done. by rewrite filter_nil, app_nil_r.
Qed.


Lemma load_deletion_ret a w d p w' : load_deletion a w = (Ret (d, p), w') ->
  w_db w' = w_db w /\ w_tick w' = S (w_tick w) /\
  exists r, accounts (account_db (w_db w)) !! a = Some r /\ d = acr_deleted_at r /\ p = acr_purge_after r.
Proof.
  intros H. pose proof H as [Hq Hdb]%query_row_ret. apply exec_ret in H as [_ Ht]. split; [done|]. split; [done|].
  destruct (accounts _ !! a) as [r|] eqn:E; simpl in Hq; [|done]. injection Hq as <- <-. eauto.
Qed.

Lemma ShredAccount_ret a w w' : ShredAccount a w = (Ret tt, w') -> w_db w' = shred_key a (w_db w).
Proof. intros H. by apply update_ret in H. Qed.

Lemma delete_account_ret a w w' r : delete_account a w = (Ret tt, w') -> accounts (account_db (w_db w)) !! a = Some r ->
  heartbeats_left a (w_db w) = false /\ w_db w' = cascade a (w_db w).
Proof.
  intros [H _]%exec_ret Hr. rewrite Hr in H. destruct (heartbeats_left a (w_db w)); [done|]. split; [done|congruence].
Qed.

(** What a hard deletion that returns has done. *)
Lemma HardDelete_ret a w w' :
  HardDelete a w = (Ret tt, w') ->
  exists r w3 l, accounts (account_db (w_db w)) !! a = Some r /\ eligible (env_now (S (w_tick w))) r /\
    heartbeats_left a (w_db w) = false /\
    sans_files (w_db w3) = sans_files (shred_key a (w_db w)) /\
    (forall p, p ∈ evidence_paths a (w_db w) -> st_view (w_db w3) p = None) /\
    (forall p, p ∉ evidence_paths a (w_db w) -> st_view (w_db w3) p = st_view (w_db w) p) /\
    w_db w' = (cascade a (w_db w3)){{ audit_events := l }} /\
    forall b, filter (fun ev => ev_AccountID ev = Some b) l
              = filter (fun ev => ev_AccountID ev = Some b) (audit_events (cascade a (w_db w3))).
Proof.
  unfold HardDelete. intros ([d p] & w0 & Hl%wrap_err_ret & H)%bind_ret.
  apply load_deletion_ret in Hl as (Hw0 & Ht0 & r & Hr & -> & ->). case_bool_decide as Hd; [done|].
  apply bind_ret in H as (early & w1 & Hg & H). apply in_grace_ret in Hg as (Hw1 & _ & Hg). destruct early; [done|].
  rewrite Ht0 in Hg. rewrite Hw0 in Hw1.
  apply bind_ret in H as (paths & w2 & Hq & H). apply query_ret in Hq as [-> Hw2]. rewrite Hw1 in *.
  apply bind_ret in H as ([] & w2' & Hs%wrap_err_ret & H). apply ShredAccount_ret in Hs. rewrite Hw2 in Hs.
  apply bind_ret in H as ([] & w3 & Hf & H). simpl in H.
  pose proof (frame_shred_paths sans_files (evidence_paths a (w_db w)) (fun db => eq_refl) w2') as Hsf.
  unfold shred_paths in Hsf. simpl in Hf. rewrite Hf in Hsf. simpl in Hsf. rewrite Hs in Hsf.
  apply bind_ret in H as ([] & w4 & Hdel%wrap_err_ret & H).
  assert (accounts (account_db (w_db w3)) !! a = Some r) as Hr3.
  { change (accounts (account_db (sans_files (w_db w3))) !! a = Some r). by rewrite Hsf. }
  apply delete_account_ret with (r := r) in Hdel as [Hhb Hdel]; [|done].
  match type of H with ignore (Record_ ?e) _ = _ => destruct (closing_event e w4 eq_refl) as (l & Hw' & Hl) end.
  rewrite H in Hw'. simpl in Hw'. exists r, w3, l.
  split; [done|]. split; [split; [done|by apply Hg]|].
  split; [by change (heartbeats_left a (sans_files (w_db w3)) = false) in Hhb; rewrite Hsf in Hhb|].
  split; [done|]. split; [by intros q; eapply shred_paths_ret|].
  split; [|by rewrite Hw', Hdel in *].
  intros q Hq. pose proof (shred_paths_others _ w2' q Hq) as Ho. unfold shred_paths in Ho. rewrite Hf in Ho. simpl in Ho.
  rewrite Ho, Hs. by rewrite (st_view_files _ (w_db w)).
Qed.

Lemma rows_audit b l db : filter (fun ev => ev_AccountID ev = Some b) l = filter (fun ev => ev_AccountID ev = Some b) (audit_events db) ->
  rows_of b (db{{ audit_events := l }}) = rows_of b db.
Proof. intros Hl. unfold rows_of. f_equal. exact Hl. Qed.

(** C7: an erasure is complete and confined.  When the hard delete of an
    account returns, the account was soft-deleted and past its grace window,
    no table holds a row that belongs to it, directly or through a row it
    hangs from, its evidence key and the files of its drills are gone, no
    session has it current and no audit event names it; every row of every
    other account, and every other file, is as it was. *)
Theorem erasure_complete a w w' :
  refs_inside (w_db w) -> HardDelete a w = (Ret tt, w') ->
  (exists r, accounts (account_db (w_db w)) !! a = Some r /\ eligible (env_now (S (w_tick w))) r) /\
  rows_of a (w_db w') = no_rows /\
  (forall p, p ∈ evidence_paths a (w_db w) -> st_view (w_db w') p = None) /\
  (forall b, b <> a -> rows_of b (w_db w') = rows_of b (w_db w)) /\
  (forall p, p ∉ evidence_paths a (w_db w) -> st_view (w_db w') p = st_view (w_db w) p).
Proof.
  intros Href (r & w3 & l & Hr & Hel & Hhb & Hsf & Hgone & Hkept & Hw' & Hl)%HardDelete_ret.
  assert (refs_inside (w_db w3)) as Href3 by (by apply sans_refs; rewrite Hsf; apply sans_refs, shred_refs).
  assert (st_view (w_db w') = st_view (w_db w3)) as Hv by (apply st_view_files; by rewrite Hw').
  rewrite Hv. split; [eauto|]. split; [|split; [done|split; [|done]]].
  - rewrite Hw', rows_audit by done. apply cascade_erases; [done|].
    change (heartbeats_left a (sans_files (w_db w3)) = false). by rewrite Hsf.
  - intros b Hb. rewrite Hw', rows_audit, cascade_confined by done.
    change (rows_of b (sans_files (w_db w3)) = rows_of b (w_db w)). by rewrite Hsf, sans_rows, shred_rows.
Qed.


(** Everything but the evidence files and one account's evidence key. *)
Definition sans_evidence (a : uuid) (db : DB) : DB := sans_files (shred_key a db).

Lemma sans_evidence_shred a db : sans_evidence a (shred_key a db) = sans_evidence a db.
Proof.
  unfold sans_evidence, sans_files, shred_key. destruct db as [? ? ? ? ? ? ? []]; simpl. by rewrite delete_delete_eq.
Qed.

Lemma blocked_delete a x : heartbeats_left a x = true -> accounts (account_db x) !! a <> None ->
  forall w, sans_evidence a (w_db w) = x -> forall w', delete_account a w <> (Ret tt, w').
Proof.
  intros Hhb Hacc w Hx w' [H _]%exec_ret. subst x.
  change (heartbeats_left a (w_db w) = true) in Hhb. change (accounts (account_db (w_db w)) !! a <> None) in Hacc.
  destruct (accounts (account_db (w_db w)) !! a); [|done]. by rewrite Hhb in H.
Qed.

Lemma blocked_steps a x : heartbeats_left a x = true -> accounts (account_db x) !! a <> None ->
  preserves (fun db => sans_evidence a db = x) (PurgeWork a).
Proof.
  intros Hhb Hacc. assert (forall (m : GO unit) , frame (sans_evidence a) m -> preserves (fun db => sans_evidence a db = x) m) as Hfr
    by (intros m Hm w Hw; by rewrite (Hm w)).
  unfold PurgeWork. apply preserves_bind; [apply preserves_try|intros []; [case_match; [apply preserves_ret|apply preserves_fail]|apply preserves_ret]].
  unfold HardDelete. apply preserves_bind; [apply preserves_wrap_err, preserves_query_row|intros [d p]].
  case_bool_decide; [apply preserves_fail|]. apply preserves_bind.
  { destruct p; [|apply preserves_ret]. apply preserves_bind; [apply preserves_now|intros; apply preserves_ret]. }
  intros []; [apply preserves_fail|]. apply preserves_bind; [apply preserves_query|intros paths].
  apply preserves_bind; [apply preserves_wrap_err, preserves_update; intros t db <-; apply sans_evidence_shred|intros _].
  apply preserves_bind; [apply Hfr, (frame_shred_paths (sans_evidence a)); done|intros _].
  apply (preserves_bind_ret _ _ _ (fun _ => False)); [| |done].
  - apply preserves_wrap_err, preserves_exec. intros t u db db' y Hdb Heq. subst x.
    change (heartbeats_left a db = true) in Hhb. change (accounts (account_db db) !! a <> None) in Hacc.
    destruct (accounts (account_db db) !! a); [|done]. by rewrite Hhb in Heq.
  - intros w [] w' Hw Hret%wrap_err_ret. by eapply blocked_delete.
Qed.


(** Running a hard deletion forward, up to the DELETE. *)
Lemma HardDelete_runs a w r :
  calm_from (w_tick w) -> accounts (account_db (w_db w)) !! a = Some r -> eligible (env_now (S (w_tick w))) r ->
  exists w3, (w_tick w <= w_tick w3)%nat /\ sans_evidence a (w_db w3) = sans_evidence a (w_db w) /\
    account_evidence_keys (evidence_db (w_db w3)) !! a = None /\
    (forall p, p ∈ evidence_paths a (w_db w) -> st_view (w_db w3) p = None) /\
    HardDelete a w = (wrap_err "delete account" (delete_account a);;
      ignore (Record_ (mkEvent None None "account.hard_deleted" "account" (uuid_String a)
                [("evidence_files_shredded", AInt (Z.of_nat (length (evidence_paths a (w_db w)))))]))) w3.
Proof.
  intros Hc Hr [Hdel Hgrace].
  assert (wrap_err "load account" (load_deletion a) w = (Ret (acr_deleted_at r, acr_purge_after r), tick w)) as H1.
  { unfold wrap_err, mbind, M_bind, try. unfold load_deletion. rewrite (query_row_some _ w (acr_deleted_at r, acr_purge_after r));
      [done|apply Hc; lia|by rewrite Hr]. }
  assert (exists w1, in_grace (acr_purge_after r) (tick w) = (Ret false, w1) /\ w_db w1 = w_db w /\ (S (w_tick w) <= w_tick w1)%nat)
    as (w1 & H2 & Hw1 & Ht1).
  { destruct (acr_purge_after r) as [t|]; [|by exists (tick w)]. exists (tick (tick w)). split; [|split; [done|simpl; lia]].
    simpl. unfold mbind, M_bind, time_Now. simpl. destruct (Z.ltb_spec (env_now (S (w_tick w))) t); [|done].
    specialize (Hgrace t eq_refl). lia. }
  assert (query (fun _ => evidence_paths a) w1 = (Ret (evidence_paths a (w_db w)), tick w1)) as H3.
  { rewrite <- Hw1. apply (query_ok (fun _ => evidence_paths a)). apply Hc. lia. }
  assert (wrap_err "crypto-shred evidence keys" (ShredAccountEvidence a) (tick w1) = (Ret tt, with_db (shred_key a (w_db w)) (tick (tick w1)))) as H4.
  { unfold wrap_err, mbind, M_bind, try. unfold ShredAccountEvidence, ShredAccount. rewrite update_ok by (apply Hc; simpl; lia).
    simpl. by rewrite Hw1. }
  set (w2 := with_db (shred_key a (w_db w)) (tick (tick w1))) in *.
  destruct (shred_paths_ok (evidence_paths a (w_db w)) w2) as (w3 & H5 & Ht3); [intros m Hm; apply Hc; simpl in Hm; lia|].
  exists w3. split; [simpl in *; lia|].
  pose proof (frame_shred_paths sans_files (evidence_paths a (w_db w)) (fun db => eq_refl) w2) as Hsf. rewrite H5 in Hsf. simpl in Hsf.
  split; [|split; [|split; [intros q; by eapply shred_paths_ret|]]].
  - change (sans_files (shred_key a (sans_files (w_db w3))) = sans_evidence a (w_db w)). rewrite Hsf.
    change (sans_evidence a (shred_key a (w_db w)) = sans_evidence a (w_db w)). apply sans_evidence_shred.
  - change (account_evidence_keys (evidence_db (sans_files (w_db w3))) !! a = None). rewrite Hsf. apply lookup_delete_eq.
  - unfold HardDelete. rewrite (bind_ok _ _ w _ _ _ H1 eq_refl). simpl. case_bool_decide; [done|].
    rewrite (bind_ok _ _ _ _ _ _ H2 eq_refl), (bind_ok _ _ _ _ _ _ H3 eq_refl), (bind_ok _ _ _ _ _ _ H4 eq_refl).
    by rewrite (bind_ok _ _ _ _ _ _ H5 eq_refl).
Qed.

Inductive purge_attempt (a : uuid) : World DB -> World DB -> Prop :=
| attempt_ w : purge_attempt a w (PurgeWork a w).2.

(** an account that ever had a heartbeat monitor is never erased.  Its
    foreign key has no ON DELETE clause, so while one heartbeat row is left,
    deleted or not, no number of attempts under any faults changes a row of
    the database other than the evidence key; and a due attempt without
    faults destroys that key and every evidence file before it fails. *)
Theorem erasure_blocked_by_heartbeat a w r :
  heartbeats_left a (w_db w) = true -> accounts (account_db (w_db w)) !! a = Some r ->
  (forall w', rtc (purge_attempt a) w w' -> sans_evidence a (w_db w') = sans_evidence a (w_db w)) /\
  (calm_from (w_tick w) -> eligible (env_now (S (w_tick w))) r ->
   exists w', PurgeWork a w = (Fail (ErrWrap "delete account" (ErrConstraint "heartbeats_account_id_fkey")), w') /\
     account_evidence_keys (evidence_db (w_db w')) !! a = None /\
     forall p, p ∈ evidence_paths a (w_db w) -> st_view (w_db w') p = None).
Proof.
  intros Hhb Hr. split.
  - intros w' Hs. assert (forall x y, purge_attempt a x y -> sans_evidence a (w_db x) = sans_evidence a (w_db w) ->
      sans_evidence a (w_db y) = sans_evidence a (w_db w)) as Hstep.
    { intros x y []. apply blocked_steps; [done|]. change (accounts (account_db (w_db w)) !! a <> None). by rewrite Hr. }
    assert (forall x y, rtc (purge_attempt a) x y -> sans_evidence a (w_db x) = sans_evidence a (w_db w) ->
      sans_evidence a (w_db y) = sans_evidence a (w_db w)) as Hsteps by (induction 1; eauto).
    by eapply Hsteps.
  - intros Hc Hel. destruct (HardDelete_runs a w r Hc Hr Hel) as (w3 & Ht & Hs & Hk & Hf & Hrun).
    assert (heartbeats_left a (w_db w3) = true) as Hhb3.
    { change (heartbeats_left a (sans_evidence a (w_db w3)) = true). by rewrite Hs. }
    assert (accounts (account_db (w_db w3)) !! a = Some r) as Hr3.
    { change (accounts (account_db (sans_evidence a (w_db w3))) !! a = Some r). by rewrite Hs. }
    exists (tick w3). unfold PurgeWork, mbind, M_bind, try. rewrite Hrun. unfold mbind, M_bind, wrap_err, try.
    unfold mbind, M_bind, delete_account, exec. rewrite (Hc _ Ht), Hr3, Hhb3. done.
Qed.

(** nothing happens to an account before its time.  A purge job for an
    account that is not soft-deleted, or whose grace window is still open
    when the job looks at the clock, changes nothing at all under any faults,
    and is done (not retried) when there are none. *)
Theorem erasure_waits a w r :
  accounts (account_db (w_db w)) !! a = Some r ->
  acr_deleted_at r = None \/ (exists t, acr_purge_after r = Some t /\ env_now (S (w_tick w)) < t) ->
  w_db (PurgeWork a w).2 = w_db w /\ (env_fault (w_tick w) = FOk -> (PurgeWork a w).1 = Ret tt).
Proof.
  intros Hr Hwait. unfold PurgeWork, HardDelete, wrap_err, load_deletion, query_row, mbind, M_bind, try, exec. rewrite Hr. simpl.
  unfold mbind, M_bind, lift. destruct (env_fault (w_tick w)) as [|[]|[]]; simpl; try (split; [done|done]).
  case_bool_decide as Hd; [by split|]. destruct Hwait as [Hn|(t & Ht & Hlt)]; [done|]. rewrite Ht. simpl.
  unfold mbind, M_bind, time_Now. simpl. apply Z.ltb_lt in Hlt. by rewrite Hlt.
Qed.


(** *** An attempt that fails half way *)

Lemma run_bind {A B} (J : DB -> Prop) (m : GO A) (k : A -> GO B) w :
  J (w_db (m w).2) -> (forall x w1, m w = (Ret x, w1) -> J (w_db (k x w1).2)) -> J (w_db ((m ≫= k) w).2).
Proof. unfold mbind, M_bind. destruct (m w) as [[x|e|] w1]; simpl; eauto. Qed.

Section attempt.
Context (a : uuid) (db0 : DB) (Href : refs_inside db0) (r : AccountRow) (Hacc : accounts (account_db db0) !! a = Some r).
Definition untouched (db : DB) : Prop := sans_evidence a db = sans_evidence a db0.
Definition erased (db : DB) : Prop :=
  rows_of a db = no_rows /\ (forall p, p ∈ evidence_paths a db0 -> st_view db p = None) /\
  forall b, b <> a -> rows_of b db = rows_of b db0.

Lemma untouched_erased db : untouched db -> (forall p, p ∈ evidence_paths a db0 -> st_view db p = None) ->
  heartbeats_left a db = false -> erased (cascade a db).
Proof.
  intros Hu Hf Hhb. assert (refs_inside db) as Hr.
  { apply (sans_refs db), (shred_refs a). change (refs_inside (sans_evidence a db)). rewrite Hu.
    by apply sans_refs, shred_refs. }
  split; [by apply cascade_erases|]. split.
  - intros p Hp. by rewrite (st_view_files _ db) by done; apply Hf.
  - intros b Hb. rewrite cascade_confined by done. rewrite <- (shred_rows a b db), <- (shred_rows a b db0) by done.
    change (rows_of b (sans_evidence a db) = rows_of b (sans_evidence a db0)). by rewrite Hu.
Qed.

Lemma erased_closing w e : e_AccountID e = None -> erased (w_db w) -> erased (w_db (ignore (Record_ e) w).2).
Proof.
  intros He (H1 & H2 & H3). destruct (closing_event e w He) as (l & -> & Hl). split; [by rewrite rows_audit|]. split.
  - intros p Hp. by rewrite (st_view_files _ (w_db w)) by done; apply H2.
  - intros b Hb. rewrite rows_audit by done. by apply H3.
Qed.

(** The DELETE and what follows it. *)
Lemma delete_or_not w e : e_AccountID e = None ->
  untouched (w_db w) -> (forall p, p ∈ evidence_paths a db0 -> st_view (w_db w) p = None) ->
  untouched (w_db ((wrap_err "delete account" (delete_account a);; ignore (Record_ e)) w).2) \/
  erased (w_db ((wrap_err "delete account" (delete_account a);; ignore (Record_ e)) w).2).
Proof.
  intros He Hu Hf.
  assert (w_db (delete_account a w).2 = w_db w \/ erased (w_db (delete_account a w).2)) as Hdel.
  { unfold delete_account.
    match goal with |- context [exec ?f w] => pose proof (exec_cases f w) as Hc; set (db' := w_db (exec f w).2) in * end.
    clearbody db'. destruct Hc as [->|(x & Hx)]; [by left|].
    destruct (accounts (account_db (w_db w)) !! a) as [r'|]; [|apply inr_pair in Hx as [<- _]; by left].
    destruct (heartbeats_left a (w_db w)) eqn:Hhb; [done|]. apply inr_pair in Hx as [<- _]. right. by apply untouched_erased. }
  assert (w_db (wrap_err "delete account" (delete_account a) w).2 = w_db (delete_account a w).2) as Hwr
    by (unfold wrap_err, mbind, M_bind, try; by destruct (delete_account a w) as [[]]).
  apply (run_bind (fun db => untouched db \/ erased db)).
  - rewrite Hwr. destruct Hdel as [->|]; auto.
  - intros [] w1 Hret. right. apply erased_closing; [done|]. apply wrap_err_ret in Hret.
    assert (accounts (account_db (w_db w)) !! a = Some r) as Hr
      by (change (accounts (account_db (sans_evidence a (w_db w))) !! a = Some r); by rewrite Hu).
    destruct (delete_account_ret a w w1 r Hret Hr) as [Hhb ->]. by apply untouched_erased.
Qed.

Lemma run_untouched {A B} (m : GO A) (k : A -> GO B) w :
  frame (sans_evidence a) m -> untouched (w_db w) ->
  (forall x w1, m w = (Ret x, w1) -> untouched (w_db w1) -> untouched (w_db (k x w1).2) \/ erased (w_db (k x w1).2)) ->
  untouched (w_db ((m ≫= k) w).2) \/ erased (w_db ((m ≫= k) w).2).
Proof.
  intros Hf Hu Hk. assert (untouched (w_db (m w).2)) as Hm by (unfold untouched; by rewrite (Hf w)).
  apply (run_bind (fun db => untouched db \/ erased db)); [by left|]. intros x w1 Hx. apply Hk; [done|]. by rewrite Hx in Hm.
Qed.

Lemma attempt_outcome w : w_db w = db0 -> untouched (w_db (HardDelete a w).2) \/ erased (w_db (HardDelete a w).2).
Proof.
  intros Hw. assert (untouched (w_db w)) as Hu by (by rewrite Hw). clear Hw. unfold HardDelete.
  apply run_untouched; [apply frame_wrap, frame_query_row|done|]. intros [d p] w1 _ Hu1.
  case_bool_decide; [by left|]. apply run_untouched; [|done|].
  { destruct p; simpl; [|apply frame_ret]. apply frame_bind; [apply frame_now|intros; apply frame_ret]. }
  intros [] w2 _ Hu2; [by left|]. apply run_untouched; [apply frame_query|done|]. intros paths w3 [Hp _]%query_ret Hu3.
  assert (paths = evidence_paths a db0) as ->.
  { rewrite Hp. change (evidence_paths a (sans_evidence a (w_db w2)) = evidence_paths a (sans_evidence a db0)). by rewrite Hu2. }
  apply run_untouched; [|done|].
  { apply frame_wrap, frame_exec. intros t u db db' x [= <- _]. apply sans_evidence_shred. }
  intros [] w4 _ Hu4. apply run_untouched; [apply frame_shred_paths; done|done|]. intros [] w5 H5 Hu5.
  apply delete_or_not; [done|done|]. intros q. by eapply shred_paths_ret.
Qed.

End attempt.


Lemma purge_db a w : w_db (PurgeWork a w).2 = w_db (HardDelete a w).2.
Proof. unfold PurgeWork, mbind, M_bind, try. destruct (HardDelete a w) as [[|e|] w1]; try done. simpl. by case_match. Qed.


End purge.

(** ** The export *)

Section own_lists.
Context {K : Type} `{Countable K} {R : Type}.
Implicit Types (m : gmap K R).

Lemma own_to_list P m : map_to_list (own P m) ≡ₚ filter (fun kr => P kr.1 kr.2 = true) (map_to_list m).
Proof.
  apply NoDup_Permutation; [apply NoDup_map_to_list|apply list.NoDup_filter, NoDup_map_to_list|].
  intros [k r]. unfold own. rewrite elem_of_map_to_list, map_lookup_filter_Some, list_elem_of_filter, elem_of_map_to_list. naive_solver.
Qed.
Lemma own_select (p : R -> bool) m : sql_select p m ≡ₚ (map_to_list (own (fun _ r => p r) m)).*2.
Proof.
  rewrite own_to_list. unfold sql_select. induction (map_to_list m) as [|[k r] l IH]; [done|]. simpl.
  rewrite !filter_cons. simpl. case_decide; simpl; by rewrite IH.
Qed.
Lemma own_select_eq (p q : R -> bool) m1 m2 :
  own (fun _ r => p r) m1 = own (fun _ r => q r) m2 -> sql_select p m1 ≡ₚ sql_select q m2.
Proof. intros Heq. by rewrite !own_select, Heq. Qed.
End own_lists.

Section export.
Context `{env : Env} `{uuids : UuidLib} (jsonb : string -> any) (EncodeIndent : any -> string).

Lemma order_by_perm {R} (le : R -> R -> bool) l1 l2 : l1 ≡ₚ l2 -> order_by le l1 ≡ₚ order_by le l2.
Proof. intros Hp. by rewrite !order_by_Permutation. Qed.

Lemma sorted_rows {R} (f : R -> any) (le : R -> R -> bool) l1 l2 :
  l1 ≡ₚ l2 -> f <$> order_by le l1 ≡ₚ f <$> order_by le l2.
Proof. intros Hp. by apply fmap_Permutation, order_by_perm. Qed.

(** A user of the account, and what the export may say of him. *)
Definition member_of (a : uuid) (db : DB) (u : uuid) : Prop :=
  exists k m, memberships (account_db db) !! k = Some m /\ m_AccountID m = a /\ m_UserID m = u.
Definition email_of (db : DB) (u : uuid) : option string := u_Email <$> users (account_db db) !! u.

Lemma members_agree a db1 db2 :
  own (fun _ m => bool_decide (m_AccountID m = a)) (memberships (account_db db1))
  = own (fun _ m => bool_decide (m_AccountID m = a)) (memberships (account_db db2)) ->
  (forall u, member_of a db2 u -> email_of db1 u = email_of db2 u) -> sec_members a db1 ≡ₚ sec_members a db2.
Proof.
  intros Hm Hu. unfold sec_members. etransitivity; [apply omap_Permutation, order_by_perm, own_select_eq, Hm|].
  apply reflexive_eq, list_omap_ext, Forall_Forall2_diag, Forall_forall. intros m Hin%elem_of_order_by%elem_of_sql_select.
  destruct Hin as [Ha%bool_decide_eq_true [k Hk]]. specialize (Hu (m_UserID m) (ex_intro _ k (ex_intro _ m (conj Hk (conj Ha eq_refl))))).
  unfold email_of in Hu. destruct (users (account_db db1) !! _), (users (account_db db2) !! _); simpl in *; congruence.
Qed.

(** Each section lists rows of the account, whatever else the tables hold. *)
Lemma sections_agree a db1 db2 : rows_of a db1 = rows_of a db2 ->
  (forall u, member_of a db2 u -> email_of db1 u = email_of db2 u) ->
  Forall (fun s => s.2 a db1 ≡ₚ s.2 a db2) (export_sections jsonb).
Proof.
  intros Hr Hu. unfold rows_of in Hr. injection Hr as _ Hm _ _ _ Ht Has Hd Hs Hres _ _ _ He Hdl _ _ _ _ _ _ _ _ Hg _ Hau.
  repeat constructor; simpl.
  - by apply members_agree.
  - apply sorted_rows, own_select_eq, Ht.
  - apply sorted_rows, own_select_eq, Has.
  - apply sorted_rows, own_select_eq, Hd.
  - apply sorted_rows, own_select_eq, Hs.
  - apply sorted_rows, own_select_eq, Hres.
  - apply sorted_rows. rewrite <- (own_to_list (fun k _ => own_drill a db1 k)), <- (own_to_list (fun k _ => own_drill a db2 k)).
    unfold own_drill in *. by rewrite Hg.
  - apply sorted_rows, own_select_eq, He.
  - apply sorted_rows, own_select_eq, Hdl.
  - apply sorted_rows. by rewrite Hau.
Qed.

Lemma read_sections_ret secs a w l w' : read_sections secs a w = (Ret l, w') ->
  w_db w' = w_db w /\ l = (fun s => (s.1, rows_json (s.2 a (w_db w)))) <$> secs.
Proof.
  revert w l w'. induction secs as [|[name sec] secs IH]; intros w l w'; simpl; [by intros [= <- <-]|].
  intros (rows & w1 & [-> Hw1]%query_ret & (l' & w2 & [Hw2 ->]%IH & [= <- <-])%bind_ret)%bind_ret.
  rewrite Hw2, Hw1. done.
Qed.

(** C26: a data export shows the account and only the account.  A document
    that Export returns is the encoding of the account row and ten sections;
    when two databases hold the same rows for the account, and the same email
    addresses for its members, every section of the one lists the same rows
    as that of the other: no row of another account, no user who is not a
    member, and nothing else of a member, influences it. *)
Theorem export_shows_one_account a w doc w' :
  Export jsonb EncodeIndent a w = (Ret doc, w') ->
  w_db w' = w_db w /\
  (exists t, doc = EncodeIndent (AMap (("export_generated_at", AString (FormatRFC3339 t)) :: ("account_id", AUuid a)
     :: ("account", sec_account a (w_db w))
     :: ((fun s => (s.1, rows_json (s.2 a (w_db w)))) <$> export_sections jsonb)))) /\
  forall db, rows_of a db = rows_of a (w_db w) -> (forall u, member_of a (w_db w) u -> email_of db u = email_of (w_db w) u) ->
    sec_account a db = sec_account a (w_db w) /\
    Forall (fun s => s.2 a db ≡ₚ s.2 a (w_db w)) (export_sections jsonb).
Proof.
  unfold Export. intros (t & w1 & [-> ->]%now_ret & H)%bind_ret.
  apply bind_ret in H as (acc & w2 & [-> Hw2]%query_ret & H).
  apply bind_ret in H as (l & w3 & [Hw3 ->]%read_sections_ret & [= <- <-]). rewrite Hw2 in *. simpl in *.
  split; [done|]. split; [by eexists|]. intros db Hr Hu. split; [|by apply sections_agree].
  apply (f_equal ro_account) in Hr. simpl in Hr. unfold sec_account. by rewrite Hr.
Qed.
End export.

(** ** The retention sweep *)

Section sweep.
Context `{env : Env} `{uuids : UuidLib} `{store : EvidenceStore} `{store_ok : !EvidenceStoreOk store}.

(** A table after a sweep whose clock showed times between [T0] and [T]: no
    row appears, every row inside its window at [T] stays, and unless the step
    reported an error no row that had outlived its window by [T0] is left. *)
Definition swept {X} (T0 T : time) (errs : list error) (prefix : string) (outlived : time -> X -> Prop) (before after : X -> Prop) : Prop :=
  (forall x, after x -> before x) /\ (forall x, before x -> ~ outlived T x -> after x) /\
  ((forall e, ErrWrap prefix e ∉ errs) -> forall x, after x -> ~ outlived T0 x).

(** One step: it ran, or its error is in the list. *)
Lemma step_ret p m errs w n errs' w' : step_ p m errs w = (Ret (n, errs'), w') ->
  (exists k, m w = (Ret k, w') /\ errs' = errs) \/ (exists e, m w = (Fail e, w') /\ errs' = errs ++ [ErrWrap p e]).
Proof.
  unfold step_, mbind, M_bind, try. destruct (m w) as [[k|e|] w1]; intros [= <- <- <-]; eauto.
Qed.

Definition when_ {X} (b : bool) (f : X -> X) (x : X) : X := if b then f x else x.

Lemma update_n_step f p errs w n errs' w' : step_ p (update_n f) errs w = (Ret (n, errs'), w') ->
  exists b, w_db w' = when_ b (fun db => (f (sql_now w) db).1) (w_db w) /\
    (b = false -> exists e, ErrWrap p e ∈ errs') /\ (forall e, e ∈ errs -> e ∈ errs') /\ w_tx w' = w_tx w /\ w_tick w' = S (w_tick w).
Proof.
  intros Hs%step_ret. pose proof (update_n_cases f w) as Hc.
  assert (w_tx w' = w_tx w /\ w_tick w' = S (w_tick w)) as Htx.
  { destruct (exec_spec (fun now _ s => inr (f now s)) w) as (_ & H1 & H2 & _). change (exec _ w) with (update_n f w) in *.
    destruct Hs as [(k & Hk & _)|(e & Hk & _)]; rewrite Hk in *; done. }
  destruct Hs as [(k & Hr & ->)|(e & Hr & ->)]; rewrite Hr in Hc; simpl in Hc.
  - exists true. apply exec_ret in Hr as [[= Hr] _]. simpl. split; [by rewrite Hr|]. by split; [|split].
  - destruct Hc as [->|Hc]; [exists false|exists true]; (split; [done|]); (split; [|split; [|done]]); intros; try done; set_solver.
Qed.

Lemma swept_step {X} T0 T (errs errs' : list error) p (out : time -> X -> Prop) (before after : X -> Prop) (b : bool) t :
  T0 <= t <= T -> (forall t1 t2 x, t1 <= t2 -> out t1 x -> out t2 x) ->
  (forall x, after x <-> before x /\ (b = true -> ~ out t x)) ->
  (b = false -> exists e, ErrWrap p e ∈ errs) -> (forall e, e ∈ errs -> e ∈ errs') ->
  swept T0 T errs' p out before after.
Proof.
  intros Ht Hm Ha Hb He. split; [|split].
  - intros x Hx. by apply Ha.
  - intros x Hx Ho. apply Ha. split; [done|]. intros _ Hx'. apply Ho. eapply Hm; [|done]. lia.
  - intros Hn x Hx Ho. apply Ha in Hx as [_ Hx]. destruct b.
    + apply Hx; [done|]. eapply Hm; [|done]. lia.
    + destruct Hb as [e Hin]; [done|]. by apply (Hn e), He.
Qed.

(** Outside a transaction, the clock moving on. *)
Definition onward (w w' : World DB) : Prop := w_tx w' = w_tx w /\ (w_tick w <= w_tick w')%nat.
Lemma bind_onward {A B} (m : GO A) (k : A -> GO B) w :
  onward w (m w).2 -> (forall x w1, onward w1 (k x w1).2) -> onward w ((m ≫= k) w).2.
Proof.
  intros Hm Hk. unfold mbind, M_bind, onward in *. destruct (m w) as [[x|e|] w1]; simpl in *; [|done..].
  destruct (Hk x w1) as [-> H]. destruct Hm. split; [done|lia].
Qed.
Lemma exec_onward {A} (f : stmt DB A) w : onward w (exec f w).2.
Proof. destruct (exec_spec f w) as (_ & H1 & H2 & _). unfold onward. rewrite H1, H2. split; [done|lia]. Qed.

Lemma purge_one_onward e w : onward w (purge_one e w).2.
Proof.
  unfold purge_one. apply bind_onward; [|intros _ w1; apply exec_onward].
  destruct (e.2) as [p|]; [|done]. case_bool_decide; [done|]. unfold wrap_err, mbind, M_bind, try.
  pose proof (Delete_tx p w) as Hd. by destruct (st_Delete p w) as [[]].
Qed.
Lemma PurgeExpired_onward w : onward w (PurgeExpired w).2.
Proof.
  unfold PurgeExpired. apply bind_onward; [apply exec_onward|]. intros l w1. apply bind_onward; [|done].
  clear w. revert w1. induction l as [|e l IH]; intros w1; [done|]. simpl. apply bind_onward; [apply purge_one_onward|auto].
Qed.

(** Everything but the evidence files and the signatures. *)
Definition sans_signed (db : DB) : DB := db{{ evidence_db -> evidence_files := ∅; evidence_db -> evidence_signatures := ∅ }}.
Abbreviation sigs w := (evidence_signatures (evidence_db (w_db w))).

Record purges (l : list (uuid * option string)) (w w' : World DB) (o : outcome unit) : Prop := {
  pu_rest : sans_signed (w_db w') = sans_signed (w_db w);
  pu_sub  : forall d r, sigs w' !! d = Some r -> sigs w !! d = Some r;
  pu_keep : forall d r, d ∉ l.*1 -> sigs w !! d = Some r -> sigs w' !! d = Some r;
  pu_gone : o = Ret tt -> forall d, d ∈ l.*1 -> sigs w' !! d = None;
  pu_file : forall key, (forall d, (d, Some key) ∉ l) -> st_view (w_db w') key = st_view (w_db w) key
}.

Lemma purge_one_purges e w : purges [e] w (purge_one e w).2 (purge_one e w).1.
Proof.
  unfold purge_one.
  set (m := match e.2 with Some path => if bool_decide (path = "") then mret tt
              else wrap_err ("delete evidence " +:+ uuid_String e.1) (st_Delete path) | None => mret tt end : GO unit).
  assert (sans_files (w_db (m w).2) = sans_files (w_db w)) as Hm.
  { subst m. destruct (e.2) as [p|]; [|done]. case_bool_decide; [done|].
    apply (frame_wrap sans_files _ (st_Delete p)). apply (Delete_frame sans_files). done. }
  assert (forall key, Some key <> e.2 -> st_view (w_db (m w).2) key = st_view (w_db w) key) as Hv.
  { intros key Hk. subst m. destruct (e.2) as [p|]; [|done]. case_bool_decide; [done|].
    unfold wrap_err, mbind, M_bind, try. pose proof (Delete_others p w key) as Hd.
    assert (key <> p) as Hne by congruence. specialize (Hd Hne). by destruct (st_Delete p w) as [[]]. }
  assert (sigs (m w).2 = sigs w) as Hsg by exact (f_equal (fun db => evidence_signatures (evidence_db db)) Hm).
  assert (sans_signed (w_db (m w).2) = sans_signed (w_db w)) as Hrest.
  { change (sans_signed (sans_files (w_db (m w).2)) = sans_signed (sans_files (w_db w))). by rewrite Hm. }
  clearbody m. unfold mbind, M_bind. destruct (m w) as [[[]|x|] w1]; simpl in *.
  2,3: by split; [|intros; congruence|intros; congruence| |intros key Hk; apply Hv; intros Heq; apply (Hk e.1); rewrite Heq; destruct e; set_solver].
  match goal with |- purges _ _ (update ?f w1).2 _ => pose proof (update_cases f w1) as Hc; pose proof (update_ret f w1) as Hret;
    set (r := update f w1) in * end.
  destruct r as [o w2]; simpl in Hc |- *.
  assert (sigs w2 = sigs w1 \/ sigs w2 = delete e.1 (sigs w1)) as Hs2 by (by destruct Hc as [->| ->]; [left|right]).
  split.
  - rewrite <- Hrest. by destruct Hc as [->| ->].
  - intros d r Hd. rewrite <- Hsg. destruct Hs2 as [Hs2|Hs2]; rewrite Hs2 in Hd; [done|]. by apply lookup_delete_Some in Hd as [_ Hd].
  - intros d r Hd Hr. rewrite <- Hsg in Hr. destruct Hs2 as [->| ->]; [done|]. rewrite lookup_delete_ne; [done|]. intros <-. apply Hd. left.
  - intros -> d Hd. specialize (Hret tt w2 eq_refl). apply list_elem_of_singleton in Hd as ->. rewrite Hret. apply lookup_delete_eq.
  - intros key Hk. rewrite <- Hv; [|intros Heq; apply (Hk e.1); rewrite Heq; destruct e; left].
    rewrite (st_view_files (w_db w2) (w_db w1)); [done|]. by destruct Hc as [->| ->].
Qed.

Lemma purge_all l w : purges l w (for_each l purge_one w).2 (for_each l purge_one w).1.
Proof.
  revert w. induction l as [|e l IH]; intros w; simpl.
  { split; try done; intros; set_solver. }
  pose proof (purge_one_purges e w) as [H1 H2 H3 H4 H5]. unfold mbind, M_bind.
  destruct (purge_one e w) as [[[]|x|] w1]; simpl in *.
  2,3: split; [done|done| |done|]; [intros d r Hd; apply H3; set_solver|intros key Hk; apply H5; intros d Hd; apply (Hk d); set_solver].
  destruct (IH w1) as [J1 J2 J3 J4 J5]. destruct (for_each l purge_one w1) as [o w2]; simpl in *. split.
  - congruence.
  - auto.
  - intros d r Hd Hr. apply J3; [set_solver|]. apply H3; [set_solver|done].
  - intros -> d Hd. destruct (decide (d ∈ l.*1)) as [Hl|Hl]; [by apply J4|].
    apply eq_None_not_Some. intros [r Hr%J2]. rewrite H4 in Hr; [done|done|set_solver].
  - intros key Hk. rewrite J5 by (intros d Hd; apply (Hk d); set_solver). apply H5. intros d Hd. apply (Hk d). set_solver.
Qed.

(** A drill's signature that has outlived its retention. *)
Definition signature_out (db : DB) (t : time) (x : uuid * SignatureRecord) : Prop :=
  is_Some (drills (drill_db db) !! x.1) /\ RetainUntil x.2 < t.

Lemma elem_of_expired t db d p : (d, p) ∈ expired t db <->
  exists r dr, evidence_signatures (evidence_db db) !! d = Some r /\ drills (drill_db db) !! d = Some dr /\
    RetainUntil r < t /\ p = d_EvidencePath dr.
Proof.
  unfold expired. rewrite list_elem_of_omap. split.
  - intros ([d' r] & Hm%elem_of_map_to_list & Hx). destruct (drills (drill_db db) !! d') as [dr|] eqn:E; [|done]. simpl in Hx.
    destruct (Z.ltb_spec (RetainUntil r) t); [|done]. injection Hx as <- <-. eauto 10.
  - intros (r & dr & Hr & Hd & Ht & ->). exists (d, r). split; [by apply elem_of_map_to_list|]. rewrite Hd. simpl.
    apply Z.ltb_lt in Ht. by rewrite Ht.
Qed.

(** What the evidence purge does, whatever fails in it. *)
Lemma PurgeExpired_spec w : w_tx w = None ->
  let w' := (PurgeExpired w).2 in
  sans_signed (w_db w') = sans_signed (w_db w) /\
  (forall d r, sigs w' !! d = Some r -> sigs w !! d = Some r) /\
  (forall d r, sigs w !! d = Some r -> ~ signature_out (w_db w) (env_now (w_tick w)) (d, r) -> sigs w' !! d = Some r) /\
  (forall n, (PurgeExpired w).1 = Ret n -> forall d r, sigs w' !! d = Some r -> ~ signature_out (w_db w) (env_now (w_tick w)) (d, r)) /\
  (forall key, (forall d, (d, Some key) ∉ expired (env_now (w_tick w)) (w_db w)) -> st_view (w_db w') key = st_view (w_db w) key).
Proof.
  intros Htx. unfold PurgeExpired, mbind, M_bind.
  pose proof (frame_query (fun db => db) expired w) as Hq. pose proof (query_ret expired w) as Hqr. simpl in Hq.
  destruct (query expired w) as [[l|e|] w1]; simpl in *; try (rewrite Hq; by repeat (split; [done|])).
  destruct (Hqr l w1 eq_refl) as [-> _]. unfold sql_now. rewrite Htx. simpl.
  pose proof (purge_all (expired (env_now (w_tick w)) (w_db w)) w1) as [H1 H2 H3 H4 H5].
  destruct (for_each _ purge_one w1) as [o w2]. simpl in *. rewrite Hq in *.
  assert (forall d, d ∈ (expired (env_now (w_tick w)) (w_db w)).*1 <->
            exists r, sigs w !! d = Some r /\ signature_out (w_db w) (env_now (w_tick w)) (d, r)) as Hin.
  { intros d. rewrite list_elem_of_fmap. unfold signature_out. split.
    - intros ([d' p] & -> & (r & dr & Hr & Hd & Ht & ->)%elem_of_expired). simpl. eauto 10.
    - intros (r & Hr & [dr Hd] & Ht). exists (d, d_EvidencePath dr). split; [done|]. apply elem_of_expired. simpl in *. eauto 10. }
  assert (sans_signed (w_db w2) = sans_signed (w_db w) /\
    (forall d r, sigs w2 !! d = Some r -> sigs w !! d = Some r) /\
    (forall d r, sigs w !! d = Some r -> ~ signature_out (w_db w) (env_now (w_tick w)) (d, r) -> sigs w2 !! d = Some r) /\
    (o = Ret tt -> forall d r, sigs w2 !! d = Some r -> ~ signature_out (w_db w) (env_now (w_tick w)) (d, r)) /\
    (forall key, (forall d, (d, Some key) ∉ expired (env_now (w_tick w)) (w_db w)) -> st_view (w_db w2) key = st_view (w_db w) key))
    as (K1 & K2 & K3 & K4 & K5).
  { split; [done|]. split; [done|]. split; [|split; [|done]].
    - intros d r Hr Ho. apply H3; [|done]. intros (r' & Hr' & Ho')%Hin. simplify_eq. by apply Ho.
    - intros Ho d r Hr Hout. rewrite (H4 Ho) in Hr; [done|]. apply Hin. eauto. }
  destruct o as [[]|e|]; simpl; (split; [done|]; split; [done|]; split; [done|]; split; [|done]); [intros n _; by apply K4|done|done].
Qed.

Lemma when_filter {X} b (P : X -> Prop) `{!forall x, Decision (P x)} (l : list X) x :
  x ∈ when_ b (filter P) l <-> x ∈ l /\ (b = true -> P x).
Proof. destruct b; simpl; rewrite ?list_elem_of_filter; naive_solver. Qed.
Lemma when_delete {K R} `{Countable K} b (p : R -> bool) (m : gmap K R) k r :
  when_ b (sql_delete p) m !! k = Some r <-> m !! k = Some r /\ (b = true -> p r = false).
Proof. destruct b; simpl; rewrite ?lookup_sql_delete_Some; naive_solver. Qed.

(** The steps of a sweep that returned. *)
Lemma Prune_step d errs w n errs' w' :
  (r ← try (Prune d); mret match r with inl e => (0, errs ++ [ErrWrap "prune login_attempts" e]) | inr _ => (-1, errs) end) w
    = (Ret (n, errs'), w') ->
  exists b, let t := env_now (w_tick w) in
    w_db w' = when_ b (fun db => db{{ auth_db -> login_attempts ::= filter (fun a => at_at a >= t - d) }}) (w_db w) /\
    (b = false -> exists e, ErrWrap "prune login_attempts" e ∈ errs') /\ (forall e, e ∈ errs -> e ∈ errs') /\ w_tx w' = w_tx w /\
    w_tick w' = S (S (w_tick w)).
Proof.
  unfold Prune, mbind, M_bind, try, time_Now.
  match goal with |- context [update ?f ?v] => pose proof (update_cases f v) as Hc; pose proof (update_ret f v) as Hr;
    assert (w_tx (update f v).2 = w_tx w /\ w_tick (update f v).2 = S (S (w_tick w))) as Htx
      by (destruct (exec_spec (fun now _ s => inr (f now s, tt)) v) as (_ & H1 & H2 & _); done);
    destruct (update f v) as [[x|e|] w1] end;
    simpl in *; intros [= <- <- <-].
  - exists true. split; [by apply (Hr x w1)|]. by split; [|split].
  - destruct Hc as [Hc|Hc]; [exists false|exists true]; (split; [done|]);
      (split; [|split; [|done]]); intros; try done; set_solver.
Qed.

Lemma PrunePings_step d p errs w n errs' w' : step_ p (PrunePings d) errs w = (Ret (n, errs'), w') ->
  exists b, let t := env_now (w_tick w) in w_tick w' = S (S (w_tick w)) /\
    w_db w' = when_ b (fun db => db{{ monitor_db -> heartbeat_pings ::= sql_delete (fun x => p_ReceivedAt x <? t - d) }}) (w_db w) /\
    (b = false -> exists e, ErrWrap p e ∈ errs') /\ (forall e, e ∈ errs -> e ∈ errs').
Proof.
  intros H. apply (update_n_step (fun _ db => let old x := p_ReceivedAt x <? env_now (w_tick w) - d in
    (db{{ monitor_db -> heartbeat_pings ::= sql_delete old }}, sql_count old (heartbeat_pings (monitor_db db)))) p errs (tick w)) in H
    as (b & E & B & I & _ & Ht).
  exists b. eauto.
Qed.

(** The tables a sweep touches, and the files. *)
Definition tables (db : DB) :=
  (evidence_signatures (evidence_db db), audit_events db, login_attempts (auth_db db), api_idempotency (key_db db),
   email_verification_tokens (auth_db db), magic_link_tokens (auth_db db), heartbeat_pings (monitor_db db), evidence_files (evidence_db db)).

Lemma tables_when b db s a l i v m p x : tables db = (s, a, l, i, v, m, p, x) ->
  (forall f, tables (when_ b (fun db => db{{ audit_events ::= f }}) db) = (s, when_ b f a, l, i, v, m, p, x)) /\
  (forall f, tables (when_ b (fun db => db{{ auth_db -> login_attempts ::= f }}) db) = (s, a, when_ b f l, i, v, m, p, x)) /\
  (forall f, tables (when_ b (fun db => db{{ key_db -> api_idempotency ::= f }}) db) = (s, a, l, when_ b f i, v, m, p, x)) /\
  (forall f, tables (when_ b (fun db => db{{ auth_db -> email_verification_tokens ::= f }}) db) = (s, a, l, i, when_ b f v, m, p, x)) /\
  (forall f, tables (when_ b (fun db => db{{ auth_db -> magic_link_tokens ::= f }}) db) = (s, a, l, i, v, when_ b f m, p, x)) /\
  (forall f, tables (when_ b (fun db => db{{ monitor_db -> heartbeat_pings ::= f }}) db) = (s, a, l, i, v, m, when_ b f p, x)).
Proof. intros H. destruct b; [|done]. unfold tables in *. injection H as <- <- <- <- <- <- <- <-. done. Qed.

(** The statements of a sweep, one after the other. *)
Lemma tables_chain b2 b3 b4 b5 b6 b7 db1 db3 db4 db6 db7 db8 db9 f2 f3 f4 f5 f6 f7 s a l i v m p x :
  tables db1 = (s, a, l, i, v, m, p, x) ->
  db3 = when_ b2 (fun db => db{{ audit_events ::= f2 }}) db1 ->
  db4 = when_ b3 (fun db => db{{ auth_db -> login_attempts ::= f3 }}) db3 ->
  db6 = when_ b4 (fun db => db{{ key_db -> api_idempotency ::= f4 }}) db4 ->
  db7 = when_ b5 (fun db => db{{ auth_db -> email_verification_tokens ::= f5 }}) db6 ->
  db8 = when_ b6 (fun db => db{{ auth_db -> magic_link_tokens ::= f6 }}) db7 ->
  db9 = when_ b7 (fun db => db{{ monitor_db -> heartbeat_pings ::= f7 }}) db8 ->
  tables db9 = (s, when_ b2 f2 a, when_ b3 f3 l, when_ b4 f4 i, when_ b5 f5 v, when_ b6 f6 m, when_ b7 f7 p, x).
Proof.
  intros H1 -> -> -> -> -> ->.
  pose proof (proj1 (tables_when b2 _ _ _ _ _ _ _ _ _ H1) f2) as H2.
  pose proof (proj1 (proj2 (tables_when b3 _ _ _ _ _ _ _ _ _ H2)) f3) as H3.
  pose proof (proj1 (proj2 (proj2 (tables_when b4 _ _ _ _ _ _ _ _ _ H3))) f4) as H4.
  pose proof (proj1 (proj2 (proj2 (proj2 (tables_when b5 _ _ _ _ _ _ _ _ _ H4)))) f5) as H5.
  pose proof (proj1 (proj2 (proj2 (proj2 (proj2 (tables_when b6 _ _ _ _ _ _ _ _ _ H5))))) f6) as H6.
  apply (proj2 (proj2 (proj2 (proj2 (proj2 (tables_when b7 _ _ _ _ _ _ _ _ _ H6)))))).
Qed.

Lemma swept_list {X} T0 T p (errs errs' : list error) (age : X -> time) (d : Z) (l l' : list X) b t
    (P : X -> Prop) `{!forall x, Decision (P x)} :
  T0 <= t <= T ->
  (forall x, P x <-> t - d <= age x) -> l' = when_ b (filter P) l ->
  (b = false -> exists e, ErrWrap p e ∈ errs) -> (forall e, e ∈ errs -> e ∈ errs') ->
  swept T0 T errs' p (fun t x => age x < t - d) (fun x => x ∈ l) (fun x => x ∈ l').
Proof.
  intros HT HP -> Hb He. apply (swept_step T0 T errs errs' p _ _ _ b t); [done|intros; lia| |done|done].
  intros x. rewrite when_filter. specialize (HP x). split; intros [H1 H2]; (split; [done|]); intros Hx; specialize (H2 Hx); [intros ?|]; lia || (apply HP; lia) || idtac.
  apply HP in H2. lia.
Qed.

Lemma swept_map {K R} `{Countable K} T0 T p (errs errs' : list error) (age : R -> time) (d : Z) (m m' : gmap K R) b t (old : R -> bool) :
  T0 <= t <= T ->
  (forall x, old x = (age x <? t - d)) -> m' = when_ b (sql_delete old) m ->
  (b = false -> exists e, ErrWrap p e ∈ errs) -> (forall e, e ∈ errs -> e ∈ errs') ->
  swept T0 T errs' p (fun t x => age x.2 < t - d) (fun x => m !! x.1 = Some x.2) (fun x => m' !! x.1 = Some x.2).
Proof.
  intros HT HP -> Hb He. apply (swept_step T0 T errs errs' p _ _ _ b t); [done|intros; lia| |done|done].
  intros x. rewrite when_delete, HP. split; intros [H1 H2]; (split; [done|]); intros Hx; specialize (H2 Hx); lia.
Qed.

Lemma swept_ext {X} T0 T errs p (out out' : time -> X -> Prop) (before after : X -> Prop) :
  (forall t x, out t x <-> out' t x) -> swept T0 T errs p out before after -> swept T0 T errs p out' before after.
Proof. intros Ho (H1 & H2 & H3). split; [done|]. split; intros; [apply H2; [done|by rewrite Ho]|rewrite <- Ho; eauto]. Qed.

(** C25: the retention sweep forgets what it should and nothing else.
    Whatever fails in it, every row inside its window stays (audit events and
    evidence for seven years, login attempts and pings for thirty days, stored
    API responses for a day, tokens until they expire), a file no purged drill
    names stays, and no table gains a row; and each table is free of the rows
    that had outlived their window, or the error of its step is returned: a
    step that fails does not keep the others from running. *)
Theorem retention_sweep w res errs w' T0 T :
  w_tx w = None -> Sweep w = (Ret (res, errs), w') -> (forall n, (w_tick w <= n < w_tick w')%nat -> T0 <= env_now n <= T) ->
  swept T0 T errs "purge evidence" (signature_out (w_db w))
    (fun x => sigs w !! x.1 = Some x.2) (fun x => sigs w' !! x.1 = Some x.2) /\
  swept T0 T errs "prune audit_events" (fun t e => ev_At e < t - AuditRetention)
    (fun e => e ∈ audit_events (w_db w)) (fun e => e ∈ audit_events (w_db w')) /\
  swept T0 T errs "prune login_attempts" (fun t x => at_at x < t - LoginAttemptsRetention)
    (fun x => x ∈ login_attempts (auth_db (w_db w))) (fun x => x ∈ login_attempts (auth_db (w_db w'))) /\
  swept T0 T errs "prune api_idempotency" (fun t x => sr_created_at x.2 < t - APIIdempotencyRetention)
    (fun x => api_idempotency (key_db (w_db w)) !! x.1 = Some x.2) (fun x => api_idempotency (key_db (w_db w')) !! x.1 = Some x.2) /\
  swept T0 T errs "prune email_verification_tokens" (fun t x => tk_expires_at x.2 < t)
    (fun x => email_verification_tokens (auth_db (w_db w)) !! x.1 = Some x.2)
    (fun x => email_verification_tokens (auth_db (w_db w')) !! x.1 = Some x.2) /\
  swept T0 T errs "prune magic_link_tokens" (fun t x => tk_expires_at x.2 < t)
    (fun x => magic_link_tokens (auth_db (w_db w)) !! x.1 = Some x.2) (fun x => magic_link_tokens (auth_db (w_db w')) !! x.1 = Some x.2) /\
  swept T0 T errs "prune heartbeat_pings" (fun t x => p_ReceivedAt x.2 < t - HeartbeatPingsRetention)
    (fun x => heartbeat_pings (monitor_db (w_db w)) !! x.1 = Some x.2) (fun x => heartbeat_pings (monitor_db (w_db w')) !! x.1 = Some x.2) /\
  (forall key, (forall d dr r, drills (drill_db (w_db w)) !! d = Some dr -> d_EvidencePath dr = Some key ->
                  sigs w !! d = Some r -> T <= RetainUntil r) -> st_view (w_db w') key = st_view (w_db w) key).
Proof.
  intros Htx H HT. unfold Sweep in H. apply bind_ret in H as ([ev e1] & w1 & Hev & H).
  assert ((PurgeExpired w).2 = w1 /\ ((exists n, (PurgeExpired w).1 = Ret n) \/ exists e, ErrWrap "purge evidence" e ∈ e1)) as [Hw1 Hb1].
  { apply step_ret in Hev as [(k & -> & ->)|(e & -> & ->)]; (split; [done|]); [by left; exists k|right; exists e; left]. }
  pose proof (PurgeExpired_spec w Htx) as Hp. pose proof (PurgeExpired_onward w) as [Htx1 N1]. rewrite Htx, Hw1 in Htx1. rewrite Hw1 in N1.
  simpl in Hp. rewrite Hw1 in Hp. destruct Hp as (Hrest & P2 & P3 & P4 & P5).
  apply bind_ret in H as (t2 & w2 & [-> ->]%now_ret & H).
  apply bind_ret in H as ([au e2] & w3 & (b2 & E2 & B2 & I2 & X2 & N2)%update_n_step & H).
  apply bind_ret in H as ([lo e3] & w4 & (b3 & E3 & B3 & I3 & X3 & N3)%Prune_step & H).
  apply bind_ret in H as (t4 & w5 & [-> ->]%now_ret & H).
  apply bind_ret in H as ([id e4] & w6 & (b4 & E4 & B4 & I4 & X4 & N4)%update_n_step & H).
  apply bind_ret in H as ([ve e5] & w7 & (b5 & E5 & B5 & I5 & X5 & N5)%update_n_step & H).
  apply bind_ret in H as ([ml e6] & w8 & (b6 & E6 & B6 & I6 & X6 & N6)%update_n_step & H).
  apply bind_ret in H as ([hp e7] & w9 & H7 & [= <- <- <-]).
  apply PrunePings_step in H7 as (b7 & N7 & E7 & B7 & I7).
  assert (w_tx w6 = None /\ w_tx w7 = None) as [Y6 Y7] by (rewrite X5, X4; simpl; rewrite X3, X2; simpl; by rewrite Htx1).
  unfold sql_now in E5, E6. rewrite Y6 in E5. rewrite Y7 in E6. unfold default, from_option in E5, E6. cbn [w_tick tick] in *.
  set (t3 := env_now (w_tick w3)) in *. set (t7 := env_now (w_tick w8)) in *. set (tv := env_now (w_tick w6)) in *. set (tm := env_now (w_tick w7)) in *.
  assert (tables (w_db w1) = (sigs w1, audit_events (w_db w), login_attempts (auth_db (w_db w)), api_idempotency (key_db (w_db w)),
    email_verification_tokens (auth_db (w_db w)), magic_link_tokens (auth_db (w_db w)), heartbeat_pings (monitor_db (w_db w)),
    evidence_files (evidence_db (w_db w1)))) as H1.
  { exact (f_equal (fun db => (sigs w1, audit_events db, login_attempts (auth_db db), api_idempotency (key_db db),
      email_verification_tokens (auth_db db), magic_link_tokens (auth_db db), heartbeat_pings (monitor_db db),
      evidence_files (evidence_db (w_db w1)))) Hrest). }
  pose proof (tables_chain _ _ _ _ _ _ _ _ _ _ _ _ _ _ _ _ _ _ _ _ _ _ _ _ _ _ _ H1 E2 E3 E4 E5 E6 E7) as Htab.
  clear E2 E3 E4 E5 E6 E7. unfold tables in Htab. injection Htab as Hs Ha Hl Hi Hv Hm Hp Hf.
  assert (forall e, e ∈ e2 -> e ∈ e7) as J2 by auto 10. assert (forall e, e ∈ e1 -> e ∈ e7) as J1 by auto.
  split; [|split; [|split; [|split; [|split; [|split; [|split]]]]]].
  - rewrite Hs. split; [|split]; simpl.
    + intros [d r]. apply P2.
    + intros [d r] Hr Ho. apply P3; [done|]. intros [Hd Ht]. apply Ho. split; [done|]. pose proof (HT (w_tick w)) as HTw; simpl in *; lia.
    + intros Hno [d r] Hr [Hd Ht]. destruct Hb1 as [[n Hn]|[e He]]; [|by apply (Hno e), J1].
      apply (P4 n Hn d r Hr). split; [done|]. pose proof (HT (w_tick w)) as HTw; simpl in *; lia.
  - apply (swept_list _ _ _ e2 e7 ev_At _ _ _ b2 (env_now (w_tick w1)) (fun e => (ev_At e <? env_now (w_tick w1) - AuditRetention) = false)); eauto; [apply HT; lia|].
    intros x. rewrite Z.ltb_ge. lia.
  - apply (swept_list _ _ _ e3 e7 at_at _ _ _ b3 t3 (fun a => at_at a >= t3 - LoginAttemptsRetention)); eauto; [apply HT; lia|].
    intros x. lia.
  - apply (swept_map _ _ _ e4 e7 sr_created_at _ _ _ b4 (env_now (w_tick w4)) (fun r => sr_created_at r <? env_now (w_tick w4) - APIIdempotencyRetention)); eauto. apply HT; lia.
  - eapply (swept_ext _ _ _ _ (fun t x => tk_expires_at x.2 < t - 0)); [intros; lia|].
    apply (swept_map _ _ _ e5 e7 tk_expires_at 0 _ _ b5 tv (fun r => tk_expires_at r <? tv)); eauto; [apply HT; lia|]. intros x. by rewrite Z.sub_0_r.
  - eapply (swept_ext _ _ _ _ (fun t x => tk_expires_at x.2 < t - 0)); [intros; lia|].
    apply (swept_map _ _ _ e6 e7 tk_expires_at 0 _ _ b6 tm (fun r => tk_expires_at r <? tm)); eauto; [apply HT; lia|]. intros x. by rewrite Z.sub_0_r.
  - apply (swept_map _ _ _ e7 e7 p_ReceivedAt _ _ _ b7 t7 (fun x => p_ReceivedAt x <? t7 - HeartbeatPingsRetention)); eauto. apply HT; lia.
  - intros key Hk. rewrite (st_view_files _ (w_db w1)) by done. apply P5.
    intros d (r & dr & Hr & Hd & Ht & Hpath)%elem_of_expired. specialize (Hk d dr r Hd (eq_sym Hpath) Hr). pose proof (HT (w_tick w)) as HTw. lia.
Qed.
End sweep.

(** ** Concrete instances *)

#[local] Existing Instance demo_env.
#[local] Instance demo_dir : EvidenceStore := LocalStore "/ev".

(** Account 1 asked to be deleted long ago; its drill 5 left a report.
    Account 3 is a neighbour. *)
Definition past_grace : AccountRow := mkAccountRow demo_account None None (Some 0) (Some (1700000000 * second)).
Definition neighbour : AccountRow :=
  mkAccountRow (mkAccount 3 "Beta" "beta" None "trial" 0 None None false) None None None None.
Definition erase_db : DB :=
  demo_db{{ account_db -> accounts := {[ 1%N := past_grace; 3%N := neighbour ]};
            drill_db -> drills := {[ 5%N := mkDrill 5 10 1 2 StatusSucceeded None None None (Some "/ev/5.pdf") None None 0 ]};
            evidence_db -> account_evidence_keys := {[ 1%N := "wrapped"; 3%N := "wrapped too" ]};
            evidence_db -> evidence_files := {[ "/ev/5.pdf" := "sealed" ]};
            audit_events := [mkAuditEvent 1 0 (Some 1%N) (Some 2%N) "drill.completed" None None None None []] }}.

Lemma erase_db_refs : refs_inside erase_db.
Proof.
  split; simpl; unfold constant.
  - intros id d [<- <-]%lookup_singleton_Some. by eexists.
  - intros id r H. by apply lookup_empty_Some in H.
  - intros id r H. by apply lookup_empty_Some in H.
  - intros id r tm [<- <-]%lookup_singleton_Some H. done.
Qed.

Lemma erasure_complete_witness :
  exists w', HardDelete 1 (world erase_db) = (Ret tt, w') /\ rows_of 1 (w_db w') = no_rows /\
    evidence_files (evidence_db (w_db w')) !! "/ev/5.pdf" = None /\ rows_of 3 (w_db w') = rows_of 3 erase_db.
Proof.
  exists (HardDelete 1 (world erase_db)).2.
  assert (HardDelete 1 (world erase_db) = (Ret tt, (HardDelete 1 (world erase_db)).2)) as H by (vm_compute; reflexivity).
  destruct (erasure_complete 1 (world erase_db) _ erase_db_refs H) as (_ & H1 & H2 & H3 & _).
  split; [exact H|]. split; [exact H1|]. split; [apply (H2 "/ev/5.pdf"); vm_compute; left|apply H3; done].
Defined.

(** The same account, with a monitor it deleted years ago. *)
Definition blocked_db : DB :=
  erase_db{{ monitor_db -> heartbeats :=
    {[ 60%N := mkHeartbeatRow (mkHeartbeat 60 1 2 "nightly" "nightly" "tok" 60 0 "paused" None None 0) (Some 0) ]} }}.

Lemma erasure_blocked_by_heartbeat_witness :
  (exists w', PurgeWork 1 (world blocked_db) = (Fail (ErrWrap "delete account" (ErrConstraint "heartbeats_account_id_fkey")), w') /\
     evidence_files (evidence_db (w_db w')) !! "/ev/5.pdf" = None) /\
  sans_evidence 1 (w_db (PurgeWork 1 (PurgeWork 1 (world blocked_db)).2).2) = sans_evidence 1 blocked_db.
Proof.
  assert (heartbeats_left 1 blocked_db = true) as Hb by (vm_compute; reflexivity).
  destruct (erasure_blocked_by_heartbeat 1 (world blocked_db) past_grace Hb eq_refl) as [H1 H2]. split.
  - destruct H2 as (w' & H & _ & Hf); [intros m _; reflexivity|split; [done|intros t [= <-]; vm_compute; discriminate]|].
    exists w'. split; [exact H|]. apply (Hf "/ev/5.pdf"). vm_compute. left.
  - apply H1. eapply rtc_l; [apply attempt_|]. apply rtc_once, attempt_.
Defined.

Lemma erasure_waits_witness :
  w_db (PurgeWork 1 (world demo_db)).2 = demo_db /\ (PurgeWork 1 (world demo_db)).1 = Ret tt.
Proof.
  destruct (erasure_waits 1 (world demo_db) (mkAccountRow demo_account None None None None) eq_refl) as [H1 H2]; [by left|].
  split; [exact H1|apply H2; reflexivity].
Defined.

(** The process dies in the DELETE of the first attempt, which is not applied. *)
Definition dying : Env := fault_at 5 (FCrash false).

Lemma export_shows_one_account_witness :
  exists doc w', Export (uuids := demo_uuid) (fun _ => ANil) (fun _ => "{}") 1 (world erase_db) = (Ret doc, w') /\ w_db w' = erase_db.
Proof.
  exists "{}", (Export (uuids := demo_uuid) (fun _ => ANil) (fun _ => "{}") 1 (world erase_db)).2.
  assert (Export (uuids := demo_uuid) (fun _ => ANil) (fun _ => "{}") 1 (world erase_db)
    = (Ret "{}", (Export (uuids := demo_uuid) (fun _ => ANil) (fun _ => "{}") 1 (world erase_db)).2)) as H by (vm_compute; reflexivity).
  split; [exact H|]. apply (export_shows_one_account _ _ _ _ _ _ H).
Defined.

(** An audit event of 1970 and one of the current minute; the clock of the
    sweep shows the minute after 1800000000. *)
Definition aged_db : DB :=
  demo_db{{ audit_events := [mkAuditEvent 1 0 None None "old" None None None None [];
                             mkAuditEvent 2 (1800000000 * second) None None "new" None None None None []] }}.
Lemma retention_sweep_witness :
  exists res w', Sweep (world aged_db) = (Ret (res, []), w') /\ AuditPruned res = 1 /\
    Forall (fun e => ev_ID e = 2) (audit_events (w_db w')) /\ audit_events (w_db w') <> [].
Proof.
  exists (mkSweepResult 0 1 (-1) 0 0 0 0), (Sweep (world aged_db)).2.
  assert (Sweep (world aged_db) = (Ret (mkSweepResult 0 1 (-1) 0 0 0 0, []), (Sweep (world aged_db)).2)) as H by (vm_compute; reflexivity).
  destruct (retention_sweep (world aged_db) _ [] _ (1800000000 * second) (1800000060 * second) eq_refl H) as (_ & Ha & _).
  { intros n [_ Hn]. vm_compute in Hn. simpl. unfold second. lia. }
  destruct Ha as (H1 & H2 & H3). split; [exact H|]. split; [reflexivity|]. split.
  - apply Forall_forall. intros e He. specialize (H3 (fun e' => not_elem_of_nil _) e He). apply H1 in He.
    simpl in He. unfold constant in He. repeat (apply elem_of_cons in He as [->|He]); [exfalso; apply H3|reflexivity|].
    + vm_compute. reflexivity.
    + by apply not_elem_of_nil in He.
  - intros Hnil. assert (mkAuditEvent 2 (1800000000 * second) None None "new" None None None None [] ∈ audit_events (w_db (Sweep (world aged_db)).2)) as Hin.
    { apply H2; [right; left|]. vm_compute. discriminate. }
    rewrite Hnil in Hin. by apply not_elem_of_nil in Hin.
Defined.
