(* ===== verification/Tenants.v ===== *)
(** Tenant isolation at the level of statements: what a call made for one
    account does to the rows of another.  [Other] is the invariant the
    handlers' theorems carry; each statement of the stores has its lemma. *)
From S2P Require Import Prelude Crypto Effects Schema Encoding AuditLog DrillStore Assertions Steps AccountStore Http AuthStore Cipher Signer EvidenceStore Evidence Compliance ApiKey.
From S2P Require Import ComplianceFacts DrillStoreFacts.

(** One-row and many-row reads, for the postconditions below. *)
Section reads.
Context `{env : Env} {S : Type}.
Lemma wp_query {A} (q : Z -> S -> A) (Q : outcome A -> World S -> Prop) w :
  (forall w', w_db w' = w_db w -> Q (Ret (q (sql_now w) (w_db w))) w') ->
  (forall o w', w_db w' = w_db w -> (forall a, o <> Ret a) -> Q o w') -> wp (query q) Q w.
Proof.
  intros Hr Hf. apply wp_exec. intros o w' (_ & _ & _ & H). destruct o as [a|e|]; simpl in H.
  - injection H as Hdb <-. by apply Hr.
  - apply Hf; [|done]. destruct H as [[? _]|[_ [? [= ? _]]]]; done.
  - apply Hf; [|done]. destruct H as [?|[? [= ? _]]]; done.
Qed.
Lemma wp_query_row {A} (q : Z -> S -> option A) (Q : outcome A -> World S -> Prop) w :
  (forall a w', w_db w' = w_db w -> q (sql_now w) (w_db w) = Some a -> Q (Ret a) w') ->
  (forall o w', w_db w' = w_db w -> (forall a, o <> Ret a) -> Q o w') -> wp (query_row q) Q w.
Proof.
  intros Hr Hf. apply wp_exec. intros o w' (_ & _ & _ & H). simpl in H. destruct (q (sql_now w) (w_db w)) as [b|]; destruct o as [a|e|].
  - injection H as Hdb <-. by apply Hr.
  - apply Hf; [|done]. destruct H as [[? _]|[_ [? [= ? _]]]]; done.
  - apply Hf; [|done]. destruct H as [?|[? [= ? _]]]; done.
  - done.
  - apply Hf; [|done]. destruct H as [[? _]|[_ [? [=]]]]; done.
  - apply Hf; [|done]. destruct H as [?|[? [=]]]; done.
Qed.
(** A sentinel in place of no rows does not change when a call returns. *)
Lemma wp_no_rows_as {A} s (m : M S A) (Q : outcome A -> World S -> Prop) w :
  wp m (fun o w' => match o with Ret a => Q (Ret a) w' | Crash => Q Crash w' | Fail _ => forall e, Q (Fail e) w' end) w ->
  wp (no_rows_as s m) Q w.
Proof. unfold wp, no_rows_as, try, mbind, M_bind. destruct (m w) as [[a|e|] w1]; simpl; auto. Qed.
Lemma wp_or_else {A R} (m : M DB A) (bad : error -> R) k (Q : outcome R -> World DB -> Prop) w :
  wp m (fun o w' => match o with Ret a => wp (k a) Q w' | Fail e => Q (Ret (bad e)) w' | Crash => Q Crash w' end) w ->
  wp (or_else m bad k) Q w.
Proof. unfold wp, or_else, try, mbind, M_bind. by destruct (m w) as [[a|e|] w1]. Qed.
(** The continuation of a call that returned may use what it left behind. *)
Lemma or_else_post {A R} (I : DB -> Prop) (Phi : A -> DB -> Prop) (m : M DB A) (bad : error -> R) k :
  preserves I m -> (forall w a w', I (w_db w) -> m w = (Ret a, w') -> Phi a (w_db w')) ->
  (forall a, preserves (fun db => I db /\ Phi a db) (k a)) -> preserves I (or_else m bad k).
Proof.
  intros Hm Hp Hk w HI. specialize (Hm w HI). specialize (fun a w' => Hp w a w' HI). unfold or_else, try, mbind, M_bind.
  destruct (m w) as [[a|e|] w1]; simpl in *; [|done..]. apply Hk; auto.
Qed.
End reads.

Section own_updates.
Context {K : Type} `{Countable K} {R : Type}.
Implicit Types (m : gmap K R).

Lemma own_insert P m k r : m !! k = None -> P k r = false -> own P (<[ k := r ]> m) = own P m.
Proof.
  intros Hn HP. unfold own. rewrite map_filter_insert_False by (simpl; congruence). by rewrite delete_id.
Qed.
Lemma own_alter P (f : R -> R) m k :
  (forall r, m !! k = Some r -> P k r = false /\ P k (f r) = false) -> own P (alter f k m) = own P m.
Proof.
  intros Hf. apply map_eq. intros j. apply option_eq. intros r. unfold own. rewrite !map_lookup_filter_Some. simpl.
  destruct (decide (j = k)) as [->|Hj]; [|by rewrite lookup_alter_ne].
  rewrite lookup_alter_eq. destruct (m !! k) as [r0|]; [|done]. destruct (Hf r0 eq_refl). simpl.
  split; intros [[= <-] ?]; congruence.
Qed.
Lemma own_update P p (f : R -> R) m :
  (forall k r, m !! k = Some r -> p r = true -> P k r = false /\ P k (f r) = false) -> own P (sql_update p f m) = own P m.
Proof.
  intros Hf. apply map_eq. intros j. apply option_eq. intros r. unfold own. rewrite !map_lookup_filter_Some. simpl.
  rewrite lookup_sql_update. destruct (m !! j) as [r0|] eqn:E; [|done]. simpl. destruct (p r0) eqn:Ep; [|done].
  destruct (Hf j r0 E Ep). split; intros [[= <-] ?]; congruence.
Qed.
Lemma lookup_alter_Some_inv (f : R -> R) m k j r :
  alter f k m !! j = Some r -> exists r0, (if decide (j = k) then f r0 else r0) = r /\ m !! j = Some r0.
Proof.
  case_decide as Hj; [subst j|rewrite lookup_alter_ne by done; eauto]. rewrite lookup_alter_eq.
  destruct (m !! k) as [r0|]; [|done]. intros [= <-]. eauto.
Qed.
End own_updates.

(** Rows sit under their identifiers, and an idempotency key names a drill of
    its own account. *)
Record tenant_wf `{UuidLib} (db : DB) : Prop := mkTenantWf {
  tw_accounts : forall k r, accounts (account_db db) !! k = Some r -> a_ID (acr_account r) = k;
  tw_targets  : forall k r, targets (drill_db db) !! k = Some r -> t_ID (tr_target r) = k;
  tw_drills   : forall k d, drills (drill_db db) !! k = Some d -> d_ID d = k;
  tw_keys     : forall k r, api_keys (key_db db) !! k = Some r -> k_ID (kr_key r) = k;
  tw_idem     : forall a key row id, idempotency_keys (drill_db db) !! (a, key, drill_create_scope) = Some row ->
    uuid_Parse (ik_TargetID row) = inr id -> exists d, drills (drill_db db) !! id = Some d /\ d_AccountID d = a
}.

Section tenants.
Context `{env : Env} `{uuids : UuidLib} `{!UuidOk} `{rand : Rand} (A B : uuid) (HAB : B <> A) (x : AccountRows).

Definition Other (db : DB) : Prop := rows_of B db = x /\ tenant_wf db.

(** A statement that touches nothing the invariant reads. *)
Lemma Other_same db db' : Other db -> rows_of B db' = rows_of B db ->
  (accounts (account_db db'), targets (drill_db db'), drills (drill_db db'), api_keys (key_db db'), idempotency_keys (drill_db db'))
  = (accounts (account_db db), targets (drill_db db), drills (drill_db db), api_keys (key_db db), idempotency_keys (drill_db db)) ->
  Other db'.
Proof.
  intros [Hx Hw] Hr Heq. injection Heq as E1 E2 E3 E4 E5. split; [congruence|]. destruct Hw. by constructor; rewrite ?E1, ?E2, ?E3, ?E4, ?E5.
Qed.

Lemma neq_bool (y : uuid) : y = A -> bool_decide (y = B) = false.
Proof. intros ->. by apply bool_decide_eq_false. Qed.

(** *** The audit log *)

Lemma Other_Record e : e_AccountID e <> Some B -> preserves Other (Record_ e).
Proof.
  intros He. apply preserves_exec. intros t u db db' a HO Heq.
  assert (exists ev, db' = db{{ audit_events ::= fun l => l ++ [ev] }} /\ ev_AccountID ev = e_AccountID e) as (ev & -> & Hev)
    by (repeat case_match; try discriminate Heq; injection Heq as <- _; eexists; split; reflexivity).
  eapply Other_same; [exact HO| |done]. unfold rows_of. f_equal.
  change (audit_events (db{{ audit_events ::= fun l => l ++ [ev] }})) with (audit_events db ++ [ev]).
  rewrite filter_app, filter_cons_False, filter_nil by congruence. apply app_nil_r.
Qed.
Lemma Other_audit actor action kind id ip ua md : preserves Other (Record_ (EventLit (Some A) actor action kind id ip ua md)).
Proof. apply Other_Record. simpl. congruence. Qed.
Lemma Other_event actor action kind id md : preserves Other (Record_ (mkEvent (Some A) actor action kind id md)).
Proof. apply Other_Record. simpl. congruence. Qed.

(** *** Targets and assertions *)

Lemma Other_CreateTarget t : t_AccountID t = A -> preserves Other (CreateTarget t).
Proof.
  intros Ht. apply preserves_exec. intros now id db db' a [Hx Hw] Heq. repeat case_match; try discriminate Heq. injection Heq as <- _.
  match goal with H : targets (drill_db db) !! id = None |- _ => rename H into Hn end.
  split.
  - rewrite <- Hx. unfold rows_of. f_equal.
    + apply own_insert; [done|]. by apply neq_bool.
    + apply own_ext. intros k r _. unfold target_gone. simpl.
      destruct (decide (as_TargetID r = id)) as [->|]; [|by rewrite lookup_insert_ne by done].
      rewrite lookup_insert_eq, Hn. simpl. by apply neq_bool.
  - destruct Hw. constructor; simpl; try done. intros k r [[<- <-]|[_ Hr]]%lookup_insert_Some; [done|by apply tw_targets0].
Qed.

Lemma CreateTarget_fresh t w t' w' : t_AccountID t = A -> CreateTarget t w = (Ret t', w') ->
  target_gone B (w_db w') (t_ID t') = false.
Proof.
  intros Ht [Heq _]%exec_ret. repeat case_match; try discriminate Heq. injection Heq as <- <-. unfold target_gone. simpl.
  rewrite lookup_insert_eq. simpl. by apply neq_bool.
Qed.

Definition not_theirs (target : uuid) (db : DB) : Prop := target_gone B db target = false.

Lemma Other_CreateAssertion target kind cfg :
  preserves (fun db => Other db /\ not_theirs target db) (CreateAssertion target kind cfg).
Proof.
  apply preserves_exec. intros now id db db' a [HO Hn] Heq. repeat case_match; try discriminate Heq. injection Heq as <- _.
  split; [|exact Hn]. eapply Other_same; [exact HO| |done]. unfold rows_of. f_equal. apply own_insert; [done|]. exact Hn.
Qed.

(** *** Drills *)

Definition my_drill (id : uuid) (db : DB) : Prop := exists d, drills (drill_db db) !! id = Some d /\ d_AccountID d = A.

Lemma my_drill_own id db : my_drill id db -> own_drill B db id = false.
Proof. intros (d & Hd & <-). unfold own_drill. rewrite Hd. by apply bool_decide_eq_false. Qed.

Lemma Other_created by_ target key id n n' db :
  drills (drill_db db) !! id = None -> idempotency_keys (drill_db db) !! (A, key, drill_create_scope) = None -> Other db ->
  Other (created A by_ target key id n n' db).
Proof.
  intros Hd Hk [Hx Hw]. split.
  - rewrite <- Hx. unfold rows_of, created. f_equal.
    + apply own_insert; [done|]. by apply neq_bool.
    + apply own_ext. intros k r _. unfold own_drill. simpl.
      destruct (decide (s_DrillID r = id)) as [->|]; [|by rewrite lookup_insert_ne by done].
      rewrite lookup_insert_eq, Hd. simpl. by apply neq_bool.
    + apply own_ext. intros k r _. unfold own_drill. simpl.
      destruct (decide (ar_DrillID r = id)) as [->|]; [|by rewrite lookup_insert_ne by done].
      rewrite lookup_insert_eq, Hd. simpl. by apply neq_bool.
    + apply own_insert; [exact Hk|]. simpl. by apply neq_bool.
    + apply own_ext. intros k r _. unfold own_drill. simpl.
      destruct (decide (k = id)) as [->|]; [|by rewrite lookup_insert_ne by done].
      rewrite lookup_insert_eq, Hd. simpl. by apply neq_bool.
  - destruct Hw. constructor; simpl; try done.
    + intros k d [[<- <-]|[_ Hr]]%lookup_insert_Some; [done|by apply tw_drills0].
    + intros a0 key0 row0 id0 [[Ek <-]|[_ Hr]]%lookup_insert_Some.
      * injection Ek as <- <-. simpl. rewrite uuid_Parse_String. intros [= <-]. rewrite lookup_insert_eq. by eexists.
      * intros Hp. destruct (tw_idem0 _ _ _ _ Hr Hp) as (d & Hd' & <-). exists d.
        rewrite lookup_insert_ne by congruence. done.
Qed.

Lemma CreateDrill_Other by_ target key w o w' :
  Other (w_db w) -> CreateDrillIdempotent A by_ target key w = (o, w') ->
  Other (w_db w') /\ forall id r, o = Ret (id, r) -> my_drill id (w_db w').
Proof.
  intros HO Hc. destruct (create_cases _ _ _ _ _ _ _ Hc) as [[Hdb Hret]|(id & n & n' & Hk & Hd & Hdb & Hret)].
  - rewrite Hdb. split; [done|]. intros id r Ho. destruct (Hret id r Ho) as (_ & row & Hrow & Hp). by apply (tw_idem _ (proj2 HO) A key row id).
  - rewrite Hdb. split; [by apply Other_created|]. intros id' r Ho. destruct (Hret id' r Ho) as [-> _].
    unfold my_drill, created. simpl. rewrite lookup_insert_eq. by eexists.
Qed.

Lemma EnqueueDrill_Other id prio : preserves (fun db => Other db /\ my_drill id db) (EnqueueDrill id prio).
Proof.
  unfold EnqueueDrill. apply preserves_bind.
  - generalize 0. induction AllSteps as [|n l IH]; intros i; simpl; [apply preserves_ret|].
    apply preserves_bind; [|intros []; [apply preserves_fail|apply IH]]. apply preserves_try, preserves_exec.
    intros t u db db' a [HO Hm] Heq. repeat case_match; try discriminate Heq; injection Heq as <- _; [done|].
    split; [|exact Hm]. eapply Other_same; [exact HO| |done]. unfold rows_of. f_equal. apply own_insert; [done|].
    by apply my_drill_own.
  - intros _. apply preserves_wp. intros w [HO Hm]. apply wp_bind, wp_try. unfold GetDrillByID, no_rows_as.
    apply wp_bind, wp_try, wp_exec. intros o w1 (_ & _ & _ & Hr).
    assert (w_db w1 = w_db w /\ forall d, o = Ret d -> d_AccountID d = A) as [Hw1 Ho].
    { destruct Hm as (d & Hd & Ha). rewrite Hd in Hr. destruct o as [d'|e|]; simpl in Hr.
      - injection Hr as Hdb <-. split; [done|]. by intros ? [= <-].
      - split; [|done]. destruct Hr as [[? _]|[_ [? [= ? _]]]]; done.
      - split; [|done]. destruct Hr as [?|[? [= ? _]]]; done. }
    assert (forall m : GO unit, preserves (fun db => Other db /\ my_drill id db) m -> wp (m ;; r ← try (Insert (ProvisionArgs id) (if 0 <? prio then prio else 0));
      match r with inl e => fail (ErrWrap "enqueue provision" e) | inr _ => mret tt end)
      (fun _ w' => Other (w_db w') /\ my_drill id (w_db w')) w1) as Hrest.
    { intros m Hp. apply (preserves_bind (fun db => Other db /\ my_drill id db)); [exact Hp| |by rewrite Hw1]. intros _.
      apply preserves_bind; [|intros []; preserve]. apply preserves_try, preserves_update. intros t db [HO' Hm']. split; [|exact Hm'].
      by eapply Other_same. }
    destruct o as [d|e|]; [| |by rewrite Hw1].
    + apply wp_ret. specialize (Ho d eq_refl). apply Hrest. apply preserves_ignore. intros v [HO' Hm']. split.
      * apply Other_Record; [|done]. simpl. congruence.
      * assert (frame (fun db => drills (drill_db db)) (Record_ (mkEvent (Some (d_AccountID d)) (Some (d_CreatedByUserID d)) "drill.created" "drill"
           (uuid_String id) [("target_id", AString (uuid_String (d_TargetID d)))]))) as Hf by (apply frame_Record; done).
        unfold my_drill. by rewrite (Hf v).
    + apply wp_fail. apply Hrest. apply preserves_ret.
Qed.

(** *** Deletion, keys, evidence *)

Lemma Other_SoftDelete grace actor : preserves Other (SoftDelete grace A actor).
Proof.
  unfold SoftDelete. apply preserves_bind; [apply preserves_now|]. intros now. apply preserves_bind.
  - apply preserves_update_n. intros t db [Hx Hw]. simpl. split.
    + rewrite <- Hx. unfold rows_of. f_equal. pose proof (tw_accounts _ Hw B) as HB.
      destruct db as [? [accs ? ? ? ? ? ?] ? ? ? ? ? ?]. simpl in *. rewrite lookup_sql_update.
      destruct (accs !! B) as [r|] eqn:E; [|done]. simpl. by rewrite (HB r eq_refl), bool_decide_eq_false_2.
    + destruct Hw. constructor; simpl; try done. intros k r (r0 & Hr0 & ->)%lookup_sql_update_Some.
      specialize (tw_accounts0 _ _ Hr0). destruct r0; simpl in *. by destruct (_ && _).
  - intros n. destruct (n =? 0)%nat; [apply preserves_fail|].
    apply preserves_bind; [apply preserves_ignore, Other_event|intros _; apply preserves_ret].
Qed.

Lemma Other_InsertPurge at_ : preserves Other (InsertPurge A at_).
Proof.
  apply preserves_exec. intros t u db db' a HO Heq. case_match; [done|]. injection Heq as <- _. by eapply Other_same.
Qed.

(** Stamping a key of another account. *)
Lemma Other_touch j now db : Other db -> (forall r, api_keys (key_db db) !! j = Some r -> k_AccountID (kr_key r) <> B) ->
  Other (db{{ key_db -> api_keys ::= alter (fun r => r{{ kr_key -> k_LastUsedAt := Some now }}) j }}).
Proof.
  intros [Hx Hw] Hj. split.
  - rewrite <- Hx. unfold rows_of. f_equal. apply own_alter. intros r Hr. specialize (Hj r Hr).
    destruct r as [[] ?]; simpl in *. by rewrite !bool_decide_eq_false_2.
  - destruct Hw. destruct db as [? ? ? ? ? ? [] ?]. constructor; simpl in *; try done. intros k r (r0 & <- & Hr0)%lookup_alter_Some_inv.
    specialize (tw_keys0 _ _ Hr0). by destruct r0 as [[] ?]; case_decide.
Qed.

(** The account a presented key speaks for. *)
Definition speaks_for (raw : string) (db : DB) (a : uuid) : Prop :=
  exists j r, api_keys (key_db db) !! j = Some r /\ usable (hash raw) db r = true /\ k_RevokedAt (kr_key r) = None /\ k_AccountID (kr_key r) = a.

Lemma Authenticate_Other raw w :
  Other (w_db w) -> ~ speaks_for raw (w_db w) B ->
  wp (Authenticate raw) (fun o w' => Other (w_db w') /\ forall k, o = Ret k -> k_AccountID k <> B) w.
Proof.
  intros HO Hno. unfold Authenticate. case_match; [by apply wp_fail|].
  apply wp_bind, wp_no_rows_as, wp_query_row; [|intros o w1 -> Ho; destruct o; [by destruct (Ho a)|done|done]].
  intros k w1 Hw1 Hk. destruct (head _) as [r|] eqn:E; [|done]. injection Hk as <-.
  apply head_select_Some in E as [Hu [j Hj]].
  destruct (k_RevokedAt (kr_key r)) eqn:Erev; [by apply wp_fail; rewrite Hw1|].
  assert (k_AccountID (kr_key r) <> B) as HkB by (intros Hk; apply Hno; by exists j, r).
  apply wp_bind, wp_ignore. unfold wp.
  assert (Other (w_db (update (fun now db => db{{ key_db -> api_keys ::=
        alter (fun r => r{{ kr_key -> k_LastUsedAt := Some now }}) (k_ID (kr_key r)) }}) w1).2)) as HO2.
  { destruct (update_cases (fun now db => db{{ key_db -> api_keys ::=
        alter (fun r => r{{ kr_key -> k_LastUsedAt := Some now }}) (k_ID (kr_key r)) }}) w1) as [->| ->]; rewrite Hw1; [done|].
    apply Other_touch; [done|]. intros r'. rewrite (tw_keys _ (proj2 HO) _ _ Hj), Hj. by intros [= <-]. }
  destruct (update _ w1) as [[[]|e|] w2]; simpl in *; split; try done; by intros ? [= <-].
Qed.

Lemma Other_set_wrapped wrapped : preserves Other (set_wrapped A wrapped).
Proof.
  apply preserves_update. intros t db HO. eapply Other_same; [exact HO| |done]. unfold rows_of. f_equal. by apply lookup_alter_ne.
Qed.
Lemma Other_Read `{st : EvidenceStore} `{!EvidenceStoreOk st} c key : preserves Other (Read c A key).
Proof.
  unfold Read. apply preserves_bind; [intros w; by rewrite ReadAll_view|]. intros blob. unfold Decrypt.
  apply preserves_bind; [|intros; apply preserves_lift]. unfold accountDEK, loadWrappedDEK.
  apply preserves_bind; [apply preserves_try, preserves_query_row|]. intros r.
  apply preserves_bind; [destruct r as [e|]; [destruct (errors_Is e ErrNoRows)|]; preserve|]. intros wrapped.
  apply preserves_bind; [|intros; apply preserves_lift]. unfold unwrapDEK.
  destruct (openAAD _ _ _); [|apply preserves_ret]. destruct (first_open _ _ _); [|apply preserves_fail].
  apply preserves_bind; [apply preserves_try; unfold sealAAD; preserve|]. intros [?|rw].
  - apply preserves_bind; [apply preserves_ret|intros; apply preserves_ret].
  - apply preserves_bind; [apply preserves_ignore, Other_set_wrapped|intros; apply preserves_ret].
Qed.
End tenants.
