(* ===== verification/V1Facts.v ===== *)
(** What the JSON API guarantees: a request changes nothing for any account
    but the one its key speaks for, and nothing its scopes do not cover. *)
From S2P Require Import Prelude Crypto Effects Schema Encoding Path Time AuditLog Plans AccountStore DrillStore Assertions Steps Http AuthStore Web.
From S2P Require Import Cipher Signer EvidenceStore Evidence Scheduler Targets Compliance Heartbeat ApiKey V1 ComplianceFacts DrillStoreFacts TargetFacts Tenants Demo AccountFacts EvidenceFacts.
From Stdlib Require Import Ascii.

(** ** Tenant isolation *)

Section isolation.
Context `{env : Env} `{uuids : UuidLib} `{uok : !UuidOk} `{rand : Rand} `{json : JsonLib} `{api : ApiJson} `{host : Host} `{ed : Ed25519}.
Context `{store : EvidenceStore} `{store_ok : !EvidenceStoreOk store} (signer : Signer) (cipher : Cipher).
Context (sourceDir : string) (grace : Z) (allow : string -> GO bool).
Context (allow_memory : forall key, frame (fun db => db) (allow key)).

Section caller.
Context (B : uuid) (x : AccountRows) (c : Caller) (Hc : B <> a_ID (ca_acct c)).
Notation Oth := (Other B x).

Lemma preserves_frame_db {A} I (m : GO A) : frame (fun db => db) m -> preserves I m.
Proof. intros Hf w HI. by rewrite (Hf w). Qed.
Lemma preserves_resolve I p : preserves I (resolveSourcePath sourceDir p).
Proof.
  assert (forall q, preserves I (os_Stat q)) as Hs by (intros; apply preserves_os_Stat).
  assert (forall q, preserves I (Abs_ q)) as Ha by (intros q w; unfold Abs_; by destruct (Abs _ _)).
  unfold resolveSourcePath. preserve.
Qed.

Lemma Oth_store key fp r : preserves Oth (store_response (a_ID (ca_acct c)) key fp r).
Proof.
  apply preserves_exec. intros t u db db' a HO Heq. repeat case_match; try discriminate Heq; injection Heq as <- _; [done|].
  eapply Other_same; [exact HO| |done]. unfold rows_of. f_equal. apply own_insert; [done|]. simpl. by apply bool_decide_eq_false.
Qed.

Lemma Oth_idempotency q next : (forall q, preserves Oth (next q)) -> preserves Oth (v1Idempotency q c next).
Proof.
  intros Hn. unfold v1Idempotency. case_match; [apply preserves_ret|]. destruct (read_body q); [apply preserves_ret|].
  apply preserves_bind; [apply preserves_try, preserves_query_row|]. intros [?|s0].
  - apply preserves_bind; [done|]. intros r. apply preserves_bind; [|intros; apply preserves_ret].
    case_match; [apply preserves_ignore, Oth_store|apply preserves_ret].
  - case_match; apply preserves_ret.
Qed.

Local Ltac step_ :=
  first
  [ apply preserves_ret | apply preserves_fail | apply preserves_now | apply preserves_query | apply preserves_query_row
  | apply or_else_preserves; [|intros ?] | apply parse_id_preserves; intros ? | apply preserves_no_rows_as
  | apply preserves_bind; [|intros ?] | apply preserves_try | apply preserves_resolve
  | match goal with |- preserves _ (match ?e with _ => _ end) => destruct e end ].
Local Ltac calm := repeat step_.

Lemma Oth_read_page q : preserves Oth (v1ListDatabases q c) /\ preserves Oth (v1ListDrills q c) /\ preserves Oth (v1ListAlerts q c).
Proof.
  split; [|split].
  - unfold v1ListDatabases. destruct (parsePageParams q) as [|[limit cur]]; calm. unfold ListAssertionsForTargets. calm.
  - unfold v1ListDrills. destruct (parsePageParams q) as [|[limit cur]]; calm.
  - unfold v1ListAlerts. calm.
Qed.
Lemma Oth_read_one id :
  preserves Oth (v1GetDatabase id c) /\ preserves Oth (v1GetDrill id c) /\ preserves Oth (v1GetSignature id c) /\
  preserves Oth (v1GetLogs id c) /\ preserves Oth (v1ListHeartbeats c) /\ preserves Oth (v1GetHeartbeat id c).
Proof. repeat split_and; unfold v1GetDatabase, v1GetDrill, v1GetSignature, v1GetLogs, v1ListHeartbeats, v1GetHeartbeat, own_drill; calm. Qed.
Lemma Oth_evidence id : preserves Oth (v1GetEvidence cipher id c).
Proof.
  unfold v1GetEvidence, own_drill. apply parse_id_preserves. intros i. apply or_else_preserves; [calm|]. intros d.
  destruct (has_evidence d); [|apply preserves_ret]. apply preserves_bind; [|intros []; apply preserves_ret].
  apply preserves_try. by apply Other_Read.
Qed.

Lemma Oth_block : preserves Oth (v1BlockFreeReal (ca_acct c)).
Proof. apply preserves_bind; [apply preserves_canDrillReal|]. intros; apply preserves_ret. Qed.

(** Inserting the assertions of a database that was just created. *)
Lemma Oth_attach l target stored :
  preserves (fun db => Oth db /\ not_theirs B target db) (attach target l stored).
Proof.
  revert stored. induction l as [|a l IH]; intros stored; simpl; [apply preserves_ret|].
  apply preserves_bind; [apply Other_CreateAssertion|]. intros ?. apply IH.
Qed.

Lemma Oth_create_database q : preserves Oth (v1CreateDatabase sourceDir q c).
Proof.
  unfold v1CreateDatabase. apply preserves_bind; [apply Oth_block|]. intros [r|]; [apply preserves_ret|].
  destruct (decodeJSONBody _ q) as [req|]; [|apply preserves_ret]. cbv zeta. case_match; [apply preserves_ret|].
  destruct (first_invalid 0 _) as [[i e]|]; [apply preserves_ret|]. apply or_else_preserves; [apply preserves_resolve|]. intros path.
  apply preserves_bind; [calm|]. intros existing. case_match; [apply preserves_ret|].
  apply (or_else_post _ (fun t db => not_theirs B (t_ID t) db)); [by apply (Other_CreateTarget (a_ID (ca_acct c)))|intros w t w' _ E; eapply (CreateTarget_fresh (a_ID (ca_acct c)) B Hc); [|exact E]; done|].
  intros t. apply or_else_preserves; [apply Oth_attach|]. intros; apply preserves_ret.
Qed.

Lemma Oth_create_drill q : preserves Oth (v1CreateDrill q c).
Proof.
  unfold v1CreateDrill. cbv zeta. destruct (decodeJSONBody _ q) as [did|]; [|apply preserves_ret].
  apply parse_id_preserves. intros tid. apply or_else_preserves; [calm|]. intros t.
  apply preserves_bind; [destruct (t_IsSample t); [apply preserves_ret|apply Oth_block]|]. intros [r|]; [apply preserves_ret|].
  apply preserves_quota_gate, preserves_size_gate. apply (or_else_post _ (fun r db => my_drill (a_ID (ca_acct c)) r.1 db)).
  - intros w HO. destruct (CreateDrillIdempotent _ _ _ _ w) as [o w'] eqn:E. by eapply CreateDrill_Other.
  - intros w [id r] w' HO E. by eapply (CreateDrill_Other _ _ Hc x _ _ _ _ (Ret (id, r))).
  - intros [id r]. apply or_else_preserves; [by apply EnqueueDrill_Other|]. intros _. apply or_else_preserves; [calm|]. intros; apply preserves_ret.
Qed.

Lemma Oth_delete_account q id : preserves Oth (v1DeleteAccount grace id q c).
Proof.
  unfold v1DeleteAccount. apply parse_id_preserves. intros p. case_match; [apply preserves_ret|].
  apply or_else_preserves; [by apply Other_SoftDelete|]. intros t.
  apply preserves_bind; [apply preserves_ignore; by apply Other_InsertPurge|]. intros _.
  apply preserves_bind; [apply preserves_ignore; by apply Other_audit|]. intros _. apply preserves_ret.
Qed.

Lemma Oth_scope scope next : preserves Oth next -> preserves Oth (v1RequireScope scope c next).
Proof. intros Hn. unfold v1RequireScope. case_match; [done|apply preserves_ret]. Qed.
Lemma Oth_trial next : preserves Oth next -> preserves Oth (v1RequireUnlapsedTrial c next).
Proof. intros Hn. apply preserves_bind; [apply preserves_now|]. intros t. case_match; [apply preserves_ret|done]. Qed.

Lemma Oth_routes : Forall (fun r => forall id q, preserves Oth (rt_Handler r id q c)) (v1_routes sourceDir cipher grace).
Proof.
  repeat (apply Forall_cons; split); [..|apply Forall_nil_2]; intros id q; apply Oth_scope;
    first [apply Oth_read_page | apply (Oth_read_one id) | apply Oth_evidence | idtac].
  - apply Oth_trial, Oth_idempotency. intros q'. apply Oth_create_database.
  - apply Oth_trial, Oth_idempotency. intros q'. apply Oth_create_drill.
  - apply Oth_idempotency. intros q'. apply Oth_delete_account.
Qed.

Lemma Oth_dispatch routes wrong segs q :
  Forall (fun r => forall id q, preserves Oth (rt_Handler r id q c)) routes -> preserves Oth (dispatch routes wrong segs q c).
Proof.
  intros Hr. revert wrong. induction Hr as [|r l Hr Hl IH]; intros wrong; simpl; [apply preserves_ret|].
  destruct (match_segs _ _); [|apply IH]. case_bool_decide; [apply Hr|apply IH].
Qed.
End caller.

(** C9: whatever the request and whatever fails, the API changes no row of
    an account the presented key does not speak for: not its databases,
    drills, steps, results, checks, monitors, keys, stored responses,
    evidence keys, signatures or audit events. *)
Theorem api_tenant_isolation B q w :
  tenant_wf (w_db w) ->
  (forall raw, bearerToken (q_Authorization q) = Some raw -> ~ speaks_for raw (w_db w) B) ->
  rows_of B (w_db (v1Router sourceDir cipher grace allow q w).2) = rows_of B (w_db w).
Proof.
  intros Hw Hno. enough (wp (v1Router sourceDir cipher grace allow q) (fun _ w' => Other B (rows_of B (w_db w)) (w_db w')) w) as [H _] by exact H.
  unfold v1Router, v1Authenticate. destruct (bearerToken _) as [raw|] eqn:Eb; [|by apply wp_ret].
  apply wp_or_else. eapply wp_mono; [apply (Authenticate_Other B (rows_of B (w_db w))); [done|by apply Hno]|].
  intros [k|e|] w1 [HO Hk]; [|done..]. specialize (Hk k eq_refl). apply wp_or_else, wp_no_rows_as, wp_query_row.
  2: { intros o w2 Hw2 Ho. destruct o as [a|e|]; [by destruct (Ho a)|intros e'|]; unfold wp; simpl; by rewrite Hw2. }
  intros a w2 Hw2 Ha. destruct (accounts _ !! _) as [r|] eqn:Er; [|done]. simpl in Ha. destruct (live_account r); [|done].
  injection Ha as <-. assert (B <> a_ID (acr_account r)) as HB by (rewrite (tw_accounts _ (proj2 HO) _ _ Er); congruence).
  unfold v1Limiter. apply (preserves_bind (Other B (rows_of B (w_db w)))); [by apply preserves_frame_db| |by rewrite Hw2].
  intros ok. destruct ok; [|apply preserves_ret]. destruct (v1_segments _); [|apply preserves_ret].
  by apply Oth_dispatch, Oth_routes.
Qed.

(** ** Scopes *)

Section scopes.
Context {T : Type} (proj : DB -> T) (c : Caller).

Lemma frame_or_else {A R} (m : GO A) (bad : error -> R) k : frame proj m -> (forall a, frame proj (k a)) -> frame proj (or_else m bad k).
Proof. intros Hm Hk. apply frame_bind; [by apply frame_try|]. intros []; [apply frame_ret|apply Hk]. Qed.
Lemma frame_parse_id {R} id (bad : R) k : (forall i, frame proj (k i)) -> frame proj (parse_id id bad k).
Proof. intros Hk w. unfold parse_id. destruct (uuid_Parse id); [done|apply Hk]. Qed.
Lemma frame_mono {A} (m : GO A) : (forall db0, preserves (fun db => proj db = proj db0) m) -> frame proj m.
Proof. intros H w. by apply (H (w_db w)). Qed.

Local Ltac fstep :=
  first
  [ apply frame_ret | apply frame_fail | apply frame_now | apply frame_query | apply frame_query_row
  | apply frame_or_else; [|intros ?] | apply frame_parse_id; intros ? | apply frame_no_rows_as
  | apply frame_bind; [|intros ?] | apply frame_try | apply frame_ignore
  | match goal with |- frame _ (match ?e with _ => _ end) => destruct e end ].
Local Ltac fcalm := repeat fstep.

Context (Haudit : forall f db, proj (db{{ audit_events ::= f }}) = proj db).
Context (Hidem : forall f db, proj (db{{ key_db -> api_idempotency ::= f }}) = proj db).
Context (Hwrap : forall f db, proj (db{{ evidence_db -> account_evidence_keys ::= f }}) = proj db).

Lemma frame_audit_ e : frame proj (Record_ e).
Proof. by apply frame_Record. Qed.
Lemma frame_store acct key fp r : frame proj (store_response acct key fp r).
Proof. apply frame_exec. intros t u db db' a Heq. repeat case_match; try discriminate Heq; injection Heq as <- _; [done|apply Hidem]. Qed.
Lemma frame_idempotency q next : (forall q, frame proj (next q)) -> frame proj (v1Idempotency q c next).
Proof.
  intros Hn. unfold v1Idempotency. fcalm; [apply Hn|apply frame_store].
Qed.
Lemma frame_resolve p : frame proj (resolveSourcePath sourceDir p).
Proof. apply frame_mono. intros db0. apply preserves_resolve. Qed.
Lemma frame_block : frame proj (v1BlockFreeReal (ca_acct c)).
Proof. apply frame_mono. intros db0. apply preserves_bind; [apply preserves_canDrillReal|]. intros; apply preserves_ret. Qed.
Lemma frame_rewrap a key : frame proj (Read cipher a key).
Proof.
  unfold Read. apply frame_bind; [intros w; by rewrite ReadAll_view|]. intros blob. unfold Decrypt, accountDEK, loadWrappedDEK, unwrapDEK.
  fcalm; try (by apply frame_lift); try (intros w; unfold rand_Read; by destruct (rand_bytes _ _)).
  apply frame_exec. intros t u db db' b [= <- _]. apply Hwrap.
Qed.

Lemma frame_reads id q :
  frame proj (v1ListDatabases q c) /\ frame proj (v1ListDrills q c) /\ frame proj (v1ListAlerts q c) /\
  frame proj (v1GetDatabase id c) /\ frame proj (v1GetDrill id c) /\ frame proj (v1GetSignature id c) /\
  frame proj (v1GetLogs id c) /\ frame proj (v1ListHeartbeats c) /\ frame proj (v1GetHeartbeat id c).
Proof.
  repeat split_and; unfold v1GetDatabase, v1GetDrill, v1GetSignature, v1GetLogs, v1ListHeartbeats, v1GetHeartbeat, own_drill,
    v1ListDatabases, v1ListDrills, v1ListAlerts.
  all: try (destruct (parsePageParams q) as [|[limit cur]]); try fcalm.
  unfold ListAssertionsForTargets; fcalm.
Qed.
Lemma frame_evidence id : frame proj (v1GetEvidence cipher id c).
Proof.
  unfold v1GetEvidence, own_drill. apply frame_parse_id. intros i. apply frame_or_else; [fcalm|]. intros d.
  destruct (has_evidence d); [|apply frame_ret]. apply frame_bind; [apply frame_try, frame_rewrap|]. intros []; apply frame_ret.
Qed.

(** What each write endpoint leaves alone. *)
Lemma frame_create_database q :
  (forall f db, proj (db{{ drill_db -> targets ::= f }}) = proj db) ->
  (forall f db, proj (db{{ drill_db -> target_assertions ::= f }}) = proj db) -> frame proj (v1CreateDatabase sourceDir q c).
Proof.
  intros Ht Ha. unfold v1CreateDatabase. apply frame_bind; [apply frame_block|]. intros [r|]; [apply frame_ret|].
  destruct (decodeJSONBody _ q) as [req|]; [|apply frame_ret]. cbv zeta. case_match; [apply frame_ret|].
  destruct (first_invalid 0 _) as [[i e]|]; [apply frame_ret|]. apply frame_or_else; [apply frame_resolve|]. intros path.
  fcalm; [|generalize (@nil Assertion); induction (cd_Assertions req) as [|a' l IH]; intros stored; simpl; [apply frame_ret|]].
  - apply frame_exec. intros t u db db' b Heq. repeat case_match; try discriminate Heq. injection Heq as <- _. apply Ht.
  - apply frame_bind; [|intros; apply IH]. apply frame_exec. intros t u db db' b Heq.
    repeat case_match; try discriminate Heq. injection Heq as <- _. apply Ha.
Qed.

Lemma frame_create_drill q :
  (forall f db, proj (db{{ drill_db -> drills ::= f }}) = proj db) ->
  (forall f db, proj (db{{ drill_db -> idempotency_keys ::= f }}) = proj db) ->
  (forall f db, proj (db{{ drill_db -> drill_steps ::= f }}) = proj db) ->
  (forall f db, proj (db{{ drill_db -> river_jobs ::= f }}) = proj db) ->
  (forall f db, proj (db{{ drill_db -> river_seq ::= f }}) = proj db) -> frame proj (v1CreateDrill q c).
Proof.
  intros Hd Hi Hs Hj Hq. apply frame_mono. intros db0. unfold v1CreateDrill. cbv zeta.
  destruct (decodeJSONBody _ q) as [did|]; [|apply preserves_ret].
  apply parse_id_preserves. intros tid. apply or_else_preserves; [apply preserves_no_rows_as, preserves_query_row|]. intros t.
  apply preserves_bind; [destruct (t_IsSample t); [apply preserves_ret|]|].
  { apply preserves_bind; [apply preserves_canDrillReal|]. intros; apply preserves_ret. }
  intros [r|]; [apply preserves_ret|]. apply preserves_quota_gate, preserves_size_gate.
  apply (frame_preserves proj (fun p => p = proj db0)). apply frame_or_else.
  { intros w. destruct (CreateDrillIdempotent _ _ _ _ w) as [o w'] eqn:E. simpl.
    destruct (create_cases _ _ _ _ _ _ _ E) as [[-> _]|(id & n & n' & _ & _ & -> & _)]; [done|]. unfold created.
    etransitivity; [|apply (Hd (<[ id := mkDrill id (t_ID t) (a_ID (ca_acct c)) (k_CreatedByUserID (ca_key c)) StatusPending None None None None None None n ]>))].
    apply (Hi (<[ idem_key (a_ID (ca_acct c)) (q_IdempotencyKey q) := mkIdemRow (k_CreatedByUserID (ca_key c)) (uuid_String id) n' ]>)
              (w_db w){{ drill_db -> drills ::= <[ id := _ ]> }}). }
  intros [id r]. apply frame_or_else; [|intros _; fcalm]. unfold EnqueueDrill. apply frame_bind.
  - generalize 0. induction AllSteps as [|n l IH]; intros i; simpl; [apply frame_ret|].
    apply frame_bind; [|intros []; [apply frame_fail|apply IH]]. apply frame_try, frame_exec.
    intros ? ? db db' ? Heq. repeat case_match; try discriminate Heq; injection Heq as <- _; [done|apply Hs].
  - intros _. fcalm; [apply frame_audit_|]. apply frame_exec. intros ? ? db db' ? [= <- _].
    match goal with |- context [<[ river_seq (drill_db db) := ?j ]>] =>
      transitivity (proj (db{{ drill_db -> river_jobs ::= <[ river_seq (drill_db db) := j ]> }}));
      [exact (Hq N.succ (db{{ drill_db -> river_jobs ::= <[ river_seq (drill_db db) := j ]> }}))|apply Hj] end.
Qed.

Lemma frame_delete_account q id :
  (forall f db, proj (db{{ account_db -> accounts ::= f }}) = proj db) ->
  (forall f db, proj (db{{ evidence_db -> purge_jobs ::= f }}) = proj db) -> frame proj (v1DeleteAccount grace id q c).
Proof.
  intros Ha Hp. unfold v1DeleteAccount, SoftDelete. fcalm; try apply frame_audit_.
  - apply frame_exec. intros ? ? db db' ? [= <- _]. apply Ha.
  - apply frame_exec. intros ? ? db db' ? Heq. repeat case_match; try discriminate Heq; injection Heq as <- _. apply Hp.
Qed.

(** No key the token unlocks has the scope. *)
Definition lacks (scope : string) (q : Request) (db : DB) : Prop :=
  forall raw, bearerToken (q_Authorization q) = Some raw -> forall j r,
    api_keys (key_db db) !! j = Some r -> usable (hash raw) db r = true -> HasScope (kr_key r) scope = false.

Lemma frame_scope scope next : frame proj next -> frame proj (v1RequireScope scope c next).
Proof. intros Hn. unfold v1RequireScope. case_match; [done|apply frame_ret]. Qed.
Lemma frame_noscope scope next : HasScope (ca_key c) scope = false -> frame proj (v1RequireScope scope c next).
Proof. intros Hs. unfold v1RequireScope. rewrite Hs. apply frame_ret. Qed.
Lemma frame_trial next : frame proj next -> frame proj (v1RequireUnlapsedTrial c next).
Proof. intros Hn. apply frame_bind; [apply frame_now|]. intros t. case_match; [apply frame_ret|done]. Qed.
Lemma frame_dispatch routes wrong segs q :
  Forall (fun r => forall id q, frame proj (rt_Handler r id q c)) routes -> frame proj (dispatch routes wrong segs q c).
Proof.
  intros Hr. revert wrong. induction Hr as [|r l Hr Hl IH]; intros wrong; simpl; [apply frame_ret|].
  destruct (match_segs _ _); [|apply IH]. case_bool_decide; [apply Hr|apply IH].
Qed.

(** The routes, when the write endpoints are framed or out of scope. *)
Lemma frame_routes :
  (forall q, frame proj (v1CreateDatabase sourceDir q c)) \/ HasScope (ca_key c) ScopeDatabasesWrite = false ->
  (forall q, frame proj (v1CreateDrill q c)) \/ HasScope (ca_key c) ScopeDrillsWrite = false ->
  (forall id q, frame proj (v1DeleteAccount grace id q c)) \/ HasScope (ca_key c) ScopeAccountDelete = false ->
  Forall (fun r => forall id q, frame proj (rt_Handler r id q c)) (v1_routes sourceDir cipher grace).
Proof.
  intros H1 H2 H3. repeat (apply Forall_cons; split); [..|apply Forall_nil_2]; intros id q;
    try (apply frame_scope; first [apply (frame_reads id q) | apply frame_evidence]).
  - destruct H1; [|by apply frame_noscope]. apply frame_scope, frame_trial, frame_idempotency. auto.
  - destruct H2; [|by apply frame_noscope]. apply frame_scope, frame_trial, frame_idempotency. auto.
  - destruct H3; [|by apply frame_noscope]. apply frame_scope, frame_idempotency. auto.
Qed.
End scopes.

Lemma router_frame {T} (proj : DB -> T) scope q w :
  (forall f db, proj (db{{ key_db -> api_keys ::= f }}) = proj db) -> lacks scope q (w_db w) ->
  (forall c, HasScope (ca_key c) scope = false ->
     Forall (fun r => forall id q, frame proj (rt_Handler r id q c)) (v1_routes sourceDir cipher grace)) ->
  proj (w_db (v1Router sourceDir cipher grace allow q w).2) = proj (w_db w).
Proof.
  intros Hk Hno Hr. enough (wp (v1Router sourceDir cipher grace allow q) (fun _ w' => proj (w_db w') = proj (w_db w)) w) as H by exact H.
  unfold v1Router, v1Authenticate. destruct (bearerToken _) as [raw|] eqn:Eb; [|by apply wp_ret].
  apply wp_or_else. unfold Authenticate. case_match; [by apply wp_fail|].
  apply wp_bind, wp_no_rows_as, wp_query_row; [|intros o w1 -> Ho; destruct o as [a|e|]; [by destruct (Ho a)|done|done]].
  intros k w1 Hw1 Ek. destruct (head _) as [r|] eqn:E; [|done]. injection Ek as <-.
  apply head_select_Some in E as [Hu [j Hj]]. specialize (Hno raw Eb j r Hj Hu).
  destruct (k_RevokedAt (kr_key r)); [apply wp_fail; by rewrite Hw1|]. apply wp_bind, wp_ignore. unfold wp at 1.
  assert (frame proj (update (fun now db => db{{ key_db -> api_keys ::=
        alter (fun r => r{{ kr_key -> k_LastUsedAt := Some now }}) (k_ID (kr_key r)) }}))) as Hf
    by (apply frame_exec; intros t u db db' b [= <- _]; apply Hk).
  specialize (Hf w1). rewrite Hw1 in Hf.
  assert (forall w2, proj (w_db w2) = proj (w_db w) -> wp (or_else (GetAccount (k_AccountID (kr_key r)))
    (fun _ => writeAPIError StatusUnauthorized "unauthorized" "account unavailable")
    (fun a => v1Limiter allow (v1AccountKey (mkCaller a (kr_key r))) (match v1_segments (q_Path q) with
      | Some segs => dispatch (v1_routes sourceDir cipher grace) false segs q (mkCaller a (kr_key r))
      | None => mret (mkResp StatusNotFound "" false) end))) (fun _ w' => proj (w_db w') = proj (w_db w)) w2) as Hrest.
  { intros w2 Hw2. unfold wp. rewrite <- Hw2. revert w2 Hw2. intros w2 _. revert w2. apply frame_or_else; [apply frame_no_rows_as, frame_query_row|].
    intros a. apply frame_bind; [intros v; by rewrite (allow_memory _ v)|]. intros ok. destruct ok; [|apply frame_ret].
    destruct (v1_segments _); [|apply frame_ret]. apply frame_dispatch, Hr. done. }
  destruct (update _ w1) as [[[]|e|] w2]; cbn [fst snd] in Hf |- *; [exact (Hrest w2 Hf)..|exact Hf].
Qed.

Local Ltac premise H := match type of H with ?P -> _ => let Hp := fresh in assert (Hp : P); [|specialize (H Hp); clear Hp] end.

(** whatever the request and whatever fails, a key without the write
    scope changes nothing of what the scope covers: databases and checks,
    drills with their steps, keys and jobs, the account and its erasure. *)
Theorem api_scopes q w :
  let db := w_db w in let db' := w_db (v1Router sourceDir cipher grace allow q w).2 in
  (lacks ScopeDatabasesWrite q db ->
    targets (drill_db db') = targets (drill_db db) /\ target_assertions (drill_db db') = target_assertions (drill_db db)) /\
  (lacks ScopeDrillsWrite q db ->
    drills (drill_db db') = drills (drill_db db) /\ drill_steps (drill_db db') = drill_steps (drill_db db) /\
    idempotency_keys (drill_db db') = idempotency_keys (drill_db db) /\ river_jobs (drill_db db') = river_jobs (drill_db db)) /\
  (lacks ScopeAccountDelete q db ->
    accounts (account_db db') = accounts (account_db db) /\ purge_jobs (evidence_db db') = purge_jobs (evidence_db db)).
Proof.
  cbv zeta. split; [|split]; intros Hl.
  - assert (H := router_frame (fun db => (targets (drill_db db), target_assertions (drill_db db))) _ q w ltac:(done) Hl).
    premise H; [|by injection H]. intros c Hc. apply frame_routes; try done; [by right|left|left]; intros;
      [by apply frame_create_drill|by apply frame_delete_account].
  - assert (H := router_frame (fun db => (drills (drill_db db), drill_steps (drill_db db), idempotency_keys (drill_db db), river_jobs (drill_db db)))
      _ q w ltac:(done) Hl).
    premise H; [|by injection H]. intros c Hc. apply frame_routes; try done; [left|by right|left]; intros;
      [by apply frame_create_database|by apply frame_delete_account].
  - assert (H := router_frame (fun db => (accounts (account_db db), purge_jobs (evidence_db db))) _ q w ltac:(done) Hl).
    premise H; [|by injection H]. intros c Hc. apply frame_routes; try done; [left|left|by right]; intros;
      [by apply frame_create_database|by apply frame_create_drill].
Qed.
End isolation.

(** ** Witnesses *)

(** A demonstration of the wire format: a cursor is its instant and its
    identifier in binary. *)
Definition cursor_text (c : pageCursor) : string :=
  uuid_String (Z.to_N (pc_CreatedAt c)) +:+ "/" +:+ uuid_String (pc_ID c).
Fixpoint split_slash (s : string) : string * string :=
  match s with
  | EmptyString => ("", "")
  | String "/" s' => ("", s')
  | String a s' => let '(x, y) := split_slash s' in (String a x, y)
  end.
Definition cursor_value (s : string) : error + pageCursor :=
  let '(x, y) := split_slash s in
  match uuid_Parse x, uuid_Parse y with
  | inr t, inr i => inr (mkPageCursor (Z.of_N t) i)
  | _, _ => inl (ErrNew "invalid cursor")
  end.
#[global] Instance demo_api : ApiJson := {|
  json_Encode _ := inr "{}"; json_jsonb _ := ANil;
  decode_createDatabaseReq b := Some (mkCreateDatabaseReq b "backups/a.dump" []); decode_createDrillReq b := Some b;
  cursor_Marshal c := inr (cursor_text c); cursor_Unmarshal := cursor_value
|}.
Lemma split_slash_bits p s : split_slash (pos_bits p +:+ "/" +:+ s) = (pos_bits p, s).
Proof.
  induction p as [p IH|p IH|]; [| |done].
  - change (pos_bits p~1 +:+ "/" +:+ s) with (String "1" (pos_bits p +:+ "/" +:+ s)). cbn -[pos_bits String.app]. by rewrite IH.
  - change (pos_bits p~0 +:+ "/" +:+ s) with (String "0" (pos_bits p +:+ "/" +:+ s)). cbn -[pos_bits String.app]. by rewrite IH.
Qed.
#[global] Instance demo_api_ok : ApiJsonOk.
Proof.
  constructor. intros [t i] Ht. simpl in Ht. exists (cursor_text (mkPageCursor t i)). split; [done|]. unfold cursor_text. simpl.
  assert (split_slash (uuid_String (Z.to_N t) +:+ "/" +:+ uuid_String i) = (uuid_String (Z.to_N t), uuid_String i)) as E.
  { simpl. destruct (Z.to_N t) as [|p]; [done|apply split_slash_bits]. }
  split; [by destruct (Z.to_N t) as [|[]]|]. unfold cursor_value. simpl in *. rewrite E.
  pose proof (uuid_Parse_String (Z.to_N t)) as E1. pose proof (uuid_Parse_String i) as E2. simpl in *. rewrite E1, E2.
  do 2 f_equal. lia.
Qed.

Definition api_key (scopes : list string) : Key := mkKey 40 1 "ci" "so_" scopes 2 0 None None.
Definition api_caller : Caller := mkCaller demo_account (api_key AllScopes).
Definition get_request (path limit : string) : Request := mkRequest "GET" path "Bearer so_1" "" (inr "") limit "" "10.0.0.9" "curl".


(** Accounts 1 and 3; the key "so_1" is account 1's, without write scopes. *)
Definition api_db : DB :=
  demo_db{{ account_db -> accounts ::= <[ 3%N := mkAccountRow (demo_account{{ a_ID := 3%N }}) None None None None ]>;
            key_db -> api_keys := {[ 40%N := mkKeyRow (api_key [ScopeDrillsRead]) (hash "so_1") ]} }}.
Lemma api_db_wf : tenant_wf api_db.
Proof.
  split.
  - intros k r Hr. change (accounts (account_db api_db)) with
      (<[ 3%N := mkAccountRow (demo_account{{ a_ID := 3%N }}) None None None None ]> ({[ 1%N := mkAccountRow demo_account None None None None ]} : gmap uuid AccountRow)) in Hr.
    apply lookup_insert_Some in Hr as [[<- <-]|[_ Hr]]; [done|]. by apply lookup_singleton_Some in Hr as [<- <-].
  - intros k r Hr. change (targets (drill_db api_db)) with ({[ 10%N := mkTargetRow demo_target None ]} : gmap uuid TargetRow) in Hr.
    by apply lookup_singleton_Some in Hr as [<- <-].
  - intros k r Hr. change (drills (drill_db api_db)) with (∅ : gmap uuid Drill) in Hr. by apply lookup_empty_Some in Hr.
  - intros k r Hr. change (api_keys (key_db api_db)) with
      ({[ 40%N := mkKeyRow (api_key [ScopeDrillsRead]) (hash "so_1") ]} : gmap uuid KeyRow) in Hr.
    by apply lookup_singleton_Some in Hr as [<- <-].
  - intros a key row id Hr. change (idempotency_keys (drill_db api_db)) with (∅ : gmap (uuid * string * string) IdemRow) in Hr.
    by apply lookup_empty_Some in Hr.
Qed.
Definition open_gate (_ : string) : GO bool := mret true.

Lemma api_tenant_isolation_witness :
  rows_of 3 (w_db (v1Router (env := demo_env) (host := demo_host) (store := LocalStore (env := demo_env) "/ev") "backups" demo_cipher 0 open_gate
    (mkRequest "POST" "/v1/drills" "Bearer so_1" "k" (inr "0101") "" "" "10.0.0.9" "curl") (world api_db)).2) = rows_of 3 api_db.
Proof.
  apply (api_tenant_isolation (env := demo_env) (host := demo_host) (store := LocalStore (env := demo_env) "/ev")).
  - intros key w. reflexivity.
  - exact api_db_wf.
  - intros raw _ (j & r & Hr & _ & _ & Ha). change (api_keys (key_db (w_db (world api_db)))) with
      ({[ 40%N := mkKeyRow (api_key [ScopeDrillsRead]) (hash "so_1") ]} : gmap uuid KeyRow) in Hr.
    apply lookup_singleton_Some in Hr as [<- <-]. discriminate Ha.
Defined.

Lemma api_scopes_witness :
  drills (drill_db (w_db (v1Router (env := demo_env) (host := demo_host) (store := LocalStore (env := demo_env) "/ev") "backups" demo_cipher 0 open_gate
    (mkRequest "POST" "/v1/drills" "Bearer so_1" "k" (inr "0101") "" "" "10.0.0.9" "curl") (world api_db)).2)) = drills (drill_db api_db).
Proof.
  apply (api_scopes (env := demo_env) (host := demo_host) (store := LocalStore (env := demo_env) "/ev")).
  - intros key w. reflexivity.
  - intros raw _ j r Hr _. change (api_keys (key_db (w_db (world api_db)))) with
      ({[ 40%N := mkKeyRow (api_key [ScopeDrillsRead]) (hash "so_1") ]} : gmap uuid KeyRow) in Hr.
    by apply lookup_singleton_Some in Hr as [<- <-].
Defined.
