(* ===== verification/V1Replay.v ===== *)
(** Idempotency keys of the JSON API: a write that is repeated, however many
    requests later, is answered from the stored response and does nothing;
    when the lookup fails, it is done again. *)
From S2P Require Import Prelude Crypto Effects Schema Encoding Path Time AuditLog Plans AccountStore DrillStore Assertions Steps Http AuthStore Web.
From S2P Require Import Cipher Signer EvidenceStore Evidence Scheduler Targets Compliance Heartbeat ApiKey V1 ComplianceFacts TargetFacts Tenants Demo AccountFacts EvidenceFacts V1Facts.

Section replay.
Context `{env : Env} `{uuids : UuidLib} `{uok : !UuidOk} `{rand : Rand} `{json : JsonLib} `{api : ApiJson} `{host : Host} `{ed : Ed25519}.
Context `{store : EvidenceStore} `{store_ok : !EvidenceStoreOk store} (cipher : Cipher).
Context (sourceDir : string) (grace : Z) (allow : string -> GO bool).
Context (allow_memory : forall key, frame (fun db => db) (allow key)).

(** ** Stored responses are kept *)

Section kept.
Context (k : uuid * string) (s : StoredResponse).
Definition kept (db : DB) : Prop := api_idempotency (key_db db) !! k = Some s.
Notation Idem := (fun db => api_idempotency (key_db db)).

Lemma kept_frame {A} (m : GO A) : frame Idem m -> preserves kept m.
Proof. intros Hf. apply (frame_preserves Idem (fun t => t !! k = Some s) m Hf). Qed.

Lemma kept_idempotency q c next : (forall q, preserves kept (next q)) -> preserves kept (v1Idempotency q c next).
Proof.
  intros Hn. unfold v1Idempotency. case_match; [apply preserves_ret|]. destruct (read_body q); [apply preserves_ret|].
  apply preserves_bind; [apply preserves_try, preserves_query_row|]. intros [?|?]; [|case_match; apply preserves_ret].
  apply preserves_bind; [apply Hn|]. intros r. apply preserves_bind; [|intros; apply preserves_ret].
  case_match; [apply preserves_ignore|apply preserves_ret]. apply preserves_exec.
  intros t u db db' a HO Heq. repeat case_match; try discriminate Heq; injection Heq as <- _; [done|].
  unfold kept in *. simpl. rewrite lookup_insert_ne; [done|]. intros E. rewrite E in *. congruence.
Qed.

Lemma kept_routes c : Forall (fun r => forall id q, preserves kept (rt_Handler r id q c)) (v1_routes sourceDir cipher grace).
Proof.
  assert (forall scope next, preserves kept next -> preserves kept (v1RequireScope scope c next)) as Hs
    by (intros scope next Hn; unfold v1RequireScope; case_match; [done|apply preserves_ret]).
  assert (forall next, preserves kept next -> preserves kept (v1RequireUnlapsedTrial c next)) as Ht
    by (intros next Hn; apply preserves_bind; [apply preserves_now|]; intros t; case_match; [apply preserves_ret|done]).
  repeat (apply Forall_cons; split); [..|apply Forall_nil_2]; intros id q; apply Hs.
  1-10: destruct (frame_reads Idem c id q) as (H1 & H2 & H3 & H4 & H5 & H6 & H7 & H8 & H9); apply kept_frame.
  1-10: [> exact H1|exact H4|exact H2|exact H5|by apply frame_evidence|exact H6|exact H7|exact H3|exact H8|exact H9].
  - apply Ht, kept_idempotency. intros q'. by apply kept_frame, frame_create_database.
  - apply Ht, kept_idempotency. intros q'. by apply kept_frame, frame_create_drill.
  - apply kept_idempotency. intros q'. by apply kept_frame, frame_delete_account.
Qed.

Lemma kept_router q : preserves kept (v1Router sourceDir cipher grace allow q).
Proof.
  unfold v1Router, v1Authenticate. destruct (bearerToken _); [|apply preserves_ret].
  apply or_else_preserves; [apply kept_frame; unfold Authenticate; case_match; [apply frame_fail|]|].
  { apply frame_bind; [apply frame_no_rows_as, frame_query_row|]. intros key. case_match; [apply frame_fail|].
    apply frame_bind; [|intros; apply frame_ret]. apply frame_ignore, frame_exec. by intros t u db db' b [= <- _]. }
  intros key. apply or_else_preserves; [apply preserves_no_rows_as, preserves_query_row|]. intros a.
  apply preserves_bind; [by apply preserves_frame_db|]. intros ok. destruct ok; [|apply preserves_ret].
  destruct (v1_segments _); [|apply preserves_ret]. generalize false. induction (kept_routes (mkCaller a key)) as [|r ? Hr _ IH]; intros wrong;
    simpl; [apply preserves_ret|]. destruct (match_segs _ _); [|apply IH]. case_bool_decide; [apply Hr|apply IH].
Qed.
End kept.

(** The world after a list of API requests. *)
Definition serve (qs : list Request) (w : World DB) : World DB := foldl (fun w q => (v1Router sourceDir cipher grace allow q w).2) w qs.
Lemma kept_serve k s qs w : kept k s (w_db w) -> kept k s (w_db (serve qs w)).
Proof. revert w. induction qs as [|q qs IH]; intros w Hw; [done|]. by apply IH, kept_router. Qed.

(** The write endpoints, as the router calls them, leave the stored responses
    and the existence of the account alone. *)
Inductive write_endpoint : (Request -> Caller -> GO Resp) -> Prop :=
| write_database : write_endpoint (v1CreateDatabase sourceDir)
| write_drill : write_endpoint v1CreateDrill
| write_deletion idParam : write_endpoint (v1DeleteAccount grace idParam).
Definition Exists (a : uuid) (db : DB) : Prop := is_Some (accounts (account_db db) !! a).

Lemma preserves_deletion a id q c : preserves (Exists a) (v1DeleteAccount grace id q c).
Proof.
  assert (forall e, preserves (Exists a) (Record_ e)) as Hr.
  { intros e. apply (frame_preserves (fun db => accounts (account_db db)) (fun t => is_Some (t !! a))), frame_Record. by intros f []. }
  unfold v1DeleteAccount, SoftDelete, InsertPurge. cbv zeta. apply parse_id_preserves. intros pid.
  case_match; [apply preserves_ret|]. apply or_else_preserves.
  - apply preserves_bind; [apply preserves_now|intros now]. apply preserves_bind; [|intros n].
    + apply preserves_exec. intros t u db db' x [row Hx] [= <- _]. eexists. apply lookup_sql_update_Some. exists row. split; [exact Hx|reflexivity].
    + case_match; [apply preserves_fail|]. apply preserves_bind; [by apply preserves_ignore|]. intros _. apply preserves_ret.
  - intros t. apply preserves_bind; [|intros _].
    { apply preserves_ignore, preserves_exec. intros ? ? db db' x Hx Heq. repeat case_match; try discriminate Heq; by injection Heq as <- _. }
    apply preserves_bind; [by apply preserves_ignore|]. intros _. apply preserves_ret.
Qed.
Lemma write_keeps h a q c : write_endpoint h ->
  frame (fun db => api_idempotency (key_db db)) (h q c) /\ preserves (Exists a) (h q c).
Proof.
  pose proof (fun {A} (m : GO A) => frame_preserves (fun db => accounts (account_db db)) (fun t => is_Some (t !! a)) m) as Hp.
  intros []; (split; [|first [apply preserves_deletion|apply Hp]]);
    first [by apply frame_create_database|by apply frame_create_drill|by apply frame_delete_account].
Qed.

(** The first run of a write whose key is fresh stores its answer, unless the
    statement that stores it fails. *)
Lemma first_run h q c w r w1 body : write_endpoint h ->
  read_body q = inr body -> q_IdempotencyKey q <> "" ->
  api_idempotency (key_db (w_db w)) !! (a_ID (ca_acct c), q_IdempotencyKey q) = None ->
  Exists (a_ID (ca_acct c)) (w_db w) ->
  v1Idempotency q c (fun q => h q c) w = (Ret r, w1) -> rs_status r < 500 -> env_fault (pred (w_tick w1)) = FOk ->
  exists t, api_idempotency (key_db (w_db w1)) !! (a_ID (ca_acct c), q_IdempotencyKey q)
    = Some (mkStoredResponse (fingerprintRequest (q_Method q) (q_Path q) body) (rs_status r) (rs_body r) t).
Proof.
  intros Hh Hb Hk Hnone Hacc Hrun Hs Hok. unfold v1Idempotency in Hrun. rewrite bool_decide_eq_false_2, Hb in Hrun by done.
  apply bind_ret in Hrun as (st & w0 & E0 & Hrun).
  assert (w_db w0 = w_db w /\ exists e, st = inl e) as [Edb [e ->]].
  { unfold try, stored_response, query_row, exec in E0. rewrite Hnone in E0.
    destruct (env_fault (w_tick w)) as [|[]|[]]; try discriminate E0; injection E0 as <- <-; (split; [done|by eexists]). }
  apply bind_ret in Hrun as (r' & w2 & E & Hrun).
  destruct (write_keeps h (a_ID (ca_acct c)) (q{{ q_Body := inr body }}) c Hh) as [Hf Hp].
  specialize (Hf w0). specialize (Hp w0). rewrite E, Edb in *. specialize (Hp Hacc). cbn [snd] in Hf, Hp. destruct Hp as [row Hp].
  apply bind_ret in Hrun as ([] & w3 & E2 & [= <- <-]). rewrite (proj2 (Z.ltb_lt _ _)) in E2 by done.
  assert (w_tick w3 = S (w_tick w2)) as Ht.
  { unfold ignore in E2. apply bind_ret in E2 as (x & w4 & E2 & [= <-]). pose proof (exec_spec (fun now _ db =>
      match accounts (account_db db) !! a_ID (ca_acct c), api_idempotency (key_db db) !! (a_ID (ca_acct c), q_IdempotencyKey q) with
      | None, _ => inl (ErrConstraint "api_idempotency_account_id_fkey")
      | Some _, Some _ => inr (db, tt)
      | Some _, None => inr (db{{ key_db -> api_idempotency ::=
          <[ (a_ID (ca_acct c), q_IdempotencyKey q) := mkStoredResponse (fingerprintRequest (q_Method q) (q_Path q) body) (rs_status r') (rs_body r') now ]> }}, tt)
      end) w2) as (_ & _ & Ht & _).
    revert E2. unfold try, store_response. destruct (exec _ w2) as [[] w5]; intros [= _ <-]; exact Ht. }
  rewrite Ht in Hok. simpl in Hok.
  eexists. unfold ignore, try, store_response, mbind, M_bind in E2.
  erewrite exec_ok in E2; [|exact Hok|rewrite Hp, Hf, Hnone; done]. injection E2 as <-. apply lookup_insert_eq.
Qed.

(** A stored key answers without running the handler. *)
Lemma stored_run q c next w s body : env_fault (w_tick w) = FOk ->
  read_body q = inr body -> q_IdempotencyKey q <> "" ->
  api_idempotency (key_db (w_db w)) !! (a_ID (ca_acct c), q_IdempotencyKey q) = Some s ->
  v1Idempotency q c next w = (Ret (
    if bool_decide (sr_request_fingerprint s = fingerprintRequest (q_Method q) (q_Path q) body)
    then mkResp (sr_status_code s) (sr_response_body s) true
    else writeAPIError StatusConflict "idempotency_key_reused" "this Idempotency-Key was used with a different request"), tick w).
Proof.
  intros Hok Hb Hk Hs. unfold v1Idempotency. rewrite bool_decide_eq_false_2, Hb by done.
  eapply bind_ok; [unfold try, stored_response; by rewrite (query_row_some _ w s) by done|].
  simpl. by case_bool_decide.
Qed.

(** C10: a write of the API, of any of its three write endpoints, that
    answered below 500 under a fresh Idempotency-Key and whose answer could be
    stored is done once: after any further requests, of anyone and whatever of
    them fails, repeating it gives the stored status and body, marked as
    replayed, and changes nothing; the same key with another request is a
    conflict, and changes nothing either.  Two statements must not fail for
    this: the last one of the first run, which stores the answer, and the one
    of the repetition that looks it up ([replay_lost_on_lookup_error]); any
    other may. *)
Theorem api_replay (h : Request -> Caller -> GO Resp) q c w r w1 body qs q2 body2 :
  write_endpoint h ->
  read_body q = inr body -> q_IdempotencyKey q <> "" ->
  api_idempotency (key_db (w_db w)) !! (a_ID (ca_acct c), q_IdempotencyKey q) = None ->
  is_Some (accounts (account_db (w_db w)) !! a_ID (ca_acct c)) ->
  v1Idempotency q c (fun q => h q c) w = (Ret r, w1) -> rs_status r < 500 ->
  env_fault (pred (w_tick w1)) = FOk ->
  read_body q2 = inr body2 -> q_IdempotencyKey q2 = q_IdempotencyKey q ->
  let w2 := serve qs w1 in
  env_fault (w_tick w2) = FOk ->
  exists w3, v1Idempotency q2 c (fun q => h q c) w2 = (Ret (
      if bool_decide (fingerprintRequest (q_Method q) (q_Path q) body = fingerprintRequest (q_Method q2) (q_Path q2) body2)
      then mkResp (rs_status r) (rs_body r) true
      else writeAPIError StatusConflict "idempotency_key_reused" "this Idempotency-Key was used with a different request"), w3) /\
    w_db w3 = w_db w2.
Proof.
  intros Hh Hb Hk Hnone Hacc Hrun Hs Hok Hb2 Hk2 w2 Hok2.
  assert (exists t, kept (a_ID (ca_acct c), q_IdempotencyKey q)
    (mkStoredResponse (fingerprintRequest (q_Method q) (q_Path q) body) (rs_status r) (rs_body r) t) (w_db w1)) as [t Ht]
    by (by eapply first_run).
  exists (tick w2). split; [|done]. rewrite <- Hk2 in Ht. by erewrite stored_run; [|done|done|rewrite Hk2; done|apply kept_serve, Ht].
Qed.
End replay.

Definition post_db (key body : string) : Request := mkRequest "POST" "/v1/databases" "Bearer so_1" key (inr body) "" "" "10.0.0.9" "curl".
Definition writer : Caller := mkCaller (demo_account{{ a_Plan := "scale" }}) (api_key AllScopes).
Definition create1 (env : Env) (w : World DB) : outcome Resp * World DB :=
  v1Idempotency (env := env) (post_db "k" "orders") writer (fun q => v1CreateDatabase (env := env) (host := demo_host) "backups" q writer) w.

(** Another account is served in between; the repetition stores nothing. *)
Lemma api_replay_witness :
  let w1 := (create1 demo_env (world api_db)).2 in
  let w2 := serve (env := demo_env) (host := demo_host) (store := LocalStore (env := demo_env) "/ev") demo_cipher "backups" 0 open_gate
              [mkRequest "GET" "/v1/drills" "Bearer so_1" "" (inr "") "" "" "10.0.0.9" "curl"] w1 in
  (create1 demo_env w2).1 = Ret (mkResp StatusCreated "{}" true) /\ w_db (create1 demo_env w2).2 = w_db w2.
Proof.
  cbv zeta.
  destruct (api_replay (env := demo_env) (host := demo_host) (store := LocalStore (env := demo_env) "/ev") demo_cipher "backups" 0 open_gate
    ltac:(intros key w; reflexivity) (v1CreateDatabase (env := demo_env) (host := demo_host) "backups")
    (post_db "k" "orders") writer (world api_db) (mkResp StatusCreated "{}" false) (create1 demo_env (world api_db)).2 "orders"
    [mkRequest "GET" "/v1/drills" "Bearer so_1" "" (inr "") "" "" "10.0.0.9" "curl"] (post_db "k" "orders") "orders")
    as (w3 & E & Hdb); [constructor|vm_compute; reflexivity|discriminate|vm_compute; reflexivity|vm_compute; by eexists|apply injective_projections; [vm_compute; reflexivity|reflexivity]
    |vm_compute; reflexivity|reflexivity|vm_compute; reflexivity|reflexivity|reflexivity|].
  rewrite bool_decide_eq_true_2 in E by reflexivity. split; [exact (f_equal fst E)|]. transitivity (w_db w3); [exact (f_equal (fun r => w_db r.2) E)|exact Hdb].
Defined.

(** when the lookup of the key fails, the middleware takes it for a
    fresh one and runs the write again: the repetition of a request that was
    answered 201 makes a second database. *)
Theorem replay_lost_on_lookup_error :
  let w1 := (create1 demo_env (world api_db)).2 in
  let again := create1 (fault_at (w_tick w1) (FErr true)) w1 in
  (create1 demo_env (world api_db)).1 = Ret (mkResp StatusCreated "{}" false) /\
  again.1 = Ret (mkResp StatusCreated "{}" false) /\
  (size (targets (drill_db api_db)), size (targets (drill_db (w_db w1))), size (targets (drill_db (w_db again.2)))) = (1, 2, 3)%nat.
Proof. vm_compute. done. Qed.
