(* ===== verification/V1Pages.v ===== *)
(** The keyset pages of the JSON API: a client that follows the cursors sees
    every row once, newest first, and a listing of alerts that does not. *)
From S2P Require Import Prelude Crypto Effects Schema Encoding Path Time AuditLog Plans AccountStore DrillStore Assertions Steps Http AuthStore Web.
From S2P Require Import Cipher Signer EvidenceStore Evidence Scheduler Targets Compliance Heartbeat ApiKey V1 Demo TargetFacts Tenants V1Facts.
From Stdlib Require Import Ascii ZifyBool ZifyN.

(** ** The rows before a cursor, in order *)

Lemma NoDup_id_inj {R K} (id : R -> K) l x y : NoDup (id <$> l) -> x ∈ l -> y ∈ l -> id x = id y -> x = y.
Proof.
  induction l as [|r l IH]; [by intros _ ?%not_elem_of_nil|]. rewrite fmap_cons, NoDup_cons, !elem_of_cons.
  intros [Hr Hl] [->|Hx] [->|Hy] E; [done|..|by apply IH].
  - destruct Hr. rewrite E. by apply list_elem_of_fmap_2.
  - destruct Hr. rewrite <- E. by apply list_elem_of_fmap_2.
Qed.

Section keyset.
Context {R : Type} (at_ : R -> time) (id : R -> uuid).
Notation le := (newest_first at_ id).
Definition key (r : R) : time * uuid := (at_ r, id r).

Lemma newest_total : Total (le_rel le).
Proof. intros x y. unfold le_rel, newest_first. lia. Qed.
Lemma newest_trans : Transitive (le_rel le).
Proof. intros x y z. unfold le_rel, newest_first. lia. Qed.
Lemma newest_key x y : le_rel le x y -> le_rel le y x -> id x = id y.
Proof. unfold le_rel, newest_first. lia. Qed.

Lemma order_by_sorted l : StronglySorted (le_rel le) (order_by le l).
Proof. apply StronglySorted_merge_sort; [apply newest_trans|apply newest_total]. Qed.

Lemma sorted_filter (p : R -> bool) l :
  StronglySorted (le_rel le) l -> StronglySorted (le_rel le) (filter (fun r => p r = true) l).
Proof.
  induction 1 as [|r l Hl IH Hr]; [constructor|]. rewrite filter_cons. case_match; [|done].
  constructor; [done|]. rewrite Forall_forall in Hr |- *. intros y [_ Hy]%list_elem_of_filter. by apply Hr.
Qed.

(** Ordering then selecting is selecting then ordering. *)
Lemma filter_order_by (p : R -> bool) l :
  NoDup (id <$> l) -> order_by le (filter (fun r => p r = true) l) = filter (fun r => p r = true) (order_by le l).
Proof.
  intros Hn. apply (StronglySorted_unique_strong (le_rel le)).
  - intros x y Hx Hy Hxy Hyx. apply elem_of_order_by in Hx. apply list_elem_of_filter in Hx as [_ Hx].
    apply list_elem_of_filter in Hy as [_ Hy]. apply elem_of_order_by in Hy.
    apply (NoDup_id_inj id l); [done..|]. by apply newest_key.
  - apply order_by_sorted.
  - apply sorted_filter, order_by_sorted.
  - by rewrite !order_by_Permutation.
Qed.

(** The rows after the [n]-th of a sorted list are those before its key. *)
Lemma filter_before n l r :
  NoDup (id <$> l) -> StronglySorted (le_rel le) l -> l !! n = Some r ->
  filter (fun x => before_cursor (Some (key r)) (at_ x) (id x) = true) l = drop (S n) l.
Proof.
  intros Hn Hs. revert n Hn. induction Hs as [|x l Hs IH Hx]; intros [|n] Hn Hr; simplify_eq/=; rewrite NoDup_cons in Hn; destruct Hn as [Hnx Hn].
  - rewrite filter_cons_False by lia. rewrite drop_0. apply filter_all. rewrite Forall_forall in Hx |- *. intros y Hy.
    specialize (Hx y Hy). unfold le_rel, newest_first in Hx. assert (id y <> id r); [|lia].
    intros E. apply Hnx. rewrite <- E. by apply list_elem_of_fmap_2.
  - rewrite filter_cons_False; [by apply IH|]. rewrite Forall_forall in Hx. specialize (Hx r (list_elem_of_lookup_2 _ _ _ Hr)).
    unfold le_rel, newest_first in Hx. assert (id x <> id r); [|lia].
    intros E. apply Hnx. rewrite E. by apply list_elem_of_fmap_2, list_elem_of_lookup_2 with n.
Qed.
End keyset.

Lemma sql_select_and `{Countable K} {R} (p b : R -> bool) (t : gmap K R) :
  sql_select (fun r => p r && b r) t = filter (fun r => b r = true) (sql_select p t).
Proof.
  unfold sql_select. rewrite list_filter_filter. apply list_filter_iff. intros r. rewrite andb_true_iff. tauto.
Qed.
Lemma NoDup_select `{Countable K} {R} (id : R -> K) (p : R -> bool) (t : gmap K R) :
  (forall k r, t !! k = Some r -> id r = k) -> NoDup (id <$> sql_select p t).
Proof.
  intros Hid. unfold sql_select.
  assert (NoDup (id <$> (snd <$> map_to_list t))) as Hn.
  { assert (id <$> (snd <$> map_to_list t) = (map_to_list t).*1) as ->; [|apply NoDup_fst_map_to_list].
    rewrite <- list_fmap_compose. apply list_fmap_ext. intros i [k r] Hi. simpl. apply Hid.
    apply elem_of_map_to_list. by eapply list_elem_of_lookup_2. }
  apply NoDup_fmap_2_strong; [|by apply NoDup_filter, NoDup_fmap_1 with id].
  intros x y [_ Hx]%list_elem_of_filter [_ Hy]%list_elem_of_filter. by apply (NoDup_id_inj id _ _ _ Hn).
Qed.
(** ** Cursors *)

Lemma RawURLEncoding_Decode_Encode s : RawURLEncoding_Decode (RawURLEncoding_Encode s) = Some s.
Proof.
  unfold RawURLEncoding_Decode, RawURLEncoding_Encode, unchars.
  rewrite String.list_ascii_of_string_of_list_ascii.
  rewrite filter_all by (eapply (b64_no_newline alphabet_url); [vm_compute; reflexivity|done|apply bytes_of_range]).
  rewrite (b64_roundtrip alphabet_url ltac:(vm_compute; reflexivity) (length (bytes_of s))) by (done || apply bytes_of_range).
  simpl. by rewrite of_bytes_of.
Qed.
Lemma RawURLEncoding_Encode_nil s : RawURLEncoding_Encode s = "" -> s = "".
Proof. intros E. pose proof (RawURLEncoding_Decode_Encode s) as H. rewrite E in H. by injection H. Qed.

Section cursor.
Context `{api : ApiJson} `{!ApiJsonOk}.
Lemma cursor_law c : 0 <= pc_CreatedAt c < 253402300800 * ns -> encodeCursor c <> "" /\ decodeCursor (encodeCursor c) = inr c.
Proof.
  intros Hc. destruct (cursor_roundtrip c Hc) as (s & E1 & Hs & E2). unfold encodeCursor, decodeCursor. rewrite E1. split.
  - intros E%RawURLEncoding_Encode_nil. done.
  - by rewrite RawURLEncoding_Decode_Encode, E2.
Qed.
End cursor.

(** ** Following the cursors *)

(** [answers cur rows next]: the request with the cursor [cur] is answered by
    these rows and the cursor [next]. *)
Inductive served {R} (answers : string -> list R -> string -> Prop) : string -> list R -> Prop :=
| served_last cur rows : answers cur rows "" -> served answers cur rows
| served_more cur rows next rest :
    next <> "" -> answers cur rows next -> served answers next rest -> served answers cur (rows ++ rest).

Section listing.
Context `{api : ApiJson} `{!ApiJsonOk} {R : Type} (at_ : R -> time) (id : R -> uuid) (all : list R) (limit : Z).
Context (answers : string -> list R -> string -> Prop).
Notation le := (newest_first at_ id).
Notation sorted := (order_by le all).
Context (Hlimit : 1 <= limit) (Hids : NoDup (id <$> all)) (Htimes : Forall (fun r => 0 <= at_ r < 253402300800 * ns) all).

(** The rows after a cursor. *)
Definition rest_of (after : option (time * uuid)) : list R :=
  order_by le (filter (fun r => before_cursor after (at_ r) (id r) = true) all).
Context (Hanswers : forall cur after rows next,
  (if bool_decide (cur = "") then inr None else match decodeCursor cur with inl e => inl e | inr c => inr (Some c) end) = inr after ->
  page_of (row_cursor at_ id) limit (take (Z.to_nat (limit + 1)) (rest_of (after_of after))) = (rows, next) -> answers cur rows next).

Lemma rest_of_start : rest_of None = sorted.
Proof. unfold rest_of. rewrite filter_all; [done|]. by apply Forall_true. Qed.
Lemma rest_of_row n r : sorted !! n = Some r -> rest_of (Some (key at_ id r)) = drop (S n) sorted.
Proof.
  intros Hr. unfold rest_of. rewrite filter_order_by by done. apply (filter_before at_ id); [|apply order_by_sorted|done].
  by rewrite (order_by_Permutation le all).
Qed.

Lemma served_rest m n cur after :
  (length sorted - n <= m)%nat ->
  (if bool_decide (cur = "") then inr None else match decodeCursor cur with inl e => inl e | inr c => inr (Some c) end) = inr after ->
  rest_of (after_of after) = drop n sorted -> served answers cur (drop n sorted).
Proof.
  revert n cur after. induction m as [|m IH]; intros n cur after Hm Hcur Hrest.
  all: pose proof (Hanswers cur after) as Ha; rewrite Hrest in Ha; unfold page_of in Ha; rewrite length_take, length_drop in Ha.
  - apply served_last, Ha; [done|]. rewrite (proj2 (Z.leb_le _ _)) by lia. by rewrite take_ge by (rewrite length_drop; lia).
  - destruct (Z.leb_spec (Z.of_nat (length (drop n sorted))) limit) as [Hle|Hgt]; rewrite length_drop in *.
    { apply served_last, Ha; [done|]. rewrite (proj2 (Z.leb_le _ _)) by lia. by rewrite take_ge by (rewrite length_drop; lia). }
    rewrite (proj2 (Z.leb_gt _ _)) in Ha by lia. rewrite take_take, Nat.min_l in Ha by lia.
    set (k := Z.to_nat limit) in *.
    destruct (lookup_lt_is_Some_2 sorted (n + (k - 1))) as [r Hr]; [lia|].
    assert (last (take k (drop n sorted)) = Some r) as Hlast.
    { rewrite last_lookup, length_take, length_drop. rewrite lookup_take_lt by lia. rewrite lookup_drop. rewrite <- Hr. f_equal. lia. }
    rewrite Hlast in Ha. specialize (Ha _ _ Hcur eq_refl).
    assert (0 <= at_ r < 253402300800 * ns) as Ht.
    { rewrite Forall_forall in Htimes. apply Htimes. apply (elem_of_order_by le). by eapply list_elem_of_lookup_2. }
    destruct (cursor_law (mkPageCursor (at_ r) (id r)) Ht) as [Hne Hdec].
    rewrite <- (take_drop k (drop n sorted)). eapply served_more; [exact Hne|exact Ha|].
    rewrite drop_drop. apply (IH _ _ (Some (mkPageCursor (at_ r) (id r)))).
    + lia.
    + by rewrite bool_decide_eq_false_2, Hdec.
    + etransitivity; [apply (rest_of_row _ _ Hr)|]. f_equal. lia.
Qed.

Lemma served_all : served answers "" sorted.
Proof.
  rewrite <- (drop_0 sorted). apply (served_rest (length sorted) 0 "" None); [lia|done|]. exact rest_of_start.
Qed.
End listing.

(** The drills of an account, newest first. *)
Definition own_drills (a : uuid) (db : DB) : list Drill :=
  order_by (newest_first d_CreatedAt d_ID) (sql_select (fun d => bool_decide (d_AccountID d = a)) (drills (drill_db db))).

(** C12: a client that asks for the drills with any valid limit and follows
    next_cursor until there is none receives each drill of its account once,
    newest first, and nothing else; the walk ends. *)
Theorem drill_pages_cover `{env : Env} `{uuids : UuidLib} `{api : ApiJson} `{!ApiJsonOk} (ff : fault_free) q c limit db :
  parse_limit (q_limit q) = inr limit ->
  (forall k d, drills (drill_db db) !! k = Some d -> d_ID d = k /\ 0 <= d_CreatedAt d < 253402300800 * ns) ->
  served (fun cur rows next => forall w, w_db w = db ->
      exists w', v1ListDrills (q{{ q_cursor := cur }}) c w
        = (Ret (writeData StatusOK (AList (toAPIDrill <$> rows)) (count_meta (length rows) next)), w') /\ w_db w' = db)
    "" (own_drills (a_ID (ca_acct c)) db).
Proof.
  intros Hlim Hrows. apply (served_all d_CreatedAt d_ID _ limit).
  - unfold parse_limit in Hlim. repeat case_match; simplify_eq; unfold v1DefaultLimit, v1MaxLimit in *; lia.
  - apply NoDup_select. intros k d Hd. by apply Hrows in Hd as [].
  - apply Forall_forall. intros d Hd. apply elem_of_sql_select in Hd as [_ [k Hd]]. by apply Hrows in Hd as [].
  - intros cur after rows next Hcur Hpage w <-. unfold v1ListDrills.
    assert (parsePageParams (q{{ q_cursor := cur }}) = inr (limit, after)) as ->.
    { unfold parsePageParams. change (q_limit (q{{ q_cursor := cur }})) with (q_limit q).
      change (q_cursor (q{{ q_cursor := cur }})) with cur. rewrite Hlim. destruct (bool_decide (cur = "")); [by injection Hcur as <-|].
      destruct (decodeCursor cur); [done|by injection Hcur as <-]. }
    unfold or_else, try, ListDrillsPage, mbind, M_bind. rewrite query_ok by apply ff.
    assert (forall t, sql_select (fun d => bool_decide (d_AccountID d = a_ID (ca_acct c)) && drill_visible (w_db w) ScopeAll d
               && before_cursor (after_of after) (d_CreatedAt d) (d_ID d)) t
      = filter (fun d => before_cursor (after_of after) (d_CreatedAt d) (d_ID d) = true)
          (sql_select (fun d => bool_decide (d_AccountID d = a_ID (ca_acct c))) t)) as ->.
    { intros t. rewrite <- sql_select_and. apply list_filter_iff. intros d. change (drill_visible (w_db w) ScopeAll d) with true. rewrite andb_true_r. done. }
    unfold rest_of in Hpage. rewrite Hpage. by eexists.
Qed.

Definition drill_at (id : uuid) (t : time) : Drill := mkDrill id 10 1 2 StatusSucceeded None None None None None None t.
Definition pages_db : DB :=
  demo_db{{ drill_db -> drills := {[ 4%N := drill_at 4 7; 5%N := drill_at 5 9; 6%N := drill_at 6 7 ]} }}.
(** Three drills, two a page: the second page starts after the drill 6. *)
Lemma drill_pages_cover_witness :
  served (fun cur rows next => exists w', v1ListDrills (env := demo_env) ((get_request "/v1/drills" "2"){{ q_cursor := cur }}) api_caller (world pages_db)
        = (Ret (writeData StatusOK (AList (toAPIDrill <$> rows)) (count_meta (length rows) next)), w') /\ w_db w' = pages_db)
    "" [drill_at 5 9; drill_at 6 7; drill_at 4 7].
Proof.
  assert (own_drills 1 pages_db = [drill_at 5 9; drill_at 6 7; drill_at 4 7]) as <- by (vm_compute; reflexivity).
  assert (forall cur rows, served (fun cur rows next => forall w, w_db w = pages_db -> exists w', v1ListDrills (env := demo_env) ((get_request "/v1/drills" "2"){{ q_cursor := cur }}) api_caller w
        = (Ret (writeData StatusOK (AList (toAPIDrill <$> rows)) (count_meta (length rows) next)), w') /\ w_db w' = pages_db) cur rows ->
    served (fun cur rows next => exists w', v1ListDrills (env := demo_env) ((get_request "/v1/drills" "2"){{ q_cursor := cur }}) api_caller (world pages_db)
        = (Ret (writeData StatusOK (AList (toAPIDrill <$> rows)) (count_meta (length rows) next)), w') /\ w_db w' = pages_db) cur rows) as Hw.
  { intros cur rows H. induction H as [cur rows H|cur rows next rest Hn H _ IH].
    - apply served_last. by apply (H (world pages_db)).
    - eapply served_more; [exact Hn|by apply (H (world pages_db))|exact IH]. }
  apply Hw, (drill_pages_cover (env := demo_env) (fun _ => eq_refl) (get_request "/v1/drills" "2") api_caller 2 pages_db); [vm_compute; reflexivity|].
  intros k d Hd. change (drills (drill_db pages_db)) with ({[ 4%N := drill_at 4 7; 5%N := drill_at 5 9; 6%N := drill_at 6 7 ]} : gmap uuid Drill) in Hd.
  apply lookup_insert_Some in Hd as [[<- <-]|[_ Hd]]; [done|]. apply lookup_insert_Some in Hd as [[<- <-]|[_ Hd]]; [done|].
  by apply lookup_singleton_Some in Hd as [<- <-].
Defined.

(** ** Alerts *)

Definition alert (e : AuditEvent) : bool := bool_decide (ev_Action e ∈ AlertActions).

(** the largest limit the alerts endpoint accepts, 200, asks the log
    for 201 entries, which the log takes for its default: the client gets the
    50 newest and no next_cursor, however many there are. *)
Theorem alerts_200_truncates `{env : Env} `{uuids : UuidLib} `{api : ApiJson} (ff : fault_free) q c w :
  q_limit q = "200" ->
  let rows := page alert (a_ID (ca_acct c)) 50 (alert_before (q_cursor q)) (w_db w) in
  exists w', v1ListAlerts q c w = (Ret (writeData StatusOK (AList (toAPIAlert <$> rows)) (count_meta (length rows) "")), w') /\
    (length rows <= 50)%nat.
Proof.
  intros Hq rows. unfold v1ListAlerts. rewrite Hq. change (alert_limit "200") with 200.
  assert (length rows <= 50)%nat as Hlen by (unfold rows, page; rewrite length_fmap, length_take; apply Nat.le_min_l).
  unfold or_else, try, ListAlertsForAccount, mbind, M_bind. rewrite query_ok by apply ff.
  change (page _ (a_ID (ca_acct c)) (200 + 1) (alert_before (q_cursor q)) (w_db w)) with rows.
  unfold page_of. rewrite (proj2 (Z.leb_le _ _)) by lia. by eexists.
Qed.

(** Sixty failed drills, all within one page of 200. *)
Definition alert_event (n : nat) : AuditEvent :=
  mkAuditEvent (Z.of_nat n) 0 (Some 1%N) None "drill.failed" None None None None [].
Definition alerts_db : DB := demo_db{{ audit_events := alert_event <$> seq 1 60 }}.
Lemma alerts_200_truncates_witness :
  length (page alert 1 200 0 alerts_db) = 60%nat /\
  exists rows w', v1ListAlerts (env := demo_env) (get_request "/v1/alerts" "200") api_caller (world alerts_db)
    = (Ret (writeData StatusOK (AList rows) (count_meta (length rows) "")), w') /\ (length rows <= 50)%nat.
Proof.
  split; [vm_compute; reflexivity|].
  destruct (alerts_200_truncates (env := demo_env) (fun _ => eq_refl) (get_request "/v1/alerts" "200") api_caller (world alerts_db) eq_refl) as (w' & E & Hl).
  eexists (toAPIAlert <$> page alert 1 50 0 alerts_db), w'. rewrite length_fmap. split; [exact E|exact Hl].
Defined.
