(* ===== verification/EscapeFacts.v ===== *)
(** Where one team's or one account's data is reached from outside it: the
    phone API and the page that revokes share links. *)
From S2P Require Import Prelude Crypto Aes Effects Schema Encoding Path Time AuditLog Plans Rbac AccountStore DrillStore Assertions Runner Steps Demo Http AuthStore Web.
From S2P Require Import Cipher Signer EvidenceStore Evidence ApiKey MobileAuth ShareLink Scheduler Targets TargetFacts Compliance Share Heartbeat Billing Notify Members Login V1 Mobile LoginFacts EvidenceFacts.
From Stdlib Require Import Ascii.

(** The phone of the member on no team, signed in with the token "so_m_1". *)
Definition phone_token : MobileToken := mkMobileToken 60 3 1 "so_m_1" "phone" 0 None (2 ^ 62) None.
Definition phone_db : DB :=
  ops_db{{ account_db -> users ::= <[ 3%N := mkUser 3 "bob@example.com" true "" false false None None 0 None ]>;
           account_db -> memberships ::= <[ (1%N, 3%N) := mkMembership 1 3 RoleMember 0 ]>;
           key_db -> mobile_auth_tokens := {[ 60%N := mkMobileTokenRow phone_token (MobileAuth.hash "so_m_1") ]} }}.

(** An encoder that keeps of an envelope the name of the object it carries. *)
Definition name_in (l : list (string * any)) : string :=
  match (List.find (fun kv => String.eqb kv.1 "name") l) with Some (_, AString s) => s | _ => "" end.
Definition name_encode (a : any) : error + string :=
  match a with AMap ((_, AMap l) :: _) => inr (name_in l) | _ => inr "" end.
#[local] Instance name_api : ApiJson := {|
  json_Encode := name_encode; json_jsonb _ := ANil; decode_createDatabaseReq _ := None; decode_createDrillReq _ := None;
  cursor_Marshal _ := inr ""; cursor_Unmarshal _ := inl ErrConn
|}.
#[local] Instance no_body : MobileJson := {|
  decode_mobileLoginReq _ := None; decode_mobileMFAVerifyReq _ := None; decode_mobileDeviceReq _ := None
|}.
Definition phone_request : Request :=
  mkRequest "GET" "/mobile/databases/0101" "Bearer so_m_1" "" (inr "") "" "" "10.0.0.9" "phone".
Definition pass (_ : string) : GO bool := mret true.
Definition phone_router : Request -> GO Resp :=
  mobileRouter (env := demo_env) (store := LocalStore (env := demo_env) "/ev") demo_throttle demo_cipher pass pass.

(** the phone API has no teams.  The database of the team "ops" answers
    404 on the web to a member of the account who is on no team; his phone
    gets it whole. *)
Theorem mobile_ignores_teams :
  hidden demo_member (targets (drill_db phone_db) !! 10%N) (account_db phone_db) /\
  (targetDetail (env := demo_env) demo_member (uuid_String 10) (world phone_db)).1 = Ret (HTTPError StatusNotFound) /\
  (phone_router phone_request (world phone_db)).1 = Ret (mkResp StatusOK (t_Name demo_target) false).
Proof.
  split; [|split; vm_compute; reflexivity].
  right; right. exists 5%N. split; [reflexivity|]. split; [reflexivity|]. intros [Hin _]. by apply not_elem_of_empty in Hin.
Qed.

(** A second account with a drill of its own and a share link for it. *)
Definition other_link : Link := mkLink 71 70 2 9 "sh_x" "auditor" (2 ^ 62) None None 0 0.
Definition link_db : DB :=
  demo_db{{ drill_db -> drills := {[ 20%N := mkDrill 20 10 1 2 StatusSucceeded None None None None None None 0 ]};
            key_db -> drill_share_links := {[ 71%N := mkLinkRow other_link "h" ]} }}.
Definition demo_owner : Who :=
  mkWho demo_account (mkAuthUser 2 "ann@example.com" true false false 0) (Some (mkMembership 1 2 RoleOwner 0)) "10.0.0.9" "curl".

(** the page that revokes a share link checks that the drill in the path
    is one the caller may see, and never that the link is one of that drill:
    with any drill of his own he revokes a link of another account. *)
Theorem share_revoke_escapes :
  l_AccountID other_link <> a_ID (acct demo_owner) /\
  let r := shareRevoke (env := demo_env) demo_owner (uuid_String 20) (uuid_String 71) (world link_db) in
  r.1 = Ret (Redirect ("/drills/" +:+ uuid_String 20)) /\
  exists t, (lr_link <$> drill_share_links (key_db (w_db r.2)) !! 71%N) = Some (other_link{{ l_RevokedAt := Some t }}).
Proof. split; [discriminate|]. cbv zeta. split; [|eexists]; vm_compute; reflexivity. Qed.
